(* ===== verification/_CoqProject ===== *)
-Q . S2P
Prelude.v
Safe.v
Clist.v
ClistSpec.v
ClistSort.v
ClistProps.v
ListInsert.v
Bitarithm.v
Gpio.v
Uart.v
UartProps.v
Byteorder.v
Lifo.v
Cib.v
Ringbuffer.v
Pqueue.v
Div.v
Rtc.v
Framing.v
Ethos.v
EthosProps.v
Slip.v
Tunslip6.v
Tunslip6Props.v
Chksum.v
Tunslip.v
Receive.v
Tapslip6.v
Dhcp.v
DhcpProps.v
DhcpReply.v
Tunslip4.v
Tunslip4Props.v
Malloc.v
MallocProps.v
MallocFree.v
MallocSpec.v
MallocRealloc.v
MallocGrow.v
Oneway.v
KState.v
RunQueue.v
TimerHw.v
Mintimer.v
TimerLists.v
TimerPeriod.v
TimerProps.v
Sched.v
SchedProps.v
Cpu.v
TimerApi.v
Thread.v
ThreadProps.v
Periodic.v
Mutex.v
MutexProps.v
Boot.v
Kernel.v
Handler.v
Timed.v
Wakeup.v
System.v
