(* ===== verification/Prelude.v ===== *)
(** * Sancus-RIOT kernel: verification library (root file)

    Sancus-RIOT is RIOT's kernel for the Sancus extension of the MSP430, with
    the scheduler, the thread table, the software timers and the mutexes
    inside one protected module ([sancus_sm_timer]) that other code enters
    through the entry points of the module, or through "exitless" calls that
    return only by being scheduled again.  This library models that kernel,
    from the list macros up to the context switch, and the libraries of
    src/core and src/sys it stands on.

    ** How code is translated

    A C function is a program in the monad [M S] of this file: it runs on an
    explicit state [S] and either returns ([Ret]) or stops at an operation
    that C gives no meaning to ([Err]): a null pointer, a pointer to no
    object of the model, an index outside its array, a failed assertion
    (a host tool may also end, [Exited]).  A loop whose bound is not evident
    is [loop fuel body]; exhausted fuel is the outcome [Diverges], so a
    theorem that ends in [Ret] proves that the loop ends.  The fuel asked for is always a bound on the work: the length
    of the list plus one, 17 for the search of the lowest bit in a 16-bit
    word, the number of clock readings until the counter moves on.  Integers
    are [Z] with the wrap-around of their C type written out ([wrapu],
    [wraps]); [int] has 16 bits.  Pointers to list nodes are addresses in a
    heap that maps a node to its [next] field ([gmap]), so sharing and
    dangling links are visible.  Assembly (cpu.c, cpu.h, the interrupt
    handler) is translated as far as it touches kernel state.

    ** The files

    - Prelude: integers, arrays, the monad, loops with their rules.  Safe:
      computations that return, or at most wait in a loop ([runs], [safe]).
    - Clist (core/include/list.h, clist.h; the copies in core/sched.c),
      ClistSpec, ClistSort (core/clist.c), ClistProps: circular and linear
      lists; every operation, the merge sort included, refines an operation
      on sequences.  ListInsert: stable insertion, shared by timers and wait
      lists.
    - Bitarithm (core/bitarithm.c), Byteorder (core/include/byteorder.h),
      Lifo (core/lifo.c), Cib (core/include/cib.h, with the interface
      [SlotQueue]), Ringbuffer (core/ringbuffer.c), Pqueue
      (core/priority_queue.c), Div (sys/include/div.h, sys/div, the tick
      conversion), Rtc (drivers/periph_common/rtc.c): the libraries, each
      against its abstract specification.
    - Malloc (cpu/msp430-sancus/malloc.c, sbrk of msp430-main.c): the heap,
      a free list inside byte memory.  MallocProps has its invariant
      [heap_rep], that the memory below the break is tiled by chunks, the
      free list runs through the free ones in the order of their addresses,
      no two of them are neighbours and the topmost one is in use, and the
      search of [malloc]; MallocFree the merging of [free]; MallocSpec what
      both promise; MallocRealloc and MallocGrow [realloc].  Fuel: the number
      of chunks plus one.  Oneway (sys/oneway-malloc): blocks that are never
      given back.
    - Gpio (cpu/msp430-sancus/periph/gpio.c): pins, their registers and their
      interrupts, the callbacks a parameter.  Uart, UartProps
      (boards/sancus-msp430/uart.c): the serial port; the receive interrupt
      runs between any two accesses of the reader to the ring they share.
    - KState: the state of the kernel; RunQueue (core/sched.c): run queues,
      bit cache, [sched_set_status], with the invariant [rq_rep] that the
      queue of a priority is a ring of exactly the runnable threads of that
      priority and the bit cache marks the queues that are not empty.
    - TimerHw (cpu/msp430-sancus/periph/timer.c, sm_irq.c), Mintimer
      (sys/secure_mintimer/secure_mintimer_core.c): the hardware timer, whose
      counter is a sequence of readings about which only its width, and for
      the spinning loops that it moves on, is assumed; and the software
      timers.  TimerLists, TimerPeriod, TimerProps: their three lists
      ([timers_repb], and [timers_rep] when they are sorted), the change of
      period, the interrupt handler.
    - Sched (core/sched.c), SchedProps: choosing the next thread, charging
      periodic threads, yielding, exiting, the context switch.
    - Cpu (cpu/msp430-sancus/cpu.c, include/cpu.h, the handler of
      periph/timer.c): exitless calls, saved contexts, interrupts, the first
      frame of a thread.  TimerApi (secure_mintimer_implementation.h): the
      sleeps applications call.
    - Thread (core/thread.c), ThreadProps, Periodic (the change to a periodic
      thread); Mutex (core/mutex.c), MutexProps: the operations applications
      use.  Boot (core/kernel_init.c): from zeroed
      static data to the first thread.
    - Kernel: the system as a step relation ([kstep]), one call of the running
      thread after the other, with an invariant that every call keeps
      ([system_ok]).  What giving up the processor does to the timers is an
      interface ([timing], [TimingLaws]); one instance has quiet timers.
      Handler: the timer interrupt keeps the invariant.  Timed: the instance
      whose timers run ([timed]), with sleeps and interrupts as steps
      ([tstep]).  Wakeup: the handler ends, by a measure on the readings of the
      counter.  System: from boot to every state these steps lead to.  Fuel:
      34, one more than the table of threads has entries, bounds every list.
    - The host's end of the serial line (dist/tools).  Framing: byte stuffing
      as an interface ([Stuffing], [StuffingLaws]) and the system calls of a
      host tool, whose [write] takes as much as a list of answers says.  Ethos
      (ethos/ethos.c), EthosProps: frames of ethernet packets and text.  Slip:
      the output queue of the tunnels.  Tunslip6 (tunslip/tunslip6.c),
      Tunslip6Props: IPv6 packets over the line.  Chksum and Tunslip
      (tunslip/tunslip.c): checks and checksums of IPv4 packets, and sending
      them.  Receive: the receiver that tunslip.c and tapslip6.c share, with
      what a frame is taken for as a parameter; Tapslip6
      (tunslip/tapslip6.c): Ethernet frames; Dhcp, DhcpProps, DhcpReply: the
      DHCP relay of tunslip.c, its requests and its replies; Tunslip4,
      Tunslip4Props: the receiver and the loop of tunslip.c.

    ** What the theorems show

    From the state in which boot means to start the main thread, whatever
    sequence of calls threads make to yield, switch, sleep, create, lock and
    unlock, to wake threads whose timer is not queued, or to end, however long
    they sleep and whenever the timer interrupt comes, the active thread is
    the first of its queue, a queued timer is that of a sleeping thread, and a
    mutex has at most one holder.  Which operations may fault there is exact:
    a timed sleep of pid 15, the end of a thread and an access violation; the
    others return, or wait for the counter.  ([kernel_init] itself ends at a
    null pointer: the state is the one behind the yield that reads it.)  A
    timer interrupt during which the counter does not run over returns with
    the threads of the timers that are due in the run queues, and the other
    timers as they were.
    Run queues stay consistent under every change of status that concerns the
    first thread of its queue; the scheduler runs the first thread of the
    most urgent queue, yielding is round robin, a thread that sleeps or
    blocks leaves its queue and wakes behind the others.  A created thread
    starts its task function with its argument.  A mutex refines a lock with
    a priority-ordered queue of waiters that is handed over on unlock.  Timer
    lists stay sorted, insertion is stable, removal exact, due timers fire
    and wake their threads, the 64-bit time is exact.  [malloc]
    is best fit, [free] undoes it and merges, [realloc] keeps contents.  A
    sleep of an application is followed from its conversion to the queued
    timer.  An interrupt set up for a pin calls its callback once per flag.
    The serial port refines a queue of 127 bytes whatever the interleaving
    of its interrupt and its reader, and a byte that waits is returned after
    four accesses of the reader.
    The libraries refine sequences, queues and stacks, or equal their
    arithmetic definitions.  What one end of the serial line sends, the other
    delivers unchanged, however the line cuts it into reads; the receivers
    stay inside their buffers (ethos up to the length of a frame); the
    checksum is the sum of the 16-bit words modulo 65535, and a packet that
    is given an identification still passes the check.  Of the packets that
    arrive for IPv4 exactly those that pass the check reach the tun device; a DHCP
    request reaches the server with the options of the relay, and a reply
    reaches the node as a sound packet of the options it wants.  What a sound
    packet is, is stated from the standards, and the check agrees with it for
    headers without options.

    Where the code does not do what it means to do, a theorem says exactly
    what happens instead: [sched_set_status] unlinks the wrong thread when
    the one that stops is not first ([sched_set_status_wrong_thread]);
    [_merge_lists] drops timers ([merge_lists_loses]); a delay between the
    backoff and the overhead is lost ([short_delay_lost]); the scheduler's
    timer can end in a cycle ([relink_hangs]); a timer that has not fired when
    its period ends is in no list and its thread sleeps for good
    ([sleep_lost_at_wrap]); waking a thread leaves its
    timer set, which can wake it again, out of a mutex it waits for
    ([early_wake_breaks_mutex]); the catch-up loop may not end
    ([periodic_catchup_hangs]); a thread's exit and booting read through a
    null pointer ([boot_and_exit_read_null]); a thread created to sleep is
    queued ([thread_create_starts_task]); [thread_yield_higher] does not keep
    its caller the first of its priority ([exitless_yield_context]); pid 15 has no timer slot
    ([get_available_timer_bounds]); creation does not check its priority and
    mishandles a full table for enclaves ([thread_create_error_paths]);
    [malloc] takes odd sizes and misaligns the heap ([malloc_odd_misaligns]),
    [realloc] accepts the size 0 ([realloc_zero_corrupts]) and sizes that wrap
    around ([realloc_wraps]); the one-way heap copies between regions that
    overlap ([oneway_realloc]) and takes large sizes for negative ones
    ([oneway_large_sizes]); a sleep of more than 2^32 microseconds is cut
    short ([sleep_drops_long]); [ringbuffer_remove] can leave the read index
    outside the array; two reciprocal divisions are off by one beyond a
    bound.  Of the host tools, ethos repeats the start of its buffer after a
    [write] that took a part ([checked_write_repeats]), writes frames beyond
    its buffer ([ethos_overflow]) and forgets addresses ([hello_answered]);
    the tunnels end when a packet fills the queue ([slip_packet_queued],
    [slip6_partial_flush_exits]), tunslip tests the do-not-fragment flag in
    the wrong byte ([needs_id_tests]) and reads behind a packet whose header
    claims to be longer than the packet ([check_ip_overreads]), looks for the
    checksum of UDP where it is only without options ([check_ip_udp_options]),
    accepts headers that are too short ([check_ip_short_header]) and can drop
    them later ([short_packet_dropped]); tunslip and
    tapslip6 end when the line is idle ([tunslip_idle_exits],
    [tapslip6_idle_exits]), and the DHCP relay leaves its buffers for requests
    that are too short or too long ([dhcp_request_bounds]) and for replies
    with short lists of name servers ([dhcp_reply_overflows]).

    ** Not modelled

    Registers saved by a context switch (they stay in the thread's memory,
    only the stack pointer is kernel state), log output, and the options the
    configuration turns off.  Messages, mailboxes, thread flags, condition
    variables and recursive mutexes are disabled in this port: their files
    are commented out, or use fields of the thread structure that are.
    Other drivers, boards and the emulation of other processors wrap registers
    or system calls.  Of the host tools, opening devices, the command line,
    messages, time stamps, hex dumps and the delay option are left out, and so
    are the tools that do not talk to a node.
    Interrupts are taken at the entry points the hardware allows; the module
    itself is never interrupted.  The step relation of Timed leaves out waking
    a thread whose timer is queued, with which mutual exclusion is false
    ([early_wake_breaks_mutex]), the creation of enclaves' threads and the
    change to a periodic thread; the idle thread, whose body in kernel_init.c
    does none of it, is not taken to sleep, to wait for a mutex or to end.
    The end of a thread, an access violation and the sleep of pid 15
    are in it; mostly they fault and lead nowhere ([timed_kernel_safe]).  In it
    the handler may wait forever: the
    counter is not assumed to be slow against the code, and one that passes
    through a period in every round of the handler keeps it there.  That the
    handler ends otherwise is [timer_interrupt_wakes]. *)

From Stdlib Require Export ZArith Lia.
From stdpp Require Export gmap list.

#[export] Set Default Goal Selector "!".
#[global] Open Scope Z_scope.

(** ** Machine integers

    The MSP430 target has 16-bit [int]/[unsigned], 32-bit [long] and
    16-bit pointers.  An integer of width [w] is a [Z]; [wrapu]/[wraps] are
    the conversions C performs when a value is stored in an unsigned or a
    signed object of that width. *)

Definition wrapu (w z : Z) : Z := z mod 2 ^ w.
Definition wraps (w z : Z) : Z := (z + 2 ^ (w - 1)) mod 2 ^ w - 2 ^ (w - 1).

Abbreviation u8 := (wrapu 8).
Abbreviation u16 := (wrapu 16).
Abbreviation u32 := (wrapu 32).
Abbreviation u64 := (wrapu 64).
Abbreviation s16 := (wraps 16).
Abbreviation s32 := (wraps 32).

Definition in_u (w z : Z) : Prop := 0 <= z < 2 ^ w.
Definition in_s (w z : Z) : Prop := - 2 ^ (w - 1) <= z < 2 ^ (w - 1).

(** C truth values. *)
Definition c_bool (b : bool) : Z := if b then 1 else 0.
Definition c_true (z : Z) : bool := negb (z =? 0).

Lemma wrapu_range w z : 0 <= w -> in_u w (wrapu w z).
Proof. intros. apply Z.mod_pos_bound, Z.pow_pos_nonneg; lia. Qed.

Lemma wrapu_id w z : in_u w z -> wrapu w z = z.
Proof. intros. by apply Z.mod_small. Qed.

Lemma wrapu_idemp w z : wrapu w (wrapu w z) = wrapu w z.
Proof. apply Zmod_mod. Qed.

Lemma wrapu_add_l w a b : wrapu w (wrapu w a + b) = wrapu w (a + b).
Proof. apply Zplus_mod_idemp_l. Qed.

Lemma wrapu_add_r w a b : wrapu w (a + wrapu w b) = wrapu w (a + b).
Proof. apply Zplus_mod_idemp_r. Qed.

Lemma wrapu_sub_l w a b : wrapu w (wrapu w a - b) = wrapu w (a - b).
Proof. apply Zminus_mod_idemp_l. Qed.

Lemma wrapu_sub_r w a b : wrapu w (a - wrapu w b) = wrapu w (a - b).
Proof. apply Zminus_mod_idemp_r. Qed.

Lemma wrapu_land w z : 0 <= w -> wrapu w z = Z.land z (Z.ones w).
Proof. intros. by rewrite Z.land_ones. Qed.

Lemma wrapu_testbit w z i :
  0 <= w -> Z.testbit (wrapu w z) i = ((i <? w) && Z.testbit z i).
Proof.
  intros Hw. unfold wrapu. destruct (Z.ltb_spec i w) as [Hi|Hi]; cbn.
  - by apply Z.mod_pow2_bits_low.
  - apply Z.mod_pow2_bits_high. lia.
Qed.

Lemma wraps_range w z : 1 <= w -> in_s w (wraps w z).
Proof.
  intros. unfold in_s, wraps.
  pose proof (Z.mod_pos_bound (z + 2 ^ (w - 1)) (2 ^ w)) as Hb.
  assert (2 ^ w = 2 * 2 ^ (w - 1)) as E.
  { rewrite <- Z.pow_succ_r by lia. f_equal. lia. }
  assert (0 < 2 ^ (w - 1)) by (apply Z.pow_pos_nonneg; lia).
  specialize (Hb ltac:(lia)). lia.
Qed.

Lemma wraps_id w z : 1 <= w -> in_s w z -> wraps w z = z.
Proof.
  intros Hw [H1 H2]. unfold wraps.
  assert (2 ^ w = 2 * 2 ^ (w - 1)) as E.
  { rewrite <- Z.pow_succ_r by lia. f_equal. lia. }
  rewrite Z.mod_small; lia.
Qed.

(** [uN_lia]: linear arithmetic with the width bounds made visible. *)
Ltac widths :=
  unfold in_u, in_s in *;
  repeat match goal with
  | |- context [wrapu ?w ?z] =>
      lazymatch goal with
      | H : 0 <= wrapu w z < _ |- _ => fail
      | _ => let H := fresh "Hw" in
             pose proof (wrapu_range w z ltac:(lia)) as H; unfold in_u in H
      end
  | H0 : context [wrapu ?w ?z] |- _ =>
      lazymatch goal with
      | H : 0 <= wrapu w z < _ |- _ => fail
      | _ => let H := fresh "Hw" in
             pose proof (wrapu_range w z ltac:(lia)) as H; unfold in_u in H
      end
  end.

(** ** Partial, state-passing computations

    C code runs on a state [S]; it either returns a value and a new state,
    or performs an operation the C standard gives no meaning to (or never
    returns).  The faults are kept apart. *)

Inductive fault : Type :=
  | NullDeref      (* a null pointer was dereferenced *)
  | BadAddr        (* access through a pointer to no object of the model *)
  | OutOfBounds    (* array index outside the array *)
  | AssertFail     (* assert() *)
  | Diverges       (* the fuel of a loop ran out *)
  | Exited.        (* err() or exit() ended the program *)

#[export] Instance fault_eq_dec : EqDecision fault.
Proof. solve_decision. Defined.

Inductive outcome (S A : Type) : Type :=
  | Ret (a : A) (s : S)
  | Err (f : fault).
Arguments Ret {S A} a s.
Arguments Err {S A} f.

Definition M (S A : Type) : Type := S -> outcome S A.

Definition ret {S A} (a : A) : M S A := fun s => Ret a s.
Definition fail {S A} (f : fault) : M S A := fun _ => Err f.
Definition bind {S A B} (m : M S A) (k : A -> M S B) : M S B :=
  fun s => match m s with Ret a s' => k a s' | Err f => Err f end.
Definition gets {S A} (f : S -> A) : M S A := fun s => Ret (f s) s.
Definition modify {S} (f : S -> S) : M S unit := fun s => Ret tt (f s).
Definition unwrap {S A} (f : fault) (o : option A) : M S A :=
  match o with Some a => ret a | None => fail f end.
Definition when {S} (b : bool) (m : M S unit) : M S unit :=
  if b then m else ret tt.
Definition c_assert {S} (b : bool) : M S unit :=
  if b then ret tt else fail AssertFail.

(** Run a computation on a part of the state. *)
Definition zoom {S T A} (get : S -> T) (put : T -> S -> S) (m : M T A) : M S A :=
  fun s => match m (get s) with
           | Ret a t => Ret a (put t s)
           | Err f => Err f
           end.

Declare Scope kernel_scope.
Delimit Scope kernel_scope with kernel.
Notation "'let!' x := m 'in' k" := (bind m (fun x => k))
  (at level 10, x name, m at level 100, k at level 200)
  : kernel_scope.
Notation "'let!' ' p := m 'in' k" := (bind m (fun x => match x with p => k end))
  (at level 10, p pattern, m at level 100, k at level 200)
  : kernel_scope.
Notation "'do!' m ; k" := (bind m (fun _ => k))
  (at level 10, m at level 100, k at level 200)
  : kernel_scope.
#[global] Open Scope kernel_scope.

(** A C loop: [body] either yields the locals of the next iteration
    ([inl]) or leaves the loop with a result ([inr]).  [fuel] bounds the
    number of iterations; running out of it is [Diverges]. *)
Fixpoint loop {S L R} (fuel : nat) (body : L -> M S (L + R)) (l : L) : M S R :=
  match fuel with
  | O => fail Diverges
  | Datatypes.S n =>
      let! r := body l in
      match r with
      | inl l' => loop n body l'
      | inr v => ret v
      end
  end.

Lemma bind_ret {S A B} (m : M S A) (k : A -> M S B) s a s' :
  m s = Ret a s' -> bind m k s = k a s'.
Proof. intros H. unfold bind. by rewrite H. Qed.

Lemma gets_ok {S A} (f : S -> A) (s : S) : gets f s = Ret (f s) s.
Proof. done. Qed.

Lemma modify_ok {S} (f : S -> S) (s : S) : modify f s = Ret tt (f s).
Proof. done. Qed.

Lemma bind_err {S A B} (m : M S A) (k : A -> M S B) s f :
  m s = Err f -> bind m k s = Err f.
Proof. intros H. unfold bind. by rewrite H. Qed.

Lemma bind_inv {S A B} (m : M S A) (k : A -> M S B) s b s' :
  bind m k s = Ret b s' -> exists a s1, m s = Ret a s1 /\ k a s1 = Ret b s'.
Proof. unfold bind. destruct (m s); intros; naive_solver. Qed.

Lemma bind_assoc {S A B C} (m : M S A) (k : A -> M S B) (l : B -> M S C) s :
  bind (bind m k) l s = bind m (fun a => bind (k a) l) s.
Proof. unfold bind. by destruct (m s). Qed.

Lemma loop_next {S L R} n (body : L -> M S (L + R)) l s l' s' :
  body l s = Ret (inl l') s' -> loop (Datatypes.S n) body l s = loop n body l' s'.
Proof. intros H. cbn. by rewrite (bind_ret _ _ _ _ _ H). Qed.

Lemma loop_exit {S L R} n (body : L -> M S (L + R)) l s v s' :
  body l s = Ret (inr v) s' -> loop (Datatypes.S n) body l s = Ret v s'.
Proof. intros H. cbn. by rewrite (bind_ret _ _ _ _ _ H). Qed.

Lemma loop_err {S L R} n (body : L -> M S (L + R)) l s f :
  body l s = Err f -> loop (Datatypes.S n) body l s = Err f.
Proof. intros H. cbn. by rewrite (bind_err _ _ _ _ H). Qed.

(** More fuel does not change a result. *)
Lemma loop_mono {S L R} n m (body : L -> M S (L + R)) l s v s' :
  (n <= m)%nat -> loop n body l s = Ret v s' -> loop m body l s = Ret v s'.
Proof.
  revert m l s. induction n as [|n IH]; intros m l s Hle.
  { unfold loop, fail. done. }
  destruct m as [|m]; [lia|]. cbn.
  unfold bind. destruct (body l s) as [[l'|r] s1|f]; try done.
  apply IH. lia.
Qed.

(** Hoare-style rule: an invariant that every iteration preserves, with a
    measure that decreases, gives termination and the postcondition. *)
Lemma loop_rule {S L R} (I : L -> S -> Prop) (Q : R -> S -> Prop)
    (meas : L -> S -> nat) (body : L -> M S (L + R)) :
  (forall l s, I l s ->
     (exists l' s', body l s = Ret (inl l') s' /\ I l' s' /\ (meas l' s' < meas l s)%nat)
     \/ (exists v s', body l s = Ret (inr v) s' /\ Q v s')) ->
  forall n l s, I l s -> (meas l s < n)%nat ->
  exists v s', loop n body l s = Ret v s' /\ Q v s'.
Proof.
  intros Hstep. induction n as [|n IH]; intros l s HI Hn; [lia|].
  destruct (Hstep l s HI) as [(l' & s' & Hb & HI' & Hm)|(v & s' & Hb & HQ)].
  - rewrite (loop_next _ _ _ _ _ _ Hb). apply IH; [done|lia].
  - exists v, s'. split; [|done]. by apply loop_exit.
Qed.

(** Partial-correctness rule, by induction on the fuel. *)
Lemma loop_inv {S L R} (I : L -> S -> Prop) (Q : R -> S -> Prop)
    (body : L -> M S (L + R)) :
  (forall l s r s', I l s -> body l s = Ret r s' ->
     match r with inl l' => I l' s' | inr v => Q v s' end) ->
  forall n l s v s', I l s -> loop n body l s = Ret v s' -> Q v s'.
Proof.
  intros Hstep. induction n as [|n IH]; intros l s v s' HI.
  { unfold loop, fail. done. }
  cbn. intros (r & s1 & Hb & Hk)%bind_inv. specialize (Hstep _ _ _ _ HI Hb).
  destruct r; [eauto|]. unfold ret in Hk. by simplify_eq.
Qed.

(** A loop that only works on its locals. *)
Fixpoint iter {L R} (fuel : nat) (body : L -> L + R) (l : L) : option R :=
  match fuel with
  | O => None
  | Datatypes.S n => match body l with inl l' => iter n body l' | inr v => Some v end
  end.

Lemma iter_rule {L R} (I : L -> Prop) (Q : R -> Prop) (meas : L -> nat) (body : L -> L + R) :
  (forall l, I l ->
     match body l with inl l' => I l' /\ (meas l' < meas l)%nat | inr v => Q v end) ->
  forall n l, I l -> (meas l < n)%nat -> exists v, iter n body l = Some v /\ Q v.
Proof.
  intros Hstep. induction n as [|n IH]; intros l HI Hn; [lia|].
  cbn. specialize (Hstep l HI). destruct (body l) as [l'|v].
  - destruct Hstep. apply IH; [done|lia].
  - by exists v.
Qed.

(** The form for a known result. *)
Lemma iter_eq {L R} (I : L -> Prop) (meas : L -> nat) (body : L -> L + R) n l v :
  (forall l, I l ->
     match body l with inl l' => I l' /\ (meas l' < meas l)%nat | inr r => r = v end) ->
  I l -> (meas l < n)%nat -> iter n body l = Some v.
Proof.
  intros Hs HI Hn. by destruct (iter_rule I (fun r => r = v) meas body Hs n l HI Hn) as (? & ? & ->).
Qed.

Lemma iter_diverges {L R} (I : L -> Prop) (body : L -> L + R) :
  (forall l, I l -> exists l', body l = inl l' /\ I l') ->
  forall n l, I l -> iter n body l = None.
Proof.
  intros Hstep. induction n as [|n IH]; intros l HI; [done|].
  cbn. destruct (Hstep l HI) as (l' & -> & HI'). by apply IH.
Qed.

(** Symbolic execution of the monad: unfold the combinators and compute. *)
Ltac mstep := unfold bind, ret, fail, gets, modify, unwrap, when, c_assert, zoom.
Ltac mstep_in H :=
  unfold bind, ret, fail, gets, modify, unwrap, when, c_assert, zoom in H.

(** ** C arrays

    An array is the list of its elements; an access outside it is the fault
    [OutOfBounds], whatever the sign of the index. *)

Definition aget {A} (xs : list A) (i : Z) : option A :=
  if 0 <=? i then xs !! Z.to_nat i else None.
Definition aset {A} (xs : list A) (i : Z) (v : A) : option (list A) :=
  if (0 <=? i) && (i <? Z.of_nat (length xs)) then Some (<[Z.to_nat i := v]> xs) else None.

Lemma aget_nat {A} (xs : list A) i : aget xs (Z.of_nat i) = xs !! i.
Proof. unfold aget. by rewrite (proj2 (Z.leb_le _ _)), Nat2Z.id by lia. Qed.

Lemma aget_neg {A} (xs : list A) i : i < 0 -> aget xs i = None.
Proof. intros. unfold aget. by rewrite (proj2 (Z.leb_gt _ _)) by lia. Qed.

Lemma aget_some {A} (xs : list A) i :
  0 <= i < Z.of_nat (length xs) -> exists x, aget xs i = Some x.
Proof.
  intros Hi. unfold aget. rewrite (proj2 (Z.leb_le _ _)) by lia. apply lookup_lt_is_Some. lia.
Qed.

Lemma aget_range {A} (xs : list A) i x : aget xs i = Some x -> 0 <= i < Z.of_nat (length xs).
Proof.
  unfold aget. destruct (Z.leb_spec 0 i) as [Hi|]; [|done]. intros Hx%lookup_lt_Some. lia.
Qed.

Lemma aset_ok {A} (xs : list A) i v :
  0 <= i < Z.of_nat (length xs) -> aset xs i v = Some (<[Z.to_nat i := v]> xs).
Proof.
  intros [H1 H2]. unfold aset. by rewrite (proj2 (Z.leb_le _ _) H1), (proj2 (Z.ltb_lt _ _) H2).
Qed.

Lemma aset_some {A} (xs ys : list A) i v :
  aset xs i v = Some ys -> 0 <= i < Z.of_nat (length xs) /\ ys = <[Z.to_nat i := v]> xs.
Proof.
  unfold aset. destruct (Z.leb_spec 0 i), (Z.ltb_spec i (Z.of_nat (length xs))); naive_solver.
Qed.

Lemma aget_set_eq {A} (xs : list A) i v :
  0 <= i < Z.of_nat (length xs) -> aget (<[Z.to_nat i := v]> xs) i = Some v.
Proof.
  intros. unfold aget. rewrite (proj2 (Z.leb_le _ _)) by lia. apply list_lookup_insert_eq. lia.
Qed.

Lemma aget_set_ne {A} (xs : list A) i j v :
  0 <= i -> i <> j -> aget (<[Z.to_nat i := v]> xs) j = aget xs j.
Proof.
  intros. unfold aget. destruct (Z.leb_spec 0 j); [|done]. apply list_lookup_insert_ne. lia.
Qed.

(** ** Lists *)

Definition rotate_l {A} (xs : list A) : list A :=
  match xs with [] => [] | x :: r => r ++ [x] end.

Lemma last_cons_cases {A} (x : A) xs :
  last (x :: xs) = Some (default x (last xs)).
Proof. rewrite last_cons. by destruct (last xs). Qed.

Lemma last_snoc_inv {A} (xs : list A) z :
  last xs = Some z -> exists ys, xs = ys ++ [z].
Proof. intros (ys & ->)%last_Some. eauto. Qed.

Lemma rotate_perm {A} (xs : list A) : rotate_l xs ≡ₚ xs.
Proof. destruct xs as [|x r]; [done|]. cbn. by rewrite Permutation_app_comm. Qed.

Lemma filter_none {A} (P : A -> Prop) `{forall x, Decision (P x)} xs :
  Forall (fun x => ~ P x) xs -> filter P xs = [].
Proof. induction 1; [done|]. by rewrite filter_cons_False. Qed.

(** List membership, by the membership lemmas of [++] and [::]. *)
Ltac in_list :=
  repeat first [rewrite elem_of_app | rewrite elem_of_cons | rewrite elem_of_nil];
  tauto.

Create HintDb kernel.
Create Rewrite HintDb kernel.
#[export] Hint Rewrite @last_snoc @wrapu_idemp : kernel.
#[export] Hint Resolve wrapu_range wraps_range rotate_perm : kernel.
