(* ===== verification/Safe.v ===== *)
(** * Computations that may wait

    [runs b m s P]: started in [s], [m] performs no operation without meaning
    and returns with [P]; if [b] is true it may also be in one of its loops
    when the fuel is used up ([safe]).  The rule for loops that may wait asks
    for an invariant and no measure, so that code which waits for the
    hardware needs no assumption about it. *)

From S2P Require Import Prelude.

Definition runs {S A} (b : bool) (m : M S A) (s : S) (P : A -> S -> Prop) : Prop :=
  match m s with Ret a s' => P a s' | Err f => b = true /\ f = Diverges end.
Abbreviation safe := (runs true).

Section rules.
Context {S : Type} {b : bool}.
Implicit Types (s : S).

Lemma runs_exact {A} (m : M S A) s a s' (P : A -> S -> Prop) : m s = Ret a s' -> P a s' -> runs b m s P.
Proof. unfold runs. by intros ->. Qed.

Lemma runs_mono {A} (m : M S A) s (P P' : A -> S -> Prop) :
  runs b m s P -> (forall a s', P a s' -> P' a s') -> runs b m s P'.
Proof. unfold runs. destruct (m s); auto. Qed.

Lemma runs_bind {A B} (m : M S A) (f : A -> M S B) s (P : A -> S -> Prop) (P' : B -> S -> Prop) :
  runs b m s P -> (forall a s', P a s' -> runs b (f a) s' P') -> runs b (let! x := m in f x) s P'.
Proof. intros H Hf. unfold runs, bind in *. destruct (m s); [by apply Hf|done]. Qed.

(** A step whose result is known. *)
Lemma runs_step {A B} (m : M S A) (f : A -> M S B) s a s' (P : B -> S -> Prop) :
  m s = Ret a s' -> runs b (f a) s' P -> runs b (let! x := m in f x) s P.
Proof. intros E H. unfold runs, bind. by rewrite E. Qed.

(** What is known of a run that returned. *)
Lemma runs_inv {A} (m : M S A) s (P : A -> S -> Prop) a s' : runs b m s P -> m s = Ret a s' -> P a s'.
Proof. unfold runs. intros H E. by rewrite E in H. Qed.
End rules.

Lemma runs_returns {S A} (m : M S A) s (P : A -> S -> Prop) :
  runs false m s P -> exists a s', m s = Ret a s' /\ P a s'.
Proof. unfold runs. destruct (m s) as [a s'|]; [by exists a, s'|by intros []]. Qed.

Lemma safe_loop {S A B} (I : A -> S -> Prop) (P : B -> S -> Prop) (body : A -> M S (A + B)) :
  (forall a s, I a s -> safe (body a) s (fun r s' => match r with inl a' => I a' s' | inr b => P b s' end)) ->
  forall fuel a s, I a s -> safe (loop fuel body a) s P.
Proof.
  intros Hb fuel. induction fuel as [|fuel IH]; intros a s HI; [done|]. cbn [loop].
  eapply runs_bind; [by apply Hb|]. intros [a'|b] s' H; [by apply IH|done].
Qed.

(** A loop with a measure does not use up its fuel. *)
Lemma runs_loop {S A B} {b : bool} (I : A -> S -> Prop) (f : A -> S -> nat) (P : B -> S -> Prop) (body : A -> M S (A + B)) :
  (forall a s, I a s ->
     runs b (body a) s (fun r s' => match r with inl a' => I a' s' /\ (f a' s' < f a s)%nat | inr x => P x s' end)) ->
  forall fuel a s, I a s -> (f a s < fuel)%nat -> runs b (loop fuel body a) s P.
Proof.
  intros Hb fuel. induction fuel as [|fuel IH]; intros a s HI Hf; [lia|]. cbn [loop].
  eapply runs_bind; [by apply Hb|]. intros [a'|x] s' H; [|done]. apply IH; [apply H|lia].
Qed.
