(* ===== verification/Clist.v ===== *)
(** * Linked lists of core/include/list.h and core/include/clist.h

    A [list_node_t] is one pointer, [next].  The heap of list nodes is a
    finite map from node addresses to the value of that pointer: [None] is
    NULL, an address outside the map is no object at all.  The functions of
    list.h, clist.h and the scheduler's own copies of clist.h (sched.c) are
    programs on that heap; [seg], [chain] and [ring] say which sequence of
    nodes a heap stores, and each operation is proved to refine the
    corresponding operation on sequences and to leave every other node
    alone ([frame]). *)

From S2P Require Import Prelude.

Section clist.
Context {A : Type} `{Countable A}.
Implicit Types (h : gmap A (option A)) (p l n x y z : A) (q : option A) (xs ys zs : list A).

Abbreviation heap := (gmap A (option A)).

(** [p->next] and [p->next = v]. *)
Definition load (p : A) : M heap (option A) :=
  fun h => match h !! p with Some v => Ret v h | None => Err BadAddr end.
Definition store (p : A) (v : option A) : M heap unit :=
  fun h => match h !! p with
           | Some _ => Ret tt (<[p := v]> h)
           | None => Err BadAddr
           end.
(** The object [p->next] points to (a fault when it is NULL), and
    [p->next->next]. *)
Definition deref (p : A) : M heap A :=
  let! v := load p in unwrap NullDeref v.
Definition load2 (p : A) : M heap (option A) :=
  let! q := deref p in load q.

(** ** list.h *)

Definition list_add (node new_node : A) : M heap unit :=
  let! nx := load node in
  do! store new_node nx;
  store node (Some new_node).

Definition list_remove_head (list : A) : M heap (option A) :=
  let! head := load list in
  match head with
  | Some hd =>
      let! nx := load hd in
      do! store list nx;
      ret head
  | None => ret head
  end.

Definition list_remove (fuel : nat) (list node : A) : M heap (option A) :=
  loop fuel (fun list =>
    let! nx := load list in
    match nx with
    | None => ret (inr None)
    | Some x =>
        if decide (x = node) then
          let! nn := load node in
          do! store list nn;
          ret (inr (Some node))
        else ret (inl x)
    end) list.

(** ** clist.h *)

Definition clist_rpush (list new_node : A) : M heap unit :=
  let! nx := load list in
  do! (match nx with
       | Some _ =>
           let! first := load2 list in
           do! store new_node first;
           let! last := deref list in
           store last (Some new_node)
       | None => store new_node (Some new_node)
       end);
  store list (Some new_node).

Definition clist_lpush (list new_node : A) : M heap unit :=
  let! nx := load list in
  match nx with
  | Some _ =>
      let! first := load2 list in
      do! store new_node first;
      let! last := deref list in
      store last (Some new_node)
  | None =>
      do! store new_node (Some new_node);
      store list (Some new_node)
  end.

Definition clist_lpop (list : A) : M heap (option A) :=
  let! nx := load list in
  match nx with
  | Some _ =>
      let! first := load2 list in
      let! nx' := load list in
      do! (if decide (nx' = first) then store list None
           else
             let! f := unwrap NullDeref first in
             let! second := load f in
             let! last := deref list in
             store last second);
      ret first
  | None => ret None
  end.

Definition clist_lpoprpush (list : A) : M heap unit :=
  let! nx := load list in
  match nx with
  | Some _ =>
      let! first := load2 list in
      store list first
  | None => ret tt
  end.

Definition clist_lpeek (list : A) : M heap (option A) :=
  let! nx := load list in
  match nx with Some _ => load2 list | None => ret None end.

Definition clist_rpeek (list : A) : M heap (option A) := load list.

Definition clist_rpop (fuel : nat) (list : A) : M heap (option A) :=
  let! nx := load list in
  match nx with
  | Some last =>
      do! loop fuel (fun _ : unit =>
        let! n2 := load2 list in
        if decide (n2 = Some last) then ret (inr tt)
        else do! clist_lpoprpush list; ret (inl tt)) tt;
      clist_lpop list
  | None => ret None
  end.

Definition clist_find_before (fuel : nat) (list node : A) : M heap (option A) :=
  let! nx := load list in
  match nx with
  | None => ret None
  | Some pos =>
      loop fuel (fun pos =>
        let! pos' := deref pos in
        let! nn := load pos' in
        if decide (nn = Some node) then ret (inr (Some pos'))
        else
          let! e := load list in
          if decide (Some pos' = e) then ret (inr None) else ret (inl pos')) pos
  end.

Definition clist_find (fuel : nat) (list node : A) : M heap (option A) :=
  let! tmp := clist_find_before fuel list node in
  match tmp with
  | Some t => load t
  | None => ret None
  end.

Definition clist_remove (fuel : nat) (list node : A) : M heap (option A) :=
  let! nx := load list in
  match nx with
  | None => ret None
  | Some _ =>
      let! first := load2 list in
      if decide (first = Some node) then clist_lpop list
      else
        let! tmp := clist_find_before fuel list node in
        match tmp with
        | Some t =>
            let! n2 := load2 t in
            do! store t n2;
            let! e := load list in
            do! when (bool_decide (e = Some node)) (store list (Some t));
            ret (Some node)
        | None => ret None
        end
  end.

(** [func] is the caller's callback; it may itself work on the heap. *)
Definition clist_foreach (fuel : nat) (list : A) (func : A -> M heap Z)
    : M heap (option A) :=
  let! nx := load list in
  match nx with
  | None => ret None
  | Some node =>
      loop fuel (fun node =>
        let! node' := deref node in
        let! r := func node' in
        if c_true r then ret (inr (Some node'))
        else
          let! e := load list in
          if decide (Some node' = e) then ret (inr None) else ret (inl node')) node
  end.

Definition clist_count (fuel : nat) (list : A) : M heap Z :=
  let! nx := load list in
  match nx with
  | None => ret 0
  | Some node =>
      loop fuel (fun '(node, cnt) =>
        let! node' := deref node in
        let cnt' := u16 (cnt + 1) in
        let! e := load list in
        if decide (Some node' = e) then ret (inr cnt') else ret (inl (node', cnt')))
        (node, 0)
  end.

(** ** The scheduler's copies (core/sched.c) *)

Definition sm_clist_rpush (list new_node : A) : M heap unit :=
  let! nx := load list in
  do! (match nx with
       | Some _ =>
           let! first := load2 list in
           do! store new_node first;
           let! last := deref list in
           store last (Some new_node)
       | None => store new_node (Some new_node)
       end);
  store list (Some new_node).

Definition sm_clist_lpop (list : A) : M heap (option A) :=
  let! nx := load list in
  match nx with
  | Some _ =>
      let! first := load2 list in
      let! nx' := load list in
      do! (if decide (nx' = first) then store list None
           else
             let! f := unwrap NullDeref first in
             let! second := load f in
             let! last := deref list in
             store last second);
      ret first
  | None => ret None
  end.

Definition sm_clist_lpoprpush (list : A) : M heap unit :=
  let! nx := load list in
  match nx with
  | Some _ =>
      let! first := load2 list in
      store list first
  | None => ret tt
  end.

(** ** Representation *)

(** [seg h p xs q]: following [next] from [p] visits [xs] in order and the
    last node visited holds [q]. *)
Fixpoint seg (h : heap) (p : A) (xs : list A) (q : option A) : Prop :=
  match xs with
  | [] => h !! p = Some q
  | x :: r => h !! p = Some (Some x) /\ seg h x r q
  end.

#[export] Instance seg_dec h p xs q : Decision (seg h p xs q).
Proof. revert p. induction xs as [|x r IH]; intros p; cbn; apply _. Defined.

(** A NULL-terminated list whose head object is [l] (list.h). *)
Definition chain (h : heap) (l : A) (xs : list A) : Prop :=
  NoDup (l :: xs) /\ seg h l xs None.

(** A circular list (clist.h): [l] points to the last node, which points to
    the first one. *)
Definition ring (h : heap) (l : A) (xs : list A) : Prop :=
  NoDup (l :: xs) /\ h !! l = Some (last xs) /\
  match xs with [] => True | x :: r => seg h x r (Some x) end.

#[export] Instance chain_dec h l xs : Decision (chain h l xs).
Proof. unfold chain. apply _. Defined.
#[export] Instance ring_dec h l xs : Decision (ring h l xs).
Proof. unfold ring. destruct xs; apply _. Defined.

(** [h'] differs from [h] at most on the nodes of [ws]. *)
Definition frame (h h' : heap) (ws : list A) : Prop :=
  (forall a, a ∉ ws -> h' !! a = h !! a) /\ (forall a, is_Some (h !! a) -> is_Some (h' !! a)).

Lemma frame_refl h ws : frame h h ws.
Proof. done. Qed.

Lemma frame_insert h h' ws k v :
  k ∈ ws -> frame h h' ws -> frame h (<[k:=v]> h') ws.
Proof.
  intros Hk [Hf Hd]. split.
  - intros a Ha. rewrite lookup_insert_ne by set_solver. by apply Hf.
  - intros a Ha. destruct (decide (k = a)) as [->|]; simplify_map_eq; eauto.
Qed.

Lemma frame_weaken h h' ws ws' : frame h h' ws -> ws ⊆ ws' -> frame h h' ws'.
Proof. intros [Hf Hd] Hsub. split; [|done]. intros a Ha. apply Hf. set_solver. Qed.

Lemma frame_trans h h' h'' ws : frame h h' ws -> frame h' h'' ws -> frame h h'' ws.
Proof. intros [F1 D1] [F2 D2]. split; [|by eauto]. intros a Ha. by rewrite F2, F1. Qed.

Lemma seg_ext h h' p xs q :
  (forall a, a ∈ p :: xs -> h' !! a = h !! a) -> seg h p xs q -> seg h' p xs q.
Proof.
  revert p. induction xs as [|x r IH]; intros p He; cbn.
  - intros <-. apply He. set_solver.
  - intros [Hp Hs]. split; [rewrite He by set_solver; done|].
    apply IH; [|done]. intros a Ha. apply He. set_solver.
Qed.

Lemma seg_insert h p xs q k v :
  k ∉ p :: xs -> seg h p xs q -> seg (<[k:=v]> h) p xs q.
Proof.
  intros Hk. apply seg_ext. intros a Ha. rewrite lookup_insert_ne; [done|]. set_solver.
Qed.

Lemma seg_app h p xs y ys q :
  seg h p (xs ++ y :: ys) q <-> seg h p xs (Some y) /\ seg h y ys q.
Proof.
  revert p. induction xs as [|x r IH]; intros p; cbn; [done|]. rewrite IH. tauto.
Qed.

Lemma seg_head h p xs q : seg h p xs q -> h !! p = Some (head (xs ++ option_list q)).
Proof. destruct xs, q; cbn; naive_solver. Qed.

Lemma seg_alive h p xs q a : seg h p xs q -> a ∈ p :: xs -> is_Some (h !! a).
Proof.
  revert p. induction xs as [|x r IH]; intros p; cbn.
  - intros ? ?%list_elem_of_singleton. naive_solver.
  - intros [? ?] [->|?]%elem_of_cons; [by eauto|]. by eapply IH.
Qed.

Lemma ring_alive h l xs a : ring h l xs -> a ∈ l :: xs -> is_Some (h !! a).
Proof.
  intros (_ & Hl & Hs) [->|Ha]%elem_of_cons; [by eauto|].
  destruct xs as [|x r]; [set_solver|]. by eapply seg_alive.
Qed.

Lemma ring_frame h h' l xs ws :
  frame h h' ws -> (forall a, a ∈ l :: xs -> a ∉ ws) -> ring h l xs -> ring h' l xs.
Proof.
  intros [Hf _] Hws (Hn & Hl & Hs). split; [done|]. split.
  - rewrite Hf; [done|]. apply Hws. set_solver.
  - destruct xs as [|x r]; [done|]. eapply seg_ext; [|done].
    intros a Ha. apply Hf, Hws. set_solver.
Qed.

Lemma chain_frame h h' l xs ws :
  frame h h' ws -> (forall a, a ∈ l :: xs -> a ∉ ws) -> chain h l xs -> chain h' l xs.
Proof.
  intros [Hf _] Hws (Hn & Hs). split; [done|].
  eapply seg_ext; [|done]. intros a Ha. apply Hf, Hws. set_solver.
Qed.

(** The last node of a non-empty ring, with the ring split there. *)
Lemma ring_snoc h l xs z :
  ring h l (xs ++ [z]) <->
  NoDup (l :: xs ++ [z]) /\ h !! l = Some (Some z) /\
  match xs with
  | [] => h !! z = Some (Some z)
  | x :: r => seg h x r (Some z) /\ h !! z = Some (Some x)
  end.
Proof.
  unfold ring. rewrite last_snoc. destruct xs as [|x r]; cbn; [done|].
  rewrite seg_app. cbn. done.
Qed.

(** A non-empty sequence seen from its end. *)
Lemma list_snoc_case (xs : list A) : xs = [] \/ exists ys z, xs = ys ++ [z].
Proof. destruct xs as [|ys z] using rev_ind; [by left|]. right. eauto. Qed.

(** Unlinking [node] and linking [n]: only the field of the predecessor
    [w] (and that of [n]) is written. *)
Lemma seg_delete h p ys node zs q w :
  seg h p (ys ++ node :: zs) q -> NoDup (p :: ys ++ node :: zs) ->
  last (p :: ys) = Some w ->
  seg (<[w := head (zs ++ option_list q)]> h) p (ys ++ zs) q.
Proof.
  revert p. induction ys as [|y ys IH]; intros p Hs Hd Hw; cbn [app seg] in *.
  - cbn in Hw. simplify_eq. destruct Hs as [_ Hs].
    apply NoDup_cons in Hd as [Hp _].
    destruct zs as [|z zs]; cbn in *.
    + rewrite lookup_insert_eq. by destruct q.
    + split; [by simplify_map_eq|]. apply seg_insert; [set_solver|tauto].
  - apply NoDup_cons in Hd as [Hp Hd]. rewrite last_cons_cons in Hw.
    split; [|apply IH; [tauto|done..]].
    apply last_Some_elem_of in Hw. rewrite lookup_insert_ne; [tauto|set_solver].
Qed.

Lemma seg_link h p ys n zs q w :
  seg h p (ys ++ zs) q -> NoDup (p :: ys ++ zs) -> n ∉ p :: ys ++ zs ->
  last (p :: ys) = Some w ->
  seg (<[w := Some n]> (<[n := head (zs ++ option_list q)]> h)) p (ys ++ n :: zs) q.
Proof.
  revert p. induction ys as [|y ys IH]; intros p Hs Hd Hn Hw; cbn [app seg] in *.
  - cbn in Hw. simplify_eq. split; [by simplify_map_eq|].
    apply NoDup_cons in Hd as [Hp _]. assert (w <> n) by set_solver.
    destruct zs as [|z zs]; cbn in *.
    + destruct q; rewrite lookup_insert_ne by done; by rewrite lookup_insert_eq.
    + split; [by simplify_map_eq|]. do 2 (apply seg_insert; [set_solver|]). tauto.
  - apply NoDup_cons in Hd as [Hp Hd]. rewrite last_cons_cons in Hw.
    split; [|apply IH; [tauto|done|set_solver|done]].
    apply last_Some_elem_of in Hw. rewrite !lookup_insert_ne; [tauto|set_solver..].
Qed.

(** What the last node visited by a segment prefix holds. *)
Lemma seg_mid h p ys zs q w :
  seg h p (ys ++ zs) q -> last (p :: ys) = Some w -> h !! w = Some (head (zs ++ option_list q)).
Proof.
  revert p. induction ys as [|y ys IH]; intros p Hs Hw; cbn [app seg] in *.
  - cbn in Hw. simplify_eq. by apply (seg_head _ _ _ _ Hs).
  - rewrite last_cons_cons in Hw. eapply IH; [apply Hs|done].
Qed.

(** ** Symbolic execution of heap programs *)

Lemma load_ok h p v : h !! p = Some v -> load p h = Ret v h.
Proof. intros Hp. unfold load. by rewrite Hp. Qed.

Lemma store_ok h p v w : h !! p = Some w -> store p v h = Ret tt (<[p:=v]> h).
Proof. intros Hp. unfold store. by rewrite Hp. Qed.

Lemma deref_ok h p x : h !! p = Some (Some x) -> deref p h = Ret x h.
Proof. intros Hp. unfold deref. mstep. by rewrite (load_ok _ _ _ Hp). Qed.

Lemma load2_ok h p x v :
  h !! p = Some (Some x) -> h !! x = Some v -> load2 p h = Ret v h.
Proof. intros Hp Hq. unfold load2. mstep. rewrite (deref_ok _ _ _ Hp). by apply load_ok. Qed.
End clist.
