(* ===== verification/ClistSpec.v ===== *)
(** * The circular list implements a sequence

    Every operation of clist.h (and the scheduler's copies of it) refines
    the operation on sequences it stands for: append, prepend, remove the
    first, rotate, remove the last, search, delete, count, iterate. *)

From S2P Require Import Prelude Clist.

Section clist_spec.
Context {A : Type} `{Countable A}.
Implicit Types (h : gmap A (option A)) (p l n x y z : A) (q : option A) (xs ys zs : list A).

Lemma not_elem_ne (a b : A) xs : a ∉ b :: xs -> a <> b /\ a ∉ xs.
Proof. set_solver. Qed.

Ltac hrun :=
  unfold load2, deref, load, store; mstep;
  repeat first
    [ progress simplify_map_eq
    | rewrite decide_True by congruence
    | rewrite decide_False by congruence ].

(** The pointers an operation reads first. *)
Lemma ring_ends h l ys z :
  ring h l (ys ++ [z]) ->
  h !! l = Some (Some z) /\ h !! z = Some (head (ys ++ [z])) /\
  l <> z /\ (l ∉ ys) /\ (z ∉ ys) /\ NoDup ys.
Proof.
  intros (Hd & Hl & Hs)%ring_snoc. rewrite NoDup_cons, NoDup_app in Hd.
  split; [done|]. split; [|set_solver]. destruct ys as [|x r]; [done|]. naive_solver.
Qed.

Ltac seg_frame :=
  repeat (apply seg_insert; [set_solver|]); try done.
Ltac frame_tac :=
  repeat (apply frame_insert; [set_solver|]); apply frame_refl.
Ltac nodup_tac :=
  repeat match goal with
  | Hd : NoDup (_ :: _) |- _ => apply NoDup_cons in Hd; destruct Hd
  | Hd : NoDup (_ ++ _) |- _ => apply NoDup_app in Hd; destruct Hd as (? & ? & ?)
  end;
  rewrite ?NoDup_cons, ?NoDup_app, ?NoDup_cons, ?NoDup_nil;
  repeat match goal with |- _ /\ _ => split end; try done; set_solver.

(** What appending and prepending write: [z] is the last node, [x] the first. *)
Lemma ring_link h l n ys z x :
  ring h l (ys ++ [z]) -> n ∉ l :: ys ++ [z] -> head (ys ++ [z]) = Some x ->
  forall h', h' = <[z := Some n]> (<[n := Some x]> h) ->
  ring (<[l := Some n]> h') l ((ys ++ [z]) ++ [n]) /\ ring h' l (n :: ys ++ [z]).
Proof.
  intros Hr Hn Hx h' ->. pose proof (ring_ends _ _ _ _ Hr) as (Hl & Hz & Hlz & Hly & Hzy & Hd).
  assert (n <> l /\ n <> z /\ n ∉ ys) as (Hnl & Hnz & Hny) by set_solver.
  apply ring_snoc in Hr as (_ & _ & Hs). split.
  - apply ring_snoc. split; [nodup_tac|]. split; [by simplify_map_eq|].
    destruct ys as [|x' r]; cbn in *; simplify_eq.
    + split; by simplify_map_eq.
    + split; [|by simplify_map_eq].
      apply seg_app. split; [seg_frame; tauto|]. cbn. by simplify_map_eq.
  - change (n :: ys ++ [z]) with ((n :: ys) ++ [z]). apply ring_snoc.
    split; [nodup_tac|]. split; [by simplify_map_eq|]. split; [|by simplify_map_eq].
    destruct ys as [|x' r]; cbn in *; simplify_eq.
    + by simplify_map_eq.
    + split; [by simplify_map_eq|]. seg_frame. tauto.
Qed.

Lemma rpush_spec h l n xs :
  ring h l xs -> n ∉ l :: xs -> is_Some (h !! n) ->
  exists h', clist_rpush l n h = Ret tt h' /\ ring h' l (xs ++ [n]) /\
             frame h h' (n :: l :: xs).
Proof.
  intros Hr Hn [vn Hvn]. pose proof Hn as [Hnl Hnx]%not_elem_ne.
  destruct (list_snoc_case xs) as [->|(ys & z & ->)].
  - destruct Hr as (Hd & Hl & _). cbn in Hl. eexists. split.
    { unfold clist_rpush. hrun. reflexivity. }
    split; [|frame_tac]. apply (ring_snoc _ _ []).
    split; [|split]; [nodup_tac|by simplify_map_eq..].
  - pose proof (ring_ends _ _ _ _ Hr) as (Hl & Hz & Hlz & ? & ? & ?).
    destruct (head (ys ++ [z])) as [x|] eqn:Hx; [|by destruct ys].
    assert (n <> z) by set_solver. eexists. split.
    { unfold clist_rpush. hrun. reflexivity. }
    split; [|frame_tac]. by eapply ring_link.
Qed.

Lemma sm_rpush_eq l n h : sm_clist_rpush l n h = clist_rpush l n h.
Proof. reflexivity. Qed.

Lemma lpush_spec h l n xs :
  ring h l xs -> n ∉ l :: xs -> is_Some (h !! n) ->
  exists h', clist_lpush l n h = Ret tt h' /\ ring h' l (n :: xs) /\
             frame h h' (n :: l :: xs).
Proof.
  intros Hr Hn [vn Hvn]. pose proof Hn as [Hnl Hnx]%not_elem_ne.
  destruct (list_snoc_case xs) as [->|(ys & z & ->)].
  - destruct Hr as (Hd & Hl & _). cbn in Hl. eexists. split.
    { unfold clist_lpush. hrun. reflexivity. }
    split; [|frame_tac]. apply (ring_snoc _ _ []).
    split; [|split]; [nodup_tac|by simplify_map_eq..].
  - pose proof (ring_ends _ _ _ _ Hr) as (Hl & Hz & Hlz & ? & ? & ?).
    destruct (head (ys ++ [z])) as [x|] eqn:Hx; [|by destruct ys].
    assert (n <> z) by set_solver. eexists. split.
    { unfold clist_lpush. hrun. reflexivity. }
    split; [|frame_tac]. by eapply ring_link.
Qed.

(** Removing the first node; the removed node keeps its stale [next]. *)
Lemma lpop_spec h l xs :
  ring h l xs ->
  exists h', clist_lpop l h = Ret (head xs) h' /\ ring h' l (tail xs) /\
             frame h h' (l :: xs) /\
             (forall x, head xs = Some x -> length xs <> 1%nat -> h' !! x = h !! x).
Proof.
  intros Hr. destruct (list_snoc_case xs) as [->|(ys & z & ->)].
  { destruct Hr as (Hd & Hl & _). cbn in Hl. exists h. split.
    { unfold clist_lpop. hrun. reflexivity. }
    split; [|split]; [done|apply frame_refl|done]. }
  pose proof (ring_ends _ _ _ _ Hr) as (Hl & Hz & Hlz & Hly & Hzy & Hdy).
  destruct ys as [|x r]; cbn in *.
  { eexists. split; [unfold clist_lpop; hrun; reflexivity|].
    split; [|split]; [|frame_tac|done].
    split; [nodup_tac|]. cbn. by simplify_map_eq. }
  apply (ring_snoc h l (x :: r) z) in Hr as (Hd & _ & Hs & _).
  pose proof (seg_head _ _ _ _ Hs) as Hx.
  destruct (head (r ++ option_list (Some z))) as [y|] eqn:Hy; [|by destruct r].
  assert (z <> x) by set_solver. eexists. split.
  { unfold clist_lpop. hrun. reflexivity. }
  split; [|split]; [|frame_tac|].
  - apply ring_snoc. split; [nodup_tac|]. split; [by simplify_map_eq|].
    destruct r as [|y' r]; cbn in *; simplify_eq; [by simplify_map_eq|].
    split; [|by simplify_map_eq]. seg_frame. tauto.
  - intros ? [= ->] _. rewrite lookup_insert_ne by done. congruence.
Qed.

Lemma sm_lpop_eq l h : sm_clist_lpop l h = clist_lpop l h.
Proof. reflexivity. Qed.

Lemma lpoprpush_spec h l xs :
  ring h l xs ->
  exists h', clist_lpoprpush l h = Ret tt h' /\ ring h' l (rotate_l xs) /\ frame h h' [l].
Proof.
  intros Hr. destruct (list_snoc_case xs) as [->|(ys & z & ->)].
  { destruct Hr as (Hd & Hl & _). cbn in Hl. exists h. split.
    { unfold clist_lpoprpush. hrun. reflexivity. }
    split; [done|apply frame_refl]. }
  pose proof (ring_ends _ _ _ _ Hr) as (Hl & Hz & Hlz & Hly & Hzy & Hdy).
  destruct ys as [|x r]; cbn in *.
  { eexists. split; [unfold clist_lpoprpush; hrun; reflexivity|].
    rewrite (insert_id _ _ _ Hl). split; [done|apply frame_refl]. }
  apply (ring_snoc h l (x :: r) z) in Hr as (Hd & _ & Hs & _).
  eexists. split; [unfold clist_lpoprpush; hrun; reflexivity|].
  split; [|frame_tac]. apply ring_snoc. split; [nodup_tac|]. split; [by simplify_map_eq|].
  destruct r as [|y r]; cbn in *.
  - split; rewrite lookup_insert_ne by set_solver; tauto.
  - rewrite lookup_insert_ne by set_solver. split; [|tauto].
    apply seg_app. split; [seg_frame; tauto|]. cbn. by rewrite lookup_insert_ne by done.
Qed.

Lemma sm_lpoprpush_eq l h : sm_clist_lpoprpush l h = clist_lpoprpush l h.
Proof. reflexivity. Qed.

(** ** Traversals

    The do-while loops of clist.h start at the last node [z] and stop when
    they are back there: [rs] is what is left to visit. *)

Lemma walk_step h z x w pos rs :
  seg h pos (w :: rs) (Some x) -> last (w :: rs) = Some z -> NoDup (w :: rs) ->
  deref pos h = Ret w h /\
  h !! w = Some (head (rs ++ [x])) /\
  (w = z <-> rs = []) /\ (rs <> [] -> last rs = Some z /\ NoDup rs).
Proof.
  intros [Hp Hs] Hlast Hd. split; [by apply deref_ok|].
  split; [by apply (seg_head _ _ _ (Some x))|].
  rewrite last_cons in Hlast. apply NoDup_cons in Hd as [Hw Hd].
  destruct rs as [|y rs]; [cbn in Hlast; naive_solver|].
  rewrite last_cons_cases in Hlast.
  assert (last (y :: rs) = Some z) as Hz by (rewrite last_cons_cases; done).
  split; [|done]. split; [|done]. intros ->. destruct Hw. by apply last_Some_elem_of.
Qed.

Fixpoint pred_of (x node : A) (rs : list A) : option A :=
  match rs with
  | [] => None
  | w :: rs' => if decide (head (rs' ++ [x]) = Some node) then Some w else pred_of x node rs'
  end.

Lemma find_before_loop fuel h l z x node rs pos :
  h !! l = Some (Some z) -> seg h pos rs (Some x) -> last rs = Some z -> NoDup rs ->
  (length rs <= fuel)%nat ->
  loop fuel (fun pos =>
        let! pos' := deref pos in
        let! nn := load pos' in
        if decide (nn = Some node) then ret (inr (Some pos'))
        else
          let! e := load l in
          if decide (Some pos' = e) then ret (inr None) else ret (inl pos')) pos h
  = Ret (pred_of x node rs) h.
Proof.
  intros Hl. revert pos fuel. induction rs as [|w rs IH]; [done|].
  intros pos [|fuel] Hs Hz Hd Hf; cbn in Hf; [lia|].
  pose proof (walk_step _ _ _ _ _ _ Hs Hz Hd) as (Hp & Hw & Hzz & Hnext).
  destruct Hs as [_ Hs]. cbn [pred_of]. case_decide as Hn.
  { apply loop_exit. rewrite (bind_ret _ _ _ _ _ Hp), (bind_ret _ _ _ _ _ (load_ok _ _ _ Hw)).
    by rewrite decide_True. }
  destruct rs as [|y rs].
  { apply loop_exit. rewrite (bind_ret _ _ _ _ _ Hp), (bind_ret _ _ _ _ _ (load_ok _ _ _ Hw)).
    rewrite decide_False by done. rewrite (bind_ret _ _ _ _ _ (load_ok _ _ _ Hl)).
    by rewrite decide_True by (f_equal; tauto). }
  erewrite loop_next.
  2: { rewrite (bind_ret _ _ _ _ _ Hp), (bind_ret _ _ _ _ _ (load_ok _ _ _ Hw)).
       rewrite decide_False by done. rewrite (bind_ret _ _ _ _ _ (load_ok _ _ _ Hl)).
       rewrite decide_False; [reflexivity|]. intros [= E]. apply Hzz in E. done. }
  destruct Hnext as [? ?]; [done|]. apply IH; [done..|lia].
Qed.

Lemma find_before_spec fuel h l x r node :
  ring h l (x :: r) -> (length (x :: r) <= fuel)%nat ->
  clist_find_before fuel l node h = Ret (pred_of x node (x :: r)) h.
Proof.
  intros (Hd & Hl & Hs) Hf. unfold clist_find_before.
  rewrite (bind_ret _ _ _ _ _ (load_ok _ _ _ Hl)), last_cons_cases.
  apply NoDup_cons in Hd as [_ Hd].
  eapply find_before_loop; [by rewrite Hl, last_cons_cases| |by apply last_cons_cases|done|done].
  cbn. split; [|done]. destruct (list_snoc_case r) as [->|(r' & z & ->)]; [done|].
  rewrite last_snoc. cbn. apply seg_app in Hs as [_ Hs]. by cbn in Hs.
Qed.

Lemma find_before_empty fuel h l node :
  ring h l [] -> clist_find_before fuel l node h = Ret None h.
Proof.
  intros (_ & Hl & _). unfold clist_find_before. cbn in Hl.
  by rewrite (bind_ret _ _ _ _ _ (load_ok _ _ _ Hl)).
Qed.

(** What [pred_of] computes: the predecessor of [node] on the cycle. *)
Lemma pred_of_inside x node ys w zs :
  NoDup (ys ++ w :: node :: zs) -> pred_of x node (ys ++ w :: node :: zs) = Some w.
Proof.
  induction ys as [|y ys IH]; intros Hd; cbn -[decide].
  { by rewrite decide_True. }
  cbn in Hd. apply NoDup_cons in Hd as [Hy Hd]. rewrite decide_False; [by apply IH|].
  apply NoDup_app in Hd as (_ & Hys & Hd). apply NoDup_cons in Hd as [Hw _].
  destruct ys as [|y' ys]; cbn; intros [= ->]; set_solver.
Qed.

Lemma pred_of_notin x node rs :
  node ∉ tail rs -> pred_of x node rs = if decide (x = node) then last rs else None.
Proof.
  induction rs as [|w rs IH]; intros Hn; [by case_decide|].
  cbn [pred_of tail] in *. destruct rs as [|y rs]; cbn -[decide last pred_of].
  { repeat case_decide; naive_solver. }
  rewrite decide_False by set_solver. rewrite IH by set_solver.
  rewrite (last_cons w). case_decide; [|done]. by rewrite last_cons_cases.
Qed.

(** The three cases of a search: absent, first, inside. *)
Lemma elem_of_cases (node : A) xs :
  NoDup xs -> (node ∉ xs) \/ (exists r, xs = node :: r) \/
              (exists ys w zs, xs = ys ++ w :: node :: zs).
Proof.
  intros Hd. destruct (decide (node ∈ xs)) as [Hin|]; [|by left].
  right. apply list_elem_of_split in Hin as (ys & zs & ->).
  destruct (list_snoc_case ys) as [->|(ys' & w & ->)]; [left; by eexists|].
  right. exists ys', w, zs. by rewrite <- app_assoc.
Qed.

Lemma clist_find_spec fuel h l xs node :
  ring h l xs -> (length xs <= fuel)%nat ->
  clist_find fuel l node h = Ret (if decide (node ∈ xs) then Some node else None) h.
Proof.
  intros Hr Hf. unfold clist_find. destruct xs as [|x r].
  { rewrite (bind_ret _ _ _ _ _ (find_before_empty _ _ _ _ Hr)). by rewrite decide_False by set_solver. }
  rewrite (bind_ret _ _ _ _ _ (find_before_spec _ _ _ _ _ _ Hr Hf)).
  destruct Hr as (Hd & Hl & Hs). apply NoDup_cons in Hd as [_ Hd].
  destruct (elem_of_cases node _ Hd) as [Hn|[[r' [= -> ->]]|(ys & w & zs & E)]].
  - rewrite pred_of_notin by set_solver.
    rewrite (decide_False (P := x = node)) by set_solver. by rewrite decide_False by done.
  - apply NoDup_cons in Hd as [Hx _].
    rewrite pred_of_notin by done. rewrite decide_True by done.
    rewrite last_cons_cases, decide_True by set_solver. apply load_ok.
    destruct (list_snoc_case r') as [->|(ys & z & ->)]; [done|].
    rewrite last_snoc. apply seg_app in Hs. naive_solver.
  - rewrite E in *. rewrite pred_of_inside by done. rewrite decide_True by set_solver.
    apply load_ok. destruct ys as [|y ys]; cbn in E; simplify_eq; [by destruct Hs|].
    apply seg_app in Hs as [_ [Hs _]]. done.
Qed.

(** Deleting a node, wherever it is. *)
Definition without (node : A) (xs : list A) : list A := filter (fun a => a <> node) xs.

Lemma without_notin node xs : node ∉ xs -> without node xs = xs.
Proof.
  unfold without. induction xs as [|x r IH]; [done|]. intros Hn.
  rewrite filter_cons_True by set_solver. f_equal. apply IH. set_solver.
Qed.

Lemma without_split node ys zs :
  NoDup (ys ++ node :: zs) -> without node (ys ++ node :: zs) = ys ++ zs.
Proof.
  intros (Hd & Hn & [Hz _]%NoDup_cons)%NoDup_app. unfold without.
  rewrite filter_app, filter_cons_False by auto. f_equal; apply without_notin; set_solver.
Qed.

Lemma ring_unlink h l ys w node zs :
  ring h l (ys ++ w :: node :: zs) ->
  forall h1, h1 = <[w := head (zs ++ option_list (head (ys ++ [w])))]> h ->
  ring (if decide (zs = []) then <[l := Some w]> h1 else h1) l (ys ++ w :: zs).
Proof.
  intros (Hd & Hl & Hs) h1 ->.
  assert (exists x r, ys ++ [w] = x :: r /\ head (ys ++ [w]) = Some x) as (x & r & E & ->).
  { destruct ys; cbn; eauto. }
  replace (ys ++ w :: node :: zs) with (x :: r ++ node :: zs) in *
    by (rewrite app_comm_cons, <- E, <- app_assoc; done).
  replace (ys ++ w :: zs) with (x :: r ++ zs)
    by (rewrite app_comm_cons, <- E, <- app_assoc; done).
  assert (last (x :: r) = Some w) as Hw by (rewrite <- E; apply last_snoc).
  pose proof (last_Some_elem_of _ _ Hw) as Hwin.
  pose proof (seg_delete _ _ _ _ _ _ _ Hs ltac:(by apply NoDup_cons in Hd as [_ ?]) Hw) as Hs'.
  cbn [option_list] in Hs'. assert (l <> w) by nodup_tac.
  split; [|split].
  - nodup_tac.
  - destruct zs as [|z zs]; cbn [decide].
    + rewrite app_nil_r, Hw. case_decide; [by simplify_map_eq|done].
    + rewrite decide_False by done. rewrite lookup_insert_ne, Hl by done.
      rewrite !app_comm_cons, !last_app, !last_cons. by destruct (last zs).
  - case_decide; [|done]. subst zs. apply seg_insert; [nodup_tac|done].
Qed.

Lemma clist_remove_spec fuel h l xs node :
  ring h l xs -> (length xs <= fuel)%nat ->
  exists h', clist_remove fuel l node h =
               Ret (if decide (node ∈ xs) then Some node else None) h' /\
             ring h' l (without node xs) /\ frame h h' (l :: xs) /\
             (node ∉ xs -> h' = h).
Proof.
  intros Hr Hf. pose proof Hr as (Hd & Hl & Hs). apply NoDup_cons in Hd as [Hlx Hd].
  destruct xs as [|x r].
  { exists h. unfold clist_remove. rewrite (bind_ret _ _ _ _ _ (load_ok _ _ _ Hl)).
    rewrite decide_False by set_solver. split; [done|]. split; [done|]. by split. }
  assert (load2 l h = Ret (Some x) h) as Hl2.
  { destruct (list_snoc_case (x :: r)) as [?|(ys & z & E)]; [done|].
    rewrite E in Hr. apply ring_ends in Hr as (Hl' & Hz & _). rewrite <- E in Hz.
    by eapply load2_ok. }
  unfold clist_remove. rewrite (bind_ret _ _ _ _ _ (load_ok _ _ _ Hl)), last_cons_cases.
  rewrite (bind_ret _ _ _ _ _ Hl2).
  destruct (elem_of_cases node _ Hd) as [Hn|[[r' [= -> ->]]|(ys & w & zs & E)]].
  - rewrite decide_False by set_solver.
    rewrite (bind_ret _ _ _ _ _ (find_before_spec _ _ _ _ _ _ Hr Hf)).
    rewrite pred_of_notin by set_solver. rewrite decide_False by set_solver.
    rewrite decide_False by done. exists h. rewrite without_notin by done. done.
  - rewrite decide_True by done. destruct (lpop_spec _ _ _ Hr) as (h' & -> & Hr' & Hfr & _).
    exists h'. rewrite decide_True by set_solver. split; [done|].
    assert (without node (node :: r') = r') as -> by (by apply (without_split node [] r')).
    split; [done|]. split; [done|]. set_solver.
  - rewrite decide_False by (intros [= ->]; destruct ys; cbn in E; simplify_eq; nodup_tac).
    rewrite (bind_ret _ _ _ _ _ (find_before_spec _ _ _ _ _ _ Hr Hf)).
    rewrite E in *. rewrite pred_of_inside by done.
    rewrite (decide_True (P := node ∈ _)) by set_solver.
    pose proof (ring_unlink _ _ _ _ _ _ Hr _ eq_refl) as Hr'.
    assert (h !! w = Some (Some node) /\
            h !! node = Some (head (zs ++ option_list (head (ys ++ [w]))))) as [Hw Hn].
    { clear Hr'. destruct ys as [|y ys]; cbn in E, Hs |- *; simplify_eq.
      - destruct Hs as [? Hs]. split; [done|]. by apply (seg_head _ _ _ (Some w)).
      - apply seg_app in Hs as (_ & ? & Hs). split; [done|].
        by apply (seg_head _ _ _ (Some y)). }
    rewrite (bind_ret _ _ _ _ _ (load2_ok _ _ _ _ Hw Hn)).
    rewrite (bind_ret _ _ _ _ _ (store_ok _ _ _ _ Hw)).
    assert (l <> w) by set_solver.
    erewrite bind_ret; [|apply load_ok; by rewrite lookup_insert_ne].
    replace (ys ++ w :: node :: zs) with ((ys ++ [w]) ++ node :: zs) by (by rewrite <- app_assoc).
    rewrite without_split by (by rewrite <- app_assoc).
    rewrite <- (app_assoc ys [w] zs), <- (app_assoc ys [w] (node :: zs)). cbn [app].
    assert (last (ys ++ w :: node :: zs) = Some (default node (last zs))) as Hlast.
    { by rewrite last_app, last_cons_cases, last_cons_cases. }
    rewrite Hlast in *.
    eexists. split; [|split; [exact Hr'|]].
    + destruct (list_snoc_case zs) as [->|(zs' & z & ->)].
      * cbn [last default]. rewrite bool_decide_true by done. unfold when, bind.
        rewrite (store_ok _ _ _ (Some node)); [done|]. by rewrite lookup_insert_ne.
      * rewrite last_snoc. cbn [default]. rewrite bool_decide_false by (intros [= ->]; nodup_tac).
        by rewrite decide_False by (by destruct zs').
    + split; [|set_solver]. case_decide; frame_tac.
Qed.

(** Removing the last node: the list is rotated until its last node is the
    predecessor of the node that was last. *)
Lemma clist_rpop_loop fuel l z : forall pre post h,
  ring h l (post ++ z :: pre) -> NoDup (pre ++ post) ->
  (length post < fuel)%nat ->
  exists h',
    loop fuel (fun _ : unit =>
      let! n2 := load2 l in
      if decide (n2 = Some z) then ret (inr tt)
      else do! clist_lpoprpush l; ret (inl tt)) tt h = Ret tt h' /\
    ring h' l (z :: pre ++ post) /\ frame h h' [l].
Proof.
  intros pre post. revert pre fuel. induction post as [|x post IH]; intros pre fuel h Hr Hd Hf;
    (destruct fuel as [|fuel]; cbn in Hf; [lia|]).
  - exists h. rewrite app_nil_r. split; [|by split].
    apply loop_exit. destruct (list_snoc_case (z :: pre)) as [?|(ys & w & E)]; [done|].
    cbn [app] in Hr. rewrite E in Hr. apply ring_ends in Hr as (Hl & Hw & _).
    rewrite (bind_ret _ _ _ _ _ (load2_ok _ _ _ _ Hl Hw)), <- E. by rewrite decide_True.
  - pose proof (lpoprpush_spec _ _ _ Hr) as (h1 & Hh1 & Hr1 & Hf1). cbn [app rotate_l] in *.
    rewrite <- app_assoc in Hr1. cbn [app] in Hr1.
    destruct (IH (pre ++ [x]) fuel h1) as (h' & Hh' & Hr' & Hf').
    + done.
    + rewrite <- app_assoc. done.
    + lia.
    + exists h'. rewrite <- app_assoc in Hr'. split; [|split; [done|by eapply frame_trans]].
      erewrite loop_next; [exact Hh'|].
      destruct (list_snoc_case (x :: post ++ z :: pre)) as [?|(ys & w & E)]; [done|].
      pose proof Hr as Hr0. rewrite E in Hr0. apply ring_ends in Hr0 as (Hl & Hw & _).
      rewrite (bind_ret _ _ _ _ _ (load2_ok _ _ _ _ Hl Hw)), <- E. cbn [head].
      rewrite decide_False; [by rewrite (bind_ret _ _ _ _ _ Hh1)|].
      intros [= ->]. destruct Hr as [Hdr _]. nodup_tac.
Qed.

Lemma clist_rpop_spec fuel h l xs :
  ring h l xs -> (length xs <= fuel)%nat ->
  exists h', clist_rpop fuel l h = Ret (last xs) h' /\
             ring h' l (take (length xs - 1) xs) /\ frame h h' (l :: xs).
Proof.
  intros Hr Hf. destruct (list_snoc_case xs) as [->|(ys & z & ->)].
  { destruct Hr as (Hd & Hl & _). exists h. unfold clist_rpop.
    rewrite (bind_ret _ _ _ _ _ (load_ok _ _ _ Hl)). split; [done|]. by split. }
  pose proof (ring_ends _ _ _ _ Hr) as (Hl & _ & Hlz & Hly & Hzy & Hdy).
  unfold clist_rpop. rewrite (bind_ret _ _ _ _ _ (load_ok _ _ _ Hl)), last_snoc.
  rewrite length_app in *. cbn [length] in *.
  destruct (clist_rpop_loop fuel l z [] ys h) as (h1 & Hh1 & Hr1 & Hf1); [done..|lia|].
  rewrite (bind_ret _ _ _ _ _ Hh1). cbn [app] in Hr1.
  destruct (lpop_spec _ _ _ Hr1) as (h2 & Hh2 & Hr2 & Hf2 & _). cbn [head tail] in *.
  exists h2. split; [done|]. rewrite Nat.add_sub, take_app_length. split; [done|].
  eapply frame_trans; [eapply frame_weaken; [exact Hf1|set_solver]|].
  eapply frame_weaken; [exact Hf2|set_solver].
Qed.

(** Iteration stops at the first node on which the callback returns
    non-zero; [clist_count] visits all of them. *)
Section iterate.
Context (h : gmap A (option A)) (l x z : A) (Hl : h !! l = Some (Some z)).

Lemma foreach_loop (func : A -> M (gmap A (option A)) Z) (f : A -> Z) rs pos fuel :
  (forall a, a ∈ rs -> func a h = Ret (f a) h) ->
  seg h pos rs (Some x) -> last rs = Some z -> NoDup rs -> (length rs <= fuel)%nat ->
  loop fuel (fun node =>
      let! node' := deref node in
      let! r := func node' in
      if c_true r then ret (inr (Some node'))
      else
        let! e := load l in
        if decide (Some node' = e) then ret (inr None) else ret (inl node')) pos h
  = Ret (head (filter (fun a => c_true (f a)) rs)) h.
Proof.
  revert pos fuel. induction rs as [|w rs IH]; [done|].
  intros pos [|fuel] Hfn Hs Hz Hd Hf; cbn in Hf; [lia|].
  pose proof (walk_step _ _ _ _ _ _ Hs Hz Hd) as (Hp & _ & Hzz & Hnext).
  pose proof (Hfn w ltac:(set_solver)) as Hw. destruct Hs as [_ Hs].
  rewrite filter_cons. destruct (c_true (f w)) eqn:Ec.
  { rewrite decide_True by done. apply loop_exit.
    by rewrite (bind_ret _ _ _ _ _ Hp), (bind_ret _ _ _ _ _ Hw), Ec. }
  rewrite decide_False by (by intros []). destruct rs as [|y rs].
  { apply loop_exit. rewrite (bind_ret _ _ _ _ _ Hp), (bind_ret _ _ _ _ _ Hw), Ec.
    rewrite (bind_ret _ _ _ _ _ (load_ok _ _ _ Hl)).
    by rewrite decide_True by (f_equal; tauto). }
  erewrite loop_next.
  2: { rewrite (bind_ret _ _ _ _ _ Hp), (bind_ret _ _ _ _ _ Hw), Ec.
       rewrite (bind_ret _ _ _ _ _ (load_ok _ _ _ Hl)).
       rewrite decide_False; [reflexivity|]. intros [= E]. apply Hzz in E. done. }
  destruct Hnext as [? ?]; [done|]. apply IH; [set_solver|done..|lia].
Qed.

Lemma count_loop rs pos cnt fuel :
  seg h pos rs (Some x) -> last rs = Some z -> NoDup rs -> (length rs <= fuel)%nat ->
  loop fuel (fun '(node, cnt) =>
      let! node' := deref node in
      let cnt' := u16 (cnt + 1) in
      let! e := load l in
      if decide (Some node' = e) then ret (inr cnt') else ret (inl (node', cnt')))
    (pos, cnt) h
  = Ret (u16 (cnt + Z.of_nat (length rs))) h.
Proof.
  revert pos cnt fuel. induction rs as [|w rs IH]; [done|].
  intros pos cnt [|fuel] Hs Hz Hd Hf; cbn in Hf; [lia|].
  pose proof (walk_step _ _ _ _ _ _ Hs Hz Hd) as (Hp & _ & Hzz & Hnext).
  destruct Hs as [_ Hs]. destruct rs as [|y rs].
  { apply loop_exit. rewrite (bind_ret _ _ _ _ _ Hp), (bind_ret _ _ _ _ _ (load_ok _ _ _ Hl)).
    by rewrite decide_True by (f_equal; tauto). }
  erewrite loop_next.
  2: { rewrite (bind_ret _ _ _ _ _ Hp), (bind_ret _ _ _ _ _ (load_ok _ _ _ Hl)).
       rewrite decide_False; [reflexivity|]. intros [= E]. apply Hzz in E. done. }
  destruct Hnext as [? ?]; [done|]. rewrite IH by (done || lia).
  f_equal. rewrite wrapu_add_l. f_equal. cbn [length]. lia.
Qed.
End iterate.

Lemma ring_walk h l x r :
  ring h l (x :: r) ->
  exists z, h !! l = Some (Some z) /\ seg h z (x :: r) (Some x) /\
            last (x :: r) = Some z /\ NoDup (x :: r).
Proof.
  intros (Hd & Hl & Hs). apply NoDup_cons in Hd as [_ Hd].
  exists (default x (last r)). rewrite <- last_cons_cases. split; [done|].
  split; [|done]. split; [|done].
  destruct (list_snoc_case r) as [->|(r' & z & ->)]; [done|].
  rewrite last_snoc. apply seg_app in Hs as [_ Hs]. done.
Qed.

(** A heap determines the sequence a ring holds. *)
Lemma seg_unique h p xs ys x :
  seg h p xs (Some x) -> seg h p ys (Some x) -> x ∉ xs -> x ∉ ys -> xs = ys.
Proof.
  revert p ys. induction xs as [|a xs IH]; intros p [|b ys]; cbn; intros Hx Hy Nx Ny; [done| | |].
  - destruct Hy as [Hy _]. rewrite Hx in Hy. injection Hy as ->. set_solver.
  - destruct Hx as [Hx _]. rewrite Hy in Hx. injection Hx as ->. set_solver.
  - destruct Hx as [Hx Sx], Hy as [Hy Sy]. rewrite Hx in Hy. injection Hy as ->.
    f_equal. eapply IH; [done|done|set_solver|set_solver].
Qed.

Lemma ring_unique h l xs ys : ring h l xs -> ring h l ys -> xs = ys.
Proof.
  intros Hx Hy. pose proof Hx as (_ & Lx & _). pose proof Hy as (_ & Ly & _).
  rewrite Lx in Ly. injection Ly as Ly.
  destruct xs as [|x xs]; [symmetry in Ly; by apply last_None in Ly|].
  destruct ys as [|y ys]; [by apply (last_None (x :: xs)) in Ly|].
  destruct (ring_walk _ _ _ _ Hx) as (z & Hz & [Hzx Hsx] & _ & Dx).
  destruct (ring_walk _ _ _ _ Hy) as (z' & Hz' & [Hzy Hsy] & _ & Dy).
  rewrite Hz in Hz'. injection Hz' as <-. rewrite Hzx in Hzy. injection Hzy as <-.
  f_equal. apply NoDup_cons in Dx as [? _]. apply NoDup_cons in Dy as [? _]. by eapply seg_unique.
Qed.

Lemma clist_foreach_spec fuel h l xs (func : A -> M (gmap A (option A)) Z) (f : A -> Z) :
  ring h l xs -> (length xs <= fuel)%nat ->
  (forall a, a ∈ xs -> func a h = Ret (f a) h) ->
  clist_foreach fuel l func h = Ret (head (filter (fun a => c_true (f a)) xs)) h.
Proof.
  intros Hr Hf Hfn. unfold clist_foreach. destruct xs as [|x r].
  { destruct Hr as (_ & Hl & _). by rewrite (bind_ret _ _ _ _ _ (load_ok _ _ _ Hl)). }
  destruct (ring_walk _ _ _ _ Hr) as (z & Hl & Hs & Hz & Hd).
  rewrite (bind_ret _ _ _ _ _ (load_ok _ _ _ Hl)). by eapply foreach_loop.
Qed.

Lemma clist_count_spec fuel h l xs :
  ring h l xs -> (length xs <= fuel)%nat ->
  clist_count fuel l h = Ret (u16 (Z.of_nat (length xs))) h.
Proof.
  intros Hr Hf. unfold clist_count. destruct xs as [|x r].
  { destruct Hr as (_ & Hl & _). by rewrite (bind_ret _ _ _ _ _ (load_ok _ _ _ Hl)). }
  destruct (ring_walk _ _ _ _ Hr) as (z & Hl & Hs & Hz & Hd).
  rewrite (bind_ret _ _ _ _ _ (load_ok _ _ _ Hl)).
  rewrite <- (Z.add_0_l (Z.of_nat _)). by eapply count_loop.
Qed.

Lemma lpeek_spec h l xs : ring h l xs -> clist_lpeek l h = Ret (head xs) h.
Proof.
  intros Hr. unfold clist_lpeek. destruct (list_snoc_case xs) as [->|(ys & z & ->)].
  { destruct Hr as (_ & Hl & _). by rewrite (bind_ret _ _ _ _ _ (load_ok _ _ _ Hl)). }
  apply ring_ends in Hr as (Hl & Hz & _).
  rewrite (bind_ret _ _ _ _ _ (load_ok _ _ _ Hl)). by eapply load2_ok.
Qed.

Lemma rpeek_spec h l xs : ring h l xs -> clist_rpeek l h = Ret (last xs) h.
Proof. intros (_ & Hl & _). by apply load_ok. Qed.

(** ** list.h on NULL-terminated lists *)

Lemma list_remove_head_spec h l xs :
  chain h l xs ->
  exists h', list_remove_head l h = Ret (head xs) h' /\ chain h' l (tail xs) /\
             frame h h' [l].
Proof.
  intros [Hd Hs]. unfold list_remove_head. destruct xs as [|x r]; cbn in *.
  { exists h. rewrite (bind_ret _ _ _ _ _ (load_ok _ _ _ Hs)). split; [done|]. by split. }
  destruct Hs as [Hl Hs]. pose proof (seg_head _ _ _ _ Hs) as Hx.
  rewrite (bind_ret _ _ _ _ _ (load_ok _ _ _ Hl)), (bind_ret _ _ _ _ _ (load_ok _ _ _ Hx)).
  rewrite (bind_ret _ _ _ _ _ (store_ok _ _ _ _ Hl)).
  eexists. split; [done|]. split; [|frame_tac]. split; [nodup_tac|].
  apply (seg_delete h l [] x r None l); [done|done|done].
Qed.

Lemma list_add_spec h l pre suf node n :
  chain h l (pre ++ suf) -> last (l :: pre) = Some node ->
  n ∉ l :: pre ++ suf -> is_Some (h !! n) ->
  exists h', list_add node n h = Ret tt h' /\ chain h' l (pre ++ n :: suf) /\
             frame h h' [n; node].
Proof.
  intros [Hd Hs] Hw Hn [vn Hvn]. unfold list_add.
  pose proof (seg_mid _ _ _ _ _ _ Hs Hw) as Hnode.
  pose proof (last_Some_elem_of _ _ Hw) as Hin. assert (n <> node) by set_solver.
  rewrite (bind_ret _ _ _ _ _ (load_ok _ _ _ Hnode)), (bind_ret _ _ _ _ _ (store_ok _ _ _ _ Hvn)).
  erewrite store_ok by (by rewrite lookup_insert_ne).
  eexists. split; [done|]. split; [|frame_tac]. split; [nodup_tac|]. by apply seg_link.
Qed.

Lemma list_remove_spec fuel h l xs node :
  chain h l xs -> (length xs < fuel)%nat ->
  exists h', list_remove fuel l node h =
               Ret (if decide (node ∈ xs) then Some node else None) h' /\
             chain h' l (without node xs) /\ frame h h' (l :: xs) /\
             (node ∉ xs -> h' = h).
Proof.
  unfold list_remove. revert l fuel. induction xs as [|x r IH]; intros l fuel [Hd Hs] Hf;
    (destruct fuel as [|fuel]; cbn in Hf; [lia|]).
  { exists h. erewrite loop_exit; [|by rewrite (bind_ret _ _ _ _ _ (load_ok _ _ _ Hs))].
    rewrite decide_False by set_solver. done. }
  destruct Hs as [Hl Hs]. destruct (decide (x = node)) as [->|Hne].
  - pose proof (seg_head _ _ _ _ Hs) as Hx. eexists.
    erewrite loop_exit.
    2: { rewrite (bind_ret _ _ _ _ _ (load_ok _ _ _ Hl)), decide_True by done.
         rewrite (bind_ret _ _ _ _ _ (load_ok _ _ _ Hx)).
         by rewrite (bind_ret _ _ _ _ _ (store_ok _ _ _ _ Hl)). }
    rewrite decide_True by set_solver. split; [done|]. split; [|split; [frame_tac|set_solver]].
    assert (without node (node :: r) = r) as -> by (apply (without_split node [] r); nodup_tac).
    split; [nodup_tac|]. by apply (seg_delete h l [] node r None l).
  - destruct (IH x fuel) as (h' & Hh' & [Hd' Hs'] & Hfr & Hid); [|lia|].
    { split; [nodup_tac|done]. }
    exists h'. erewrite loop_next.
    2: { rewrite (bind_ret _ _ _ _ _ (load_ok _ _ _ Hl)), decide_False by done. done. }
    rewrite Hh'. split; [by repeat case_decide; set_solver|].
    unfold without in *. rewrite filter_cons_True by done.
    split; [|split; [eapply frame_weaken; [done|set_solver]|set_solver]].
    split.
    + apply NoDup_cons in Hd as [Hlx Hd]. apply NoDup_cons. split; [|done].
      intros [->|[_ Hin]%list_elem_of_filter]%elem_of_cons; set_solver.
    + cbn. split; [|done]. destruct Hfr as [Hfr _]. rewrite Hfr; [done|nodup_tac].
Qed.
(** Cutting a segment behind its last node. *)
Lemma seg_set_last h p xs v w t :
  seg h p xs v -> NoDup (p :: xs) -> last (p :: xs) = Some t -> seg (<[t:=w]> h) p xs w.
Proof.
  revert p. induction xs as [|x r IH]; intros p Hs Hd Ht.
  { cbn in *. by simplify_map_eq. }
  destruct Hs as [Hp Hs]. apply NoDup_cons in Hd as [Hpx Hd]. rewrite last_cons_cons in Ht.
  split; [|by apply IH]. apply last_Some_elem_of in Ht. rewrite lookup_insert_ne; [done|set_solver].
Qed.

End clist_spec.
