(* ===== verification/ClistSort.v ===== *)
(** * clist_sort: the bottom-up merge sort of core/clist.c

    [_clist_sort] sorts a circular list in place: each pass merges
    neighbouring runs of [insize] nodes, [insize] doubles until one merge
    covers the whole list.  The program below is the C function on the node
    heap; [sort_pass] is the effect of one pass on the sequence of nodes.
    The refinement is [clist_sort_refines]. *)

From stdpp Require Import sorting.
From S2P Require Import Prelude Clist ClistSpec.

Section sort_program.
Context {A : Type} `{Countable A}.
Context (cmp : A -> A -> Z).

(** [x = p; p = p->next; if (p == oldhead) p = NULL] *)
Definition advance (oldhead p : A) : M (gmap A (option A)) (option A) :=
  let! v := load p in
  ret (if decide (v = Some oldhead) then None else v).

(** The [for] loop of lines 80-88: step [insize] places along from [p]. *)
Definition sort_split (fuel : nat) (oldhead p : A) (insize : Z)
    : M (gmap A (option A)) (option A * Z) :=
  loop fuel (fun '(i, q, psize) =>
    if i <? insize then
      let psize' := s16 (psize + 1) in
      let! v := load q in
      if decide (v = Some oldhead) then ret (inr (None, psize'))
      else
        match v with
        | None => ret (inr (None, psize'))
        | Some q' => ret (inl (s16 (i + 1), q', psize'))
        end
    else ret (inr (Some q, psize))) (0, p, 0).

(** Lines 96-125: which run the next node [e] comes from. *)
Definition merge_select (oldhead : A) (p : option A) (psize : Z) (q : option A) (qsize : Z)
    : M (gmap A (option A)) (A * option A * Z * option A * Z) :=
  if psize =? 0 then
    let! e := unwrap NullDeref q in
    let! q' := advance oldhead e in
    ret (e, p, psize, q', s16 (qsize - 1))
  else if (qsize =? 0) || bool_decide (q = None) then
    let! e := unwrap NullDeref p in
    let! p' := advance oldhead e in
    ret (e, p', s16 (psize - 1), q, qsize)
  else
    let! x := unwrap NullDeref p in
    let! y := unwrap NullDeref q in
    if cmp x y <=? 0 then
      let! p' := advance oldhead x in
      ret (x, p', s16 (psize - 1), q, qsize)
    else
      let! q' := advance oldhead y in
      ret (y, p, psize, q', s16 (qsize - 1)).

(** The [while] loop of lines 94-135: merge the [p] run and the [q] run onto
    the end ([tail]) of [list]. *)
Definition sort_merge (fuel : nat) (oldhead : A)
    : option A * Z * option A * Z * option A * option A ->
      M (gmap A (option A)) (option A * option A * option A) :=
  loop fuel (fun '(p, psize, q, qsize, list, tail) =>
    if (0 <? psize) || ((0 <? qsize) && bool_decide (is_Some q)) then
      let! '(e, p', psize', q', qsize') := merge_select oldhead p psize q qsize in
      do! match tail with Some t => store t (Some e) | None => ret tt end;
      let list' := match tail with Some _ => list | None => Some e end in
      ret (inl (p', psize', q', qsize', list', Some e))
    else ret (inr (list, tail, q))).

(** One pass, lines 75-139: [while (p)] split off and merge two runs. *)
Definition sort_run_step (fuel : nat) (oldhead : A) (insize : Z)
    '((p, list, tail, nmerges) : option A * option A * option A * Z)
    : M (gmap A (option A))
        ((option A * option A * option A * Z) + (option A * option A * Z)) :=
  match p with
  | None => ret (inr (list, tail, nmerges))
  | Some p0 =>
      let nmerges' := s16 (nmerges + 1) in
      let! '(q, psize) := sort_split fuel oldhead p0 insize in
      let! '(list', tail', q') :=
        sort_merge fuel oldhead (Some p0, psize, q, insize, list, tail) in
      ret (inl (q', list', tail', nmerges'))
  end.

Definition sort_run (fuel : nat) (oldhead : A) (insize : Z)
    : M (gmap A (option A)) (option A * option A * Z) :=
  loop fuel (sort_run_step fuel oldhead insize) (Some oldhead, None, None, 0).

(** One iteration of [while (1)], lines 65-153. *)
Definition clist_sort_step (fuel : nat) '((list, insize) : option A * Z)
    : M (gmap A (option A)) ((option A * Z) + option A) :=
  let! oldhead := unwrap NullDeref list in
  let! '(list', tail, nmerges) := sort_run fuel oldhead insize in
  let! t := unwrap NullDeref tail in
  do! store t list';
  if nmerges <=? 1 then ret (inr tail)
  else ret (inl (list', s16 (insize * 2))).

Definition _clist_sort (fuel : nat) (list : option A) : M (gmap A (option A)) (option A) :=
  match list with
  | None => ret None
  | Some l0 =>
      loop fuel (clist_sort_step fuel) (Some l0, 1)
  end.

Definition clist_sort (fuel : nat) (list : A) : M (gmap A (option A)) unit :=
  let! nx := load list in
  match nx with
  | None => ret tt
  | Some _ =>
      let! first := load2 list in
      let! last := _clist_sort fuel first in
      store list last
  end.
End sort_program.

(** ** The sequence a pass computes *)

Section sort_pure.
Context {A : Type} (R : relation A) `{!RelDecision R}.
Implicit Types xs ys ps qs : list A.

Fixpoint sort_pass (n k : nat) (xs : list A) : list A :=
  match n, xs with
  | O, _ | _, [] => []
  | Datatypes.S n', _ =>
      list_merge R (take k xs) (take k (drop k xs)) ++ sort_pass n' k (drop (k + k) xs)
  end.

(** [xs] is a sequence of sorted runs of [k] nodes (the last may be shorter). *)
Inductive runs (k : nat) : list A -> Prop :=
  | runs_nil : runs k []
  | runs_cons xs : xs <> [] -> Sorted R (take k xs) -> runs k (drop k xs) -> runs k xs.

Lemma runs_one xs : runs 1 xs.
Proof.
  induction xs as [|x r IH]; constructor; [done| |done]. cbn. destruct r; repeat constructor.
Qed.

Lemma pass_nil n k : sort_pass n k [] = [].
Proof. by destruct n. Qed.

Lemma pass_perm n k xs :
  (0 < k)%nat -> (length xs <= n)%nat -> sort_pass n k xs ≡ₚ xs.
Proof.
  intros Hk. revert xs. induction n as [|n IH]; intros xs Hn.
  { destruct xs; cbn in Hn; [done|lia]. }
  destruct xs as [|x r]; [done|]. cbn [sort_pass].
  set (ys := x :: r) in *. rewrite IH.
  2: { rewrite length_drop. cbn in *. lia. }
  rewrite merge_Permutation. rewrite <- drop_drop, <- app_assoc, take_drop. by rewrite take_drop.
Qed.

Context `{!Total R} `{!Transitive R}.

Lemma merge_sorted ps qs : Sorted R ps -> Sorted R qs -> Sorted R (list_merge R ps qs).
Proof. by apply Sorted_list_merge. Qed.

Lemma runs_take k xs : runs k xs -> Sorted R (take k xs).
Proof. intros [|]; [by rewrite take_nil; constructor|done]. Qed.

Lemma runs_drop k xs : runs k xs -> runs k (drop k xs).
Proof. intros [|]; [by rewrite drop_nil; constructor|done]. Qed.

Lemma pass_sorts n k xs :
  (0 < k)%nat -> (length xs <= n)%nat -> runs k xs -> runs (k + k) (sort_pass n k xs).
Proof.
  intros Hk. revert xs. induction n as [|n IH]; intros xs Hn Hr; [constructor|].
  destruct xs as [|x r]; [constructor|]. cbn [sort_pass].
  set (ys := x :: r) in *. assert (length ys <> 0)%nat as Hy by done.
  assert (length (list_merge R (take k ys) (take k (drop k ys))) =
          Nat.min (k + k) (length ys)) as Hlen.
  { rewrite (Permutation_length (merge_Permutation _ _ _)).
    rewrite length_app, !length_take, length_drop. lia. }
  assert (Sorted R (list_merge R (take k ys) (take k (drop k ys)))) as Hs.
  { apply merge_sorted; [by apply runs_take|]. by apply runs_take, runs_drop. }
  assert (drop (k + k) ys = [] \/ (k + k < length ys)%nat) as [Hd|Hd].
  { destruct (decide (length ys <= k + k)%nat); [left; by apply drop_ge|right; lia]. }
  - rewrite Hd, pass_nil, app_nil_r. constructor.
    + intros E. rewrite E in Hlen. cbn in Hlen. lia.
    + rewrite take_ge by lia. done.
    + rewrite drop_ge by lia. constructor.
  - constructor.
    + intros E. apply app_eq_nil in E as [E _]. rewrite E in Hlen. cbn in Hlen. lia.
    + rewrite take_app_length' by lia. done.
    + rewrite drop_app_length' by lia. rewrite <- drop_drop. apply IH.
      * rewrite !length_drop. cbn in *. lia.
      * by apply runs_drop, runs_drop.
Qed.

(** Stability: the nodes equivalent to [x] keep their order. *)
Definition equiv_to (x y : A) : Prop := R x y /\ R y x.

#[local] Instance equiv_to_dec x y : Decision (equiv_to x y).
Proof. unfold equiv_to. apply _. Defined.

Lemma merge_stable x ps qs :
  Sorted R ps -> Sorted R qs ->
  filter (equiv_to x) (list_merge R ps qs) = filter (equiv_to x) (ps ++ qs).
Proof.
  intros Hp Hq. apply Sorted_StronglySorted in Hp; [|done].
  revert qs Hq. induction Hp as [|p ps Hp IHp Hhd]; intros qs Hq; [by destruct qs|].
  induction qs as [|q qs IHq]; [by rewrite app_nil_r|].
  rewrite list_merge_cons. case_decide as Hpq.
  - rewrite !filter_cons, IHp by done. by rewrite <- filter_cons.
  - apply Sorted_inv in Hq as [Hq _]. rewrite filter_cons.
    rewrite IHq by done. rewrite !filter_app, (filter_cons _ q). case_decide as Hx; [|done].
    assert (filter (equiv_to x) (p :: ps) = []) as ->; [|done].
    destruct (filter (equiv_to x) (p :: ps)) as [|a l] eqn:E; [done|]. exfalso.
    assert (a ∈ filter (equiv_to x) (p :: ps)) as Ha by (rewrite E; set_solver).
    apply list_elem_of_filter in Ha as [[H1 H2] Ha]. apply Hpq.
    destruct Hx as [Hx1 Hx2].
    assert (R p a). { apply elem_of_cons in Ha as [->|Ha]; [by destruct (total R p p)|].
      by eapply Forall_forall in Hhd. }
    by trans a; [|trans x].
Qed.

Lemma pass_stable n k x xs :
  (0 < k)%nat -> (length xs <= n)%nat -> runs k xs ->
  filter (equiv_to x) (sort_pass n k xs) = filter (equiv_to x) xs.
Proof.
  intros Hk. revert xs. induction n as [|n IH]; intros xs Hn Hr.
  { destruct xs; cbn in Hn; [done|lia]. }
  destruct xs as [|y r]; [done|]. cbn [sort_pass].
  set (ys := y :: r) in *. rewrite filter_app, merge_stable, IH.
  - rewrite <- filter_app, <- app_assoc, <- drop_drop, take_drop, take_drop. done.
  - rewrite length_drop. cbn in *. lia.
  - rewrite <- drop_drop. by apply runs_drop, runs_drop.
  - by apply runs_take.
  - by apply runs_take, runs_drop.
Qed.
End sort_pure.

(** ** Refinement *)

Section sort_refine.
Context {A : Type} `{Countable A}.
Context (cmp : A -> A -> Z).
Implicit Types (h : gmap A (option A)) (p l x y z e : A) (os ps qr xs ys : list A).

Definition cmp_le (x y : A) : Prop := cmp x y <= 0.
#[export] Instance cmp_le_dec : RelDecision cmp_le.
Proof. intros x y. unfold cmp_le. apply _. Defined.

(** A linked run whose last node holds anything (nodes already merged, or
    the [p] run), and one whose last node holds [w]. *)
Definition run_any h os : Prop :=
  match os with [] => True | o :: r => exists v, seg h o r v end.
Definition run_to h qr (w : option A) : Prop :=
  match qr with [] => True | o :: r => seg h o r w end.

Lemma run_to_any h qr w : run_to h qr w -> run_any h qr.
Proof. destruct qr; cbn; eauto. Qed.

Lemma run_any_ext h h' os :
  (forall a, a ∈ os -> h' !! a = h !! a) -> run_any h os -> run_any h' os.
Proof. destruct os; cbn; [done|]. intros He [v Hv]. exists v. by eapply seg_ext. Qed.

Lemma run_to_ext h h' qr w :
  (forall a, a ∈ qr -> h' !! a = h !! a) -> run_to h qr w -> run_to h' qr w.
Proof. destruct qr; cbn; [done|]. intros He. by apply seg_ext. Qed.

Lemma run_any_tail h x os : run_any h (x :: os) -> run_any h os.
Proof. intros [v Hv]. destruct os as [|y os]; [done|]. exists v. apply Hv. Qed.

Lemma run_to_tail h x qr w : run_to h (x :: qr) w -> run_to h qr w.
Proof. intros Hv. destruct qr as [|y os]; [done|]. apply Hv. Qed.

Lemma run_any_head h x y os : run_any h (x :: y :: os) -> h !! x = Some (Some y).
Proof. intros [v Hv]. apply Hv. Qed.

Lemma run_any_alive h os a : run_any h os -> a ∈ os -> is_Some (h !! a).
Proof. destruct os; [set_solver|]. intros [v Hv] Ha. by eapply seg_alive. Qed.

Lemma run_to_split h ps qr w :
  run_to h (ps ++ qr) w -> run_any h ps /\ run_to h qr w.
Proof.
  destruct ps as [|x ps]; [done|]. destruct qr as [|y qr].
  { rewrite app_nil_r. intros Hs. split; [by eapply run_to_any|done]. }
  cbn. rewrite seg_app. cbn. intros [? ?]. split; [eexists|]; done.
Qed.

(** Appending [e] to the merged run. *)
Lemma append_node h os e :
  run_any h os -> NoDup (os ++ [e]) -> is_Some (h !! e) ->
  exists h1,
    match last os with Some t => store t (Some e) | None => ret tt end h = Ret tt h1 /\
    run_any h1 (os ++ [e]) /\ frame h h1 os.
Proof.
  intros Ho Hd [v Hv]. destruct (list_snoc_case os) as [->|(ys & t & ->)].
  { exists h. cbn. split; [done|]. split; [by exists v|by split]. }
  rewrite last_snoc. destruct (run_any_alive h _ t Ho) as [vt Hvt]; [set_solver|].
  rewrite (store_ok _ _ _ _ Hvt). eexists. split; [done|]. split.
  - destruct (ys ++ [t]) as [|o r] eqn:E; [by destruct ys|]. destruct Ho as [w Ho].
    assert (last (o :: r) = Some t) as Ht by (rewrite <- E; apply last_snoc).
    apply NoDup_app in Hd as (Hd & He & _).
    exists v. apply seg_app. split; [by eapply seg_set_last|]. cbn.
    rewrite lookup_insert_ne; [done|]. intros ->. apply (He e); [|set_solver].
    by apply last_Some_elem_of.
  - apply frame_insert; [set_solver|]. by split.
Qed.

Lemma advance_ok h oldhead e v :
  h !! e = Some v -> advance oldhead e h = Ret (if decide (v = Some oldhead) then None else v) h.
Proof. intros Hv. unfold advance. by rewrite (bind_ret _ _ _ _ _ (load_ok _ _ _ Hv)). Qed.

(** Advancing inside a run that ends at [oldhead]. *)
Lemma advance_run h oldhead e qr :
  run_to h (e :: qr) (Some oldhead) -> oldhead ∉ qr ->
  advance oldhead e h = Ret (head qr) h.
Proof.
  intros Hs Hn. cbn in Hs. destruct qr as [|y r]; cbn in Hs.
  - by rewrite (advance_ok _ _ _ _ Hs), decide_True.
  - destruct Hs as [He _]. rewrite (advance_ok _ _ _ _ He), decide_False; [done|set_solver].
Qed.

Lemma sort_split_loop oldhead k : forall ys y j fuel h,
  (j <= k)%nat -> seg h y ys (Some oldhead) -> oldhead ∉ ys ->
  Z.of_nat (j + length (y :: ys)) < 2 ^ 15 -> Z.of_nat k < 2 ^ 15 ->
  (length (y :: ys) < fuel)%nat ->
  loop fuel (fun '(i, q, psize) =>
    if i <? Z.of_nat k then
      let psize' := s16 (psize + 1) in
      let! v := load q in
      if decide (v = Some oldhead) then ret (inr (None, psize'))
      else
        match v with
        | None => ret (inr (None, psize'))
        | Some q' => ret (inl (s16 (i + 1), q', psize'))
        end
    else ret (inr (Some q, psize))) (Z.of_nat j, y, Z.of_nat j) h
  = Ret (head (drop (k - j) (y :: ys)),
         Z.of_nat (j + Nat.min (k - j) (length (y :: ys)))) h.
Proof.
  induction ys as [|x ys IH]; intros y j fuel h Hj Hs Hn Hb Hk Hf;
    (destruct fuel as [|fuel]; cbn [length] in Hf; [lia|]); cbn [length] in *;
    (destruct (decide (j = k)) as [->|Hne];
     [apply loop_exit; rewrite (proj2 (Z.ltb_ge _ _)), Nat.sub_diag by lia;
      unfold ret; do 3 f_equal; lia|]).
  - apply loop_exit. rewrite (proj2 (Z.ltb_lt _ _)) by lia. cbn in Hs.
    rewrite (bind_ret _ _ _ _ _ (load_ok _ _ _ Hs)), decide_True by done.
    destruct (k - j)%nat as [|d] eqn:E; [lia|]. cbn [drop]. rewrite drop_nil.
    unfold ret. rewrite wraps_id; [|lia|unfold in_s; lia]. do 3 f_equal. lia.
  - destruct Hs as [Hy Hs]. erewrite loop_next.
    2: { rewrite (proj2 (Z.ltb_lt _ _)) by lia.
         rewrite (bind_ret _ _ _ _ _ (load_ok _ _ _ Hy)), decide_False by set_solver.
         rewrite wraps_id; [|lia|unfold in_s; lia].
         replace (Z.of_nat j + 1) with (Z.of_nat (Datatypes.S j)) by lia. done. }
    rewrite IH; [|lia|done|set_solver|cbn [length]; lia|done|cbn [length]; lia].
    destruct (k - j)%nat as [|d] eqn:E; [lia|]. replace (k - Datatypes.S j)%nat with d by lia.
    cbn [drop length]. do 3 f_equal. lia.
Qed.

Lemma sort_split_spec fuel oldhead k y ys h :
  seg h y ys (Some oldhead) -> oldhead ∉ ys -> Z.of_nat (length (y :: ys)) < 2 ^ 15 ->
  Z.of_nat k < 2 ^ 15 -> (length (y :: ys) < fuel)%nat ->
  sort_split fuel oldhead y (Z.of_nat k) h =
    Ret (head (drop k (y :: ys)), Z.of_nat (Nat.min k (length (y :: ys)))) h.
Proof.
  intros Hs Hn Hb Hk Hf. unfold sort_split.
  pose proof (sort_split_loop oldhead k ys y 0 fuel h) as Hl.
  rewrite Nat.sub_0_r in Hl. apply Hl; [lia|done..].
Qed.

(** The run the selected node comes from loses its head. *)
Definition picked ps qr (k : nat) e ps' qr' (k' : nat) : Prop :=
  (ps = e :: ps' /\ qr' = qr /\ k' = k) \/
  (ps' = ps /\ qr = e :: qr' /\ k = Datatypes.S k').

Lemma merge_select_spec h oldhead (p : option A) ps qr k :
  run_any h ps -> run_to h qr (Some oldhead) ->
  oldhead ∉ tail ps -> oldhead ∉ tail qr ->
  (forall x, head ps = Some x -> p = Some x) ->
  Z.of_nat (length ps) < 2 ^ 15 -> Z.of_nat k < 2 ^ 15 ->
  ps <> [] \/ (k <> 0%nat /\ qr <> []) ->
  exists e (p' : option A) ps' qr' k',
    merge_select cmp oldhead p (Z.of_nat (length ps)) (head qr) (Z.of_nat k) h =
      Ret (e, p', Z.of_nat (length ps'), head qr', Z.of_nat k') h /\
    picked ps qr k e ps' qr' k' /\
    (forall x, head ps' = Some x -> p' = Some x) /\
    list_merge cmp_le ps (take k qr) = e :: list_merge cmp_le ps' (take k' qr').
Proof.
  intros Hp Hq Hnp Hnq Hhd Hlp Hlk Hne. unfold merge_select.
  destruct ps as [|x ps].
  { destruct Hne as [?|[Hk Hq0]]; [done|]. destruct qr as [|y qr]; [done|].
    destruct k as [|k]; [done|]. exists y, p, [], qr, k. change (Z.of_nat (length [])) with 0.
    rewrite Z.eqb_refl. unfold unwrap. cbn [head]. rewrite (bind_ret _ _ _ y h) by done.
    rewrite (bind_ret _ _ _ _ _ (advance_run _ _ _ _ Hq Hnq)).
    rewrite wraps_id; [|lia|unfold in_s; lia].
    split; [unfold ret; do 3 f_equal; lia|]. split; [by right|]. split; [done|].
    cbn [take]. by destruct (take k qr). }
  assert (p = Some x) as -> by by apply Hhd.
  assert (forall h0, run_any h0 (x :: ps) -> exists p' : option A, advance oldhead x h0 = Ret p' h0 /\
            (forall y, head ps = Some y -> p' = Some y)) as Hadv.
  { intros h0 [v Hv]. destruct ps as [|y ps].
    - rewrite (advance_ok _ _ _ _ Hv). by eexists.
    - destruct Hv as [Hx _]. rewrite (advance_ok _ _ _ _ Hx), decide_False by set_solver.
      eexists. split; [done|]. done. }
  destruct (Hadv h Hp) as (p' & Hp' & Hhd').
  assert (s16 (Z.of_nat (length (x :: ps)) - 1) = Z.of_nat (length ps)) as Hlen.
  { rewrite wraps_id; [cbn [length]; lia|lia|]. unfold in_s. cbn [length] in *. lia. }
  rewrite (proj2 (Z.eqb_neq _ _)) by (cbn [length]; lia).
  destruct (bool_decide_reflect (head qr = None)) as [Eq|Eq].
  { rewrite orb_true_r. exists x, p', ps, qr, k. unfold unwrap.
    rewrite (bind_ret _ _ _ x h), (bind_ret _ _ _ _ _ Hp'), Hlen by done.
    split; [done|]. split; [by left|]. split; [done|].
    destruct qr; [|done]. rewrite take_nil. by destruct ps. }
  destruct qr as [|y qr]; [done|]. rewrite orb_false_r.
  destruct k as [|k].
  { change (Z.of_nat 0) with 0. rewrite Z.eqb_refl.
    exists x, p', ps, (y :: qr), 0%nat. unfold unwrap.
    rewrite (bind_ret _ _ _ x h), (bind_ret _ _ _ _ _ Hp'), Hlen by done.
    split; [done|]. split; [by left|]. split; [done|]. cbn [take]. by destruct ps. }
  rewrite (proj2 (Z.eqb_neq _ _)) by lia. cbn [head]. unfold unwrap.
  rewrite (bind_ret _ _ _ x h), (bind_ret _ _ _ y h) by done.
  cbn [take]. rewrite list_merge_cons. unfold cmp_le at 2.
  destruct (Z.leb_spec (cmp x y) 0) as [Hc|Hc].
  - exists x, p', ps, (y :: qr), (Datatypes.S k).
    rewrite (bind_ret _ _ _ _ _ Hp'), Hlen.
    split; [done|]. split; [by left|]. split; [done|]. by rewrite decide_True.
  - exists y, (Some x), (x :: ps), qr, k.
    rewrite (bind_ret _ _ _ _ _ (advance_run _ _ _ _ Hq Hnq)).
    rewrite wraps_id; [|lia|unfold in_s; lia].
    split; [unfold ret; do 3 f_equal; lia|]. split; [by right|]. split; [done|].
    rewrite decide_False by (unfold cmp_le; lia). done.
Qed.

Lemma head_append os e :
  match last os with Some _ => head os | None => Some e end = head (os ++ [e]).
Proof. destruct os; [done|]. by rewrite last_cons_cases. Qed.

Lemma sort_merge_spec fuel oldhead : forall h (p : option A) ps qr os k,
  run_any h ps -> run_to h qr (Some oldhead) -> run_any h os ->
  NoDup (os ++ ps ++ qr) -> oldhead ∉ tail ps -> oldhead ∉ tail qr ->
  (forall x, head ps = Some x -> p = Some x) ->
  Z.of_nat (length ps) < 2 ^ 15 -> Z.of_nat k < 2 ^ 15 ->
  (length ps + length (take k qr) < fuel)%nat ->
  exists h',
    sort_merge cmp fuel oldhead
      (p, Z.of_nat (length ps), head qr, Z.of_nat k, head os, last os) h =
    Ret (head (os ++ list_merge cmp_le ps (take k qr)),
         last (os ++ list_merge cmp_le ps (take k qr)), head (drop k qr)) h' /\
    run_any h' (os ++ list_merge cmp_le ps (take k qr)) /\
    run_to h' (drop k qr) (Some oldhead) /\ frame h h' (os ++ ps ++ qr).
Proof.
  induction fuel as [|fuel IH]; intros h p ps qr os k Hp Hq Ho Hd Hnp Hnq Hhd Hlp Hlk Hf; [lia|].
  destruct (decide (ps <> [] \/ (k <> 0%nat /\ qr <> []))) as [Hgo|Hstop].
  2: { assert (ps = []) as -> by (destruct ps; [done|]; destruct Hstop; by left).
       assert (take k qr = [] /\ drop k qr = qr) as [-> ->].
       { destruct qr; [by rewrite take_nil, drop_nil|]. destruct k; [done|].
         destruct Hstop. by right. }
       exists h. cbn [list_merge]. rewrite app_nil_r. split; [|by repeat split].
       apply loop_exit. cbn [length Z.of_nat Z.ltb orb].
       destruct ((0 <? Z.of_nat k) && bool_decide (is_Some (head qr))) eqn:E; [|done].
       apply andb_prop in E as [E1%Z.ltb_lt E2%bool_decide_eq_true].
       destruct Hstop. right. split; [lia|]. destruct qr; [by destruct E2|done]. }
  destruct (merge_select_spec h oldhead p ps qr k) as
    (e & p' & ps' & qr' & k' & Hsel & Hpick & Hhd' & Hm); [done..|].
  assert (e ∉ os /\ (e = default e (head ps) \/ e = default e (head qr)) /\
          is_Some (h !! e) /\ NoDup ((os ++ [e]) ++ ps' ++ qr')) as (He & _ & Hal & Hd').
  { destruct Hpick as [(-> & -> & ->)|(-> & -> & ->)].
    - split; [intros Ha; apply NoDup_app in Hd as (_ & Hd & _); apply (Hd _ Ha); in_list|].
      split; [by left|]. split; [eapply run_any_alive; [exact Hp|in_list]|].
      by rewrite <- app_assoc.
    - split; [intros Ha; apply NoDup_app in Hd as (_ & Hd & _); apply (Hd _ Ha); in_list|].
      split; [by right|]. split; [eapply run_any_alive; [eapply run_to_any; exact Hq|in_list]|].
      rewrite <- app_assoc. cbn [app]. by rewrite <- Permutation_middle in Hd. }
  destruct (append_node h os e) as (h1 & Hh1 & Ho1 & Hfr1); [done| |done|].
  { apply NoDup_app in Hd' as (? & _ & _). done. }
  assert (forall a, a ∈ ps' ++ qr' -> h1 !! a = h !! a) as Hsame.
  { intros a Ha. apply Hfr1. apply NoDup_app in Hd' as (_ & Hd' & _).
    intros Hos. apply (Hd' a); [set_solver + Hos|done]. }
  destruct (IH h1 p' ps' qr' (os ++ [e]) k') as (h' & Hh' & Ho' & Hq' & Hfr').
  - eapply run_any_ext; [intros a Ha; apply Hsame; set_solver + Ha|].
    destruct Hpick as [(-> & -> & ->)|(-> & -> & ->)]; [by eapply run_any_tail|done].
  - eapply run_to_ext; [intros a Ha; apply Hsame; set_solver + Ha|].
    destruct Hpick as [(-> & -> & ->)|(-> & -> & ->)]; [done|by eapply run_to_tail].
  - done.
  - done.
  - destruct Hpick as [(-> & -> & ->)|(-> & -> & ->)]; [|done]. cbn in Hnp.
    destruct ps'; set_solver + Hnp.
  - destruct Hpick as [(-> & -> & ->)|(-> & -> & ->)]; [done|]. cbn in Hnq.
    destruct qr'; set_solver + Hnq.
  - done.
  - destruct Hpick as [(-> & -> & ->)|(-> & -> & ->)]; cbn [length] in *; lia.
  - destruct Hpick as [(-> & -> & ->)|(-> & -> & ->)]; cbn [length] in *; lia.
  - destruct Hpick as [(-> & -> & ->)|(-> & -> & ->)]; cbn [length take] in *; lia.
  - exists h'. rewrite Hm.
    assert (os ++ e :: list_merge cmp_le ps' (take k' qr') =
            (os ++ [e]) ++ list_merge cmp_le ps' (take k' qr')) as Eapp by by rewrite <- app_assoc.
    assert (drop k qr = drop k' qr') as Edrop
      by (destruct Hpick as [(-> & -> & ->)|(-> & -> & ->)]; done).
    rewrite Eapp, Edrop. split; [|split; [done|split; [done|]]].
    + unfold sort_merge in *. erewrite loop_next; [exact Hh'|].
      replace ((0 <? Z.of_nat (length ps)) || ((0 <? Z.of_nat k) && bool_decide (is_Some (head qr))))
        with true.
      2: { symmetry. apply orb_true_iff. destruct Hgo as [Hps|[Hk Hqr]].
           - left. apply Z.ltb_lt. destruct ps; [done|cbn; lia].
           - right. rewrite bool_decide_true by (destruct qr; [done|cbn; eauto]).
             rewrite (proj2 (Z.ltb_lt _ _)); [done|lia]. }
      rewrite (bind_ret _ _ _ _ _ Hsel), (bind_ret _ _ _ _ _ Hh1), head_append, last_snoc.
      done.
    + eapply frame_trans; [eapply frame_weaken; [exact Hfr1|intros a; in_list]|].
      eapply frame_weaken; [exact Hfr'|].
      destruct Hpick as [(-> & -> & ->)|(-> & -> & ->)]; intros a; in_list.
Qed.

(** One merge of a pass, on the node sequences. *)
Lemma sort_run_step_spec fuel h oldhead k rest os m y :
  head rest = Some y -> run_to h rest (Some oldhead) -> run_any h os ->
  NoDup (os ++ rest) -> oldhead ∉ tail rest ->
  (0 < k)%nat -> Z.of_nat k < 2 ^ 15 -> Z.of_nat (length rest) < 2 ^ 15 ->
  (length rest < fuel)%nat -> in_s 16 (m + 1) ->
  let out := list_merge cmp_le (take k rest) (take k (drop k rest)) in
  let rest' := drop (k + k) rest in
  exists h',
    sort_run_step cmp fuel oldhead (Z.of_nat k) (Some y, head os, last os, m) h =
      Ret (inl (head rest', head (os ++ out), last (os ++ out), m + 1)) h' /\
    run_any h' (os ++ out) /\ run_to h' rest' (Some oldhead) /\
    frame h h' (os ++ rest).
Proof.
  intros Hy Hr Ho Hd Hn Hk Hkb Hb Hf Hm out rest'.
  destruct rest as [|y' r]; [done|]. cbn in Hy. injection Hy as ->.
  assert (oldhead ∉ tail (take k (y :: r)) /\ oldhead ∉ tail (drop k (y :: r))) as [Hnt Hnd].
  { cbn [tail] in Hn. destruct k as [|k]; [lia|]. cbn [take drop tail] in *.
    rewrite <- (take_drop k r) in Hn. apply not_elem_of_app in Hn as [H1 H2].
    split; [done|]. destruct (drop k r); [done|]. cbn. set_solver. }
  pose proof Hr as Hr0. rewrite <- (take_drop k (y :: r)) in Hr0.
  apply run_to_split in Hr0 as [Hrp Hrq].
  unfold sort_run_step. rewrite (wraps_id 16 (m + 1)) by (lia || done).
  cbn [tail] in Hn.
  rewrite (bind_ret _ _ _ _ _ (sort_split_spec fuel oldhead k y r h Hr Hn Hb Hkb Hf)).
  rewrite <- length_take.
  destruct (sort_merge_spec fuel oldhead h (Some y) (take k (y :: r)) (drop k (y :: r)) os k)
    as (h' & Hm' & Ho' & Hq' & Hfr).
  - done.
  - done.
  - done.
  - by rewrite take_drop.
  - done.
  - done.
  - intros x. destruct k; [lia|]. done.
  - rewrite length_take. lia.
  - done.
  - rewrite !length_take, length_drop. lia.
  - exists h'. rewrite (bind_ret _ _ _ _ _ Hm'). unfold rest'. rewrite <- drop_drop.
    split; [done|]. split; [done|]. split; [done|]. by rewrite take_drop in Hfr.
Qed.

(** A whole pass computes [sort_pass]; [nmerges] tells whether one merge
    covered the list. *)
Lemma sort_run_loop fuel oldhead k np : forall n h rest os m,
  run_to h rest (Some oldhead) -> run_any h os -> NoDup (os ++ rest) ->
  oldhead ∉ tail rest -> (0 < k)%nat -> Z.of_nat k < 2 ^ 15 ->
  Z.of_nat (length rest) < 2 ^ 15 -> (length rest < fuel)%nat ->
  (length rest <= np < n)%nat -> 0 <= m -> m + Z.of_nat (length rest) < 2 ^ 15 ->
  exists h' m',
    loop n (sort_run_step cmp fuel oldhead (Z.of_nat k)) (head rest, head os, last os, m) h =
      Ret (head (os ++ sort_pass cmp_le np k rest),
           last (os ++ sort_pass cmp_le np k rest), m') h' /\
    run_any h' (os ++ sort_pass cmp_le np k rest) /\ frame h h' (os ++ rest) /\
    m <= m' /\ (m' = m <-> rest = []) /\ (m' <= m + 1 <-> (length rest <= k + k)%nat).
Proof.
  induction np as [|np IH]; intros n h rest os m Hr Ho Hd Hn Hk Hkb Hb Hf Hnp Hm Hmb;
    (destruct n as [|n]; [lia|]);
    (destruct rest as [|y r];
     [exists h, m; rewrite pass_nil, app_nil_r; split; [by apply loop_exit|];
      split; [done|]; split; [apply frame_refl|]; split; [lia|]; split; [done|]; cbn; lia|]).
  { cbn in Hnp. lia. }
  destruct (sort_run_step_spec fuel h oldhead k (y :: r) os m y)
    as (h1 & Hs & Ho1 & Hr1 & Hfr1); [done..| |].
  { unfold in_s. cbn [length] in *. lia. }
  cbn [sort_pass].
  set (out := list_merge cmp_le (take k (y :: r)) (take k (drop k (y :: r)))) in *.
  set (rest' := drop (k + k) (y :: r)) in *.
  assert (out ++ rest' ≡ₚ y :: r) as Hperm.
  { unfold out, rest'. rewrite merge_Permutation, <- drop_drop, <- app_assoc.
    by rewrite !take_drop. }
  assert (length rest' = length (y :: r) - (k + k))%nat as Hlen by apply length_drop.
  cbn [length] in *.
  destruct (IH n h1 rest' (os ++ out) (m + 1)) as (h' & m' & Hl & Ho' & Hfr' & Hm1 & Hm2 & Hm3);
    [done|done| | |done|done|lia|lia|lia|lia|lia|].
  - by rewrite <- app_assoc, Hperm.
  - intros Ht. apply Hn. cbn [tail]. unfold rest' in Ht. clear -Ht Hk.
    destruct (k + k)%nat as [|d] eqn:E; [lia|]. cbn [drop] in Ht.
    rewrite <- (take_drop d r). apply elem_of_app. right. destruct (drop d r); set_solver.
  - exists h', m'. rewrite <- app_assoc in Hl, Ho'.
    split; [by rewrite (loop_next _ _ _ _ _ _ Hs)|]. split; [done|].
    split; [|split; [lia|split; [split; [lia|done]|]]].
    + eapply frame_trans; [exact Hfr1|]. eapply frame_weaken; [exact Hfr'|].
      rewrite <- app_assoc, Hperm. done.
    + rewrite Hlen in Hm3. destruct rest' as [|z zs] eqn:E; cbn [length] in Hlen.
      * assert (m' = m + 1) as -> by by apply Hm2. split; lia.
      * assert (m' <> m + 1) by (intros Em; by apply Hm2 in Em). split; lia.
Qed.

(** One iteration of the outer loop: a pass, and the ring closed again. *)
Lemma clist_sort_step_spec fuel h k ys :
  run_to h ys (head ys) -> ys <> [] -> NoDup ys -> (0 < k)%nat -> Z.of_nat k < 2 ^ 15 ->
  Z.of_nat (length ys) < 2 ^ 15 -> (length ys < fuel)%nat ->
  let ys' := sort_pass cmp_le (length ys) k ys in
  exists h',
    clist_sort_step cmp fuel (head ys, Z.of_nat k) h =
      Ret (if decide (length ys <= k + k)%nat then inr (last ys')
           else inl (head ys', Z.of_nat (k + k))) h' /\
    run_to h' ys' (head ys') /\ frame h h' ys.
Proof.
  intros Hr Hne Hd Hk Hkb Hb Hf ys'. destruct ys as [|y r]; [done|]. cbn [head] in Hr.
  assert (ys' ≡ₚ y :: r) as Hperm by by apply pass_perm.
  destruct (sort_run_loop fuel y k (length (y :: r)) fuel h (y :: r) [] 0)
    as (h1 & m & Hl & Ho & Hfr & _ & _ & Hm); [done|done|done| |done|done|done|done|lia|lia|lia|].
  { cbn. by apply NoDup_cons in Hd as [? _]. }
  cbn [app] in Hl, Ho. fold ys' in Hl, Ho. unfold clist_sort_step, sort_run. cbn [head].
  unfold unwrap at 1. rewrite (bind_ret _ _ _ y h) by done.
  rewrite (bind_ret _ _ _ _ _ Hl).
  destruct (list_snoc_case ys') as [E|(zs & t & E)].
  { rewrite E in Hperm. by apply Permutation_nil_l in Hperm. }
  assert (last ys' = Some t) as Ht by (rewrite E; apply last_snoc).
  rewrite Ht. unfold unwrap. rewrite (bind_ret _ _ _ t h1) by done.
  destruct (run_any_alive h1 ys' t Ho) as [v Hv]; [rewrite E; in_list|].
  rewrite (bind_ret _ _ _ _ _ (store_ok _ _ _ _ Hv)).
  exists (<[t := head ys']> h1). split; [|split].
  - destruct (decide (length (y :: r) <= k + k)%nat) as [Hc|Hc].
    + by rewrite (proj2 (Z.leb_le _ _)) by (apply Hm; lia).
    + rewrite (proj2 (Z.leb_gt _ _)) by lia. rewrite wraps_id; [|lia|unfold in_s; lia].
      unfold ret. do 4 f_equal. lia.
  - rewrite <- Hperm in Hd. destruct ys' as [|o os]; [done|]. destruct Ho as [w Ho].
    by eapply seg_set_last.
  - apply frame_insert; [|done]. rewrite <- Hperm, E. in_list.
Qed.

Context `{!Total cmp_le} `{!Transitive cmp_le}.

(** What sorting [xs] into [ys] means. *)
Definition sorted_version xs ys : Prop :=
  ys ≡ₚ xs /\ Sorted cmp_le ys /\
  forall x, filter (equiv_to cmp_le x) ys = filter (equiv_to cmp_le x) xs.

Lemma clist_sort_loop fuel xs n : forall h k ys,
  run_to h ys (head ys) -> ys <> [] -> NoDup ys -> (0 < k)%nat -> Z.of_nat k < 2 ^ 15 ->
  Z.of_nat (length ys) < 2 ^ 15 -> (length ys < fuel)%nat ->
  (length ys - k < n)%nat -> runs cmp_le k ys -> ys ≡ₚ xs ->
  (forall x, filter (equiv_to cmp_le x) ys = filter (equiv_to cmp_le x) xs) ->
  exists h' ys',
    loop n (clist_sort_step cmp fuel) (head ys, Z.of_nat k) h = Ret (last ys') h' /\
    run_to h' ys' (head ys') /\ frame h h' ys /\ sorted_version xs ys'.
Proof.
  induction n as [|n IH]; intros h k ys Hr Hne Hd Hk Hkb Hb Hf Hn Hru Hp Hst; [lia|].
  destruct (clist_sort_step_spec fuel h k ys) as (h1 & Hs & Hr1 & Hfr1); [done..|].
  set (ys' := sort_pass cmp_le (length ys) k ys) in *.
  assert (ys' ≡ₚ ys) as Hp' by by apply pass_perm.
  assert (runs cmp_le (k + k) ys') as Hru' by by apply pass_sorts.
  assert (forall x, filter (equiv_to cmp_le x) ys' = filter (equiv_to cmp_le x) xs) as Hst'.
  { intros x. rewrite <- Hst. by apply pass_stable. }
  assert (length ys' = length ys) as Hlen by by apply Permutation_length.
  destruct (decide (length ys <= k + k)%nat) as [Hc|Hc].
  - exists h1, ys'. split; [by apply loop_exit|]. split; [done|]. split; [done|].
    split; [by rewrite Hp'|]. split; [|done].
    apply runs_take in Hru'. rewrite take_ge in Hru' by lia. done.
  - destruct (IH h1 (k + k)%nat ys') as (h' & zs & Hl & Hrz & Hfr & Hv);
      [done| |by rewrite Hp'|lia|lia|lia|lia|lia|done|by rewrite Hp'|done|].
    { intros E. rewrite E in Hlen. by destruct ys. }
    exists h', zs. split; [by rewrite (loop_next _ _ _ _ _ _ Hs)|]. split; [done|].
    split; [|done]. eapply frame_trans; [done|]. eapply frame_weaken; [done|]. by rewrite Hp'.
Qed.

Lemma clist_sort_spec fuel h l xs :
  ring h l xs -> Z.of_nat (length xs) < 2 ^ 15 -> (length xs < fuel)%nat ->
  exists h' ys,
    clist_sort cmp fuel l h = Ret tt h' /\ ring h' l ys /\ sorted_version xs ys /\
    frame h h' (l :: xs).
Proof.
  intros Hr Hb Hf. unfold clist_sort.
  destruct xs as [|x r].
  { exists h, []. pose proof Hr as (_ & Hl & _).
    rewrite (bind_ret _ _ _ _ _ (load_ok _ _ _ Hl)).
    split; [done|]. split; [done|]. split; [by repeat constructor|apply frame_refl]. }
  destruct (ring_walk _ _ _ _ Hr) as (z & Hl & [Hz Hs] & _ & _).
  pose proof Hr as (Hd & _ & _).
  rewrite (bind_ret _ _ _ _ _ (load_ok _ _ _ Hl)).
  rewrite (bind_ret _ _ _ _ _ (load2_ok _ _ _ _ Hl Hz)). cbn [_clist_sort].
  apply NoDup_cons in Hd as [Hlx Hd].
  destruct (clist_sort_loop fuel (x :: r) fuel h 1 (x :: r))
    as (h1 & ys & Hlp & Hr1 & Hfr & Hv); [done|done|done|lia|done|done|done|lia| |done|done|].
  { apply runs_one. }
  change (Z.of_nat 1) with 1 in Hlp. cbn [head] in Hlp.
  rewrite (bind_ret _ _ _ _ _ Hlp).
  assert (h1 !! l = Some (Some z)) as Hl1 by (by rewrite (proj1 Hfr)).
  rewrite (store_ok _ _ _ _ Hl1). exists (<[l := last ys]> h1), ys.
  pose proof Hv as (Hp & _ & _). split; [done|]. split; [|split; [done|]].
  - split; [|split; [by simplify_map_eq|]].
    + rewrite Hp. by apply NoDup_cons.
    + destruct ys as [|y s]; [done|]. apply seg_insert; [by rewrite Hp|done].
  - apply frame_insert; [set_solver|]. eapply frame_weaken; [exact Hfr|set_solver].
Qed.
End sort_refine.
