(* ===== verification/ClistProps.v ===== *)
(** * Properties of the linked lists

    What core/include/clist.h, core/clist.c, core/include/list.h and the
    scheduler's copies of the clist operations promise to their clients,
    stated on the sequence a heap represents, with a concrete heap the
    theorems are applied to. *)

From stdpp Require Import sorting.
From S2P Require Import Prelude Clist ClistSpec ClistSort.

(** A ring headed by node 0 holding 1, 2, 3, and three loose nodes. *)
Definition demo_heap : gmap Z (option Z) :=
  list_to_map [(0, Some 3); (1, Some 2); (2, Some 3); (3, Some 1);
               (7, None); (8, None); (9, Some 7)].

Lemma demo_ring : ring demo_heap 0 [1; 2; 3].
Proof.
  split; [apply (bool_decide_unpack _); vm_compute; exact I|].
  split; [reflexivity|]. repeat split.
Qed.

Section props.
Context {A : Type} `{Countable A}.
Implicit Types (h : gmap A (option A)) (l n node : A) (xs : list A).

(** C18 The circular list of clist.h is a double-ended queue: on a heap whose
    ring at [l] holds [xs], every push, pop, peek, rotation and count
    terminates without a fault, returns what the sequence operation returns,
    leaves the ring holding the resulting sequence and changes no node
    outside the list. *)
Theorem clist_queue_refines h l n xs fuel :
  ring h l xs -> n ∉ l :: xs -> is_Some (h !! n) -> (length xs <= fuel)%nat ->
  (exists h', clist_rpush l n h = Ret tt h' /\ ring h' l (xs ++ [n]) /\
              frame h h' (n :: l :: xs)) /\
  (exists h', clist_lpush l n h = Ret tt h' /\ ring h' l (n :: xs) /\
              frame h h' (n :: l :: xs)) /\
  (exists h', clist_lpop l h = Ret (head xs) h' /\ ring h' l (tail xs) /\
              frame h h' (l :: xs)) /\
  (exists h', clist_rpop fuel l h = Ret (last xs) h' /\
              ring h' l (take (length xs - 1) xs) /\ frame h h' (l :: xs)) /\
  (exists h', clist_lpoprpush l h = Ret tt h' /\ ring h' l (rotate_l xs) /\
              frame h h' [l]) /\
  clist_lpeek l h = Ret (head xs) h /\
  clist_rpeek l h = Ret (last xs) h /\
  clist_count fuel l h = Ret (u16 (Z.of_nat (length xs))) h.
Proof.
  intros Hr Hn Ha Hf. split; [by apply rpush_spec|]. split; [by apply lpush_spec|].
  split; [destruct (lpop_spec h l xs Hr) as (h' & ? & ? & ? & _); by exists h'|].
  split; [by apply clist_rpop_spec|]. split; [by apply lpoprpush_spec|].
  split; [by apply lpeek_spec|]. split; [by apply rpeek_spec|by apply clist_count_spec].
Qed.

(** Searching and deleting in a circular list: [clist_find] returns the
    node exactly when it is in the ring and changes nothing; [clist_remove]
    deletes it wherever it is, first and last included, keeps the order of
    the others, and does nothing to a list that does not hold it;
    [clist_foreach] stops at the first node its callback accepts. *)
Theorem clist_search_refines h l xs node fuel
    (func : A -> M (gmap A (option A)) Z) (f : A -> Z) :
  ring h l xs -> (length xs <= fuel)%nat ->
  (forall a, a ∈ xs -> func a h = Ret (f a) h) ->
  clist_find fuel l node h = Ret (if decide (node ∈ xs) then Some node else None) h /\
  (exists h', clist_remove fuel l node h =
                Ret (if decide (node ∈ xs) then Some node else None) h' /\
              ring h' l (without node xs) /\ frame h h' (l :: xs) /\
              (node ∉ xs -> h' = h)) /\
  clist_foreach fuel l func h = Ret (head (filter (fun a => c_true (f a)) xs)) h.
Proof.
  intros Hr Hf Hfn. split; [by apply clist_find_spec|].
  split; [by apply clist_remove_spec|by apply clist_foreach_spec].
Qed.

(** The scheduler's private copies of the clist operations (sched.c) are
    the clist operations: on every heap, list and node they return the same
    value and leave the same heap, faults included. *)
Theorem sm_clist_equiv l n h :
  sm_clist_rpush l n h = clist_rpush l n h /\
  sm_clist_lpop l h = clist_lpop l h /\
  sm_clist_lpoprpush l h = clist_lpoprpush l h.
Proof. by rewrite sm_rpush_eq, sm_lpop_eq, sm_lpoprpush_eq. Qed.

(** C19 [clist_sort] terminates on every list of fewer than 2^15 nodes and
    leaves the ring holding a permutation of its nodes that is sorted by the
    comparison function and in which nodes the function calls equal keep
    their order; only nodes of the list are written. *)
Theorem clist_sort_refines (cmp : A -> A -> Z) fuel h l xs :
  Total (cmp_le cmp) -> Transitive (cmp_le cmp) ->
  ring h l xs -> Z.of_nat (length xs) < 2 ^ 15 -> (length xs < fuel)%nat ->
  exists h' ys,
    clist_sort cmp fuel l h = Ret tt h' /\ ring h' l ys /\
    ys ≡ₚ xs /\ Sorted (cmp_le cmp) ys /\
    (forall x, filter (equiv_to (cmp_le cmp) x) ys = filter (equiv_to (cmp_le cmp) x) xs) /\
    frame h h' (l :: xs).
Proof.
  intros HT HTr Hr Hb Hf.
  destruct (clist_sort_spec cmp fuel h l xs) as (h' & ys & Hs & Hr' & (Hp & Hso & Hst) & Hfr);
    [done..|].
  exists h', ys. done.
Qed.
End props.

Lemma clist_queue_refines_witness :
  (exists h', clist_rpush 0 9 demo_heap = Ret tt h' /\ ring h' 0 [1; 2; 3; 9]) /\
  clist_count 5 0 demo_heap = Ret 3 demo_heap.
Proof.
  assert (9 ∉ [0; 1; 2; 3]) as Hn by (apply (bool_decide_unpack _); vm_compute; exact I).
  destruct (clist_queue_refines demo_heap 0 9 [1; 2; 3] 5 demo_ring Hn ltac:(by eexists)
              ltac:(cbn; lia)) as ((h' & Hp & Hr & _) & _ & _ & _ & _ & _ & _ & Hc).
  split; [by exists h'|exact Hc].
Defined.

Lemma clist_search_refines_witness :
  exists h', clist_remove 5 0 2 demo_heap = Ret (Some 2) h' /\ ring h' 0 [1; 3].
Proof.
  destruct (clist_search_refines demo_heap 0 [1; 2; 3] 2 5 (fun _ => ret 0) (fun _ => 0)
              demo_ring ltac:(cbn; lia) ltac:(done)) as (_ & (h' & Hp & Hr & _) & _).
  exists h'. split; [exact Hp|exact Hr].
Defined.

Lemma clist_sort_refines_witness :
  exists h', clist_sort (fun a b => b - a) 5 0 demo_heap = Ret tt h' /\ ring h' 0 [3; 2; 1].
Proof.
  destruct (clist_sort_refines (fun a b => b - a) 5 demo_heap 0 [1; 2; 3])
    as (h' & ys & Hs & Hr & Hp & Hso & _).
  - intros a b. unfold cmp_le. lia.
  - intros a b c. unfold cmp_le. lia.
  - exact demo_ring.
  - reflexivity.
  - cbn. lia.
  - exists h'. split; [exact Hs|]. vm_compute in Hs. injection Hs as <-.
    split; [apply (bool_decide_unpack _); vm_compute; exact I|].
    split; [reflexivity|]. repeat split.
Defined.
