(* ===== verification/ListInsert.v ===== *)
(** * Stable insertion into a linked list

    The timers' lists and the threads' wait lists are singly linked lists
    that a loop walks along while an order holds, splicing the new node in
    where it stops.  Both are instances of one lemma, for any state that
    carries a heap of next pointers. *)

From stdpp Require Import sorting.
From S2P Require Import Prelude Clist ClistSpec.

(** ** On sequences *)

Section abstract.
Context {A : Type}.
Implicit Types (n x y : A) (xs : list A).

(** Behind every element that [le] holds of. *)
Fixpoint insert_by (le : A -> bool) (n : A) (xs : list A) : list A :=
  match xs with
  | [] => [n]
  | x :: r => if le x then x :: insert_by le n r else n :: xs
  end.

Lemma insert_perm le n xs : insert_by le n xs ≡ₚ n :: xs.
Proof.
  induction xs as [|x r IH]; cbn; [done|]. destruct (le x); [|done].
  rewrite IH. apply Permutation_swap.
Qed.

Lemma insert_split le n xs :
  exists pre suf, xs = pre ++ suf /\ insert_by le n xs = pre ++ n :: suf /\
    Forall (fun x => le x = true) pre /\ (forall x, head suf = Some x -> le x = false).
Proof.
  induction xs as [|x r (pre & suf & -> & E & Hp & Hs)]; [by exists [], []|]. cbn.
  destruct (le x) eqn:Ex; [|exists [], (x :: pre ++ suf); naive_solver].
  exists (x :: pre), suf. rewrite E. split; [done|]. split; [done|]. by split; [constructor|].
Qed.

Lemma insert_by_ext le le' n xs :
  (forall x, x ∈ xs -> le x = le' x) -> insert_by le n xs = insert_by le' n xs.
Proof.
  induction xs as [|x r IH]; intros Hle; [done|]. cbn. rewrite (Hle x), IH by set_solver. done.
Qed.
End abstract.

Lemma insert_by_fmap {A B} (f : B -> A) (le : A -> bool) n xs :
  insert_by le (f n) (f <$> xs) = f <$> insert_by (fun x => le (f x)) n xs.
Proof. induction xs as [|x r IH]; cbn; [done|]. destruct (le (f x)); [|done]. cbn. by rewrite IH. Qed.

Section order.
Context {A : Type} (R : relation A) `{!RelDecision R} `{!Transitive R} `{!Total R}.

Abbreviation ins n xs := (insert_by (fun x => bool_decide (R x n)) n xs).

Lemma insert_sorted n xs : Sorted R xs -> Sorted R (ins n xs).
Proof.
  intros Hs. apply Sorted_StronglySorted in Hs; [|exact _]. apply StronglySorted_Sorted.
  induction Hs as [|x r Hs IH Hx]; cbn.
  { repeat constructor. }
  case_bool_decide as Hc.
  - constructor; [done|]. rewrite Forall_forall in Hx |- *. intros y Hy.
    rewrite insert_perm in Hy. apply elem_of_cons in Hy as [->|Hy]; [done|]. by apply Hx.
  - constructor; [by constructor|]. assert (R n x) as Hnx by (by destruct (total R n x)).
    constructor; [done|]. eapply Forall_impl; [exact Hx|]. intros y Hy. by etransitivity.
Qed.

(** Elements as urgent as the new one stay in front of it. *)
Lemma insert_stable n xs :
  exists pre suf, xs = pre ++ suf /\ ins n xs = pre ++ n :: suf /\
    Forall (fun x => R x n) pre /\ (forall x, head suf = Some x -> ~ R x n).
Proof.
  induction xs as [|x r (pre & suf & -> & E & Hp & Hs)]; cbn.
  { exists [], []. naive_solver. }
  case_bool_decide as Hc.
  - exists (x :: pre), suf. rewrite E. split; [done|]. split; [done|]. split; [by constructor|done].
  - exists [], (x :: pre ++ suf). naive_solver.
Qed.
End order.

(** ** On a heap inside a state *)

Section insertion.
Context {A : Type} `{Countable A} {S : Type}.
Context (get : S -> gmap A (option A)) (put : gmap A (option A) -> S -> S).
Context (get_put : forall h s, get (put h s) = h).
Context (put_put : forall h h' s, put h (put h' s) = put h s).
Implicit Types (s : S) (n x p q l : A) (xs : list A).

Abbreviation at_heap m := (zoom get put m).

(** The walk: [body] follows [next] while [le] holds. *)
Definition walks s (le : A -> bool) xs (body : A -> M S (A + A)) : Prop :=
  (forall p, get s !! p = Some None -> body p s = Ret (inr p) s) /\
  (forall p q, get s !! p = Some (Some q) -> q ∈ xs ->
     body p s = Ret (if le q then inl q else inr p) s).

Lemma walk_ok s le body n xs : forall l fuel,
  walks s le xs body -> seg (get s) l xs None -> (length xs < fuel)%nat ->
  exists pre suf p, loop fuel body l s = Ret p s /\ xs = pre ++ suf /\
    last (l :: pre) = Some p /\ insert_by le n xs = pre ++ n :: suf.
Proof.
  induction xs as [|x r IH]; intros l [|fuel] [Hw1 Hw2] Hs Hf; cbn in Hf; try lia.
  - exists [], [], l. by rewrite (loop_exit _ _ _ _ _ _ (Hw1 _ Hs)).
  - destruct Hs as [Hl Hs]. assert (x ∈ x :: r) as Hx by apply list_elem_of_here.
    specialize (Hw2 _ _ Hl Hx) as Hb. cbn [insert_by].
    destruct (le x) eqn:E.
    + rewrite (loop_next _ _ _ _ _ _ Hb).
      destruct (IH x fuel) as (pre & suf & p & H1 & -> & H3 & H4); [|done|lia|].
      { split; [done|]. intros p q Hp Hq. apply Hw2; [done|by apply list_elem_of_further]. }
      exists (x :: pre), suf, p. rewrite H4. split; [done|]. by rewrite last_cons_cons.
    + exists [], (x :: r), l. by rewrite (loop_exit _ _ _ _ _ _ Hb).
Qed.

(** Splicing in at the pointer found. *)
Lemma splice_ok s l p n pre suf :
  chain (get s) l (pre ++ suf) -> last (l :: pre) = Some p ->
  n ∉ l :: pre ++ suf -> is_Some (get s !! n) ->
  exists h,
    (let! v := at_heap (load p) in do! at_heap (store n v); at_heap (store p (Some n))) s
      = Ret tt (put h s) /\
    chain h l (pre ++ n :: suf) /\ frame (get s) h [n; p].
Proof.
  intros Hc Hp Hn Ha. destruct (list_add_spec _ _ _ _ _ _ Hc Hp Hn Ha) as (h & E & Hc' & Hf).
  exists h. split; [|done]. unfold list_add in E.
  apply bind_inv in E as (v & h1 & E1 & E). apply bind_inv in E as ([] & h2 & E2 & E).
  unfold bind, zoom. rewrite E1, get_put, E2, get_put, E. by rewrite !put_put.
Qed.

Lemma insert_generic s l n xs fuel le body :
  chain (get s) l xs -> n ∉ l :: xs -> is_Some (get s !! n) -> (length xs < fuel)%nat ->
  walks s le xs body ->
  exists h,
    (let! p := loop fuel body l in
     let! v := at_heap (load p) in do! at_heap (store n v); at_heap (store p (Some n))) s
      = Ret tt (put h s) /\
    chain h l (insert_by le n xs) /\ frame (get s) h (n :: l :: xs).
Proof.
  intros Hc Hn Ha Hf Hw. destruct (walk_ok s le body n xs l fuel Hw (proj2 Hc) Hf)
    as (pre & suf & p & H1 & H2 & H3 & H4).
  rewrite H2 in Hc, Hn. destruct (splice_ok s l p n pre suf Hc H3 Hn Ha) as (h & E & Hc' & Hfr).
  exists h. rewrite (bind_ret _ _ _ _ _ H1). split; [done|]. rewrite H4. split; [done|].
  eapply frame_weaken; [done|]. pose proof (last_Some_elem_of _ _ H3). rewrite H2. set_solver.
Qed.
End insertion.
