(* ===== verification/Bitarithm.v ===== *)
(** * Bit arithmetic (core/bitarithm.c, core/include/bitarithm.h)

    [unsigned] has [w] bits (16 on the MSP430, 32 on the native boards).
    Every loop is run with explicit fuel; the theorems show that [w + 1]
    iterations are enough, and that the least-significant-bit loop does not
    end on zero, as its documentation warns. *)

From S2P Require Import Prelude.

(** ** The program *)

(** The shift loop of the 16-bit build. *)
Definition bitarithm_msb (w : Z) (fuel : nat) (v : Z) : option Z :=
  iter fuel (fun '(v, r) =>
    let v := Z.shiftr v 1 in
    if c_true v then inl (v, wrapu w (r + 1)) else inr r) (v, 0).

(** The branch-free variant of the 32-bit builds. *)
Definition bitarithm_msb_32 (v : Z) : Z :=
  let r := Z.shiftl (c_bool (0xFFFF <? v)) 4 in let v := Z.shiftr v r in
  let shift := Z.shiftl (c_bool (0xFF <? v)) 3 in
  let v := Z.shiftr v shift in let r := Z.lor r shift in
  let shift := Z.shiftl (c_bool (0xF <? v)) 2 in
  let v := Z.shiftr v shift in let r := Z.lor r shift in
  let shift := Z.shiftl (c_bool (0x3 <? v)) 1 in
  let v := Z.shiftr v shift in let r := Z.lor r shift in
  Z.lor r (Z.shiftr v 1).

Definition bitarithm_bits_set (w : Z) (fuel : nat) (v : Z) : option Z :=
  iter fuel (fun '(v, c) =>
    if c_true v then inl (Z.land v (wrapu w (v - 1)), wrapu w (c + 1)) else inr c) (v, 0).

Definition bitarithm_bits_set_u32 (fuel : nat) (v : Z) : option Z :=
  iter fuel (fun '(v, c) =>
    if c_true v then inl (Z.land v (u32 (v - 1)), u8 (c + 1)) else inr c) (v, 0).

Definition bitarithm_lsb (w : Z) (fuel : nat) (v : Z) : option Z :=
  iter fuel (fun '(v, r) =>
    if Z.land v 1 =? 0 then inl (Z.shiftr v 1, wrapu w (r + 1)) else inr r) (v, 0).

Definition MultiplyDeBruijnBitPosition : list Z :=
  [0; 1; 28; 2; 29; 14; 24; 3; 30; 22; 20; 15; 25; 17; 4; 8;
   31; 27; 13; 23; 21; 19; 16; 7; 26; 12; 18; 6; 11; 5; 10; 9].

(** The table variant ([BITARITHM_LSB_LOOKUP]). *)
Definition bitarithm_lsb_lookup (w : Z) (v : Z) : option Z :=
  MultiplyDeBruijnBitPosition
    !! Z.to_nat (Z.shiftr (u32 (Z.land v (wrapu w (- v)) * 0x077CB531)) 27).

(** The scheduler's copy of [bitarithm_lsb] (core/sched.c). *)
Definition bitarithm_lsb_sm_timer (fuel : nat) (v : Z) : option Z :=
  iter fuel (fun '(v, r) =>
    if Z.land v 0x01 =? 0 then inl (Z.shiftr v 1, u16 (r + 1)) else inr r) (v, 0).

(** ** Reference definitions *)

(** The number of set bits among the lowest [w]. *)
Fixpoint bit_count (w : nat) (v : Z) : Z :=
  match w with
  | O => 0
  | Datatypes.S w' => Z.b2z (Z.odd v) + bit_count w' (Z.div2 v)
  end.

(** [r] is the position of the lowest set bit of [v]. *)
Definition lowest_bit (v r : Z) : Prop :=
  0 <= r /\ Z.testbit v r = true /\ forall i, 0 <= i < r -> Z.testbit v i = false.

Lemma lowest_bit_unique v r r' : lowest_bit v r -> lowest_bit v r' -> r = r'.
Proof.
  intros (H1 & H2 & H3) (H1' & H2' & H3').
  destruct (Z.lt_trichotomy r r') as [?|[?|?]]; [|done|].
  - rewrite H3' in H2 by lia. done.
  - rewrite H3 in H2' by lia. done.
Qed.

Lemma c_true_0 z : c_true z = false <-> z = 0.
Proof. unfold c_true. destruct (Z.eqb_spec z 0); naive_solver. Qed.

Lemma c_true_pos z : 0 <= z -> (c_true z = true <-> 0 < z).
Proof. unfold c_true. destruct (Z.eqb_spec z 0); cbn; split; naive_solver lia. Qed.

(** ** Most significant bit *)

Lemma bitarithm_msb_ok (w : Z) v fuel :
  0 < w -> in_u w v -> (Z.to_nat w <= fuel)%nat -> w < 2 ^ w ->
  bitarithm_msb w fuel v = Some (Z.log2 v).
Proof.
  intros Hw Hv Hf Hww. unfold bitarithm_msb.
  apply (iter_eq (fun '(u, r) => 0 <= r /\ 0 <= u /\ r + Z.log2 u = Z.log2 v /\
                    (r = 0 \/ 0 < u) /\ Z.log2 v < w)
                 (fun '(u, _) => Z.to_nat (Z.log2 u))); [|split_and!|].
  - intros [u r] (Hr & Hu & Hlog & Hpos & Hb). cbn zeta.
    assert (Z.log2 (Z.shiftr u 1) = Z.max 0 (Z.log2 u - 1)) as Hl.
    { destruct (decide (u = 0)) as [->|]; [done|]. apply Z.log2_shiftr. lia. }
    pose proof (Z.log2_nonneg u). assert (0 <= Z.shiftr u 1) by by apply Z.shiftr_nonneg.
    destruct (c_true (Z.shiftr u 1)) eqn:E.
    + apply c_true_pos in E; [|done]. rewrite Z.shiftr_div_pow2 in E, Hl |- * by lia.
      assert (2 <= u) as Hu2.
      { change (2 ^ 1) with 2 in E. assert (0 < u / 2 * 2) by lia.
        pose proof (Z.mul_div_le u 2). lia. }
      assert (1 <= Z.log2 u) by (apply Z.log2_le_mono in Hu2; exact Hu2).
      rewrite wrapu_id by (unfold in_u; lia). repeat split; lia.
    + apply c_true_0 in E. rewrite Z.shiftr_div_pow2 in E by lia. change (2 ^ 1) with 2 in E.
      assert (u < 2) as Hu2 by (pose proof (Z.mod_pos_bound u 2); pose proof (Z.div_mod u 2); lia).
      assert (u = 0 \/ u = 1) as [-> | ->] by lia; cbn in Hlog; lia.
  - lia.
  - unfold in_u in Hv. lia.
  - done.
  - by left.
  - destruct (decide (v = 0)) as [->|]; [cbn; lia|]. unfold in_u in Hv.
    apply Z.log2_lt_pow2; lia.
  - destruct (decide (v = 0)) as [->|]; [cbn; lia|]. unfold in_u in Hv.
    assert (Z.log2 v < w) by (apply Z.log2_lt_pow2; lia). pose proof (Z.log2_nonneg v). lia.
Qed.

(** One halving step of the branch-free variant. *)
Lemma msb_step v k :
  0 <= v -> 0 <= k -> (2 ^ k - 1 <? v) = true ->
  Z.log2 v = k + Z.log2 (Z.shiftr v k) /\ 0 < Z.shiftr v k.
Proof.
  intros Hv Hk Hlt%Z.ltb_lt. assert (2 ^ k <= v) as Hle by lia.
  assert (k <= Z.log2 v) by (rewrite <- (Z.log2_pow2 k) by lia; by apply Z.log2_le_mono).
  rewrite Z.log2_shiftr by lia. split; [lia|].
  rewrite Z.shiftr_div_pow2 by lia. apply Z.div_str_pos. pose proof (Z.pow_pos_nonneg 2 k). lia.
Qed.

Lemma shiftr_bound v k n : 0 <= v < 2 ^ (n + k) -> 0 <= k -> 0 <= n -> Z.shiftr v k < 2 ^ n.
Proof.
  intros Hv Hk Hn. rewrite Z.shiftr_div_pow2 by lia.
  apply Z.div_lt_upper_bound; [by apply Z.pow_pos_nonneg; lia|].
  rewrite <- Z.pow_add_r by lia. rewrite Z.add_comm. lia.
Qed.

(** The value left and the bits found by one step, in either case. *)
Lemma msb_halve v k :
  0 <= k -> 0 < v < 2 ^ (k + k) ->
  let shift := if 2 ^ k - 1 <? v then k else 0 in
  0 < Z.shiftr v shift < 2 ^ k /\ Z.log2 v = shift + Z.log2 (Z.shiftr v shift).
Proof.
  intros Hk Hv. cbn zeta. destruct (2 ^ k - 1 <? v) eqn:E.
  - destruct (msb_step v k) as [Hl Hp]; [lia|lia|done|]. split; [|done].
    split; [done|]. apply shiftr_bound; lia.
  - apply Z.ltb_ge in E. rewrite Z.shiftr_0_r. lia.
Qed.

Lemma bitarithm_msb_32_ok v : 0 < v < 2 ^ 32 -> bitarithm_msb_32 v = Z.log2 v.
Proof.
  intros Hv. unfold bitarithm_msb_32.
  destruct (msb_halve v 16) as [H16 L16]; [lia|done|]. cbn zeta in *.
  replace (Z.shiftl (c_bool (0xFFFF <? v)) 4) with (if 2 ^ 16 - 1 <? v then 16 else 0)
    by (change (2 ^ 16 - 1) with 0xFFFF; by destruct (0xFFFF <? v)).
  set (r := if 2 ^ 16 - 1 <? v then 16 else 0) in *. set (v1 := Z.shiftr v r) in *.
  destruct (msb_halve v1 8) as [H8 L8]; [lia|done|]. cbn zeta in *.
  replace (Z.shiftl (c_bool (0xFF <? v1)) 3) with (if 2 ^ 8 - 1 <? v1 then 8 else 0)
    by (change (2 ^ 8 - 1) with 0xFF; by destruct (0xFF <? v1)).
  set (s8 := if 2 ^ 8 - 1 <? v1 then 8 else 0) in *. set (v2 := Z.shiftr v1 s8) in *.
  destruct (msb_halve v2 4) as [H4 L4]; [lia|done|]. cbn zeta in *.
  replace (Z.shiftl (c_bool (0xF <? v2)) 2) with (if 2 ^ 4 - 1 <? v2 then 4 else 0)
    by (change (2 ^ 4 - 1) with 0xF; by destruct (0xF <? v2)).
  set (s4 := if 2 ^ 4 - 1 <? v2 then 4 else 0) in *. set (v3 := Z.shiftr v2 s4) in *.
  destruct (msb_halve v3 2) as [H2 L2]; [lia|done|]. cbn zeta in *.
  replace (Z.shiftl (c_bool (0x3 <? v3)) 1) with (if 2 ^ 2 - 1 <? v3 then 2 else 0)
    by (change (2 ^ 2 - 1) with 0x3; by destruct (0x3 <? v3)).
  set (s2 := if 2 ^ 2 - 1 <? v3 then 2 else 0) in *. set (v4 := Z.shiftr v3 s2) in *.
  assert (Z.shiftr v4 1 = Z.log2 v4) as E.
  { assert (v4 = 1 \/ v4 = 2 \/ v4 = 3) as [-> | [-> | ->]] by lia; done. }
  rewrite E, L16, L8, L4, L2.
  assert (Z.log2 v4 = 0 \/ Z.log2 v4 = 1) as Hl.
  { assert (v4 = 1 \/ v4 = 2 \/ v4 = 3) as [-> | [-> | ->]] by lia; cbn; lia. }
  assert ((r = 0 \/ r = 16) /\ (s8 = 0 \/ s8 = 8) /\ (s4 = 0 \/ s4 = 4) /\ (s2 = 0 \/ s2 = 2))
    as (Hr & Hs8 & Hs4 & Hs2).
  { unfold r, s8, s4, s2.
    repeat match goal with |- context [if ?b then _ else _] => destruct b end; lia. }
  destruct Hl as [Hl|Hl], Hr as [Hr|Hr], Hs8 as [Hs8|Hs8], Hs4 as [Hs4|Hs4], Hs2 as [Hs2|Hs2];
    by rewrite Hl, Hr, Hs8, Hs4, Hs2.
Qed.

(** ** Counting bits *)

Lemma bit_count_range w v : 0 <= bit_count w v <= Z.of_nat w.
Proof.
  revert v. induction w as [|w IH]; intros v; cbn [bit_count]; [lia|].
  specialize (IH (Z.div2 v)). destruct (Z.odd v); cbn [Z.b2z]; lia.
Qed.

Lemma bit_count_0 w : bit_count w 0 = 0.
Proof. induction w as [|w IH]; [done|]. cbn. by rewrite IH. Qed.

Lemma land_odd a b : Z.odd (Z.land a b) = Z.odd a && Z.odd b.
Proof. by rewrite <- !Z.bit0_odd, Z.land_spec. Qed.

Lemma land_div2 a b : Z.div2 (Z.land a b) = Z.land (Z.div2 a) (Z.div2 b).
Proof. by rewrite !Z.div2_spec, Z.shiftr_land. Qed.

(** Clearing the lowest set bit: [v &= v - 1]. *)
Lemma bit_count_clear w v :
  0 < v < 2 ^ Z.of_nat w ->
  bit_count w v = 1 + bit_count w (Z.land v (v - 1)) /\ 0 <= Z.land v (v - 1) < v.
Proof.
  revert v. induction w as [|w IH]; intros v Hv; [cbn in Hv; lia|].
  rewrite Nat2Z.inj_succ, Z.pow_succ_r in Hv by lia. cbn [bit_count].
  rewrite land_odd, land_div2.
  pose proof (Z.div2_odd v) as Ev. set (a := Z.div2 v) in *.
  destruct (Z.odd v) eqn:Eo; cbn [Z.b2z andb] in *.
  - assert (v - 1 = 2 * a) as E by lia. rewrite E at 1 2.
    assert (Z.odd (2 * a) = false) as Eo' by (rewrite Z.odd_mul; done).
    assert (Z.div2 (v - 1) = a) as Ed by (rewrite E, Z.div2_div, Z.mul_comm, Z.div_mul; lia).
    rewrite E in Ed. rewrite Eo', Ed, Z.land_diag. cbn [Z.b2z]. split; [lia|].
    assert (Z.land v (v - 1) = 2 * a) as ->; [|lia].
    pose proof (Z.div2_odd (Z.land v (v - 1))) as El.
    rewrite land_div2, land_odd, Eo, E, Ed, Eo', Z.land_diag in El. cbn in El. rewrite E. lia.
  - assert (v - 1 = 2 * (a - 1) + 1) as E by lia.
    assert (Z.div2 (v - 1) = a - 1) as Ed.
    { rewrite E, Z.div2_div. symmetry. apply (Z.div_unique _ _ _ 1); lia. }
    rewrite Ed. destruct (IH a) as [Hc Hr]; [lia|]. split; [lia|].
    pose proof (Z.div2_odd (Z.land v (v - 1))) as El.
    rewrite land_div2, land_odd, Eo, Ed in El. fold a in El. cbn [andb Z.b2z] in El. lia.
Qed.

Section bits_set.
Context (w : nat) (cw : Z).
Hypothesis Hcw : 1 <= cw /\ Z.of_nat w < 2 ^ cw.

Lemma bits_set_loop fuel v :
  in_u (Z.of_nat w) v -> (w < fuel)%nat ->
  iter fuel (fun '(v, c) =>
    if c_true v then inl (Z.land v (wrapu (Z.of_nat w) (v - 1)), wrapu cw (c + 1)) else inr c)
    (v, 0) = Some (bit_count w v).
Proof.
  intros Hv Hf.
  apply (iter_eq (fun '(u, c) => in_u (Z.of_nat w) u /\ 0 <= c /\ c + bit_count w u = bit_count w v)
                 (fun '(u, _) => Z.to_nat (bit_count w u))).
  - intros [u c] (Hu & Hc & Hs). destruct (c_true u) eqn:E.
    + assert (0 < u) as Hu0 by (apply c_true_pos in E; [done|apply Hu]). unfold in_u in *.
      destruct (bit_count_clear w u) as [Hb Hl]; [lia|].
      pose proof (bit_count_range w v). pose proof (bit_count_range w (Z.land u (u - 1))).
      rewrite (wrapu_id _ (u - 1)) by (unfold in_u; lia).
      rewrite wrapu_id by (unfold in_u; lia). repeat split; lia.
    + apply c_true_0 in E as ->. rewrite bit_count_0 in Hs. lia.
  - done.
  - pose proof (bit_count_range w v). lia.
Qed.
End bits_set.

(** ** Least significant bit *)

Lemma testbit_shiftr1 v i : 0 <= i -> Z.testbit (Z.shiftr v 1) i = Z.testbit v (i + 1).
Proof. intros. by rewrite Z.shiftr_spec. Qed.

Lemma land_1_odd v : (Z.land v 1 =? 0) = negb (Z.odd v).
Proof.
  change 1 with (Z.ones 1). rewrite Z.land_ones by lia. change (2 ^ 1) with 2.
  rewrite Zmod_odd. by destruct (Z.odd v).
Qed.

Lemma lowest_bit_exists v : 0 < v -> exists r, lowest_bit v r.
Proof.
  intros Hv. destruct v as [|p|p]; try lia. clear Hv.
  induction p as [p _|p [r (H1 & H2 & H3)]|].
  - exists 0. repeat split; [lia|]. lia.
  - exists (r + 1). change (Z.pos p~0) with (2 * Z.pos p). split; [lia|].
    rewrite Z.add_1_r, Z.testbit_even_succ by done. split; [done|].
    intros i Hi. destruct (decide (i = 0)) as [->|]; [apply Z.testbit_even_0|].
    replace i with (Z.succ (i - 1)) by lia. rewrite Z.testbit_even_succ by lia. apply H3. lia.
  - exists 0. repeat split; [lia|]. lia.
Qed.

Lemma lowest_bit_bound v r w : in_u w v -> 0 <= w -> lowest_bit v r -> r < w.
Proof.
  intros [H1 H2] Hw (Hr & Hb & _). destruct (Z.lt_ge_cases r w) as [|Hge]; [done|].
  rewrite Z.bits_above_log2 in Hb; [done|lia|].
  destruct (decide (v = 0)) as [->|]; [by rewrite Z.bits_0 in Hb|].
  assert (Z.log2 v < w) by (apply Z.log2_lt_pow2; lia). lia.
Qed.

Section lsb.
Context (w : Z) (fuel : nat).
Hypothesis Hw : 1 <= w /\ w < 2 ^ w /\ (Z.to_nat w <= fuel)%nat.

Lemma lsb_loop v r :
  in_u w v -> lowest_bit v r ->
  iter fuel (fun '(v, r) =>
    if Z.land v 1 =? 0 then inl (Z.shiftr v 1, wrapu w (r + 1)) else inr r) (v, 0) = Some r.
Proof.
  intros Hv Hr. pose proof (lowest_bit_bound v r w Hv ltac:(lia) Hr) as Hrw.
  apply (iter_eq (fun '(u, c) => 0 <= c <= r /\ lowest_bit u (r - c))
                 (fun '(_, c) => Z.to_nat (r - c))).
  - intros [u c] (Hc & H1 & H2 & H3). rewrite land_1_odd, <- Z.bit0_odd.
    destruct (Z.testbit u 0) eqn:E; cbn [negb].
    + destruct (decide (c = r)) as [|]; [done|]. rewrite H3 in E by lia. done.
    + assert (c <> r) by (intros ->; rewrite Z.sub_diag, E in H2; done).
      rewrite wrapu_id by (unfold in_u; lia). split; [|lia]. split; [lia|].
      split; [lia|]. rewrite testbit_shiftr1 by lia. split; [by replace (r - (c + 1) + 1) with (r - c) by lia|].
      intros i Hi. rewrite testbit_shiftr1 by lia. apply H3. lia.
  - split; [destruct Hr; lia|]. by rewrite Z.sub_0_r.
  - destruct Hr. lia.
Qed.

(** On zero the loop never ends, whatever the fuel. *)
Lemma lsb_loop_zero n :
  iter n (fun '(v, r) =>
    if Z.land v 1 =? 0 then inl (Z.shiftr v 1, wrapu w (r + 1)) else inr r) (0, 0) = None.
Proof.
  apply (iter_diverges (fun '(v, _) => v = 0)); [|done].
  intros [v r] ->. by eexists (_, _).
Qed.
End lsb.

(** [v & -v] isolates the lowest set bit. *)
Lemma isolate_lowest w v r :
  0 <= w -> in_u w v -> lowest_bit v r -> Z.land v (wrapu w (- v)) = 2 ^ r.
Proof.
  intros Hw Hv Hl. pose proof (lowest_bit_bound _ _ _ Hv Hw Hl) as Hrw.
  destruct Hl as (Hr & Hb & Hlow). apply Z.bits_inj'. intros i Hi.
  rewrite Z.land_spec, wrapu_testbit, Z.pow2_bits_eqb by lia.
  assert (v = 2 ^ r * (v / 2 ^ r)) as Ev.
  { apply Z.div_exact; [apply Z.pow_nonzero; lia|]. rewrite <- Z.land_ones by lia.
    apply Z.bits_inj'. intros j Hj. rewrite Z.land_spec, Z.bits_0.
    destruct (Z.lt_ge_cases j r); [by rewrite Hlow|].
    by rewrite Z.ones_spec_high, andb_false_r by lia. }
  set (m := v / 2 ^ r) in *.
  assert (Z.odd m = true) as Hm.
  { rewrite Ev in Hb. rewrite Z.mul_comm, Z.mul_pow2_bits, Z.sub_diag in Hb by lia.
    by rewrite <- Z.bit0_odd. }
  replace (- v) with (- m * 2 ^ r) by lia. rewrite Ev at 1. rewrite (Z.mul_comm (2 ^ r) m).
  rewrite !Z.mul_pow2_bits by lia.
  destruct (Z.lt_trichotomy i r) as [Hir|[<-|Hir]].
  - rewrite Z.testbit_neg_r by lia. rewrite (proj2 (Z.eqb_neq r i)) by lia. done.
  - rewrite Z.eqb_refl, Z.sub_diag, !Z.bit0_odd, Z.odd_opp, Hm.
    by rewrite (proj2 (Z.ltb_lt _ _)) by lia.
  - rewrite (proj2 (Z.eqb_neq r i)) by lia.
    assert (m = 2 * (m / 2) + 1) as Em by (rewrite (Z_div_mod_eq_full m 2) at 1; rewrite Zmod_odd, Hm; lia).
    assert (Z.testbit (- m) (i - r) = negb (Z.testbit m (i - r))) as ->.
    { replace (i - r) with (Z.succ (i - r - 1)) by lia.
      replace (- m) with (2 * (- (m / 2) - 1) + 1) by lia. rewrite Em at 2.
      rewrite !Z.testbit_odd_succ by lia.
      replace (- (m / 2) - 1) with (Z.lnot (m / 2)) by (unfold Z.lnot; lia).
      by rewrite Z.lnot_spec by lia. }
    destruct (Z.testbit m (i - r)), (i <? w); done.
Qed.

Lemma debruijn_table r :
  0 <= r < 32 ->
  MultiplyDeBruijnBitPosition !! Z.to_nat (Z.shiftr (u32 (2 ^ r * 0x077CB531)) 27) = Some r.
Proof.
  intros Hr.
  assert (Forall (fun r => MultiplyDeBruijnBitPosition
            !! Z.to_nat (Z.shiftr (u32 (2 ^ r * 0x077CB531)) 27) = Some r) (seqZ 0 32)) as Hall.
  { apply (bool_decide_unpack _). vm_compute. exact I. }
  rewrite Forall_forall in Hall. apply Hall. apply elem_of_seqZ. lia.
Qed.

(** ** Properties *)

(** The number of the highest set bit and the number of set bits: with 17
    iterations the 16-bit loops of [bitarithm_msb] and [bitarithm_bits_set]
    (33 for the 32-bit count) terminate with the integer logarithm and the
    count of the bits; the branch-free [bitarithm_msb] of the 32-bit builds
    computes the same logarithm. *)
Theorem bitarithm_msb_count v u :
  in_u 16 v -> in_u 32 u -> 0 < u ->
  bitarithm_msb 16 17 v = Some (Z.log2 v) /\
  bitarithm_msb_32 u = Z.log2 u /\
  bitarithm_bits_set 16 17 v = Some (bit_count 16 v) /\
  bitarithm_bits_set_u32 33 u = Some (bit_count 32 u).
Proof.
  intros Hv Hu Hpos. split; [apply bitarithm_msb_ok; [lia|done|lia|lia]|].
  split; [apply bitarithm_msb_32_ok; unfold in_u in Hu; lia|].
  split; [apply (bits_set_loop 16 16); [lia|done|lia]|].
  apply (bits_set_loop 32 8); [lia|done|lia].
Qed.

(** The number of the lowest set bit: on a non-zero 16-bit argument the
    loop of [bitarithm_lsb], the De Bruijn table variant and the scheduler's
    protected copy all return the position of the lowest set bit; on zero
    the loops never end, whatever number of iterations they are given. *)
Theorem bitarithm_lsb_correct v :
  in_u 16 v -> 0 < v ->
  (exists r, lowest_bit v r /\ r < 16 /\
     bitarithm_lsb 16 17 v = Some r /\ bitarithm_lsb_lookup 16 v = Some r /\
     bitarithm_lsb_sm_timer 17 v = Some r) /\
  (forall fuel, bitarithm_lsb 16 fuel 0 = None /\ bitarithm_lsb_sm_timer fuel 0 = None).
Proof.
  intros Hv Hpos. split.
  - destruct (lowest_bit_exists v Hpos) as [r Hr]. exists r.
    pose proof (lowest_bit_bound v r 16 Hv ltac:(lia) Hr) as Hb.
    split; [done|]. split; [done|].
    split; [apply (lsb_loop 16 17); [lia|done..]|].
    split; [|apply (lsb_loop 16 17); [lia|done..]].
    unfold bitarithm_lsb_lookup. rewrite (isolate_lowest 16 v r) by (done || lia).
    apply debruijn_table. destruct Hr. lia.
  - intros fuel. split; apply (lsb_loop_zero 16).
Qed.

Lemma bitarithm_msb_count_witness :
  bitarithm_msb 16 17 0x1234 = Some 12 /\ bitarithm_bits_set_u32 33 0xFF00FF = Some 16.
Proof.
  destruct (bitarithm_msb_count 0x1234 0xFF00FF) as (H1 & _ & _ & H2).
  - unfold in_u; lia.
  - unfold in_u; lia.
  - lia.
  - split; [exact H1|exact H2].
Defined.

Lemma bitarithm_lsb_correct_witness :
  exists r, lowest_bit 0x8000 r /\ bitarithm_lsb_sm_timer 17 0x8000 = Some r.
Proof.
  destruct (bitarithm_lsb_correct 0x8000) as [(r & Hr & _ & _ & _ & Hl) _].
  - unfold in_u; lia.
  - lia.
  - exists r. split; [exact Hr|exact Hl].
Defined.
