(* ===== verification/Gpio.v ===== *)
(** * Digital I/O (cpu/msp430-sancus/periph/gpio.c)

    Ports of eight pins as records of 8-bit registers.  A pin is a 16-bit
    number, the port in the upper and the mask of the pin in the lower byte.
    A port pointer is the number of the port, and [None] is the null pointer.
    [isr_port1] and [isr_port2] are what the two interrupts do between
    [__enter_isr] and [__exit_isr].

    [gpio_isr_serves] says which callbacks an interrupt runs,
    [gpio_int_delivers] composes the set-up of an interrupt with its service,
    [gpio_init_int_errors] states the error returns and [gpio_write_read] the
    output of a pin. *)

From S2P Require Import Prelude Bitarithm.

(** [IFG], [IES] and [IE] are those of [msp_port_isr_t], which only the ports
    1 and 2 have. *)
Record port_t : Type := Port { IN : Z; OD : Z; DIR : Z; SEL : Z; IFG : Z; IES : Z; IE : Z }.

Definition with_OD (v : Z) (p : port_t) : port_t := Port (IN p) v (DIR p) (SEL p) (IFG p) (IES p) (IE p).
Definition with_DIR (v : Z) (p : port_t) : port_t := Port (IN p) (OD p) v (SEL p) (IFG p) (IES p) (IE p).
Definition with_SEL (v : Z) (p : port_t) : port_t := Port (IN p) (OD p) (DIR p) v (IFG p) (IES p) (IE p).
Definition with_IFG (v : Z) (p : port_t) : port_t := Port (IN p) (OD p) (DIR p) (SEL p) v (IES p) (IE p).
Definition with_IES (v : Z) (p : port_t) : port_t := Port (IN p) (OD p) (DIR p) (SEL p) (IFG p) v (IE p).
Definition with_IE (v : Z) (p : port_t) : port_t := Port (IN p) (OD p) (DIR p) (SEL p) (IFG p) (IES p) v.

Definition ISR_NUMOF : Z := 16.
Definition PINS_PER_PORT : Z := 8.

Inductive gpio_mode_t := GPIO_IN | GPIO_IN_PD | GPIO_IN_PU | GPIO_OUT | GPIO_OD | GPIO_OD_PU.
Definition GPIO_FALLING : Z := 0xff.
Definition GPIO_RISING : Z := 0x00.
Definition GPIO_BOTH : Z := 0xab.

Definition GPIO_PIN (x y : Z) : Z :=
  u16 (Z.lor (Z.shiftl (Z.land x 0xff) 8) (Z.shiftl 1 (Z.land y 0x07))).

(** The ports, the interrupt contexts, and what the callbacks work on. *)
Record gpio_st (A : Type) : Type := Gpio {
  ports : gmap Z port_t; isr_ctx : list (option Z * Z); app : A
}.
Arguments Gpio {A} _ _ _.
Arguments ports {A} _.
Arguments isr_ctx {A} _.
Arguments app {A} _.

Definition _port (pin : Z) : option Z :=
  let n := Z.shiftr pin 8 in if (1 <=? n) && (n <=? 6) then Some n else None.
Definition _pin (pin : Z) : Z := u8 (Z.land pin 0xff).
Definition _isr_port (pin : Z) : option Z :=
  match _port pin with
  | Some p => if (p =? 1) || (p =? 2) then Some p else None
  | None => None
  end.

Definition set_bits (mask v : Z) : Z := u8 (Z.lor v mask).
Definition clear_bits (mask v : Z) : Z := u8 (Z.land v (Z.lnot mask)).

Section gpio.
Context {A : Type}.
(** The callbacks of the application, by their address and argument. *)
Context (call : Z -> Z -> M (gpio_st A) unit).
Abbreviation G := (M (gpio_st A)).

(** Access through a port pointer. *)
Definition port_at (p : option Z) : G port_t :=
  let! n := unwrap NullDeref p in
  let! ps := gets ports in
  unwrap BadAddr (ps !! n).
Definition upd_port (p : option Z) (f : port_t -> port_t) : G unit :=
  let! n := unwrap NullDeref p in
  let! r := port_at p in
  modify (fun s => Gpio (<[n := f r]> (ports s)) (isr_ctx s) (app s)).

Definition gpio_init (pin : Z) (mode : gpio_mode_t) : G Z :=
  match _port pin, mode with
  | Some p, GPIO_OUT => do! upd_port (Some p) (fun r => with_DIR (set_bits (_pin pin) (DIR r)) r); ret 0
  | Some p, GPIO_IN => do! upd_port (Some p) (fun r => with_DIR (clear_bits (_pin pin) (DIR r)) r); ret 0
  | _, _ => ret (-1)
  end.

Definition gpio_periph_mode (pin : Z) (enable : bool) : G unit :=
  match _port pin with
  | None => ret tt
  | Some p => upd_port (Some p) (fun r =>
      with_SEL (if enable then set_bits (_pin pin) (SEL r) else clear_bits (_pin pin) (SEL r)) r)
  end.

Definition gpio_read (pin : Z) : G Z :=
  let! r := port_at (_port pin) in
  ret (if c_true (Z.land (DIR r) (_pin pin)) then Z.land (OD r) (_pin pin) else Z.land (IN r) (_pin pin)).

Definition gpio_set (pin : Z) : G unit :=
  upd_port (_port pin) (fun r => with_OD (set_bits (_pin pin) (OD r)) r).
Definition gpio_clear (pin : Z) : G unit :=
  upd_port (_port pin) (fun r => with_OD (clear_bits (_pin pin) (OD r)) r).
Definition gpio_toggle (pin : Z) : G unit :=
  upd_port (_port pin) (fun r => with_OD (u8 (Z.lxor (OD r) (_pin pin))) r).
Definition gpio_write (pin value : Z) : G unit :=
  if c_true value then gpio_set pin else gpio_clear pin.

(** ** Interrupts *)

Definition _ctx (pin : Z) : G Z :=
  let! i := unwrap Diverges (bitarithm_lsb 16 17 (_pin pin)) in
  ret (match _port pin with Some p => if p =? 1 then i else i + 8 | None => i + 8 end).

Definition set_ctx (i : Z) (c : option Z * Z) : G unit :=
  let! l := gets isr_ctx in
  let! l := unwrap OutOfBounds (aset l i c) in
  modify (fun s => Gpio (ports s) l (app s)).

Definition gpio_irq_enable (pin : Z) : G unit :=
  match _isr_port pin with
  | Some p => upd_port (Some p) (fun r => with_IE (set_bits (_pin pin) (IE r)) r)
  | None => ret tt
  end.
Definition gpio_irq_disable (pin : Z) : G unit :=
  match _isr_port pin with
  | Some p => upd_port (Some p) (fun r => with_IE (clear_bits (_pin pin) (IE r)) r)
  | None => ret tt
  end.

Definition gpio_init_int (pin : Z) (mode : gpio_mode_t) (flank : Z) (cb : option Z) (arg : Z) : G Z :=
  match _isr_port pin with
  | None => ret (-1)
  | Some p =>
      if flank =? GPIO_BOTH then ret (-1)
      else
        do! upd_port (Some p) (fun r => with_IE (clear_bits (_pin pin) (IE r)) r);
        let! e := gpio_init pin mode in
        if e <? 0 then ret (-1)
        else
          let! i := _ctx pin in
          do! set_ctx i (cb, arg);
          do! upd_port (Some p) (fun r => with_IES (clear_bits (_pin pin) (IES r)) r);
          do! upd_port (Some p) (fun r => with_IES (set_bits (Z.land flank (_pin pin)) (IES r)) r);
          do! upd_port (Some p) (fun r => with_IFG (clear_bits (_pin pin) (IFG r)) r);
          do! gpio_irq_enable pin;
          ret 0
  end.

(** One round of [isr_handler], and its rounds from [i] on. *)
Definition isr_line (p ctx i : Z) : G unit :=
  let! r := port_at (Some p) in
  when (c_true (Z.land (IE r) (Z.shiftl 1 i)) && c_true (Z.land (IFG r) (Z.shiftl 1 i)))
    (do! upd_port (Some p) (fun r => with_IFG (clear_bits (Z.shiftl 1 i) (IFG r)) r);
     let! l := gets isr_ctx in
     let! c := unwrap OutOfBounds (aget l (i + ctx)) in
     let! f := unwrap NullDeref c.1 in
     call f c.2).
Fixpoint isr_lines (n : nat) (p ctx i : Z) : G unit :=
  match n with
  | O => ret tt
  | Datatypes.S n => do! isr_line p ctx i; isr_lines n p ctx (i + 1)
  end.
Definition isr_handler (p ctx : Z) : G unit := isr_lines (Z.to_nat PINS_PER_PORT) p ctx 0.

Definition isr_port1 : G unit := isr_handler 1 0.
Definition isr_port2 : G unit := isr_handler 2 8.
End gpio.

(** ** Properties *)

Definition is_byte (v : Z) : Prop := 0 <= v < 256.

Lemma clear_bits_testbit m v j : 0 <= j -> is_byte v -> Z.testbit (clear_bits m v) j = Z.testbit v j && negb (Z.testbit m j).
Proof.
  intros Hj Hv. unfold clear_bits. rewrite wrapu_testbit, Z.land_spec, Z.lnot_spec by lia.
  destruct (Z.ltb_spec j 8); [done|]. cbn [andb]. rewrite <- (wrapu_id 8 v Hv), wrapu_testbit by lia.
  by rewrite (proj2 (Z.ltb_ge j 8)) by lia.
Qed.

Lemma clear_bits_byte m v : is_byte (clear_bits m v).
Proof. apply (wrapu_range 8). lia. Qed.

Lemma shiftl1_testbit i j : 0 <= i -> 0 <= j -> Z.testbit (Z.shiftl 1 i) j = bool_decide (i = j).
Proof.
  intros Hi Hj. rewrite Z.shiftl_1_l, Z.pow2_bits_eqb by lia. by destruct (Z.eqb_spec i j), (bool_decide_reflect (i = j)).
Qed.

Lemma bit_test v j : 0 <= j -> c_true (Z.land v (Z.shiftl 1 j)) = Z.testbit v j.
Proof.
  intros Hj. unfold c_true. destruct (Z.testbit v j) eqn:E.
  - destruct (Z.eqb_spec (Z.land v (Z.shiftl 1 j)) 0) as [H|]; [exfalso|done].
    assert (Z.testbit (Z.land v (Z.shiftl 1 j)) j = true) as H1; [|by rewrite H, Z.bits_0 in H1].
    by rewrite Z.land_spec, E, shiftl1_testbit, bool_decide_true by done.
  - assert (Z.land v (Z.shiftl 1 j) = 0) as ->; [|done]. apply Z.bits_inj'. intros i Hi.
    rewrite Z.land_spec, Z.bits_0, shiftl1_testbit by done. case_bool_decide as Hij; [by rewrite <- Hij, E|].
    apply andb_false_r.
Qed.

Section serving.
Context {A : Type} (call : Z -> Z -> M (gpio_st A) unit) (eff : Z -> Z -> A -> A).
(** Callbacks do not touch the ports. *)
Context (Hcall : forall f a g c x, call f a (Gpio g c x) = Ret tt (Gpio g c (eff f a x))).

(** The lines from [i] on that are enabled and flagged. *)
Fixpoint pending (n : nat) (i : Z) (r : port_t) : list Z :=
  match n with
  | O => []
  | Datatypes.S n => (if Z.testbit (IE r) i && Z.testbit (IFG r) i then [i] else []) ++ pending n (i + 1) r
  end.

(** Serving line [i] of the port whose contexts start at [ctx]. *)
Definition serve (c : list (option Z * Z)) (ctx i : Z) (x : A) : A :=
  match aget c (i + ctx) with Some (Some f, a) => eff f a x | _ => x end.

Lemma pending_ext n i r r' :
  IE r' = IE r -> (forall j, i <= j -> Z.testbit (IFG r') j = Z.testbit (IFG r) j) -> 0 <= i ->
  pending n i r' = pending n i r.
Proof.
  intros HE. revert i. induction n as [|n IH]; intros i HF Hi; [done|]. cbn. rewrite HE, HF by lia.
  f_equal. apply IH; [|lia]. intros j Hj. apply HF. lia.
Qed.

Lemma isr_lines_ok p ctx c n : forall i r ps x,
  0 <= i -> ps !! p = Some r -> is_byte (IFG r) ->
  (forall j, j ∈ pending n i r -> exists f a, aget c (j + ctx) = Some (Some f, a)) ->
  exists F, isr_lines call n p ctx i (Gpio ps c x)
      = Ret tt (Gpio (<[p := with_IFG F r]> ps) c (foldl (fun x j => serve c ctx j x) x (pending n i r))) /\
    is_byte F /\ forall j, 0 <= j ->
      Z.testbit F j = Z.testbit (IFG r) j && negb (Z.testbit (IE r) j && bool_decide (i <= j < i + Z.of_nat n)).
Proof.
  induction n as [|n IH]; intros i r ps x Hi Hp HF Hctx.
  { exists (IFG r). split; [|split; [done|]].
    - cbn. rewrite insert_id; [done|]. rewrite Hp. by destruct r.
    - intros j Hj. rewrite bool_decide_false by lia. by rewrite andb_false_r, andb_true_r. }
  assert (forall s : A, port_at (Some p) (Gpio ps c s) = Ret r (Gpio ps c s)) as Hat.
  { intros s. unfold port_at, bind, unwrap, gets, ret. cbn. by rewrite Hp. }
  cbn [isr_lines]. unfold isr_line at 1. rewrite bind_assoc, (bind_ret _ _ _ _ _ (Hat x)), !bit_test by done.
  destruct (Z.testbit (IE r) i && Z.testbit (IFG r) i) eqn:Eb; cbn [when].
  - apply andb_prop in Eb as [E1 E2].
    set (r1 := with_IFG (clear_bits (Z.shiftl 1 i) (IFG r)) r).
    destruct (Hctx i) as (f & a & Ef); [cbn; rewrite E1, E2; cbn; set_solver|].
    rewrite bind_assoc, (bind_ret _ _ _ tt (Gpio (<[p := r1]> ps) c x)).
    2: { unfold upd_port. cbn [unwrap]. rewrite (bind_ret (ret p) _ _ _ _ eq_refl), (bind_ret _ _ _ _ _ (Hat x)). done. }
    rewrite bind_assoc, (bind_ret _ _ _ _ _ (gets_ok _ _)). cbn [isr_ctx]. rewrite Ef.
    cbn [unwrap]. rewrite bind_assoc, (bind_ret (ret _) _ _ _ _ eq_refl). cbn [fst snd unwrap].
    rewrite bind_assoc, (bind_ret (ret _) _ _ _ _ eq_refl).
    rewrite (bind_ret _ _ _ _ _ (Hcall f a _ _ x)).
    assert (pending n (i + 1) r1 = pending n (i + 1) r) as Epend.
    { apply pending_ext; [done| |lia]. intros j Hj. cbn. rewrite clear_bits_testbit, shiftl1_testbit by (done || lia).
      rewrite bool_decide_false by lia. apply andb_true_r. }
    destruct (IH (i + 1) r1 (<[p := r1]> ps) (eff f a x)) as (F & E & HFb & HFbits).
    + lia.
    + by rewrite lookup_insert_eq.
    + apply clear_bits_byte.
    + rewrite Epend. intros j Hj. apply Hctx. cbn. set_solver.
    + exists F. rewrite E, Epend, insert_insert_eq. split; [|split; [done|]].
      * cbn [pending]. rewrite E1, E2. cbn. unfold serve at 3. by rewrite Ef.
      * intros j Hj. rewrite HFbits by done. cbn. rewrite clear_bits_testbit, shiftl1_testbit by (done || lia).
        destruct (decide (i = j)) as [<-|Hne].
        -- rewrite (bool_decide_true (i = i)), E1, E2, (bool_decide_true (i <= i < _)) by lia. done.
        -- rewrite (bool_decide_false (i = j)) by done. rewrite andb_true_r. f_equal. f_equal. f_equal.
           apply bool_decide_ext. lia.
  - rewrite (bind_ret (ret tt) _ _ _ _ eq_refl).
    destruct (IH (i + 1) r ps x) as (F & E & HFb & HFbits); [lia|done|done| |].
    + intros j Hj. apply Hctx. cbn. rewrite Eb. done.
    + exists F. rewrite E. split; [cbn [pending]; by rewrite Eb|]. split; [done|].
      intros j Hj. rewrite HFbits by done. destruct (decide (i = j)) as [<-|Hne].
      * rewrite (bool_decide_false (i + 1 <= i < _)), (bool_decide_true (i <= i < _)) by lia.
        rewrite andb_false_r, andb_true_r. by destruct (Z.testbit (IE r) i), (Z.testbit (IFG r) i).
      * f_equal. f_equal. f_equal. apply bool_decide_ext. lia.
Qed.

(** The interrupt handler calls back for the lines that are enabled and
    flagged, each once, from the lowest to the highest, and clears exactly
    their flags. *)
Theorem gpio_isr_serves p ctx ps c x r :
  ps !! p = Some r -> is_byte (IFG r) ->
  (forall j, j ∈ pending 8 0 r -> exists f a, aget c (j + ctx) = Some (Some f, a)) ->
  exists F, isr_handler call p ctx (Gpio ps c x)
      = Ret tt (Gpio (<[p := with_IFG F r]> ps) c (foldl (fun x j => serve c ctx j x) x (pending 8 0 r))) /\
    forall j, 0 <= j < 8 -> Z.testbit F j = Z.testbit (IFG r) j && negb (Z.testbit (IE r) j).
Proof.
  intros Hp Hb Hc. destruct (isr_lines_ok p ctx c 8 0 r ps x) as (F & E & _ & Hbits); try done.
  exists F. split; [exact E|]. intros j Hj. rewrite Hbits by lia. by rewrite bool_decide_true, andb_true_r by lia.
Qed.

Lemma pending_single r j n : forall i,
  (forall k, i <= k < i + Z.of_nat n -> Z.testbit (IE r) k && Z.testbit (IFG r) k = bool_decide (k = j)) ->
  pending n i r = if bool_decide (i <= j < i + Z.of_nat n) then [j] else [].
Proof.
  induction n as [|n IH]; intros i H; cbn [pending].
  { by rewrite bool_decide_false by lia. }
  rewrite H, IH by (lia || (intros k Hk; apply H; lia)). destruct (decide (i = j)) as [->|Hne].
  - by rewrite (bool_decide_true (j = j)), (bool_decide_false (j + 1 <= j < _)), (bool_decide_true (j <= j < _)) by lia.
  - rewrite (bool_decide_false (i = j)) by done. cbn [app].
    by rewrite (bool_decide_ext (i + 1 <= j < i + 1 + Z.of_nat n) (i <= j < i + Z.of_nat (S n))) by lia.
Qed.

Lemma upd_port_ok p r f ps c (x : A) :
  ps !! p = Some r -> upd_port (Some p) f (Gpio ps c x) = Ret tt (Gpio (<[p := f r]> ps) c x).
Proof. intros Hp. unfold upd_port, port_at, bind, unwrap, gets, ret, modify. cbn. by rewrite Hp. Qed.

(** [GPIO_PIN] of the ports with interrupts. *)
Lemma gpio_pin_parts p j :
  p = 1 \/ p = 2 -> 0 <= j < 8 ->
  _port (GPIO_PIN p j) = Some p /\ _isr_port (GPIO_PIN p j) = Some p /\ _pin (GPIO_PIN p j) = Z.shiftl 1 j /\
  bitarithm_lsb 16 17 (Z.shiftl 1 j) = Some j.
Proof.
  intros Hp Hj. assert (j = 0 \/ j = 1 \/ j = 2 \/ j = 3 \/ j = 4 \/ j = 5 \/ j = 6 \/ j = 7) as H by lia.
  destruct Hp as [->| ->]; destruct H as [->|[->|[->|[->|[->|[->|[->| ->]]]]]]]; vm_compute; done.
Qed.

End serving.

(** *** Setting up a line *)

Section lines.
Context {A : Type} (call : Z -> Z -> M (gpio_st A) unit).

Lemma isr_lines_app n n' p ctx : forall i s,
  isr_lines call (n + n') p ctx i s
  = (do! isr_lines call n p ctx i; isr_lines call n' p ctx (i + Z.of_nat n)) s.
Proof.
  induction n as [|n IH]; intros i s.
  - cbn. by rewrite Z.add_0_r.
  - cbn [isr_lines Nat.add]. rewrite bind_assoc. unfold bind at 1 2. destruct (isr_line call p ctx i s) as [[] s'|]; [|done].
    rewrite IH. by replace (i + 1 + Z.of_nat n) with (i + Z.of_nat (Datatypes.S n)) by lia.
Qed.

Lemma port_at_ok p r (s : gpio_st A) : ports s !! p = Some r -> port_at (Some p) s = Ret r s.
Proof. intros Hp. unfold port_at, bind, unwrap, gets, ret. by rewrite Hp. Qed.

(** Lines of which none waits are passed over. *)
Lemma isr_lines_none p ctx r s : ports s !! p = Some r -> forall n i, 0 <= i ->
  (forall k, i <= k < i + Z.of_nat n -> Z.testbit (IE r) k && Z.testbit (IFG r) k = false) ->
  isr_lines call n p ctx i s = Ret tt s.
Proof.
  intros Hp n. induction n as [|n IH]; intros i Hi H; [done|]. cbn [isr_lines].
  rewrite (bind_ret _ _ _ tt s); [apply IH; [lia|intros k Hk; apply H; lia]|].
  unfold isr_line. rewrite (bind_ret _ _ _ _ _ (port_at_ok p r s Hp)), !bit_test by lia.
  by rewrite (H i) by lia.
Qed.

(** The only line that waits. *)
Lemma isr_single p ctx r ps c x j f a :
  ps !! p = Some r -> 0 <= j < 8 -> aget c (j + ctx) = Some (Some f, a) ->
  (forall k, 0 <= k < 8 -> Z.testbit (IE r) k && Z.testbit (IFG r) k = bool_decide (k = j)) ->
  isr_handler call p ctx (Gpio ps c x) =
    (do! call f a; isr_lines call (Z.to_nat (7 - j)) p ctx (j + 1))
      (Gpio (<[p := with_IFG (clear_bits (Z.shiftl 1 j) (IFG r)) r]> ps) c x).
Proof.
  intros Hp Hj Hc H. unfold isr_handler, PINS_PER_PORT.
  replace (Z.to_nat 8) with (Z.to_nat j + Datatypes.S (Z.to_nat (7 - j)))%nat by lia. rewrite isr_lines_app.
  rewrite (bind_ret _ _ _ tt (Gpio ps c x)).
  2: { apply (isr_lines_none p ctx r); [done|lia|]. intros k Hk. rewrite H by lia. apply bool_decide_false. lia. }
  replace (0 + Z.of_nat (Z.to_nat j)) with j by lia. cbn [isr_lines]. unfold isr_line.
  rewrite bind_assoc, (bind_ret _ _ _ _ _ (port_at_ok p r (Gpio ps c x) Hp)), !bit_test, H, bool_decide_true by lia. cbn [when].
  rewrite bind_assoc, (bind_ret _ _ _ _ _ (upd_port_ok p r _ ps c x Hp)).
  rewrite bind_assoc, (bind_ret _ _ _ _ _ (gets_ok _ _)). cbn [isr_ctx]. rewrite Hc.
  cbn [unwrap]. rewrite bind_assoc, (bind_ret (ret _) _ _ _ _ eq_refl). cbn [fst snd unwrap].
  by rewrite bind_assoc, (bind_ret (ret f) _ _ _ _ eq_refl).
Qed.

(** The registers of a port after line [j] was set up. *)
Definition armed (mode : gpio_mode_t) (j flank : Z) (r : port_t) : port_t :=
  let m := Z.shiftl 1 j in
  Port (IN r) (OD r) (if mode is GPIO_OUT then set_bits m (DIR r) else clear_bits m (DIR r)) (SEL r) (clear_bits m (IFG r))
    (set_bits (Z.land flank m) (clear_bits m (IES r))) (set_bits m (clear_bits m (IE r))).

Lemma gpio_init_int_ok p j mode flank f a ps c (x : A) r :
  p = 1 \/ p = 2 -> 0 <= j < 8 -> mode = GPIO_IN \/ mode = GPIO_OUT -> flank <> GPIO_BOTH -> ps !! p = Some r -> length c = 16%nat ->
  gpio_init_int (GPIO_PIN p j) mode flank f a (Gpio ps c x)
    = Ret 0 (Gpio (<[p := armed mode j flank r]> ps) (<[Z.to_nat (j + 8 * (p - 1)) := (f, a)]> c) x).
Proof.
  intros Hp Hj Hmode Hfl Hr Hc. destruct (gpio_pin_parts p j Hp Hj) as (E1 & E2 & E3 & E4).
  unfold gpio_init_int. rewrite E2, (proj2 (Z.eqb_neq _ _) Hfl), E3.
  rewrite (bind_ret _ _ _ _ _ (upd_port_ok p r _ ps c x Hr)).
  set (m := Z.shiftl 1 j) in *. set (d := if mode is GPIO_OUT then set_bits m (DIR r) else clear_bits m (DIR r)).
  rewrite (bind_ret _ _ _ 0 (Gpio (<[p := with_DIR d (with_IE (clear_bits m (IE r)) r)]> ps) c x)).
  2: { unfold gpio_init. rewrite E1, E3. destruct Hmode as [->| ->];
       rewrite (bind_ret _ _ _ _ _ (upd_port_ok p _ _ _ c x (lookup_insert_eq _ _ _))), insert_insert_eq; done. }
  cbn [Z.ltb Z.compare]. unfold _ctx. rewrite E1, E3, E4. cbn [unwrap].
  rewrite bind_assoc, (bind_ret (ret j) _ _ _ _ eq_refl), (bind_ret (ret _) _ _ _ _ eq_refl).
  assert ((if p =? 1 then j else j + 8) = j + 8 * (p - 1)) as -> by (destruct Hp as [->| ->]; cbn; lia).
  rewrite (bind_ret _ _ _ tt
    (Gpio (<[p := with_DIR d (with_IE (clear_bits m (IE r)) r)]> ps) (<[Z.to_nat (j + 8 * (p - 1)) := (f, a)]> c) x)).
  2: { unfold set_ctx, bind, gets, unwrap, aset, ret, modify. cbn [isr_ctx ports app]. rewrite Hc.
       rewrite (proj2 (Z.leb_le _ _)), (proj2 (Z.ltb_lt _ _)) by lia. done. }
  rewrite (bind_ret _ _ _ _ _ (upd_port_ok p _ _ _ _ x (lookup_insert_eq _ _ _))), insert_insert_eq.
  rewrite (bind_ret _ _ _ _ _ (upd_port_ok p _ _ _ _ x (lookup_insert_eq _ _ _))), insert_insert_eq.
  rewrite (bind_ret _ _ _ _ _ (upd_port_ok p _ _ _ _ x (lookup_insert_eq _ _ _))), insert_insert_eq.
  unfold gpio_irq_enable. rewrite E2, E3.
  rewrite (bind_ret _ _ _ _ _ (upd_port_ok p _ _ _ _ x (lookup_insert_eq _ _ _))), insert_insert_eq. done.
Qed.

(** The hardware flags line [j] of port [p]. *)
Definition hw_flag (p j : Z) (s : gpio_st A) : gpio_st A :=
  Gpio (alter (fun r => with_IFG (set_bits (Z.shiftl 1 j) (IFG r)) r) p (ports s)) (isr_ctx s) (app s).

Lemma set_bits_testbit m v j : 0 <= j < 8 -> Z.testbit (set_bits m v) j = Z.testbit v j || Z.testbit m j.
Proof.
  intros Hj. unfold set_bits. rewrite wrapu_testbit, Z.lor_spec by lia. by rewrite (proj2 (Z.ltb_lt j 8)) by lia.
Qed.

(** C27 Setting up an interrupt and serving it fit together.  [gpio_init_int]
    for pin [j] of port 1 or 2 as an input or an output returns 0, with the
    edge select of the pin (1 for a falling flank) as asked for and those of
    the other pins as before.  When the hardware then has flagged the line,
    and no other line of the port waits, the handler of the port clears the
    flag and calls the callback with its argument; the line stays enabled.  A
    fault of the callback is one of the handler; when it returns, and leaves no
    line above [j] waiting, the handler returns in the state it left. *)
Theorem gpio_int_delivers p j mode flank f a ps c (x : A) r :
  p = 1 \/ p = 2 -> 0 <= j < 8 -> mode = GPIO_IN \/ mode = GPIO_OUT -> flank = GPIO_FALLING \/ flank = GPIO_RISING ->
  ps !! p = Some r -> length c = 16%nat -> is_byte (IE r) -> is_byte (IFG r) -> is_byte (IES r) -> is_byte (DIR r) ->
  (forall k, 0 <= k < 8 -> k <> j -> Z.testbit (IE r) k && Z.testbit (IFG r) k = false) ->
  exists s r1 s1 r2, gpio_init_int (GPIO_PIN p j) mode flank (Some f) a (Gpio ps c x) = Ret 0 s /\
    ports s !! p = Some r1 /\ Z.testbit (DIR r1) j = (if mode is GPIO_OUT then true else false) /\
    (forall k, 0 <= k < 8 -> Z.testbit (IES r1) k = if decide (k = j) then bool_decide (flank = GPIO_FALLING) else Z.testbit (IES r) k) /\
    ports s1 !! p = Some r2 /\ Z.testbit (IE r2) j = true /\ Z.testbit (IFG r2) j = false /\
    (forall k, 0 <= k < 8 -> Z.testbit (IE r2) k && Z.testbit (IFG r2) k = false) /\ app s1 = x /\
    (let isr := if p =? 1 then isr_port1 call else isr_port2 call in
     match call f a s1 with
     | Err e => isr (hw_flag p j s) = Err e
     | Ret _ s2 => forall r3, ports s2 !! p = Some r3 ->
         (forall k, j < k < 8 -> Z.testbit (IE r3) k && Z.testbit (IFG r3) k = false) ->
         isr (hw_flag p j s) = Ret tt s2
     end).
Proof.
  intros Hp Hj Hmode Hfl Hr Hc HE HF HS HD Hq.
  pose proof (gpio_init_int_ok p j mode flank (Some f) a ps c x r Hp Hj Hmode ltac:(by destruct Hfl as [->| ->]) Hr Hc) as Ei.
  set (r1 := armed mode j flank r) in *. set (m := Z.shiftl 1 j) in *.
  set (r1' := with_IFG (set_bits m (IFG r1)) r1). set (r2 := with_IFG (clear_bits m (IFG r1')) r1').
  set (i := Z.to_nat (j + 8 * (p - 1))) in Ei. set (c' := <[i := (Some f, a)]> c) in *.
  assert (Eaget : aget c' (j + 8 * (p - 1)) = Some (Some f, a)).
  { unfold aget. rewrite (proj2 (Z.leb_le _ _)) by lia. subst i c'. apply list_lookup_insert_eq. lia. }
  assert (forall k, 0 <= k -> Z.testbit m k = bool_decide (j = k)) as Hm by (intros k Hk; apply shiftl1_testbit; lia).
  assert (forall k, 0 <= k < 8 -> Z.testbit (IE r1) k && Z.testbit (IFG r1') k = bool_decide (k = j)) as Hsingle.
  { intros k Hk. cbn. fold m. rewrite !set_bits_testbit, !clear_bits_testbit, !Hm by (done || lia).
    destruct (decide (j = k)) as [<-|Hne]; [rewrite (bool_decide_true (j = j)) by done; by rewrite !orb_true_r|].
    rewrite (bool_decide_false (j = k)), (bool_decide_false (k = j)) by done. rewrite !andb_true_r, !orb_false_r. by apply Hq. }
  pose (s1 := Gpio (<[p := r2]> ps) c' x).
  exists (Gpio (<[p := r1]> ps) c' x), r1, s1, r2. split; [exact Ei|]. split; [apply lookup_insert_eq|]. split.
  { cbn. fold m. destruct Hmode as [->| ->]; rewrite ?set_bits_testbit, ?clear_bits_testbit, Hm, bool_decide_true by (done || lia).
    - apply andb_false_r.
    - apply orb_true_r. }
  split.
  { intros k Hk. cbn. fold m. rewrite set_bits_testbit, clear_bits_testbit, Z.land_spec, Hm by (done || lia).
    destruct (decide (k = j)) as [->|Hne].
    - rewrite (bool_decide_true (j = j)) by done. rewrite andb_false_r, andb_true_r. cbn [orb].
      destruct Hfl as [->| ->]; [|by rewrite Z.bits_0]. rewrite bool_decide_true by done. change GPIO_FALLING with (Z.ones 8).
      apply Z.ones_spec_low. lia.
    - rewrite (bool_decide_false (j = k)) by done. by rewrite andb_true_r, andb_false_r, orb_false_r. }
  split; [apply lookup_insert_eq|]. split; [cbn; fold m; rewrite set_bits_testbit, Hm, bool_decide_true by (done || lia); apply orb_true_r|].
  split; [cbn; fold m; rewrite clear_bits_testbit, Hm, bool_decide_true by (done || lia || (apply (wrapu_range 8); lia)); apply andb_false_r|].
  split; [|split; [done|]].
  { intros k Hk. change (IE r2) with (IE r1). cbn [r2 IFG with_IFG].
    rewrite clear_bits_testbit, Hm by (lia || (apply (wrapu_range 8); lia)). rewrite andb_assoc, Hsingle by done.
    destruct (decide (k = j)) as [->|]; [by rewrite !bool_decide_true|by rewrite bool_decide_false]. }
  cbn zeta.
  assert ((if p =? 1 then isr_port1 call else isr_port2 call) (hw_flag p j (Gpio (<[p := r1]> ps) c' x))
    = (do! call f a; isr_lines call (Z.to_nat (7 - j)) p (8 * (p - 1)) (j + 1)) s1) as ->.
  { unfold hw_flag. cbn [ports isr_ctx app]. rewrite alter_insert_eq. fold m r1'.
    transitivity (isr_handler call p (8 * (p - 1)) (Gpio (<[p := r1']> ps) c' x)); [by destruct Hp as [->| ->]|].
    rewrite (isr_single p (8 * (p - 1)) r1' _ c' x j f a); [|apply lookup_insert_eq|done|exact Eaget|exact Hsingle].
    by rewrite insert_insert_eq. }
  destruct (call f a s1) as [[] s2|e] eqn:Ec; [|by apply bind_err].
  intros r3 Hr3 Hno. rewrite (bind_ret _ _ _ _ _ Ec). apply (isr_lines_none p _ r3 s2 Hr3); [lia|]. intros k Hk. apply Hno. lia.
Qed.
End lines.

(** The error returns of [gpio_init_int]: a port without interrupts and both
    flanks leave the state as it is; a pull resistor is refused only after the
    interrupt of the pin was disabled. *)
Theorem gpio_init_int_errors {A} pin mode flank cb arg ps c (x : A) :
  (_isr_port pin = None \/ flank = GPIO_BOTH ->
   gpio_init_int pin mode flank cb arg (Gpio ps c x) = Ret (-1) (Gpio ps c x)) /\
  (forall p r, _isr_port pin = Some p -> flank <> GPIO_BOTH -> ps !! p = Some r ->
   mode <> GPIO_IN -> mode <> GPIO_OUT ->
   gpio_init_int pin mode flank cb arg (Gpio ps c x)
     = Ret (-1) (Gpio (<[p := with_IE (clear_bits (_pin pin) (IE r)) r]> ps) c x)).
Proof.
  unfold gpio_init_int. split.
  - intros [->| ->]; [done|]. rewrite Z.eqb_refl. by destruct (_isr_port pin).
  - intros p r -> Hfl Hr Hi Ho. rewrite (proj2 (Z.eqb_neq _ _) Hfl), (bind_ret _ _ _ _ _ (upd_port_ok p r _ ps c x Hr)).
    unfold gpio_init. by destruct (_port pin), mode.
Qed.

(** What [gpio_write] puts out on an output pin [gpio_read] reads back, and
    every other pin of the port keeps its level. *)
Theorem gpio_write_read {A} pin p v ps c (x : A) r :
  _port pin = Some p -> _pin pin <> 0 -> is_byte (OD r) -> ps !! p = Some r ->
  exists s r', (do! gpio_init pin GPIO_OUT; do! gpio_write pin v; gpio_read pin) (Gpio ps c x)
      = Ret (if c_true v then _pin pin else 0) s /\
    s = Gpio (<[p := r']> ps) c x /\ is_byte (OD r') /\
    forall j, 0 <= j < 8 -> Z.testbit (_pin pin) j = false -> Z.testbit (OD r') j = Z.testbit (OD r) j.
Proof.
  intros Hp Hpin Hb Hr.
  assert (is_byte (_pin pin)) as Hpb by (apply (wrapu_range 8); lia).
  pose (r1 := with_DIR (set_bits (_pin pin) (DIR r)) r).
  pose (r2 := with_OD (if c_true v then set_bits (_pin pin) (OD r) else clear_bits (_pin pin) (OD r)) r1).
  exists (Gpio (<[p := r2]> ps) c x), r2.
  assert (forall j, 8 <= j -> Z.testbit (_pin pin) j = false) as Hhigh.
  { intros j Hj. rewrite <- (wrapu_id 8 _ Hpb), wrapu_testbit by lia. by rewrite (proj2 (Z.ltb_ge j 8)) by lia. }
  assert (Hdir : c_true (Z.land (DIR r2) (_pin pin)) = true).
  { replace (Z.land (DIR r2) (_pin pin)) with (_pin pin).
    - unfold c_true. by rewrite (proj2 (Z.eqb_neq _ _) Hpin).
    - apply Z.bits_inj'. intros j Hj. rewrite Z.land_spec. destruct (decide (j < 8)); [|by rewrite Hhigh, andb_false_r by lia].
      cbn. rewrite set_bits_testbit by lia. by destruct (Z.testbit (_pin pin) j), (Z.testbit (DIR r) j). }
  assert (Hod : Z.land (OD r2) (_pin pin) = if c_true v then _pin pin else 0).
  { apply Z.bits_inj'. intros j Hj. rewrite Z.land_spec. destruct (decide (j < 8)).
    2: { rewrite Hhigh by lia. rewrite andb_false_r. destruct (c_true v); [by rewrite Hhigh by lia|by rewrite Z.bits_0]. }
    cbn. destruct (c_true v); rewrite ?set_bits_testbit, ?clear_bits_testbit, ?Z.bits_0 by (done || lia);
      by destruct (Z.testbit (_pin pin) j), (Z.testbit (OD r) j). }
  split; [|split; [done|split]].
  - unfold gpio_init. rewrite Hp, bind_assoc, (bind_ret _ _ _ _ _ (upd_port_ok p r _ ps c x Hr)). fold r1.
    rewrite (bind_ret (ret 0) _ _ _ _ eq_refl), (bind_ret _ _ _ tt (Gpio (<[p := r2]> ps) c x)).
    + unfold gpio_read, port_at, bind, unwrap, gets, ret. rewrite Hp. cbn [ports].
      by rewrite lookup_insert_eq, Hdir, Hod.
    + unfold gpio_write, gpio_set, gpio_clear. rewrite Hp. subst r2. destruct (c_true v);
        rewrite (upd_port_ok p r1 _ _ c x (lookup_insert_eq ps p r1)), insert_insert_eq; done.
  - cbn. destruct (c_true v); apply (wrapu_range 8); lia.
  - intros j Hj Hz. cbn. destruct (c_true v); rewrite ?set_bits_testbit, ?clear_bits_testbit, Hz by (done || lia).
    + apply orb_false_r.
    + apply andb_true_r.
Qed.

(** ** Witnesses *)

Definition demo_call (f a : Z) : M (gpio_st (list (Z * Z))) unit :=
  modify (fun s => Gpio (ports s) (isr_ctx s) (app s ++ [(f, a)])).
Definition demo_port : port_t := Port 0 0 0 0 0xff 0 0.
Definition demo_ports : gmap Z port_t := <[1 := demo_port]> (<[2 := demo_port]> ∅).
Definition demo_ctx : list (option Z * Z) := replicate 16 (None, 0).

Lemma gpio_int_delivers_witness : exists s s',
  gpio_init_int (GPIO_PIN 2 3) GPIO_IN GPIO_FALLING (Some 0x4400) 7 (Gpio demo_ports demo_ctx []) = Ret 0 s /\
  isr_port2 demo_call (hw_flag 2 3 s) = Ret tt s' /\ app s' = [(0x4400, 7)].
Proof.
  destruct (gpio_int_delivers demo_call 2 3 GPIO_IN GPIO_FALLING 0x4400 7 demo_ports demo_ctx [] demo_port)
    as (s & r1 & s1 & r2 & H1 & _ & _ & _ & H2 & _ & _ & H4 & H5 & H6).
  - by right.
  - lia.
  - by left.
  - by left.
  - vm_compute. done.
  - done.
  - unfold is_byte. cbn. lia.
  - unfold is_byte. cbn. lia.
  - unfold is_byte. cbn. lia.
  - unfold is_byte. cbn. lia.
  - intros k Hk _. cbn. by rewrite Z.bits_0.
  - exists s, (Gpio (ports s1) (isr_ctx s1) (app s1 ++ [(0x4400, 7)])). split; [exact H1|]. split; [|by rewrite H5].
    apply (H6 r2 H2). intros k Hk. apply H4. lia.
Defined.

Lemma gpio_write_read_witness : exists s r',
  (do! gpio_init (GPIO_PIN 2 3) GPIO_OUT; do! gpio_write (GPIO_PIN 2 3) 1; gpio_read (GPIO_PIN 2 3))
    (Gpio demo_ports demo_ctx tt) = Ret 8 s /\
  s = Gpio (<[2 := r']> demo_ports) demo_ctx tt /\ is_byte (OD r') /\
  forall j, 0 <= j < 8 -> Z.testbit (_pin (GPIO_PIN 2 3)) j = false -> Z.testbit (OD r') j = Z.testbit (OD demo_port) j.
Proof.
  apply (gpio_write_read (GPIO_PIN 2 3) 2 1 demo_ports demo_ctx tt demo_port).
  - vm_compute. done.
  - vm_compute. done.
  - unfold is_byte. cbn. lia.
  - vm_compute. done.
Defined.
