(* ===== verification/Uart.v ===== *)
(** * The serial port of the board (boards/sancus-msp430/uart.c)

    Bytes from the line are put into a ring of 128 by the receive interrupt
    and taken out by the reader, without a lock: the interrupt moves
    [rx_head] only, the reader [rx_tail] only, and one element stays free.
    The status registers are sequences of readings. *)

From S2P Require Import Prelude.

Definition RX_BUFFER_SIZE : Z := 128.
Definition BAUD : Z := 69.
Definition UART_EN : Z := 0x01.
Definition UART_IEN_RX : Z := 0x10.
Definition UART_TX_FULL : Z := 0x08.
Definition UART_TX_BUSY : Z := 0x04.

(** [receive_cb]: the function of this file, or one that was set. *)
Inductive callback : Type := AppendByte | UserCallback (f : Z).

(** A port: control and divider, the bytes written to the transmit register,
    and how often the status was read. *)
Record port : Type := Port { p_ctl : Z; p_baud : Z; p_txd : list Z; p_reads : nat }.

(** [rx_pnd] and [rxd] are the pending flag and the receive register. *)
Record uart : Type := Uart {
  rx_buffer : list Z; rx_head : Z; rx_tail : Z; receive_cb : callback; port1 : port; port2 : port; rxd : Z; rx_pnd : bool
}.

Definition with_rx_buffer (v : list Z) (u : uart) : uart := Uart v (rx_head u) (rx_tail u) (receive_cb u) (port1 u) (port2 u) (rxd u) (rx_pnd u).
Definition with_rx_head (v : Z) (u : uart) : uart := Uart (rx_buffer u) v (rx_tail u) (receive_cb u) (port1 u) (port2 u) (rxd u) (rx_pnd u).
Definition with_rx_tail (v : Z) (u : uart) : uart := Uart (rx_buffer u) (rx_head u) v (receive_cb u) (port1 u) (port2 u) (rxd u) (rx_pnd u).
Definition with_receive_cb (v : callback) (u : uart) : uart := Uart (rx_buffer u) (rx_head u) (rx_tail u) v (port1 u) (port2 u) (rxd u) (rx_pnd u).
Definition with_port1 (v : port) (u : uart) : uart := Uart (rx_buffer u) (rx_head u) (rx_tail u) (receive_cb u) v (port2 u) (rxd u) (rx_pnd u).
Definition with_port2 (v : port) (u : uart) : uart := Uart (rx_buffer u) (rx_head u) (rx_tail u) (receive_cb u) (port1 u) v (rxd u) (rx_pnd u).
Definition with_rx (v : Z) (p : bool) (u : uart) : uart := Uart (rx_buffer u) (rx_head u) (rx_tail u) (receive_cb u) (port1 u) (port2 u) v p.
Definition on_port1 {A} : M port A -> M uart A := zoom port1 with_port1.
Definition on_port2 {A} : M port A -> M uart A := zoom port2 with_port2.

Definition uart_init : M uart unit :=
  do! modify (with_receive_cb AppendByte);
  do! modify (with_rx_tail 0);
  do! modify (with_rx_head 0);
  do! on_port1 (modify (fun p => Port (Z.lor UART_EN UART_IEN_RX) BAUD (p_txd p) (p_reads p)));
  on_port2 (modify (fun p => Port UART_EN BAUD (p_txd p) (p_reads p))).

Definition uart_set_receive_cb (cb : callback) : M uart unit := modify (with_receive_cb cb).

Definition uart_available : M uart Z :=
  let! head := gets rx_head in
  let! tail := gets rx_tail in
  ret (if tail <=? head then u16 (head - tail) else u16 (RX_BUFFER_SIZE + head - tail)).

Section uart.
(** The readings of the two status registers, the bound on the loops that wait
    for them, and the callbacks that applications set. *)
Context (stat1 stat2 : nat -> Z) (fuel : nat) (user_callback : Z -> Z -> M uart unit).

Definition read_stat (stat : nat -> Z) : M port Z :=
  let! n := gets p_reads in
  do! modify (fun p => Port (p_ctl p) (p_baud p) (p_txd p) (Datatypes.S n));
  ret (stat n).

(** [while (STAT & mask) {}] *)
Definition wait_while (stat : nat -> Z) (mask : Z) : M port unit :=
  loop fuel (fun _ => let! s := read_stat stat in ret (if c_true (Z.land s mask) then inl tt else inr tt)) tt.

Definition put_txd (b : Z) : M port unit := modify (fun p => Port (p_ctl p) (p_baud p) (p_txd p ++ [b]) (p_reads p)).

Definition uart_write_byte (b : Z) : M uart unit :=
  do! on_port1 (wait_while stat1 UART_TX_FULL);
  on_port1 (put_txd b).

Fixpoint uart_write (buf : list Z) : M uart unit :=
  match buf with
  | [] => ret tt
  | b :: buf => do! uart_write_byte b; uart_write buf
  end.

Definition uart2_write_byte (b : Z) : M uart unit :=
  do! on_port2 (wait_while stat2 UART_TX_FULL);
  on_port2 (put_txd b).

Definition uart_flush : M uart unit := on_port1 (wait_while stat1 UART_TX_BUSY).

Definition uart_append_byte (b : Z) : M uart unit :=
  let! i := gets rx_head in
  let next_head := u16 (i + 1) mod RX_BUFFER_SIZE in
  let! tail := gets rx_tail in
  do! when (negb (next_head =? tail))
        (let! buf := gets rx_buffer in
         let! buf := unwrap OutOfBounds (aset buf i b) in
         do! modify (with_rx_buffer buf);
         modify (with_rx_head next_head));
  uart_write_byte b.

Definition call_back (cb : callback) (b : Z) : M uart unit :=
  match cb with AppendByte => uart_append_byte b | UserCallback f => user_callback f b end.

(** The receive interrupt; the byte is in the receive register. *)
Definition uart_receive : M uart unit :=
  let! byte := gets rxd in
  let! cb := gets receive_cb in
  do! call_back cb byte;
  let! byte := gets rxd in
  modify (with_rx byte false).

Definition uart_print_receive_buffer : M uart unit :=
  let! buf := gets rx_buffer in
  uart_write buf.

(** [uart_read_byte] by its accesses to what the interrupt shares: [rx_tail] is
    read once, [rx_head] until it differs, then the element is taken and
    [rx_tail] written. *)
Inductive reader : Type := Start | Spin (i : Z) | Take (i : Z) | Advance (i r : Z) | Done (r : Z).

Definition uart_read_byte_step (pc : reader) : M uart reader :=
  match pc with
  | Start => let! i := gets rx_tail in ret (Spin i)
  | Spin i => let! head := gets rx_head in ret (if i =? head then Spin i else Take i)
  | Take i => let! buf := gets rx_buffer in let! r := unwrap OutOfBounds (aget buf i) in ret (Advance i r)
  | Advance i r => do! modify (with_rx_tail (u16 (i + 1) mod RX_BUFFER_SIZE)); ret (Done r)
  | Done r => ret (Done r)
  end.

(** [uart_read]: a reader that starts again, and the bytes it has. *)
Record reading : Type := Reading { dev : uart; pc : reader; buf : list Z }.

Definition uart_read_step : M reading unit := fun s =>
  match uart_read_byte_step (pc s) (dev s) with
  | Ret (Done r) u => Ret tt (Reading u Start (buf s ++ [r]))
  | Ret p u => Ret tt (Reading u p (buf s))
  | Err f => Err f
  end.

(** A byte arrives and its interrupt runs, between any two accesses of the
    reader. *)
Definition byte_arrives (b : Z) : M reading unit := fun s =>
  match uart_receive (with_rx b true (dev s)) with
  | Ret _ u => Ret tt (Reading u (pc s) (buf s))
  | Err f => Err f
  end.

Inductive act : Type := Reads | Arrives (b : Z).

Definition do_act (a : act) : M reading unit :=
  match a with Reads => uart_read_step | Arrives b => byte_arrives b end.

Fixpoint run (acts : list act) : M reading unit :=
  match acts with
  | [] => ret tt
  | a :: acts => do! do_act a; run acts
  end.
End uart.
