(* ===== verification/UartProps.v ===== *)
(** * Properties of the serial port *)

From S2P Require Import Prelude Uart.

(** ** The promise: a queue of 127 bytes *)

(** The bytes that wait, and those the reader has. *)
Definition spec_state : Type := list Z * list Z.

(** A byte that arrives waits, or is dropped when 127 wait already; the reader
    takes the oldest, or is not there yet. *)
Inductive spec_step : act -> spec_state -> spec_state -> Prop :=
  | spec_arrive b q g : (length q < 127)%nat -> spec_step (Arrives b) (q, g) (q ++ [b], g)
  | spec_drop b q g : length q = 127%nat -> spec_step (Arrives b) (q, g) (q, g)
  | spec_wait q g : spec_step Reads (q, g) (q, g)
  | spec_read x q g : spec_step Reads (x :: q, g) (q, g ++ [x]).

Inductive spec_run : list act -> spec_state -> spec_state -> Prop :=
  | spec_nil s : spec_run [] s s
  | spec_cons a acts s s' s'' : spec_step a s s' -> spec_run acts s' s'' -> spec_run (a :: acts) s s''.

Definition arrivals (acts : list act) : list Z := omap (fun a => match a with Arrives b => Some b | Reads => None end) acts.

(** What left the queue in order is part of what arrived, and all of it if the
    queue cannot have been full. *)
Lemma spec_run_order acts s s' :
  spec_run acts s s' ->
  exists acc, acc `sublist_of` arrivals acts /\ s.2 ++ s.1 ++ acc = s'.2 ++ s'.1 /\
    ((length s.1 + length (arrivals acts) <= 127)%nat -> acc = arrivals acts).
Proof.
  induction 1 as [s|a acts s s1 s2 Hstep _ (acc & Hsub & E & Hall)].
  { exists []. rewrite !app_nil_r. done. }
  destruct Hstep as [b q g Hq|b q g Hq|q g|x q g]; cbn [fst snd] in *.
  - exists (b :: acc). split; [by apply sublist_skip|]. rewrite <- E, <- app_assoc. split; [done|].
    change (arrivals (Arrives b :: acts)) with (b :: arrivals acts). rewrite length_app in Hall. cbn [length] in *.
    intros H. rewrite Hall; [done|lia].
  - exists acc. split; [by apply sublist_cons|]. split; [done|].
    change (arrivals (Arrives b :: acts)) with (b :: arrivals acts). cbn [length]. lia.
  - by exists acc.
  - exists acc. split; [done|]. split; [by rewrite <- E, <- app_assoc|]. intros H. apply Hall.
    change (arrivals (Reads :: acts)) with (arrivals acts) in H. cbn [length] in H. lia.
Qed.

(** What was read stays read. *)
Lemma spec_run_prefix acts s s' : spec_run acts s s' -> s.2 `prefix_of` s'.2.
Proof.
  induction 1 as [s|a acts s s1 s2 Hstep _ IH]; [done|]. etrans; [|exact IH].
  destruct Hstep; cbn; try done. by apply prefix_app_r.
Qed.

(** ** The ring *)

Definition slot (n : nat) : nat := n `mod` 128.

Lemma slot_range n : (slot n < 128)%nat.
Proof. by apply Nat.mod_upper_bound. Qed.

Lemma slot_ne t n : (t < n)%nat -> (n < t + 128)%nat -> slot n <> slot t.
Proof.
  intros H1 H2 E. unfold slot in E. pose proof (Nat.div_mod_eq n 128) as D1. pose proof (Nat.div_mod_eq t 128) as D2. lia.
Qed.

Lemma slot_next n : u16 (Z.of_nat (slot n) + 1) mod RX_BUFFER_SIZE = Z.of_nat (slot (S n)).
Proof.
  pose proof (slot_range n) as Hn. rewrite wrapu_id by (unfold in_u; lia). unfold slot, RX_BUFFER_SIZE in *.
  change 128 with (Z.of_nat 128). change 1 with (Z.of_nat 1). rewrite <- Nat2Z.inj_add, <- Nat2Z.inj_mod. f_equal.
  rewrite Nat.Div0.add_mod_idemp_l. f_equal. lia.
Qed.

Section props.
Context (stat1 stat2 : nat -> Z) (fuel : nat) (user_callback : Z -> Z -> M uart unit).
(** The transmitter is ready again within [fuel] looks at its status. *)
Hypothesis transmits : forall n, exists k, (k < fuel)%nat /\ c_true (Z.land (stat1 (n + k)) UART_TX_FULL) = false.
Abbreviation write1 := (uart_write_byte stat1 fuel).
Abbreviation arrives := (byte_arrives stat1 fuel user_callback).
Abbreviation run_acts := (run stat1 fuel user_callback).

(** Waiting ends, and changes the number of looks only. *)
Lemma wait_while_ok mask k : forall n p f,
  (k < f)%nat -> p_reads p = n -> c_true (Z.land (stat1 (n + k)) mask) = false ->
  exists m, wait_while f stat1 mask p = Ret tt (Port (p_ctl p) (p_baud p) (p_txd p) m).
Proof.
  induction k as [|k IH]; intros n p f Hf Hp Hk; (destruct f as [|f]; [lia|]); unfold wait_while in *.
  - exists (S n). apply loop_exit. unfold read_stat. rewrite Nat.add_0_r in Hk.
    unfold bind, gets, modify, ret. by rewrite Hp, Hk.
  - destruct (c_true (Z.land (stat1 n) mask)) eqn:E.
    + erewrite loop_next; [|unfold read_stat, bind, gets, modify, ret; rewrite Hp, E; reflexivity].
      destruct (IH (S n) (Port (p_ctl p) (p_baud p) (p_txd p) (S n)) f) as [m Em]; [lia|done|by rewrite Nat.add_succ_comm|].
      exists m. exact Em.
    + exists (S n). apply loop_exit. unfold read_stat, bind, gets, modify, ret. by rewrite Hp, E.
Qed.

(** A byte that is written is sent behind the others. *)
Lemma uart_write_byte_sends b u :
  exists m, write1 b u = Ret tt (with_port1 (Port (p_ctl (port1 u)) (p_baud (port1 u)) (p_txd (port1 u) ++ [b]) m) u).
Proof.
  destruct (transmits (p_reads (port1 u))) as (k & Hk & E).
  destruct (wait_while_ok UART_TX_FULL k (p_reads (port1 u)) (port1 u) fuel Hk eq_refl E) as [m Em].
  exists m. unfold uart_write_byte, on_port1, zoom, bind. by rewrite Em.
Qed.

(** [h] bytes were put into the ring and [t] taken out. *)
Record ring (hist : list Z) (t : nat) (u : uart) : Prop := {
  r_len : length (rx_buffer u) = 128%nat;
  r_head : rx_head u = Z.of_nat (slot (length hist));
  r_tail : rx_tail u = Z.of_nat (slot t);
  r_le : (t <= length hist <= t + 127)%nat;
  r_slots k : (t <= k < length hist)%nat -> rx_buffer u !! slot k = hist !! k
}.

(** Where the reader is. *)
Definition reader_ok (hist : list Z) (t : nat) (p : reader) : Prop :=
  match p with
  | Start => True
  | Spin i => i = Z.of_nat (slot t)
  | Take i => i = Z.of_nat (slot t) /\ (t < length hist)%nat
  | Advance i r => i = Z.of_nat (slot t) /\ hist !! t = Some r
  | Done _ => False
  end.

(** How many steps of its own the reader needs when a byte waits. *)
Definition rank (p : reader) : nat :=
  match p with Start => 4 | Spin _ => 3 | Take _ => 2 | Advance _ _ => 1 | Done _ => 0 end.

(** The accesses of the reader among the steps. *)
Fixpoint accesses (acts : list act) : nat :=
  match acts with [] => 0 | Reads :: acts => S (accesses acts) | Arrives _ :: acts => accesses acts end.

(** The port and its reader implement [q] waiting and [g] read. *)
Definition implements (s : reading) (a : spec_state) : Prop :=
  exists hist t, ring hist t (dev s) /\ receive_cb (dev s) = AppendByte /\ reader_ok hist t (pc s) /\
    a = (drop t hist, buf s) .

Lemma queue_length hist t u : ring hist t u -> (length (drop t hist) = length hist - t)%nat.
Proof. intros _. apply length_drop. Qed.

(** The interrupt for a byte. *)
Lemma append_ring hist t u b :
  ring hist t u ->
  exists u' hist', uart_append_byte stat1 fuel b u = Ret tt u' /\ ring hist' t u' /\ receive_cb u' = receive_cb u /\
    hist' = (if decide (length hist - t < 127)%nat then hist ++ [b] else hist) /\
    p_txd (port1 u') = p_txd (port1 u) ++ [b] /\ rxd u' = rxd u /\ rx_pnd u' = rx_pnd u.
Proof.
  intros [Hl Hh Ht Hle Hs]. unfold uart_append_byte. rewrite !(bind_ret _ _ _ _ _ (gets_ok _ _)), Hh, slot_next, Ht.
  assert ((Z.of_nat (slot (S (length hist))) =? Z.of_nat (slot t)) = bool_decide (length hist - t = 127)%nat) as ->.
  { case_bool_decide as Hd.
    - apply Z.eqb_eq. f_equal. unfold slot. replace (S (length hist)) with (t + 1 * 128)%nat by lia. apply Nat.Div0.mod_add.
    - apply Z.eqb_neq. intros E%Nat2Z.inj. revert E. apply slot_ne; lia. }
  case_bool_decide as Hd; cbn [negb when].
  - destruct (uart_write_byte_sends b u) as [m E]. rewrite (bind_ret (ret tt) _ _ _ _ eq_refl), E.
    eexists _, hist. split; [done|]. split; [by split|]. split; [done|]. split; [|done]. by rewrite decide_False by lia.
  - rewrite bind_assoc, (bind_ret _ _ _ _ _ (gets_ok _ _)). unfold aset. pose proof (slot_range (length hist)) as Hr.
    rewrite (proj2 (Z.leb_le _ _)), (proj2 (Z.ltb_lt _ _)) by lia. cbn [andb unwrap]. rewrite Nat2Z.id.
    rewrite bind_assoc, (bind_ret (ret _) _ _ _ _ eq_refl), bind_assoc, !(bind_ret _ _ _ _ _ (modify_ok _ _)).
    set (u1 := with_rx_head _ _). destruct (uart_write_byte_sends b u1) as [m E]. rewrite E.
    eexists _, (hist ++ [b]). split; [done|]. split; [|split; [done|split; [|done]]].
    + split; cbn; rewrite ?length_insert, ?length_app; cbn [length]; try done; [by rewrite Nat.add_1_r|lia|].
      intros k Hk. destruct (decide (k = length hist)) as [->|Hne].
      * rewrite list_lookup_insert_eq by lia. by rewrite list_lookup_middle.
      * rewrite list_lookup_insert_ne by (apply slot_ne; lia). rewrite lookup_app_l by lia. apply Hs. lia.
    + by rewrite decide_True by lia.
Qed.

Lemma arrives_refines s a b :
  implements s a ->
  exists s' a', arrives b s = Ret tt s' /\ implements s' a' /\ spec_step (Arrives b) a a' /\
    p_txd (port1 (dev s')) = p_txd (port1 (dev s)) ++ [b] /\ pc s' = pc s.
Proof.
  intros (hist & t & Hr & Hcb & Hpc & ->). set (u := with_rx b true (dev s)).
  assert (ring hist t u) as Hru by (destruct Hr; by split).
  destruct (append_ring hist t u b Hru) as (u' & hist' & E & Hr' & Hcb' & -> & Htx & Hrx & _).
  assert (uart_receive stat1 fuel user_callback u = Ret tt (with_rx b false u')) as Ei.
  { unfold uart_receive. rewrite !(bind_ret _ _ _ _ _ (gets_ok _ _)). change (receive_cb u) with (receive_cb (dev s)).
    rewrite Hcb. cbn [call_back]. change (rxd u) with b. rewrite (bind_ret _ _ _ _ _ E), (bind_ret _ _ _ _ _ (gets_ok _ _)).
    by rewrite Hrx. }
  set (hist' := if decide _ then _ else _) in *.
  exists (Reading (with_rx b false u') (pc s) (buf s)), (drop t hist', buf s). split; [|split; [|split; [|split; [exact Htx|done]]]].
  - unfold byte_arrives. fold u. by rewrite Ei.
  - exists hist', t. split; [destruct Hr'; by split|]. split; [cbn; by rewrite Hcb'|]. split; [|done].
    subst hist'. case_decide; [|done]. destruct (pc s); cbn in *; try done.
    + rewrite length_app. cbn. lia.
    + destruct Hpc as [-> Hl]. split; [done|]. by apply lookup_app_l_Some.
  - destruct Hr. subst hist'. case_decide as Hd.
    + rewrite drop_app_le by lia. constructor. rewrite length_drop. lia.
    + constructor. rewrite length_drop. lia.
Qed.

Lemma reads_refines s a :
  implements s a ->
  exists s' a', uart_read_step s = Ret tt s' /\ implements s' a' /\ spec_step Reads a a' /\
    p_txd (port1 (dev s')) = p_txd (port1 (dev s)) /\ (a' = a -> a.1 <> [] -> S (rank (pc s')) = rank (pc s)).
Proof.
  intros (hist & t & Hr & Hcb & Hpc & ->). unfold uart_read_step. pose proof Hr as [Hl Hh Ht Hle Hs].
  destruct (pc s) as [|i|i|i r|r]; cbn [uart_read_byte_step reader_ok] in *.
  - eexists _, _. split; [done|]. split; [|split; [constructor|split; done]]. exists hist, t. done.
  - subst i. rewrite (bind_ret _ _ _ _ _ (gets_ok _ _)), Hh. unfold ret.
    destruct (Z.eqb_spec (Z.of_nat (slot t)) (Z.of_nat (slot (length hist)))) as [E|E];
      (eexists _, _; split; [done|]; split; [|split; [constructor|split; [done|]]]); try (exists hist, t); try done.
    { intros _ H. destruct H. apply drop_ge. destruct (decide (t = length hist)); [lia|].
      apply Nat2Z.inj in E. destruct (slot_ne t (length hist)); [lia..|done]. }
    split; [done|]. split; [done|]. split; [|done]. split; [done|]. assert (t <> length hist) by congruence. lia.
  - destruct Hpc as [-> Hlt]. rewrite (bind_ret _ _ _ _ _ (gets_ok _ _)), aget_nat, (Hs t) by lia.
    destruct (lookup_lt_is_Some_2 hist t Hlt) as [r E]. rewrite E. cbn [unwrap].
    eexists _, _. split; [done|]. split; [|split; [constructor|split; done]]. exists hist, t. done.
  - destruct Hpc as [-> E]. pose proof (lookup_lt_Some _ _ _ E) as Hlt.
    rewrite (bind_ret _ _ _ _ _ (modify_ok _ _)), slot_next. unfold ret.
    eexists _, (drop (S t) hist, buf s ++ [r]). split; [done|]. split; [|split; [|split; [done|]]].
    + exists hist, (S t). split; [|done]. split; cbn; try done; [lia|]. intros k Hk. apply Hs. lia.
    + rewrite (drop_S _ r) by done. constructor.
    + intros [= E' _]. apply (f_equal length) in E'. rewrite !length_drop in E'. lia.
  - done.
Qed.

(** Every step is a step of the queue. *)
Lemma run_refines acts : forall s a,
  implements s a ->
  exists s' a', run_acts acts s = Ret tt s' /\ implements s' a' /\ spec_run acts a a' /\
    p_txd (port1 (dev s')) = p_txd (port1 (dev s)) ++ arrivals acts.
Proof.
  induction acts as [|[|b] acts IH]; intros s a Hs.
  - exists s, a. rewrite app_nil_r. split; [done|]. split; [done|]. split; [constructor|done].
  - destruct (reads_refines s a Hs) as (s1 & a1 & E1 & H1 & St & Tx & _).
    destruct (IH s1 a1 H1) as (s' & a' & E & H' & Rn & Tx'). exists s', a'. cbn [run do_act].
    rewrite (bind_ret _ _ _ _ _ E1). split; [done|]. split; [done|]. split; [by econstructor|]. by rewrite Tx', Tx.
  - destruct (arrives_refines s a b Hs) as (s1 & a1 & E1 & H1 & St & Tx & _).
    destruct (IH s1 a1 H1) as (s' & a' & E & H' & Rn & Tx'). exists s', a'. cbn [run do_act].
    rewrite (bind_ret _ _ _ _ _ E1). split; [done|]. split; [done|]. split; [by econstructor|].
    by rewrite Tx', Tx, <- app_assoc.
Qed.

(** [uart_available] counts the bytes that wait. *)
Lemma available_counts s a : implements s a -> uart_available (dev s) = Ret (Z.of_nat (length a.1)) (dev s).
Proof.
  intros (hist & t & [Hl Hh Ht Hle Hs] & _ & _ & ->). cbn [fst]. rewrite length_drop. unfold uart_available.
  rewrite !(bind_ret _ _ _ _ _ (gets_ok _ _)), Hh, Ht. unfold ret. f_equal.
  pose proof (slot_range t) as Rt. pose proof (slot_range (length hist)) as Rh. unfold RX_BUFFER_SIZE.
  assert (slot (length hist) = slot t + (length hist - t) \/ slot (length hist) + 128 = slot t + (length hist - t))%nat.
  { unfold slot in *. pose proof (Nat.div_mod_eq (length hist) 128) as D1. pose proof (Nat.div_mod_eq t 128) as D2. lia. }
  destruct (Z.leb_spec (Z.of_nat (slot t)) (Z.of_nat (slot (length hist)))); rewrite wrapu_id by (unfold in_u; lia); lia.
Qed.

Lemma init_implements u0 :
  length (rx_buffer u0) = 128%nat ->
  exists u, uart_init u0 = Ret tt u /\ implements (Reading u Start []) ([], []) /\ p_txd (port1 u) = p_txd (port1 u0) /\
    p_ctl (port1 u) = 17 /\ p_ctl (port2 u) = 1.
Proof.
  intros Hl. eexists. split; [reflexivity|]. split; [|done].
  exists [], 0%nat. split; [split; cbn; try done; lia|]. done.
Qed.

(** C28 After [uart_init], in whatever order bytes arrive and the reader makes its
    accesses: nothing faults, every byte that arrives is sent back, the port
    did what a queue of 127 bytes does, [uart_available] is its length, and
    what was read and what waits are the bytes that arrived, in their order,
    all of them when there were 127 at most. *)
Theorem uart_refines_queue u0 u acts :
  length (rx_buffer u0) = 128%nat -> uart_init u0 = Ret tt u ->
  exists s q, run_acts acts (Reading u Start []) = Ret tt s /\ spec_run acts ([], []) (q, buf s) /\
    uart_available (dev s) = Ret (Z.of_nat (length q)) (dev s) /\
    p_txd (port1 (dev s)) = p_txd (port1 u0) ++ arrivals acts /\
    (buf s ++ q) `sublist_of` arrivals acts /\
    ((length (arrivals acts) <= 127)%nat -> buf s ++ q = arrivals acts).
Proof.
  intros Hl Hi. destruct (init_implements u0 Hl) as (u' & Hi' & Hu & Tx & _).
  rewrite Hi in Hi'. injection Hi' as <-.
  destruct (run_refines acts _ _ Hu) as (s & [q g] & E & Hs & Rn & Tx').
  pose proof Hs as (hist & t & _ & _ & _ & [= Hq ->]). exists s, q. split; [done|]. split; [done|].
  split; [by rewrite (available_counts s _ Hs)|]. split; [by rewrite Tx'; cbn; rewrite Tx|].
  destruct (spec_run_order acts _ _ Rn) as (acc & Hsub & Ea & Hall). cbn [fst snd app length plus] in Ea, Hall. rewrite <- Ea. by split.
Qed.

(** C29 A byte that waits is returned after four accesses of the reader at most,
    whatever arrives between them. *)
Theorem uart_read_returns acts : forall s x q g,
  implements s (x :: q, g) -> (rank (pc s) <= accesses acts)%nat ->
  exists s', run_acts acts s = Ret tt s' /\ (g ++ [x]) `prefix_of` buf s'.
Proof.
  induction acts as [|[|b] acts IH]; intros s x q g Hs Hk.
  - destruct Hs as (hist & t & _ & _ & Hpc & _). destruct (pc s); cbn in *; done || lia.
  - destruct (reads_refines s _ Hs) as (s1 & a1 & E1 & H1 & St & _ & Hrank). cbn [run do_act].
    rewrite (bind_ret _ _ _ _ _ E1). cbn [accesses] in Hk.
    inversion St; subst.
    + eapply IH; [exact H1|]. specialize (Hrank eq_refl). cbn in Hrank. specialize (Hrank ltac:(done)). lia.
    + destruct (run_refines acts s1 _ H1) as (s' & a' & E' & H' & Rn & _). exists s'. split; [done|].
      destruct H' as (hist & t & _ & _ & _ & ->). apply (spec_run_prefix _ _ _ Rn).
  - destruct (arrives_refines s _ b Hs) as (s1 & a1 & E1 & H1 & St & _ & Epc). cbn [run do_act].
    rewrite (bind_ret _ _ _ _ _ E1). cbn [accesses] in Hk. rewrite <- Epc in Hk.
    inversion St; subst; eapply IH; eauto.
Qed.
End props.

(** A transmitter that is busy at every other look, and a port at power-on. *)
Definition alternating (n : nat) : Z := if Nat.even n then UART_TX_FULL else 0.
Definition port_reset : port := Port 0 0 [] 0.
Definition uart_reset : uart := Uart (repeat 0 128) 5 9 (UserCallback 0) port_reset port_reset 0 false.
Definition uart_ready : uart := Uart (repeat 0 128) 0 0 AppendByte (Port 17 69 [] 0) (Port 1 69 [] 0) 0 false.

Lemma alternating_transmits n : exists k, (k < 2)%nat /\ c_true (Z.land (alternating (n + k)) UART_TX_FULL) = false.
Proof.
  destruct (Nat.even n) eqn:E; [exists 1%nat|exists 0%nat]; (split; [lia|]); unfold alternating.
  - rewrite Nat.add_1_r, Nat.even_succ, <- Nat.negb_even, E. done.
  - by rewrite Nat.add_0_r, E.
Qed.

Lemma uart_refines_queue_witness :
  uart_init uart_reset = Ret tt uart_ready /\
  exists s q, run alternating 2 (fun _ _ => ret tt) [Arrives 7; Reads; Reads; Arrives 8; Reads; Reads] (Reading uart_ready Start []) = Ret tt s /\
    buf s ++ q = [7; 8].
Proof.
  split; [reflexivity|].
  destruct (uart_refines_queue alternating 2 (fun _ _ => ret tt) alternating_transmits uart_reset uart_ready
    [Arrives 7; Reads; Reads; Arrives 8; Reads; Reads] eq_refl eq_refl) as (s & q & E & _ & _ & _ & _ & H).
  exists s, q. split; [exact E|]. apply H. cbn. lia.
Defined.

Definition uart_one : uart := Uart (7 :: repeat 0 127) 1 0 AppendByte (Port 17 69 [7] 2) (Port 1 69 [] 0) 7 false.

Lemma uart_one_implements : implements (Reading uart_one Start []) ([7], []).
Proof.
  exists [7], 0%nat. split; [|done]. split; cbn; try done; [lia|]. intros k Hk. by assert (k = 0%nat) as -> by lia.
Qed.

Lemma uart_read_returns_witness :
  exists s', run alternating 2 (fun _ _ => ret tt) [Reads; Arrives 8; Reads; Arrives 9; Reads; Reads] (Reading uart_one Start []) = Ret tt s' /\
    [7] `prefix_of` buf s'.
Proof.
  apply (uart_read_returns alternating 2 (fun _ _ => ret tt) alternating_transmits _ _ 7 [] []);
    [exact uart_one_implements|cbn; lia].
Defined.
