(* ===== verification/Byteorder.v ===== *)
(** * Byte order conversion (core/include/byteorder.h)

    The packed unions [le_uintN_t] and [be_uintN_t] are the bytes they
    occupy; reading the member [uN] of a union is a load in the order of the
    host, which is little endian on every supported board.  GCC's
    [__builtin_bswapN] reverses the bytes of its argument. *)

From S2P Require Import Prelude.

(** ** Memory *)

(** The [n] bytes of [v], least significant first, and the value they hold. *)
Fixpoint le_bytes (n : nat) (v : Z) : list Z :=
  match n with
  | O => []
  | Datatypes.S n' => u8 v :: le_bytes n' (Z.shiftr v 8)
  end.

Fixpoint le_load (bs : list Z) : Z :=
  match bs with
  | [] => 0
  | b :: r => Z.lor b (Z.shiftl (le_load r) 8)
  end.

Definition bytes_ok (bs : list Z) : Prop := Forall (in_u 8) bs.

(** ** The program *)

Record le_uint16_t := Le16 { le16_u8 : list Z }.
Record le_uint32_t := Le32 { le32_u8 : list Z }.
Record le_uint64_t := Le64 { le64_u8 : list Z }.
Record be_uint16_t := Be16 { be16_u8 : list Z }.
Record be_uint32_t := Be32 { be32_u8 : list Z }.
Record be_uint64_t := Be64 { be64_u8 : list Z }.

(** The fallback of [__builtin_bswap16] for compilers without it. *)
Definition builtin_bswap16 (a : Z) : Z := u16 (Z.lor (Z.shiftl a 8) (Z.shiftr a 8)).

Definition bswap (n : nat) (v : Z) : Z := le_load (rev (le_bytes n v)).

(** The MSP430 build swaps the two bytes in place. *)
Definition byteorder_swaps_msp430 (v : Z) : Z :=
  let result := Be16 (le_bytes 2 v) in
  let tmp := nth 0 (be16_u8 result) 0 in
  let result := Be16 (<[0%nat := nth 1 (be16_u8 result) 0]> (be16_u8 result)) in
  let result := Be16 (<[1%nat := tmp]> (be16_u8 result)) in
  le_load (be16_u8 result).

Definition byteorder_swaps (v : Z) : Z := bswap 2 v.
Definition byteorder_swapl (v : Z) : Z := bswap 4 v.
Definition byteorder_swapll (v : Z) : Z := bswap 8 v.

Definition byteorder_ltobs (v : le_uint16_t) : be_uint16_t :=
  Be16 (le_bytes 2 (byteorder_swaps (le_load (le16_u8 v)))).
Definition byteorder_ltobl (v : le_uint32_t) : be_uint32_t :=
  Be32 (le_bytes 4 (byteorder_swapl (le_load (le32_u8 v)))).
Definition byteorder_ltobll (v : le_uint64_t) : be_uint64_t :=
  Be64 (le_bytes 8 (byteorder_swapll (le_load (le64_u8 v)))).
Definition byteorder_btols (v : be_uint16_t) : le_uint16_t :=
  Le16 (le_bytes 2 (byteorder_swaps (le_load (be16_u8 v)))).
Definition byteorder_btoll (v : be_uint32_t) : le_uint32_t :=
  Le32 (le_bytes 4 (byteorder_swapl (le_load (be32_u8 v)))).
Definition byteorder_btolll (v : be_uint64_t) : le_uint64_t :=
  Le64 (le_bytes 8 (byteorder_swapll (le_load (be64_u8 v)))).

Definition byteorder_htons (v : Z) : be_uint16_t := Be16 (le_bytes 2 (byteorder_swaps v)).
Definition byteorder_htonl (v : Z) : be_uint32_t := Be32 (le_bytes 4 (byteorder_swapl v)).
Definition byteorder_htonll (v : Z) : be_uint64_t := Be64 (le_bytes 8 (byteorder_swapll v)).
Definition byteorder_ntohs (v : be_uint16_t) : Z := byteorder_swaps (le_load (be16_u8 v)).
Definition byteorder_ntohl (v : be_uint32_t) : Z := byteorder_swapl (le_load (be32_u8 v)).
Definition byteorder_ntohll (v : be_uint64_t) : Z := byteorder_swapll (le_load (be64_u8 v)).

Definition htons (v : Z) : Z := le_load (be16_u8 (byteorder_htons v)).
Definition htonl (v : Z) : Z := le_load (be32_u8 (byteorder_htonl v)).
Definition htonll (v : Z) : Z := le_load (be64_u8 (byteorder_htonll v)).
Definition ntohs (v : Z) : Z := byteorder_ntohs (Be16 (le_bytes 2 v)).
Definition ntohl (v : Z) : Z := byteorder_ntohl (Be32 (le_bytes 4 v)).
Definition ntohll (v : Z) : Z := byteorder_ntohll (Be64 (le_bytes 8 v)).

(** [buf[0] << 8] is computed in the 16-bit [int]. *)
Definition byteorder_bebuftohs (buf : list Z) : option Z :=
  match buf !! 0%nat, buf !! 1%nat with
  | Some b0, Some b1 => Some (u16 (Z.lor (s16 (Z.shiftl b0 8)) (Z.shiftl b1 0)))
  | _, _ => None
  end.

Definition byteorder_htobebufs (buf : list Z) (val : Z) : option (list Z) :=
  if (1 <? Z.of_nat (length buf)) then
    Some (<[1%nat := u8 (Z.shiftr val 0)]> (<[0%nat := u8 (Z.shiftr val 8)]> buf))
  else None.

(** ** Loads and stores are inverse *)

Lemma le_bytes_ok n v : bytes_ok (le_bytes n v).
Proof.
  revert v. induction n as [|n IH]; intros v; constructor; [|apply IH]. apply wrapu_range. lia.
Qed.

Lemma le_bytes_length n v : length (le_bytes n v) = n.
Proof. revert v. induction n as [|n IH]; intros v; [done|]. cbn. by rewrite IH. Qed.

Lemma le_cons b r : in_u 8 b -> Z.lor b (Z.shiftl r 8) = b + r * 2 ^ 8.
Proof.
  intros Hb. rewrite Z.shiftl_mul_pow2 by lia. rewrite <- Z.lxor_lor, <- Z.add_nocarry_lxor; [done| |].
  all: apply Z.bits_inj'; intros i Hi; rewrite Z.land_spec, Z.bits_0;
    destruct (Z.lt_ge_cases i 8);
    [rewrite Z.mul_pow2_bits_low by lia; apply andb_false_r|].
  all: rewrite <- (wrapu_id 8 b) by done; rewrite wrapu_testbit by lia;
    by rewrite (proj2 (Z.ltb_ge i 8)) by lia.
Qed.

Lemma le_load_bytes n v : le_load (le_bytes n v) = wrapu (8 * Z.of_nat n) v.
Proof.
  revert v. induction n as [|n IH]; intros v.
  { cbn. unfold wrapu. by rewrite Z.mod_1_r. }
  cbn [le_bytes le_load]. rewrite IH, le_cons by (apply wrapu_range; lia).
  unfold wrapu. rewrite Z.shiftr_div_pow2 by lia.
  replace (8 * Z.of_nat (Datatypes.S n)) with (8 + 8 * Z.of_nat n) by lia.
  rewrite Z.pow_add_r, Z.rem_mul_r by lia. lia.
Qed.

Lemma le_bytes_load bs : bytes_ok bs -> le_bytes (length bs) (le_load bs) = bs.
Proof.
  induction 1 as [|b r Hb Hr IH]; [done|]. cbn [length le_load le_bytes].
  rewrite le_cons by done. f_equal.
  - unfold wrapu. rewrite Z_mod_plus_full. by apply Z.mod_small.
  - rewrite Z.shiftr_div_pow2, Z_div_plus_full by lia.
    rewrite Z.div_small by done. by rewrite Z.add_0_l.
Qed.

Lemma le_bytes_load_n n bs : bytes_ok bs -> length bs = n -> le_bytes n (le_load bs) = bs.
Proof. intros Hb <-. by apply le_bytes_load. Qed.

Lemma le_load_bytes_id n v : in_u (8 * Z.of_nat n) v -> le_load (le_bytes n v) = v.
Proof. intros. rewrite le_load_bytes. by apply wrapu_id. Qed.

Lemma bytes_ok_rev bs : bytes_ok bs -> bytes_ok (rev bs).
Proof. apply List.Forall_rev. Qed.

(** ** Swapping *)

Lemma bswap_bytes n v : le_bytes n (bswap n v) = rev (le_bytes n v).
Proof.
  apply le_bytes_load_n; [apply bytes_ok_rev, le_bytes_ok|].
  by rewrite length_rev, le_bytes_length.
Qed.

Lemma bswap_involutive n v : in_u (8 * Z.of_nat n) v -> bswap n (bswap n v) = v.
Proof.
  intros Hv. unfold bswap at 1. rewrite bswap_bytes, rev_involutive. by apply le_load_bytes_id.
Qed.

Lemma bswap_load n bs :
  bytes_ok bs -> length bs = n -> bswap n (le_load bs) = le_load (rev bs).
Proof. intros Hb Hl. unfold bswap. by rewrite le_bytes_load_n. Qed.

Lemma swaps_split v :
  byteorder_swaps v = u8 (Z.shiftr v 8) + u8 v * 2 ^ 8.
Proof.
  unfold byteorder_swaps, bswap. cbn [le_bytes rev app le_load].
  rewrite Z.shiftl_0_l, Z.lor_0_r, le_cons by (apply wrapu_range; lia). done.
Qed.

Lemma swaps_msp430_eq v : byteorder_swaps_msp430 v = byteorder_swaps v.
Proof. reflexivity. Qed.

Lemma bswap16_fallback a : in_u 16 a -> builtin_bswap16 a = byteorder_swaps a.
Proof.
  intros Ha. rewrite swaps_split. unfold builtin_bswap16.
  assert (in_u 8 (Z.shiftr a 8)) as Hs.
  { unfold in_u in *. rewrite Z.shiftr_div_pow2 by lia.
    split; [apply Z.div_pos; lia|]. apply Z.div_lt_upper_bound; lia. }
  rewrite Z.lor_comm, le_cons, (wrapu_id 8 (Z.shiftr a 8)) by done.
  unfold wrapu, in_u in *. pose proof (Z.mod_pos_bound a (2 ^ 8)).
  rewrite (Z_div_mod_eq_full a (2 ^ 8)) at 2.
  replace (Z.shiftr a 8 + (2 ^ 8 * (a / 2 ^ 8) + a mod 2 ^ 8) * 2 ^ 8)
    with (Z.shiftr a 8 + (a mod 2 ^ 8) * 2 ^ 8 + (a / 2 ^ 8) * 2 ^ 16) by lia.
  rewrite Z_mod_plus_full. apply Z.mod_small. lia.
Qed.

(** ** Properties *)

(** Network byte order: whatever the host value, the union written by
    [byteorder_hton*] holds its bytes most significant first, [ntoh*] reads
    the value back, and the plain-integer forms [htons], [ntohs] and their
    wider versions are inverse to each other. *)
Theorem byteorder_network_roundtrip a b c :
  in_u 16 a -> in_u 32 b -> in_u 64 c ->
  be16_u8 (byteorder_htons a) = rev (le_bytes 2 a) /\
  be32_u8 (byteorder_htonl b) = rev (le_bytes 4 b) /\
  be64_u8 (byteorder_htonll c) = rev (le_bytes 8 c) /\
  byteorder_ntohs (byteorder_htons a) = a /\
  byteorder_ntohl (byteorder_htonl b) = b /\
  byteorder_ntohll (byteorder_htonll c) = c /\
  ntohs (htons a) = a /\ ntohl (htonl b) = b /\ ntohll (htonll c) = c.
Proof.
  intros Ha Hb Hc.
  unfold htons, ntohs, htonl, ntohl, htonll, ntohll, byteorder_htons, byteorder_htonl,
    byteorder_htonll, byteorder_ntohs, byteorder_ntohl, byteorder_ntohll; cbn [be16_u8 be32_u8 be64_u8].
  unfold byteorder_swaps, byteorder_swapl, byteorder_swapll.
  assert (forall n v, in_u (8 * Z.of_nat n) v -> bswap n (le_load (le_bytes n (bswap n v))) = v) as Hrt.
  { intros n v Hv. rewrite bswap_bytes, bswap_load, rev_involutive; [by apply le_load_bytes_id| |].
    - apply bytes_ok_rev, le_bytes_ok.
    - by rewrite length_rev, le_bytes_length. }
  assert (forall n v, le_bytes n (le_load (le_bytes n (bswap n v))) = le_bytes n (bswap n v)) as Hid.
  { intros n v. apply le_bytes_load_n; [apply le_bytes_ok|apply le_bytes_length]. }
  rewrite !Hid, !Hrt by done. by rewrite !bswap_bytes.
Qed.

(** Changing the byte order of a stored integer twice gives it back: the
    little-endian and big-endian unions of each width are related by a
    conversion that reverses the stored bytes; the three implementations of
    the 16-bit swap agree. *)
Theorem byteorder_union_roundtrip bs ws ls v :
  bytes_ok bs -> length bs = 2%nat -> bytes_ok ws -> length ws = 4%nat ->
  bytes_ok ls -> length ls = 8%nat -> in_u 16 v ->
  byteorder_ltobs (Le16 bs) = Be16 (rev bs) /\ byteorder_btols (Be16 (rev bs)) = Le16 bs /\
  byteorder_ltobl (Le32 ws) = Be32 (rev ws) /\ byteorder_btoll (Be32 (rev ws)) = Le32 ws /\
  byteorder_ltobll (Le64 ls) = Be64 (rev ls) /\ byteorder_btolll (Be64 (rev ls)) = Le64 ls /\
  byteorder_swaps_msp430 v = byteorder_swaps v /\ builtin_bswap16 v = byteorder_swaps v.
Proof.
  intros Hb Lb Hw Lw Hl Ll Hv.
  assert (forall n bs, bytes_ok bs -> length bs = n -> le_bytes n (bswap n (le_load bs)) = rev bs) as Hs.
  { intros n xs Hx Hn. rewrite bswap_load by done.
    apply le_bytes_load_n; [by apply bytes_ok_rev|by rewrite length_rev]. }
  unfold byteorder_ltobs, byteorder_btols, byteorder_ltobl, byteorder_btoll, byteorder_ltobll,
    byteorder_btolll, byteorder_swaps, byteorder_swapl, byteorder_swapll. cbn [le16_u8 le32_u8 le64_u8 be16_u8 be32_u8 be64_u8].
  split_and!; [..|by apply bswap16_fallback].
  all: f_equal; rewrite Hs; rewrite ?rev_involutive, ?length_rev; auto using bytes_ok_rev.
Qed.

(** Writing a 16-bit value to a buffer in big endian and reading it back
    returns the value, whatever the buffer held; the bytes after the first
    two are untouched, a buffer shorter than two bytes is not accessed
    within its bounds. *)
Theorem byteorder_buffer_roundtrip b0 b1 rest val :
  in_u 16 val ->
  exists buf', byteorder_htobebufs (b0 :: b1 :: rest) val = Some buf' /\
    buf' = rev (le_bytes 2 val) ++ rest /\ byteorder_bebuftohs buf' = Some val /\
    byteorder_htobebufs [b0] val = None.
Proof.
  intros Hv. eexists. unfold byteorder_htobebufs.
  rewrite (proj2 (Z.ltb_lt _ _)) by (cbn [length]; lia). split; [reflexivity|].
  rewrite Z.shiftr_0_r. split; [reflexivity|]. split; [|done].
  unfold byteorder_bebuftohs. cbn. f_equal. rewrite Z.shiftl_0_r.
  set (hi := u8 (Z.shiftr val 8)). set (lo := u8 val).
  assert (in_u 8 hi) as Hhi by (apply wrapu_range; lia).
  assert (in_u 8 lo) as Hlo by (apply wrapu_range; lia).
  assert (u16 (Z.lor (s16 (Z.shiftl hi 8)) lo) = u16 (Z.lor (Z.shiftl hi 8) lo)) as ->.
  { apply Z.bits_inj'. intros i Hi. rewrite !wrapu_testbit, !Z.lor_spec by lia.
    destruct (Z.ltb_spec i 16); [|done]. cbn [andb]. f_equal.
    rewrite <- (Z.mod_pow2_bits_low (s16 _) 16), <- (Z.mod_pow2_bits_low (Z.shiftl hi 8) 16) by lia.
    f_equal. unfold wraps. rewrite Zminus_mod_idemp_l. f_equal. lia. }
  rewrite Z.lor_comm, le_cons by done.
  assert (hi = val / 2 ^ 8) as ->.
  { unfold hi. rewrite Z.shiftr_div_pow2 by lia. apply wrapu_id. unfold in_u in *.
    split; [apply Z.div_pos; lia|apply Z.div_lt_upper_bound; lia]. }
  unfold lo, wrapu. rewrite (Z.add_comm (val mod _)), (Z.mul_comm _ (2 ^ 8)), <- Z_div_mod_eq_full.
  by apply Z.mod_small.
Qed.

Lemma byteorder_network_roundtrip_witness :
  be16_u8 (byteorder_htons 0x1234) = [0x12; 0x34] /\ ntohl (htonl 0xDEADBEEF) = 0xDEADBEEF.
Proof.
  destruct (byteorder_network_roundtrip 0x1234 0xDEADBEEF 5) as (H1 & _ & _ & _ & _ & _ & _ & H2 & _).
  - unfold in_u; lia.
  - unfold in_u; lia.
  - unfold in_u; lia.
  - split; [exact H1|exact H2].
Defined.

Lemma byteorder_union_roundtrip_witness : byteorder_ltobs (Le16 [1; 2]) = Be16 [2; 1].
Proof.
  apply (byteorder_union_roundtrip [1; 2] [1; 2; 3; 4] [1; 2; 3; 4; 5; 6; 7; 8] 7);
    first [reflexivity | repeat constructor; unfold in_u; lia | unfold in_u; lia].
Defined.

Lemma byteorder_buffer_roundtrip_witness :
  exists buf, byteorder_htobebufs [0; 0; 7] 0xABCD = Some buf /\ byteorder_bebuftohs buf = Some 0xABCD.
Proof.
  destruct (byteorder_buffer_roundtrip 0 0 [7] 0xABCD) as (buf & H1 & _ & H2 & _).
  - unfold in_u; lia.
  - exists buf. split; [exact H1|exact H2].
Defined.
