(* ===== verification/Lifo.v ===== *)
(** * The integer stack of core/lifo.c

    [array[0]] holds the top of the stack and [array[i + 1]] the element
    below [i]; -1 ends the stack.  [DEVELHELP] builds also clear the slot of
    the element they return. *)

From S2P Require Import Prelude.

(** ** The program *)

Abbreviation array := (list Z).

Definition read (i : Z) : M array Z := fun a => unwrap OutOfBounds (aget a i) a.
Definition write (i v : Z) : M array unit :=
  fun a => match aset a i v with Some a' => Ret tt a' | None => Err OutOfBounds end.

Definition lifo_empty : M array Z :=
  let! x := read 0 in ret (c_bool (x =? -1)).

Definition lifo_init (fuel : nat) (n : Z) : M array unit :=
  loop fuel (fun i =>
    if i <=? n then do! write i (-1); ret (inl (s16 (i + 1))) else ret (inr tt)) 0.

Definition lifo_insert (i : Z) : M array unit :=
  let index := s16 (i + 1) in
  let! top := read 0 in
  do! write index top;
  write 0 i.

Definition lifo_get (develhelp : bool) : M array Z :=
  let! head := read 0 in
  do! when (negb (head =? -1))
        (let! next := read (s16 (head + 1)) in write 0 next);
  do! when develhelp (write (s16 (head + 1)) (-1));
  ret head.

(** ** The stack an array holds *)

Fixpoint linked (a : array) (slot : Z) (xs : list Z) : Prop :=
  match xs with
  | [] => aget a slot = Some (-1)
  | x :: r => aget a slot = Some x /\ linked a (x + 1) r
  end.

(** [a] stores the stack [xs], top first. *)
Definition lifo_rep (a : array) (xs : list Z) : Prop :=
  Z.of_nat (length a) < 2 ^ 15 /\ NoDup xs /\ Forall (fun x => 0 <= x) xs /\ linked a 0 xs.

Lemma linked_head a slot xs : linked a slot xs -> aget a slot = Some (default (-1) (head xs)).
Proof. destruct xs; cbn; naive_solver. Qed.

Lemma linked_set a slot xs i v :
  0 <= i -> i <> slot -> (i - 1) ∉ xs -> linked a slot xs ->
  linked (<[Z.to_nat i := v]> a) slot xs.
Proof.
  intros Hi. revert slot. induction xs as [|x r IH]; intros slot Hs Hx Hl; cbn in *.
  - by rewrite aget_set_ne.
  - destruct Hl as [H1 H2]. rewrite aget_set_ne by done. split; [done|].
    apply IH; [|set_solver|done]. intros ->. apply Hx. replace (x + 1 - 1) with x by lia. set_solver.
Qed.

(** Every element is a slot number of the array. *)
Lemma linked_bound a slot xs x : linked a slot xs -> x ∈ xs -> x + 1 < Z.of_nat (length a).
Proof.
  revert slot. induction xs as [|y r IH]; intros slot Hl Hx; [set_solver|].
  destruct Hl as [_ Hl]. apply elem_of_cons in Hx as [->|Hx]; [|by eapply IH].
  apply linked_head, aget_range in Hl. lia.
Qed.

Lemma read_ok a i v : aget a i = Some v -> read i a = Ret v a.
Proof. intros H. unfold read. by rewrite H. Qed.

Lemma write_ok a i v :
  0 <= i < Z.of_nat (length a) -> write i v a = Ret tt (<[Z.to_nat i := v]> a).
Proof. intros H. unfold write. by rewrite aset_ok. Qed.

Lemma insert_ok a xs i :
  lifo_rep a xs -> 0 <= i -> i + 1 < Z.of_nat (length a) -> i ∉ xs ->
  exists a', lifo_insert i a = Ret tt a' /\ lifo_rep a' (i :: xs) /\ length a' = length a.
Proof.
  intros (Hb & Hd & Hp & Hl) Hi Hlen Hn.
  unfold lifo_insert. rewrite (wraps_id 16 (i + 1)) by (unfold in_s; lia).
  rewrite (bind_ret _ _ _ _ _ (read_ok _ _ _ (linked_head _ _ _ Hl))).
  erewrite bind_ret by (apply write_ok; lia).
  rewrite write_ok by (rewrite length_insert; lia).
  eexists. split; [done|]. split; [|by rewrite !length_insert].
  split; [by rewrite !length_insert|]. split; [by apply NoDup_cons|].
  split; [by constructor|]. cbn [linked]. split; [apply aget_set_eq; rewrite length_insert; lia|].
  apply linked_set; [lia|lia| |].
  { intros Hx. rewrite Forall_forall in Hp. specialize (Hp _ Hx). lia. }
  destruct xs as [|x r]; cbn [linked head default] in *; rewrite aget_set_eq by lia; [done|].
  split; [done|]. destruct Hl as [Hl1 Hl2]. apply linked_set; [lia| | |done].
  - intros E. apply Hn. replace x with i by lia. set_solver.
  - replace (i + 1 - 1) with i by lia. set_solver.
Qed.

Lemma lifo_get_ok dev a xs :
  lifo_rep a xs ->
  exists a', lifo_get dev a = Ret (default (-1) (head xs)) a' /\ lifo_rep a' (tail xs) /\
             length a' = length a.
Proof.
  intros (Hb & Hd & Hp & Hl). pose proof (linked_head _ _ _ Hl) as H0.
  pose proof (aget_range _ _ _ H0) as Hr.
  unfold lifo_get. rewrite (bind_ret _ _ _ _ _ (read_ok _ _ _ H0)).
  destruct xs as [|x r]; cbn [head from_option tail].
  - cbn [Z.eqb negb when]. destruct dev; cbn [when].
    + change (s16 (-1 + 1)) with 0.
      exists (<[Z.to_nat 0 := -1]> a). rewrite (bind_ret (ret tt) _ a tt a eq_refl).
      rewrite (bind_ret _ _ _ _ _ (write_ok _ _ _ Hr)). split; [done|].
      split; [|by rewrite length_insert]. split; [by rewrite length_insert|].
      split; [done|]. split; [done|]. by apply aget_set_eq.
    + exists a. split; [done|]. split; [|done]. done.
  - destruct Hl as [_ Hl]. pose proof (linked_head _ _ _ Hl) as H1.
    pose proof (aget_range _ _ _ H1) as Hr1. apply NoDup_cons in Hd as [Hx Hd].
    apply Forall_cons in Hp as [Hx0 Hp].
    unfold id. rewrite (proj2 (Z.eqb_neq x (-1))) by lia. cbn [negb when].
    rewrite wraps_id by (unfold in_s; lia).
    rewrite bind_assoc, (bind_ret _ _ _ _ _ (read_ok _ _ _ H1)), (bind_ret _ _ _ _ _ (write_ok _ _ _ Hr)).
    assert (linked (<[Z.to_nat 0 := default (-1) (head r)]> a) 0 r) as Hl'.
    { destruct r as [|y r]; cbn [linked head default] in *; rewrite aget_set_eq by lia; [done|].
      split; [done|]. destruct Hl as [_ Hl]. apply Forall_cons in Hp as [Hy Hp].
      apply linked_set; [lia|lia| |done]. intros Hz.
      rewrite Forall_forall in Hp. specialize (Hp _ Hz). lia. }
    destruct dev; cbn [when].
    + erewrite bind_ret by (apply write_ok; rewrite length_insert; lia).
      eexists. split; [done|]. split; [|by rewrite !length_insert].
      split; [by rewrite !length_insert|]. split; [done|]. split; [done|].
      apply linked_set; [lia|lia| |done]. by replace (x + 1 - 1) with x by lia.
    + eexists. split; [done|]. split; [|by rewrite length_insert].
      split; [by rewrite length_insert|]. done.
Qed.

Lemma init_loop fuel n : forall i a,
  0 <= i -> n < 2 ^ 15 - 1 -> n < Z.of_nat (length a) -> (Z.to_nat (n + 1 - i) < fuel)%nat ->
  exists a',
    loop fuel (fun i =>
      if i <=? n then do! write i (-1); ret (inl (s16 (i + 1))) else ret (inr tt)) i a = Ret tt a' /\
    length a' = length a /\
    (forall j, i <= j <= n -> aget a' j = Some (-1)) /\ (forall j, j < i -> aget a' j = aget a j).
Proof.
  induction fuel as [|fuel IH]; intros i a Hi Hn Ha Hf; [lia|].
  destruct (Z.leb_spec i n) as [Hle|Hgt].
  - destruct (IH (i + 1) (<[Z.to_nat i := -1]> a)) as (a' & Hl & Hlen & Hs & Hk);
      [lia|done|by rewrite length_insert|lia|].
    exists a'. split.
    { rewrite (loop_next _ _ _ _ (i + 1) (<[Z.to_nat i := -1]> a)); [done|].
      rewrite (proj2 (Z.leb_le _ _)) by lia.
      erewrite bind_ret by (apply write_ok; lia).
      by rewrite wraps_id by (unfold in_s; lia). }
    split; [by rewrite Hlen, length_insert|]. split.
    + intros j Hj. destruct (decide (j = i)) as [->|]; [|apply Hs; lia].
      rewrite Hk by lia. apply aget_set_eq. lia.
    + intros j Hj. rewrite Hk by lia. apply aget_set_ne; lia.
  - exists a. split; [|split; [done|split; [lia|done]]].
    apply loop_exit. by rewrite (proj2 (Z.leb_gt _ _)) by lia.
Qed.

(** ** Properties *)

(** [lifo] is a stack: [lifo_init] empties the array, [lifo_insert] pushes
    a value that is not stored yet, [lifo_get] pops the value pushed last
    (-1 on an empty stack), with or without [DEVELHELP], and [lifo_empty]
    tests for emptiness; every access stays inside the array. *)
Theorem lifo_is_stack a xs n dev :
  0 <= n < 2 ^ 15 - 1 -> Z.of_nat (length a) = n + 1 -> lifo_rep a xs ->
  (exists a', lifo_init (Z.to_nat n + 2) n a = Ret tt a' /\ lifo_rep a' []) /\
  (forall i, 0 <= i < n -> i ∉ xs ->
     exists a', lifo_insert i a = Ret tt a' /\ lifo_rep a' (i :: xs) /\
                exists a'', lifo_get dev a' = Ret i a'' /\ lifo_rep a'' xs) /\
  (exists a', lifo_get dev a = Ret (default (-1) (head xs)) a' /\ lifo_rep a' (tail xs)) /\
  lifo_empty a = Ret (c_bool (bool_decide (xs = []))) a.
Proof.
  intros Hn Ha Hr. pose proof Hr as (Hb & Hd & Hp & Hl). split; [|split; [|split]].
  - destruct (init_loop (Z.to_nat n + 2) n 0 a) as (a' & Hi & Hlen & Hs & _); [lia..|].
    exists a'. split; [done|]. split; [lia|]. split; [constructor|]. split; [constructor|].
    apply Hs. lia.
  - intros i Hi Hx. destruct (insert_ok a xs i) as (a' & H1 & H2 & H3); [done|lia|lia|done|].
    exists a'. split; [done|]. split; [done|].
    destruct (lifo_get_ok dev a' (i :: xs) H2) as (a'' & H4 & H5 & _). by exists a''.
  - destruct (lifo_get_ok dev a xs Hr) as (a' & H1 & H2 & _). by exists a'.
  - unfold lifo_empty. rewrite (bind_ret _ _ _ _ _ (read_ok _ _ _ (linked_head _ _ _ Hl))).
    unfold ret. do 2 f_equal. destruct xs as [|x r]; [done|].
    apply Forall_cons in Hp as [Hx _]. cbn. apply Z.eqb_neq. lia.
Qed.

Lemma lifo_is_stack_witness :
  exists a', lifo_insert 2 [0; -1; 9; 9] = Ret tt a' /\ lifo_rep a' [2; 0].
Proof.
  destruct (lifo_is_stack [0; -1; 9; 9] [0] 3 false) as (_ & Hi & _).
  - lia.
  - reflexivity.
  - split; [reflexivity|]. split; [repeat constructor; set_solver|].
    split; [repeat constructor; lia|]. split; reflexivity.
  - destruct (Hi 2) as (a' & H1 & H2 & _); [lia|set_solver|].
    exists a'. split; [exact H1|exact H2].
Defined.
