(* ===== verification/Cib.v ===== *)
(** * The circular integer buffer of core/include/cib.h

    A [cib_t] hands out the indices of a ring of [mask + 1] slots; its two
    counters run freely and wrap at 16 bits.  [cib_rep] says which queue of
    elements a counter pair and the slots it indexes hold; the laws proved
    here are the class [SlotQueue], which is all the mailbox relies on. *)

From S2P Require Import Prelude.

(** ** The program *)

Record cib_t := Cib { read_count : Z; write_count : Z; mask : Z }.

Definition CIB_INIT (size : Z) : cib_t := Cib 0 0 (u16 (size - 1)).

Definition cib_init (size : Z) : M cib_t unit :=
  do! c_assert (Z.land size (u16 (size - 1)) =? 0);
  fun _ => Ret tt (CIB_INIT size).

Definition cib_avail (cib : cib_t) : Z := u16 (write_count cib - read_count cib).

Definition cib_full (cib : cib_t) : Z := c_bool (s16 (mask cib) <? s16 (cib_avail cib)).

Definition cib_get_unsafe (cib : cib_t) : Z * cib_t :=
  (s16 (Z.land (read_count cib) (mask cib)),
   Cib (u16 (read_count cib + 1)) (write_count cib) (mask cib)).

Definition cib_put_unsafe (cib : cib_t) : Z * cib_t :=
  (s16 (Z.land (write_count cib) (mask cib)),
   Cib (read_count cib) (u16 (write_count cib + 1)) (mask cib)).

Definition cib_get (cib : cib_t) : Z * cib_t :=
  if c_true (cib_avail cib) then
    (s16 (Z.land (read_count cib) (mask cib)),
     Cib (u16 (read_count cib + 1)) (write_count cib) (mask cib))
  else (-1, cib).

Definition cib_peek (cib : cib_t) : Z :=
  if c_true (cib_avail cib) then s16 (Z.land (read_count cib) (mask cib)) else -1.

Definition cib_put (cib : cib_t) : Z * cib_t :=
  let avail := cib_avail cib in
  if s16 avail <=? s16 (mask cib) then
    (s16 (Z.land (write_count cib) (mask cib)),
     Cib (read_count cib) (u16 (write_count cib + 1)) (mask cib))
  else (-1, cib).

(** ** The interface a client relies on

    [Q] indexes an array of slots owned by the client.  [sq_rep q size slots
    xs] says that the slots hold the queue [xs]; storing at the index [put]
    returns appends, the index [get] returns holds the head. *)

Class SlotQueue (Q : Type) := {
  sq_avail : Q -> Z;
  sq_put : Q -> Z * Q;
  sq_get : Q -> Z * Q;
  sq_rep : forall {A : Type}, Q -> Z -> list A -> list A -> Prop;
  sq_rep_size : forall {A} q size (slots xs : list A),
    sq_rep q size slots xs -> Z.of_nat (length slots) = size /\ Z.of_nat (length xs) <= size;
  sq_avail_ok : forall {A} q size (slots xs : list A),
    sq_rep q size slots xs -> sq_avail q = Z.of_nat (length xs);
  sq_put_ok : forall {A} q size (slots xs : list A) v,
    sq_rep q size slots xs -> Z.of_nat (length xs) < size ->
    0 <= (sq_put q).1 < size /\
    sq_rep (sq_put q).2 size (<[Z.to_nat (sq_put q).1 := v]> slots) (xs ++ [v]);
  sq_get_ok : forall {A} q size (slots xs : list A) x,
    sq_rep q size slots (x :: xs) ->
    aget slots (sq_get q).1 = Some x /\ sq_rep (sq_get q).2 size slots xs
}.

(** ** The queue a [cib_t] stands for *)

Definition cib_rep {A} (c : cib_t) (size : Z) (slots xs : list A) : Prop :=
  (exists k, 0 <= k < 15 /\ size = 2 ^ k) /\ mask c = size - 1 /\
  Z.of_nat (length slots) = size /\ Z.of_nat (length xs) <= size /\
  in_u 16 (read_count c) /\ write_count c = u16 (read_count c + Z.of_nat (length xs)) /\
  forall i x, xs !! i = Some x -> aget slots ((read_count c + Z.of_nat i) mod size) = Some x.

Lemma pow2_small k : 0 <= k < 15 -> 0 < 2 ^ k < 2 ^ 15 /\ (2 ^ k | 2 ^ 16).
Proof.
  intros Hk. split; [split; [by apply Z.pow_pos_nonneg; lia|apply Z.pow_lt_mono_r; lia]|].
  exists (2 ^ (16 - k)). rewrite <- Z.pow_add_r by lia. f_equal. lia.
Qed.

(** Masking a counter is taking it modulo the size, at any wrap-around. *)
Lemma land_mask z size :
  (exists k, 0 <= k < 15 /\ size = 2 ^ k) -> Z.land z (size - 1) = z mod size.
Proof.
  intros (k & Hk & ->). replace (2 ^ k - 1) with (Z.ones k) by (rewrite Z.ones_equiv; lia).
  apply Z.land_ones. lia.
Qed.

Lemma wrap_mod z size :
  (exists k, 0 <= k < 15 /\ size = 2 ^ k) -> u16 z mod size = z mod size.
Proof.
  intros (k & Hk & ->). destruct (pow2_small k Hk) as [Hp Hd]. unfold wrapu.
  destruct Hd as [m Hm]. rewrite Hm, (Z.mul_comm m).
  assert (0 < m) by nia. rewrite Z.rem_mul_r by lia.
  rewrite (Z.mul_comm (2 ^ k) (_ mod m)), Z.mod_add by lia. apply Z.mod_mod. lia.
Qed.

Lemma mod_s16 z size :
  (exists k, 0 <= k < 15 /\ size = 2 ^ k) -> s16 (z mod size) = z mod size /\ 0 <= z mod size < size.
Proof.
  intros (k & Hk & ->). destruct (pow2_small k Hk) as [Hp _].
  pose proof (Z.mod_pos_bound z (2 ^ k)). split; [|lia]. apply wraps_id; [lia|]. unfold in_s. lia.
Qed.

Section cib_rep.
Context {A : Type} (c : cib_t) (size : Z) (slots : list A).
Implicit Types xs : list A.

Lemma cib_avail_ok xs : cib_rep c size slots xs -> cib_avail c = Z.of_nat (length xs).
Proof.
  intros ((k & Hk & ->) & _ & _ & Hl & Hr & Hw & _). destruct (pow2_small k Hk) as [Hp _].
  unfold cib_avail. rewrite Hw, wrapu_sub_l, Z.add_simpl_l. apply wrapu_id. unfold in_u in *. lia.
Qed.

Lemma cib_put_unsafe_ok xs v :
  cib_rep c size slots xs -> Z.of_nat (length xs) < size ->
  0 <= (cib_put_unsafe c).1 < size /\
  cib_rep (cib_put_unsafe c).2 size (<[Z.to_nat (cib_put_unsafe c).1 := v]> slots) (xs ++ [v]).
Proof.
  intros (Hs & Hm & Hlen & Hl & Hr & Hw & Hq) Hlt. unfold cib_put_unsafe. cbn [fst snd].
  rewrite Hm, land_mask, Hw, wrap_mod by done.
  set (j := read_count c + Z.of_nat (length xs)).
  destruct (mod_s16 j size Hs) as [-> Hj]. split; [done|]. split; [done|]. cbn.
  split; [done|]. split; [by rewrite length_insert|].
  rewrite length_app. cbn. split; [lia|]. split; [done|].
  split; [rewrite wrapu_add_l; f_equal; lia|].
  intros i x Hi. apply lookup_app_Some in Hi as [Hi|[Hge Hi]].
  - rewrite aget_set_ne; [by apply Hq|lia|]. intros E.
    assert (i < length xs)%nat by by eapply lookup_lt_Some.
    assert (0 < size) by lia. unfold j in E.
    assert ((Z.of_nat (length xs) - Z.of_nat i) mod size = 0) as E0.
    { replace (Z.of_nat (length xs) - Z.of_nat i)
        with (read_count c + Z.of_nat (length xs) - (read_count c + Z.of_nat i)) by lia.
      rewrite Zminus_mod, E, Z.sub_diag. apply Z.mod_0_l. lia. }
    rewrite Z.mod_small in E0 by lia. lia.
  - apply list_lookup_singleton_Some in Hi as [Hi <-].
    replace (Z.of_nat i) with (Z.of_nat (length xs)) by lia. apply aget_set_eq. by rewrite Hlen.
Qed.

Lemma cib_get_unsafe_ok x xs :
  cib_rep c size slots (x :: xs) ->
  aget slots (cib_get_unsafe c).1 = Some x /\ cib_rep (cib_get_unsafe c).2 size slots xs.
Proof.
  intros (Hs & Hm & Hlen & Hl & Hr & Hw & Hq). unfold cib_get_unsafe. cbn [fst snd].
  rewrite Hm, land_mask by done. destruct (mod_s16 (read_count c) size Hs) as [-> Hj].
  split; [rewrite <- (Hq 0%nat x eq_refl); f_equal; f_equal; lia|].
  cbn [length] in *. split; [done|]. split; [done|]. cbn. split; [done|]. split; [lia|].
  split; [apply wrapu_range; lia|].
  split; [rewrite Hw, wrapu_add_l; f_equal; lia|].
  intros i y Hi. rewrite Zplus_mod, wrap_mod, <- Zplus_mod by done.
  rewrite <- (Hq (Datatypes.S i) y Hi). f_equal. f_equal. lia.
Qed.

(** The checked variants test the counters first. *)
Lemma cib_put_ok xs :
  cib_rep c size slots xs ->
  cib_put c = if Z.of_nat (length xs) <? size then cib_put_unsafe c else (-1, c).
Proof.
  intros Hr. unfold cib_put. rewrite (cib_avail_ok _ Hr).
  destruct Hr as ((k & Hk & ->) & Hm & _ & Hl & _). destruct (pow2_small k Hk) as [Hp _].
  replace (s16 (mask c)) with (2 ^ k - 1) by (rewrite Hm, wraps_id; unfold in_s; lia).
  rewrite wraps_id by (unfold in_s; lia).
  destruct (Z.leb_spec (Z.of_nat (length xs)) (2 ^ k - 1)), (Z.ltb_spec (Z.of_nat (length xs)) (2 ^ k));
    lia || done.
Qed.

Lemma cib_get_ok xs :
  cib_rep c size slots xs ->
  cib_get c = match xs with [] => (-1, c) | _ => cib_get_unsafe c end.
Proof.
  intros Hr. unfold cib_get, c_true. rewrite (cib_avail_ok _ Hr). by destruct xs.
Qed.

Lemma cib_peek_ok xs :
  cib_rep c size slots xs ->
  match xs with [] => cib_peek c = -1 | x :: _ => aget slots (cib_peek c) = Some x end.
Proof.
  intros Hr. unfold cib_peek, c_true. rewrite (cib_avail_ok _ Hr). destruct xs; [done|].
  by apply cib_get_unsafe_ok in Hr as [? _].
Qed.

Lemma cib_full_ok xs :
  cib_rep c size slots xs -> cib_full c = c_bool (Z.of_nat (length xs) =? size).
Proof.
  intros Hr. unfold cib_full. rewrite (cib_avail_ok _ Hr).
  destruct Hr as ((k & Hk & ->) & Hm & _ & Hl & _). destruct (pow2_small k Hk) as [Hp _].
  rewrite Hm, !wraps_id by (unfold in_s; lia). f_equal.
  destruct (Z.ltb_spec (2 ^ k - 1) (Z.of_nat (length xs))), (Z.eqb_spec (Z.of_nat (length xs)) (2 ^ k));
    lia || done.
Qed.
End cib_rep.

Lemma cib_init_rep {A} (slots : list A) size c0 :
  (exists k, 0 <= k < 15 /\ size = 2 ^ k) -> Z.of_nat (length slots) = size ->
  exists c, cib_init size c0 = Ret tt c /\ cib_rep c size slots [].
Proof.
  intros Hs Hl. exists (CIB_INIT size). pose proof Hs as (k & Hk & E).
  destruct (pow2_small k Hk) as [Hp _]. split.
  - unfold cib_init. assert (u16 (size - 1) = size - 1) as -> by (apply wrapu_id; unfold in_u; lia).
    rewrite land_mask, Z_mod_same_full by done. done.
  - split; [done|]. split; [cbn; apply wrapu_id; unfold in_u; lia|].
    split; [done|]. split; [cbn; lia|]. split; [unfold in_u; cbn; lia|]. split; [done|]. done.
Qed.

#[export] Instance cib_slot_queue : SlotQueue cib_t.
Proof.
  refine {| sq_avail := cib_avail; sq_put := cib_put_unsafe; sq_get := cib_get_unsafe;
            sq_rep := @cib_rep |}.
  - intros A q size slots xs (_ & _ & ? & ? & _). done.
  - intros. by eapply cib_avail_ok.
  - intros. by apply cib_put_unsafe_ok.
  - intros. by apply cib_get_unsafe_ok.
Defined.

(** ** Properties *)

(** [cib_t] implements a bounded first-in first-out queue of indices for
    every power-of-two size up to 2^14, across any number of wrap-arounds of
    its counters: the slot [cib_put] names is free and storing there appends
    to the queue, the slot [cib_get] and [cib_peek] name holds the oldest
    element, a full buffer refuses to put and an empty one to get, with -1
    and without a change, and [cib_avail] and [cib_full] count the elements. *)
Theorem cib_fifo {A} (c : cib_t) (size : Z) (slots xs : list A) (v : A) :
  cib_rep c size slots xs ->
  (if Z.of_nat (length xs) <? size then
     0 <= (cib_put c).1 < size /\
     cib_rep (cib_put c).2 size (<[Z.to_nat (cib_put c).1 := v]> slots) (xs ++ [v])
   else cib_put c = (-1, c)) /\
  match xs with
  | [] => cib_get c = (-1, c) /\ cib_peek c = -1
  | x :: r => aget slots (cib_get c).1 = Some x /\ cib_rep (cib_get c).2 size slots r /\
              aget slots (cib_peek c) = Some x
  end /\
  cib_avail c = Z.of_nat (length xs) /\
  cib_full c = c_bool (Z.of_nat (length xs) =? size).
Proof.
  intros Hr. rewrite (cib_put_ok _ _ _ _ Hr), (cib_get_ok _ _ _ _ Hr).
  split; [|split; [|split; [by eapply cib_avail_ok|by eapply cib_full_ok]]].
  - destruct (Z.ltb_spec (Z.of_nat (length xs)) size); [|done]. by apply cib_put_unsafe_ok.
  - pose proof (cib_peek_ok _ _ _ _ Hr) as Hp. destruct xs as [|x r]; [done|].
    apply cib_get_unsafe_ok in Hr as [? ?]. done.
Qed.

(** [cib_init] accepts exactly the sizes that are zero or a power of two
    (its assertion), and then the buffer is empty. *)
Theorem cib_init_ok (size : Z) (c0 : cib_t) :
  0 < size < 2 ^ 15 ->
  ((exists k, 0 <= k < 15 /\ size = 2 ^ k) ->
     exists c, cib_init size c0 = Ret tt c /\
       forall (slots : list Z), Z.of_nat (length slots) = size -> cib_rep c size slots []) /\
  ((forall k, 0 <= k -> size <> 2 ^ k) -> cib_init size c0 = Err AssertFail).
Proof.
  intros Hs. split.
  - intros Hk. destruct (cib_init_rep (replicate (Z.to_nat size) 0) size c0 Hk) as (c & Hc & _).
    { rewrite length_replicate. lia. }
    exists c. split; [done|]. intros slots Hl.
    destruct (cib_init_rep slots size c0 Hk Hl) as (c' & Hc' & ?). rewrite Hc in Hc'. by simplify_eq.
  - intros Hn. unfold cib_init. rewrite wrapu_id by (unfold in_u; lia).
    destruct (Z.eqb_spec (Z.land size (size - 1)) 0) as [E|]; [|done]. exfalso.
    apply (Hn (Z.log2 size)); [apply Z.log2_nonneg|].
    destruct (Z.log2_spec size) as [Hlo Hhi]; [lia|].
    destruct (decide (size = 2 ^ Z.log2 size)) as [|Hne]; [done|].
    assert (Z.log2 (size - 1) = Z.log2 size) as El.
    { apply Z.log2_unique; [apply Z.log2_nonneg|lia]. }
    assert (Z.testbit (Z.land size (size - 1)) (Z.log2 size) = true) as Hb.
    { rewrite Z.land_spec, Z.bit_log2 by lia. rewrite <- El. apply Z.bit_log2.
      assert (0 < 2 ^ Z.log2 size) by (apply Z.pow_pos_nonneg; [lia|apply Z.log2_nonneg]). lia. }
    rewrite E, Z.bits_0 in Hb. done.
Qed.

Definition cib_demo : cib_t := Cib 0xFFFF 1 3.

Lemma cib_demo_rep : cib_rep cib_demo 4 [20; 30; 40; 10] [10; 20].
Proof.
  split; [exists 2; lia|]. repeat split; try (cbn; lia).
  intros [|[|i]] x Hx; cbn in Hx; [by injection Hx as <-..|done].
Qed.

(** The counters of this buffer wrap between the two elements. *)
Lemma cib_fifo_witness :
  cib_get cib_demo = (3, Cib 0 1 3) /\ aget [20; 30; 40; 10] 3 = Some 10 /\
  cib_rep (Cib 0 1 3) 4 [20; 30; 40; 10] [20].
Proof.
  destruct (cib_fifo cib_demo 4 [20; 30; 40; 10] [10; 20] 5 cib_demo_rep) as (_ & (H1 & H2 & _) & _).
  split; [reflexivity|]. split; [exact H1|exact H2].
Defined.

Lemma cib_init_ok_witness : cib_init 6 cib_demo = Err AssertFail.
Proof.
  apply (cib_init_ok 6 cib_demo); [lia|]. intros k Hk.
  destruct (decide (k <= 2)) as [Hle|Hgt].
  - assert (k = 0 \/ k = 1 \/ k = 2) as [-> | [-> | ->]] by lia; discriminate.
  - assert (2 ^ 3 <= 2 ^ k) by (apply Z.pow_le_mono_r; lia). lia.
Defined.
