(* ===== verification/Ringbuffer.v ===== *)
(** * The character ring buffer of core/ringbuffer.c

    The elements are the bytes of [buf]; [start] is the read position and
    [avail] the number of elements.  Accesses outside [buf] are faults. *)

From S2P Require Import Prelude.

(** ** The program *)

Record ringbuffer_t := Rb { buf : list Z; size : Z; start : Z; avail : Z }.

Definition ringbuffer_init (buffer : list Z) (bufsize : Z) : ringbuffer_t := Rb buffer bufsize 0 0.
Definition RINGBUFFER_INIT (buffer : list Z) : ringbuffer_t :=
  Rb buffer (Z.of_nat (length buffer)) 0 0.

Definition ringbuffer_empty (rb : ringbuffer_t) : bool := avail rb =? 0.
Definition ringbuffer_full (rb : ringbuffer_t) : bool := avail rb =? size rb.
Definition ringbuffer_get_free (rb : ringbuffer_t) : Z := u16 (size rb - avail rb).

Definition add_tail (c : Z) : M ringbuffer_t unit := fun rb =>
  let pos := u16 (start rb + avail rb) in
  let avail' := u16 (avail rb + 1) in
  let pos := if size rb <=? pos then u16 (pos - size rb) else pos in
  match aset (buf rb) pos c with
  | Some b => Ret tt (Rb b (size rb) (start rb) avail')
  | None => Err OutOfBounds
  end.

Definition get_head : M ringbuffer_t Z := fun rb =>
  match aget (buf rb) (start rb) with
  | None => Err OutOfBounds
  | Some result =>
      let avail' := u16 (avail rb - 1) in
      if avail' =? 0 then Ret result (Rb (buf rb) (size rb) 0 avail')
      else
        let start' := u16 (start rb + 1) in
        let start' := if start' =? size rb then 0 else start' in
        Ret result (Rb (buf rb) (size rb) start' avail')
  end.

Definition ringbuffer_add (fuel : nat) (src : list Z) (n : Z) : M ringbuffer_t Z :=
  loop fuel (fun i =>
    if i <? n then
      let! full := gets ringbuffer_full in
      if (full : bool) then ret (inr i)
      else
        let! c := unwrap OutOfBounds (aget src i) in
        do! add_tail c;
        ret (inl (u16 (i + 1)))
    else ret (inr i)) 0.

Definition ringbuffer_add_one (c : Z) : M ringbuffer_t Z :=
  let! full := gets ringbuffer_full in
  let! result := (if (full : bool) then let! x := get_head in ret (u8 x) else ret (-1)) in
  do! add_tail c;
  ret result.

Definition ringbuffer_get_one : M ringbuffer_t Z :=
  let! empty := gets ringbuffer_empty in
  if negb empty then let! x := get_head in ret (u8 x) else ret (-1).

(** [memcpy(dst + d, src + s, n)]. *)
Definition memcpy (dst : list Z) (d : Z) (src : list Z) (s n : Z) : option (list Z) :=
  if (d + n <=? Z.of_nat (length dst)) && (s + n <=? Z.of_nat (length src)) then
    Some (take (Z.to_nat d) dst ++ take (Z.to_nat n) (drop (Z.to_nat s) src)
          ++ drop (Z.to_nat (d + n)) dst)
  else None.

(** The caller's buffer is passed in and returned. *)
Definition ringbuffer_get (out : list Z) (n : Z) : M ringbuffer_t (Z * list Z) := fun rb =>
  let n := if avail rb <? n then avail rb else n in
  if 0 <? n then
    let bytes_till_end := u16 (size rb - start rb) in
    if n <=? bytes_till_end then
      match memcpy out 0 (buf rb) (start rb) n with
      | None => Err OutOfBounds
      | Some out' =>
          let start' := if bytes_till_end =? n then 0 else u16 (start rb + n) in
          Ret (n, out') (Rb (buf rb) (size rb) start' (u16 (avail rb - n)))
      end
    else
      match memcpy out 0 (buf rb) (start rb) bytes_till_end with
      | None => Err OutOfBounds
      | Some out1 =>
          let start' := u16 (n - bytes_till_end) in
          match memcpy out1 bytes_till_end (buf rb) 0 start' with
          | None => Err OutOfBounds
          | Some out2 => Ret (n, out2) (Rb (buf rb) (size rb) start' (u16 (avail rb - n)))
          end
      end
  else Ret (n, out) rb.

Definition ringbuffer_remove (n : Z) : M ringbuffer_t Z := fun rb =>
  if avail rb <? n then Ret (avail rb) (Rb (buf rb) (size rb) 0 0)
  else
    let start' := u16 (start rb + n) in
    let avail' := u16 (avail rb - n) in
    let start' := if size rb <? start' then u16 (start' - size rb) else start' in
    Ret n (Rb (buf rb) (size rb) start' avail').

(** The peek functions work on a copy of the record. *)
Definition ringbuffer_peek_one : M ringbuffer_t Z := fun rb =>
  match ringbuffer_get_one rb with Ret x _ => Ret x rb | Err f => Err f end.
Definition ringbuffer_peek (out : list Z) (n : Z) : M ringbuffer_t (Z * list Z) := fun rb =>
  match ringbuffer_get out n rb with Ret x _ => Ret x rb | Err f => Err f end.

(** ** The queue a ring buffer holds *)

Definition rb_rep (rb : ringbuffer_t) (xs : list Z) : Prop :=
  Z.of_nat (length (buf rb)) = size rb /\ size rb < 2 ^ 15 /\
  avail rb = Z.of_nat (length xs) /\ avail rb <= size rb /\
  0 <= start rb /\ (start rb < size rb \/ start rb = 0) /\
  forall i x, xs !! i = Some x ->
    aget (buf rb) ((start rb + Z.of_nat i) mod size rb) = Some x.

Lemma wrap_once z n : 0 <= z < n + n -> (if n <=? z then z - n else z) = z mod n.
Proof.
  intros Hz. destruct (Z.leb_spec n z).
  - symmetry. rewrite <- (Z.mod_small (z - n) n) by lia.
    rewrite Zminus_mod, Z_mod_same_full, Z.sub_0_r by lia. by rewrite Z.mod_mod by lia.
  - symmetry. apply Z.mod_small. lia.
Qed.

Lemma mod_inj a i j n : 0 <= i < n -> 0 <= j < n -> (a + i) mod n = (a + j) mod n -> i = j.
Proof.
  intros Hi Hj E. assert ((i - j) mod n = 0) as E0.
  { replace (i - j) with (a + i - (a + j)) by lia. by rewrite Zminus_mod, E, Z.sub_diag. }
  apply Z.mod_divide in E0 as [q Hq]; [|lia]. assert (q = 0) by nia. lia.
Qed.

Lemma add_tail_ok rb xs c :
  rb_rep rb xs -> Z.of_nat (length xs) < size rb ->
  exists rb', add_tail c rb = Ret tt rb' /\ rb_rep rb' (xs ++ [c]) /\ size rb' = size rb.
Proof.
  intros (Hl & Hb & Ha & Hle & Hs & Hs' & Hq) Hlt. unfold add_tail.
  assert (u16 (start rb + avail rb) = start rb + avail rb) as -> by (apply wrapu_id; unfold in_u; lia).
  assert (u16 (avail rb + 1) = avail rb + 1) as -> by (apply wrapu_id; unfold in_u; lia).
  set (z := start rb + avail rb).
  assert ((if size rb <=? z then u16 (z - size rb) else z) = z mod size rb) as ->.
  { rewrite <- wrap_once by lia. destruct (Z.leb_spec (size rb) z); [|done].
    apply wrapu_id. unfold in_u. lia. }
  pose proof (Z.mod_pos_bound z (size rb) ltac:(lia)). rewrite aset_ok by lia.
  eexists. split; [done|]. split; [|done].
  split; [cbn; by rewrite length_insert|]. split; [done|].
  split; [rewrite length_app; cbn; lia|]. cbn. split; [lia|]. split; [lia|]. split; [lia|].
  intros i x Hi. apply lookup_app_Some in Hi as [Hi|[Hge Hi]].
  - rewrite aget_set_ne; [by apply Hq|lia|]. intros E. apply lookup_lt_Some in Hi.
    apply mod_inj in E; lia.
  - apply list_lookup_singleton_Some in Hi as [Hi <-].
    replace (start rb + Z.of_nat i) with z by lia. apply aget_set_eq. lia.
Qed.

Lemma get_head_ok rb x xs :
  rb_rep rb (x :: xs) ->
  exists rb', get_head rb = Ret x rb' /\ rb_rep rb' xs /\ size rb' = size rb.
Proof.
  intros (Hl & Hb & Ha & Hle & Hs & Hs' & Hq). cbn [length] in Ha. unfold get_head.
  assert (aget (buf rb) (start rb) = Some x) as ->.
  { rewrite <- (Hq 0%nat x eq_refl). f_equal. rewrite Z.mod_small; lia. }
  assert (u16 (avail rb - 1) = avail rb - 1) as -> by (apply wrapu_id; unfold in_u; lia).
  assert (u16 (start rb + 1) = start rb + 1) as -> by (apply wrapu_id; unfold in_u; lia).
  destruct (Z.eqb_spec (avail rb - 1) 0) as [E|E].
  - eexists. split; [done|]. split; [|done]. assert (xs = []) as -> by (destruct xs; cbn in *; [done|lia]).
    split; [done|]. split; [done|]. cbn. split; [lia|]. split; [lia|]. split; [lia|]. split; [by right|done].
  - eexists. split; [done|]. split; [|done].
    assert ((if start rb + 1 =? size rb then 0 else start rb + 1) = (start rb + 1) mod size rb) as ->.
    { destruct (Z.eqb_spec (start rb + 1) (size rb)) as [->|]; [by rewrite Z_mod_same_full|].
      rewrite Z.mod_small; lia. }
    pose proof (Z.mod_pos_bound (start rb + 1) (size rb) ltac:(lia)).
    split; [done|]. split; [done|]. cbn. split; [lia|]. split; [lia|]. split; [lia|]. split; [lia|].
    intros i y Hi. rewrite Zplus_mod_idemp_l. rewrite <- (Hq (Datatypes.S i) y Hi). do 2 f_equal. lia.
Qed.

Lemma rb_full_eq rb xs : rb_rep rb xs -> ringbuffer_full rb = (Z.of_nat (length xs) =? size rb).
Proof. intros (_ & _ & Ha & _). unfold ringbuffer_full. by rewrite Ha. Qed.

Lemma rb_empty_eq rb xs : rb_rep rb xs -> ringbuffer_empty rb = bool_decide (xs = []).
Proof. intros (_ & _ & Ha & _). unfold ringbuffer_empty. rewrite Ha. by destruct xs. Qed.

Lemma get_one_ok rb xs :
  rb_rep rb xs ->
  exists rb', ringbuffer_get_one rb = Ret (match xs with [] => -1 | x :: _ => u8 x end) rb' /\
              rb_rep rb' (tail xs) /\ size rb' = size rb.
Proof.
  intros Hr. unfold ringbuffer_get_one, gets, bind at 1. rewrite (rb_empty_eq _ _ Hr).
  destruct xs as [|x xs].
  - exists rb. done.
  - destruct (get_head_ok _ _ _ Hr) as (rb' & Hg & Hr' & Hs).
    exists rb'. rewrite bool_decide_false by done. cbn [negb].
    by rewrite (bind_ret _ _ _ _ _ Hg).
Qed.

Lemma add_one_ok rb xs c :
  rb_rep rb xs -> 0 < size rb ->
  exists rb',
    ringbuffer_add_one c rb =
      Ret (if Z.of_nat (length xs) =? size rb then u8 (default 0 (head xs)) else -1) rb' /\
    rb_rep rb' ((if Z.of_nat (length xs) =? size rb then tail xs else xs) ++ [c]).
Proof.
  intros Hr Hpos. unfold ringbuffer_add_one, gets, bind at 1. rewrite (rb_full_eq _ _ Hr).
  destruct (Z.eqb_spec (Z.of_nat (length xs)) (size rb)) as [E|E].
  - destruct xs as [|x xs]; [cbn in E; lia|].
    destruct (get_head_ok _ _ _ Hr) as (rb1 & Hg & Hr1 & Hs1).
    destruct (add_tail_ok rb1 xs c Hr1) as (rb2 & Ht & Hr2 & _); [cbn in E; lia|].
    exists rb2. rewrite bind_assoc, (bind_ret _ _ _ _ _ Hg). unfold bind, ret. by rewrite Ht.
  - destruct (add_tail_ok rb xs c Hr) as (rb2 & Ht & Hr2 & _).
    { destruct Hr as (_ & _ & Ha & Hle & _). lia. }
    exists rb2. unfold bind, ret. by rewrite Ht.
Qed.

(** Adding many: as many as fit, in order. *)
Lemma ring_add_loop src n fuel : forall i rb xs,
  rb_rep rb xs -> 0 <= i <= n -> n <= Z.of_nat (length src) -> n < 2 ^ 16 ->
  (Z.to_nat (n - i) < fuel)%nat ->
  exists k rb',
    loop fuel (fun i =>
      if i <? n then
        let! full := gets ringbuffer_full in
        if (full : bool) then ret (inr i)
        else
          let! c := unwrap OutOfBounds (aget src i) in
          do! add_tail c;
          ret (inl (u16 (i + 1)))
      else ret (inr i)) i rb = Ret k rb' /\
    k = i + Z.min (n - i) (size rb - Z.of_nat (length xs)) /\
    rb_rep rb' (xs ++ take (Z.to_nat (k - i)) (drop (Z.to_nat i) src)).
Proof.
  induction fuel as [|fuel IH]; intros i rb xs Hr Hi Hn Hb Hf; [lia|].
  pose proof Hr as (_ & _ & Ha & Hle & _).
  destruct (Z.ltb_spec i n) as [Hlt|Hge].
  - destruct (Z.eqb_spec (Z.of_nat (length xs)) (size rb)) as [E|E].
    + exists i, rb. split; [|split; [lia|by rewrite Z.sub_diag, app_nil_r]].
      apply loop_exit. rewrite (proj2 (Z.ltb_lt _ _)) by done. unfold gets, bind.
      by rewrite (rb_full_eq _ _ Hr), E, Z.eqb_refl.
    + destruct (aget_some src i) as [c Hc]; [lia|].
      destruct (add_tail_ok rb xs c Hr) as (rb1 & Ht & Hr1 & Hs1); [lia|].
      destruct (IH (i + 1) rb1 (xs ++ [c])) as (k & rb' & Hl & Hk & Hr'); [done|lia..|].
      exists k, rb'. rewrite Hs1, length_app in Hk. cbn in Hk. split; [|split; [lia|]].
      * rewrite (loop_next _ _ _ _ (i + 1) rb1); [done|].
        rewrite (proj2 (Z.ltb_lt _ _)) by done. unfold gets, bind.
        rewrite (rb_full_eq _ _ Hr), (proj2 (Z.eqb_neq _ _) E), Hc. cbn. rewrite Ht.
        by rewrite wrapu_id by (unfold in_u; lia).
      * rewrite <- app_assoc in Hr'. cbn [app] in Hr'.
        replace (c :: take (Z.to_nat (k - (i + 1))) (drop (Z.to_nat (i + 1)) src))
          with (take (Z.to_nat (k - i)) (drop (Z.to_nat i) src)) in Hr'; [done|].
        unfold aget in Hc. rewrite (proj2 (Z.leb_le _ _)) in Hc by lia.
        rewrite (drop_S _ _ _ Hc). replace (Z.to_nat (k - i)) with (Datatypes.S (Z.to_nat (k - (i + 1)))) by lia.
        replace (Z.to_nat (i + 1)) with (Datatypes.S (Z.to_nat i)) by lia. done.
  - exists i, rb. split; [|split; [lia|by rewrite Z.sub_diag, app_nil_r]].
    apply loop_exit. by rewrite (proj2 (Z.ltb_ge _ _)) by done.
Qed.

(** ** Block reads and removal *)

Lemma block_first rb xs m :
  rb_rep rb xs -> (m <= length xs)%nat -> start rb + Z.of_nat m <= size rb ->
  take m (drop (Z.to_nat (start rb)) (buf rb)) = take m xs.
Proof.
  intros (Hl & Hb & Ha & Hle & Hs & Hs' & Hq) Hm Hfit. apply list_eq. intros i.
  destruct (decide (i < m)%nat) as [Hi|Hi]; [|by rewrite !lookup_take_ge by lia].
  rewrite !lookup_take_lt, lookup_drop by done.
  destruct (lookup_lt_is_Some_2 xs i ltac:(lia)) as [x Hx]. rewrite Hx. apply Hq in Hx.
  rewrite Z.mod_small in Hx by lia. rewrite <- Hx. unfold aget.
  rewrite (proj2 (Z.leb_le _ _)) by lia. f_equal. lia.
Qed.

Lemma block_second rb xs m :
  rb_rep rb xs -> 0 < size rb -> size rb - start rb + Z.of_nat m <= Z.of_nat (length xs) ->
  take m (buf rb) = take m (drop (Z.to_nat (size rb - start rb)) xs).
Proof.
  intros (Hl & Hb & Ha & Hle & Hs & Hs' & Hq) Hpos Hm. apply list_eq. intros i.
  destruct (decide (i < m)%nat) as [Hi|Hi]; [|by rewrite !lookup_take_ge by lia].
  rewrite !lookup_take_lt, lookup_drop by done.
  destruct (lookup_lt_is_Some_2 xs (Z.to_nat (size rb - start rb) + i) ltac:(lia)) as [x Hx].
  rewrite Hx. apply Hq in Hx.
  replace (start rb + Z.of_nat (Z.to_nat (size rb - start rb) + i))
    with (Z.of_nat i + 1 * size rb) in Hx by lia.
  rewrite Z.mod_add, Z.mod_small in Hx by lia. by rewrite aget_nat in Hx.
Qed.

Lemma rep_drop rb xs n s' :
  rb_rep rb xs -> 0 <= n <= Z.of_nat (length xs) -> 0 < size rb -> s' = (start rb + n) mod size rb ->
  rb_rep (Rb (buf rb) (size rb) s' (u16 (avail rb - n))) (drop (Z.to_nat n) xs).
Proof.
  intros (Hl & Hb & Ha & Hle & Hs & Hs' & Hq) Hn Hpos ->.
  pose proof (Z.mod_pos_bound (start rb + n) (size rb) Hpos).
  rewrite wrapu_id by (unfold in_u; lia).
  split; [done|]. split; [done|]. cbn. rewrite length_drop. split; [lia|]. split; [lia|].
  split; [lia|]. split; [lia|]. intros i x Hi. rewrite lookup_drop in Hi. apply Hq in Hi.
  rewrite <- Hi, Zplus_mod_idemp_l. do 2 f_equal. lia.
Qed.

Lemma memcpy_ok dst d src s n :
  0 <= d -> 0 <= s -> 0 <= n ->
  d + n <= Z.of_nat (length dst) -> s + n <= Z.of_nat (length src) ->
  memcpy dst d src s n =
    Some (take (Z.to_nat d) dst ++ take (Z.to_nat n) (drop (Z.to_nat s) src)
          ++ drop (Z.to_nat (d + n)) dst).
Proof.
  intros. unfold memcpy. by rewrite !(proj2 (Z.leb_le _ _)) by lia.
Qed.

(** The bytes read, in either layout. *)
Lemma ring_get_ok rb xs out n :
  rb_rep rb xs -> 0 <= n -> n <= Z.of_nat (length out) ->
  let k := Z.min n (Z.of_nat (length xs)) in
  exists rb',
    ringbuffer_get out n rb = Ret (k, take (Z.to_nat k) xs ++ drop (Z.to_nat k) out) rb' /\
    rb_rep rb' (drop (Z.to_nat k) xs).
Proof.
  intros Hr Hn Ho k. pose proof Hr as (Hl & Hb & Ha & Hle & Hs & Hs' & Hq).
  unfold ringbuffer_get.
  assert ((if avail rb <? n then avail rb else n) = k) as ->.
  { unfold k. rewrite Ha. destruct (Z.ltb_spec (Z.of_nat (length xs)) n); lia. }
  destruct (Z.ltb_spec 0 k) as [Hk|Hk].
  2: { assert (k = 0) as -> by lia. exists rb. rewrite take_0, !drop_0. done. }
  assert (u16 (size rb - start rb) = size rb - start rb) as -> by (apply wrapu_id; unfold in_u; lia).
  assert (u16 (start rb + k) = start rb + k) as -> by (apply wrapu_id; unfold in_u; lia).
  set (bte := size rb - start rb). destruct (Z.leb_spec k bte) as [Hfit|Hwrap].
  - rewrite memcpy_ok by lia. rewrite (block_first rb xs) by (done || lia).
    eexists. split; [done|]. apply rep_drop; [done|lia|lia|].
    destruct (Z.eqb_spec bte k) as [E|]; [|rewrite Z.mod_small; lia].
    replace (start rb + k) with (size rb) by lia. by rewrite Z_mod_same_full.
  - assert (u16 (k - bte) = k - bte) as -> by (apply wrapu_id; unfold in_u; lia).
    rewrite memcpy_ok by lia. rewrite (block_first rb xs) by (done || lia).
    change (Z.to_nat 0) with 0%nat. rewrite take_0, app_nil_l, Z.add_0_l.
    rewrite memcpy_ok; [|lia|lia|lia| |lia].
    2: { rewrite length_app, length_take, length_drop. lia. }
    eexists. split; [|apply rep_drop; [done|lia|lia|]].
    + unfold ret. do 2 f_equal. change (Z.to_nat 0) with 0%nat. rewrite drop_0.
      rewrite (block_second rb xs) by (done || lia).
      rewrite take_app_length' by (rewrite length_take; lia).
      rewrite drop_app, (drop_ge (take _ xs)) by (rewrite length_take; lia). cbn [app].
      rewrite drop_drop, length_take.
      replace (Z.to_nat bte + (Z.to_nat (bte + (k - bte)) - Nat.min (Z.to_nat bte) (length xs)))%nat
        with (Z.to_nat k) by lia.
      rewrite app_assoc. f_equal. fold bte. rewrite take_take_drop. f_equal. lia.
    + symmetry. replace (start rb + k) with (k - bte + 1 * size rb) by lia.
      rewrite Z.mod_add, Z.mod_small by lia. done.
Qed.

Lemma ring_remove_ok rb xs n :
  rb_rep rb xs -> 0 <= n < 2 ^ 16 ->
  Z.of_nat (length xs) < n \/ start rb + n <> size rb \/ size rb = 0 ->
  let k := Z.min n (Z.of_nat (length xs)) in
  exists rb', ringbuffer_remove n rb = Ret k rb' /\ rb_rep rb' (drop (Z.to_nat k) xs).
Proof.
  intros Hr Hn Hne k. pose proof Hr as (Hl & Hb & Ha & Hle & Hs & Hs' & Hq).
  unfold ringbuffer_remove. destruct (Z.ltb_spec (avail rb) n) as [Hgt|Hfit].
  - assert (k = Z.of_nat (length xs)) as -> by lia. rewrite Nat2Z.id, drop_all.
    exists (Rb (buf rb) (size rb) 0 0). split; [by rewrite Ha|].
    split; [done|]. split; [done|]. cbn. split; [done|]. split; [lia|]. split; [lia|]. split; [by right|done].
  - assert (k = n) as -> by lia.
    assert (u16 (start rb + n) = start rb + n) as -> by (apply wrapu_id; unfold in_u; lia).
    eexists. split; [done|]. destruct (decide (size rb = 0)) as [E0|E0].
    + assert (n = 0) as -> by lia. rewrite drop_0, Z.sub_0_r, Z.add_0_r.
      rewrite wrapu_id by (unfold in_u; lia). rewrite (proj2 (Z.ltb_ge _ _)) by lia.
      rewrite (wrapu_id 16 (avail rb)) by (unfold in_u; lia). by destruct rb.
    + apply rep_drop; [done|lia|lia|]. destruct (Z.ltb_spec (size rb) (start rb + n)).
      * rewrite <- wrap_once by lia. rewrite (proj2 (Z.leb_le _ _)) by lia. apply wrapu_id. unfold in_u. lia.
      * rewrite Z.mod_small by lia. done.
Qed.

(** ** Properties *)

(** The ring buffer is a bounded byte queue: adding one byte to a buffer
    that is not full appends it and returns -1, adding to a full one drops
    and returns the oldest; adding many appends as many as fit, in order;
    getting returns the oldest bytes (-1 from an empty buffer), the block
    read in the wrapped layout included; peeking changes nothing; no access
    leaves the buffer. *)
Theorem ringbuffer_fifo rb xs c src out n :
  rb_rep rb xs -> 0 < size rb ->
  0 <= n < 2 ^ 15 -> n <= Z.of_nat (length src) -> n <= Z.of_nat (length out) ->
  let full := Z.of_nat (length xs) =? size rb in
  let k := Z.min n (size rb - Z.of_nat (length xs)) in
  let m := Z.min n (Z.of_nat (length xs)) in
  (exists rb', ringbuffer_add_one c rb = Ret (if full then u8 (default 0 (head xs)) else -1) rb' /\
               rb_rep rb' ((if full then tail xs else xs) ++ [c])) /\
  (exists rb', ringbuffer_add (Z.to_nat n + 1) src n rb = Ret k rb' /\
               rb_rep rb' (xs ++ take (Z.to_nat k) src)) /\
  (exists rb', ringbuffer_get_one rb = Ret (match xs with [] => -1 | x :: _ => u8 x end) rb' /\
               rb_rep rb' (tail xs)) /\
  (exists rb', ringbuffer_get out n rb =
                 Ret (m, take (Z.to_nat m) xs ++ drop (Z.to_nat m) out) rb' /\
               rb_rep rb' (drop (Z.to_nat m) xs)) /\
  ringbuffer_peek_one rb = Ret (match xs with [] => -1 | x :: _ => u8 x end) rb /\
  ringbuffer_peek out n rb = Ret (m, take (Z.to_nat m) xs ++ drop (Z.to_nat m) out) rb /\
  ringbuffer_get_free rb = size rb - Z.of_nat (length xs).
Proof.
  intros Hr Hpos Hn Hsrc Hout full k m. split; [by apply add_one_ok|].
  split; [|split; [|split; [apply ring_get_ok; [done|lia|done]|split; [|split]]]].
  - destruct (ring_add_loop src n (Z.to_nat n + 1) 0 rb xs) as (k' & rb' & Hl & Hk & Hr'); [done|lia..|].
    rewrite Z.sub_0_r, drop_0 in Hr'. assert (k' = k) as -> by lia. by exists rb'.
  - destruct (get_one_ok rb xs Hr) as (rb' & ? & ? & _). by exists rb'.
  - unfold ringbuffer_peek_one. by destruct (get_one_ok rb xs Hr) as (rb' & -> & _).
  - unfold ringbuffer_peek. by destruct (ring_get_ok rb xs out n Hr ltac:(lia) Hout) as (rb' & -> & _).
  - destruct Hr as (_ & Hb & Ha & Hle & _). unfold ringbuffer_get_free.
    rewrite wrapu_id by (unfold in_u; lia). lia.
Qed.

(** [ringbuffer_remove] drops the oldest bytes, except when the removal
    ends exactly at the end of the array: there the comparison keeps
    [start = size], one past the last slot, and the next read of a buffer
    that still holds bytes, or of one that is filled again, accesses
    [buf[size]]. *)
Theorem ringbuffer_remove_boundary rb xs n c :
  rb_rep rb xs -> 0 <= n < 2 ^ 16 -> 0 < size rb ->
  (Z.of_nat (length xs) < n \/ start rb + n <> size rb ->
     exists rb', ringbuffer_remove n rb = Ret (Z.min n (Z.of_nat (length xs))) rb' /\
       rb_rep rb' (drop (Z.to_nat (Z.min n (Z.of_nat (length xs)))) xs)) /\
  (n <= Z.of_nat (length xs) -> start rb + n = size rb ->
     exists rb', ringbuffer_remove n rb = Ret n rb' /\ start rb' = size rb /\
       (n < Z.of_nat (length xs) -> ringbuffer_get_one rb' = Err OutOfBounds) /\
       (n = Z.of_nat (length xs) ->
          exists rb2, ringbuffer_add_one c rb' = Ret (-1) rb2 /\
                      ringbuffer_get_one rb2 = Err OutOfBounds)).
Proof.
  intros Hr Hn Hpos. split.
  { intros Hne. apply ring_remove_ok; [done|done|tauto]. }
  intros Hle E. pose proof Hr as (Hl & Hb & Ha & Hle' & Hs & Hs' & Hq).
  unfold ringbuffer_remove. rewrite (proj2 (Z.ltb_ge _ _)) by lia.
  assert (u16 (start rb + n) = size rb) as -> by (rewrite E; apply wrapu_id; unfold in_u; lia).
  rewrite Z.ltb_irrefl.
  assert (u16 (avail rb - n) = avail rb - n) as -> by (apply wrapu_id; unfold in_u; lia).
  eexists. split; [done|]. split; [done|].
  assert (aget (buf rb) (size rb) = None) as Hoob.
  { unfold aget. rewrite (proj2 (Z.leb_le _ _)) by lia. apply lookup_ge_None. lia. }
  split.
  - intros Hlt. unfold ringbuffer_get_one, gets, bind, ringbuffer_empty. cbn [avail].
    rewrite (proj2 (Z.eqb_neq _ _)) by lia. cbn [negb]. unfold get_head. cbn [buf start].
    by rewrite Hoob.
  - intros ->. unfold ringbuffer_add_one, gets, bind, ringbuffer_full. cbn [avail size].
    rewrite (proj2 (Z.eqb_neq _ _)) by lia. unfold ret, add_tail. cbn [start avail size buf].
    replace (size rb + (avail rb - Z.of_nat (length xs))) with (size rb) by lia.
    assert (u16 (size rb) = size rb) as -> by (apply wrapu_id; unfold in_u; lia).
    rewrite Z.leb_refl, Z.sub_diag. change (u16 0) with 0. rewrite aset_ok by lia.
    eexists. split; [done|].
    unfold ringbuffer_get_one, gets, bind, ringbuffer_empty. cbn [avail].
    replace (avail rb - Z.of_nat (length xs) + 1) with 1 by lia. change (u16 1) with 1. cbn [Z.eqb negb].
    unfold get_head. cbn [buf start]. unfold aget. rewrite (proj2 (Z.leb_le _ _)) by lia.
    rewrite lookup_ge_None_2; [done|]. rewrite length_insert. lia.
Qed.

Definition rb_demo : ringbuffer_t := Rb [3; 0; 1; 2] 4 2 3.

Lemma rb_demo_rep : rb_rep rb_demo [1; 2; 3].
Proof.
  repeat split; try (cbn; lia).
  intros [|[|[|i]]] x Hx; cbn in Hx; [by injection Hx as <-..|done].
Qed.

Lemma ringbuffer_fifo_witness :
  exists rb', ringbuffer_get [9; 9; 9; 9] 3 rb_demo = Ret (3, [1; 2; 3; 9]) rb' /\ rb_rep rb' [].
Proof.
  destruct (ringbuffer_fifo rb_demo [1; 2; 3] 7 [4; 5; 6] [9; 9; 9; 9] 3 rb_demo_rep)
    as (_ & _ & _ & (rb' & H1 & H2) & _); [cbn; lia..|].
  exists rb'. split; [exact H1|exact H2].
Defined.

Lemma ringbuffer_remove_boundary_witness :
  exists rb', ringbuffer_remove 2 rb_demo = Ret 2 rb' /\ ringbuffer_get_one rb' = Err OutOfBounds.
Proof.
  destruct (ringbuffer_remove_boundary rb_demo [1; 2; 3] 2 7 rb_demo_rep) as [_ Hb]; [lia|cbn; lia|].
  destruct Hb as (rb' & H1 & _ & H2 & _); [cbn; lia|reflexivity|].
  exists rb'. split; [exact H1|]. apply H2. cbn. lia.
Defined.
