(* ===== verification/Pqueue.v ===== *)
(** * The priority queue of core/priority_queue.c

    A queue is a NULL-terminated list of nodes whose head pointer lives in
    the [priority_queue_t]; the C code casts that object to a node, whose
    first member is also [next].  [priority] and [data] are only written by
    the initialisers. *)

From stdpp Require Import sorting.
From S2P Require Import Prelude Clist ClistSpec.

Section pqueue.
Context {A : Type} `{Countable A}.

(** ** The program *)

Record pq_state := Pq {
  pq_next : gmap A (option A);
  pq_priority : gmap A Z;
  pq_data : gmap A Z
}.

Definition with_next (n : gmap A (option A)) (s : pq_state) : pq_state :=
  Pq n (pq_priority s) (pq_data s).
Definition links {B} (m : M (gmap A (option A)) B) : M pq_state B := zoom pq_next with_next m.
Definition priority_of (p : A) : M pq_state Z :=
  fun s => match pq_priority s !! p with Some v => Ret v s | None => Err BadAddr end.

Definition priority_queue_node_init (p : A) : M pq_state unit := fun s =>
  match pq_next s !! p with
  | Some _ => Ret tt (Pq (<[p := None]> (pq_next s)) (<[p := 0]> (pq_priority s))
                         (<[p := 0]> (pq_data s)))
  | None => Err BadAddr
  end.

Definition priority_queue_init (root : A) : M pq_state unit := links (store root None).

Definition priority_queue_remove (fuel : nat) (root node : A) : M pq_state unit :=
  loop fuel (fun root =>
    let! nx := links (load root) in
    match nx with
    | None => ret (inr tt)
    | Some x =>
        if decide (x = node) then
          let! nn := links (load node) in
          do! links (store root nn);
          do! links (store node None);
          ret (inr tt)
        else ret (inl x)
    end) root.

Definition priority_queue_remove_head (root : A) : M pq_state (option A) :=
  let! head := links (load root) in
  do! match head with
      | Some h => let! nx := links (load h) in links (store root nx)
      | None => ret tt
      end;
  ret head.

Definition priority_queue_add (fuel : nat) (root new_obj : A) : M pq_state unit :=
  loop fuel (fun node =>
    let! nx := links (load node) in
    match nx with
    | None =>
        do! links (store node (Some new_obj));
        do! links (store new_obj None);
        ret (inr tt)
    | Some x =>
        do! c_assert (bool_decide (x <> new_obj));
        let! px := priority_of x in
        let! pn := priority_of new_obj in
        if pn <? px then
          do! links (store new_obj (Some x));
          do! links (store node (Some new_obj));
          ret (inr tt)
        else ret (inl x)
    end) root.

(** ** What the operations do to the sequence of nodes *)

Section order.
Context (prio : A -> Z).

(** Insertion after the nodes of the same or a smaller number. *)
Fixpoint insert_by (n : A) (xs : list A) : list A :=
  match xs with
  | [] => [n]
  | x :: r => if prio n <? prio x then n :: xs else x :: insert_by n r
  end.

Definition ordered (x y : A) : Prop := prio x <= prio y.

Lemma insert_by_split n xs :
  exists ys zs, xs = ys ++ zs /\ insert_by n xs = ys ++ n :: zs /\
    Forall (fun y => prio y <= prio n) ys /\
    match zs with [] => True | z :: _ => prio n < prio z end.
Proof.
  induction xs as [|x r (ys & zs & -> & E & Hy & Hz)]; [by exists [], []|].
  cbn. destruct (Z.ltb_spec (prio n) (prio x)).
  - by exists [], (x :: ys ++ zs).
  - exists (x :: ys), zs. rewrite E. split; [done|]. split; [done|]. split; [|done].
    by constructor.
Qed.

Lemma insert_by_perm n xs : insert_by n xs ≡ₚ n :: xs.
Proof.
  destruct (insert_by_split n xs) as (ys & zs & -> & -> & _). by rewrite Permutation_middle.
Qed.

Lemma insert_by_sorted n xs : StronglySorted ordered xs -> StronglySorted ordered (insert_by n xs).
Proof.
  induction 1 as [|x r Hr IH Hx]; cbn; [by repeat constructor|].
  unfold ordered in *. destruct (Z.ltb_spec (prio n) (prio x)).
  - constructor; [by constructor|]. constructor; [lia|].
    eapply Forall_impl; [done|]. cbn. intros; lia.
  - constructor; [done|]. rewrite insert_by_perm. by constructor.
Qed.

(** Nodes of one priority leave in the order they came. *)
Lemma insert_by_fifo n xs p :
  StronglySorted ordered xs ->
  filter (fun x => prio x = p) (insert_by n xs) =
  filter (fun x => prio x = p) xs ++ (if decide (prio n = p) then [n] else []).
Proof.
  intros Hs. destruct (insert_by_split n xs) as (ys & zs & -> & -> & Hy & Hz).
  rewrite !filter_app, filter_cons. destruct (decide (prio n = p)) as [Hp|Hp]; [|by rewrite app_nil_r].
  assert (filter (fun x => prio x = p) zs = []) as ->; [|by rewrite app_nil_r].
  destruct zs as [|z zs]; [done|]. apply StronglySorted_app in Hs as (_ & _ & Hs).
  apply StronglySorted_inv in Hs as [_ Hz']. apply filter_none.
  constructor; [lia|]. eapply Forall_impl; [done|]. unfold ordered. cbn. intros; lia.
Qed.
End order.

(** ** Refinement *)

(** [s] stores the queue [xs], sorted by [prio], under the head [root]. *)
Definition pq_rep (prio : A -> Z) (s : pq_state) (root : A) (xs : list A) : Prop :=
  chain (pq_next s) root xs /\ StronglySorted (ordered prio) xs /\
  forall x, x ∈ xs -> pq_priority s !! x = Some (prio x).

Lemma links_ret {B} (m : M (gmap A (option A)) B) s v h :
  m (pq_next s) = Ret v h -> links m s = Ret v (with_next h s).
Proof. intros E. unfold links, zoom. by rewrite E. Qed.

Lemma links_load s p v : pq_next s !! p = Some v -> links (load p) s = Ret v s.
Proof. intros E. rewrite (links_ret _ _ _ _ (load_ok _ _ _ E)). by destruct s. Qed.

Lemma links_store s p v w :
  pq_next s !! p = Some w -> links (store p v) s = Ret tt (with_next (<[p := v]> (pq_next s)) s).
Proof. intros E. by rewrite (links_ret _ _ _ _ (store_ok _ _ _ _ E)). Qed.

Lemma pq_add_loop prio root n fuel : forall done rest node s,
  chain (pq_next s) root (done ++ rest) -> last (root :: done) = Some node ->
  n ∉ root :: done ++ rest -> is_Some (pq_next s !! n) ->
  (forall x, x ∈ n :: rest -> pq_priority s !! x = Some (prio x)) ->
  (length rest < fuel)%nat ->
  exists h',
    loop fuel (fun node =>
      let! nx := links (load node) in
      match nx with
      | None =>
          do! links (store node (Some n));
          do! links (store n None);
          ret (inr tt)
      | Some x =>
          do! c_assert (bool_decide (x <> n));
          let! px := priority_of x in
          let! pn := priority_of n in
          if pn <? px then
            do! links (store n (Some x));
            do! links (store node (Some n));
            ret (inr tt)
          else ret (inl x)
      end) node s = Ret tt (with_next h' s) /\
    chain h' root (done ++ insert_by prio n rest).
Proof.
  induction fuel as [|fuel IH]; intros done rest node s Hc Hnode Hn [vn Hvn] Hp Hf; [lia|].
  pose proof Hc as [Hd Hs]. pose proof (seg_mid _ _ _ _ _ _ Hs Hnode) as Hload.
  rewrite app_nil_r in Hload.
  assert (node ∈ root :: done) as Hin by by apply last_Some_elem_of.
  assert (node <> n) as Hnn by (intros ->; apply Hn; set_solver).
  pose proof (seg_link _ _ _ _ _ _ _ Hs Hd Hn Hnode) as Hlink. rewrite app_nil_r in Hlink.
  assert (NoDup (root :: done ++ n :: rest)) as Hd'.
  { rewrite <- Permutation_middle, Permutation_swap. by apply NoDup_cons. }
  destruct rest as [|x rest]; cbn [head insert_by] in *.
  - exists (<[node := Some n]> (<[n := None]> (pq_next s))). split; [|by split].
    apply loop_exit. rewrite (bind_ret _ _ _ _ _ (links_load _ _ _ Hload)).
    rewrite (bind_ret _ _ _ _ _ (links_store _ _ _ _ Hload)).
    erewrite bind_ret by (eapply links_store; cbn; by rewrite lookup_insert_ne).
    unfold ret, with_next. cbn. by rewrite insert_insert_ne.
  - assert (x <> n) as Hxn by set_solver.
    pose proof (Hp x ltac:(set_solver)) as Hpx. pose proof (Hp n ltac:(set_solver)) as Hpn.
    destruct (Z.ltb_spec (prio n) (prio x)) as [Hlt|Hge].
    + exists (<[node := Some n]> (<[n := Some x]> (pq_next s))). split; [|by split].
      apply loop_exit. rewrite (bind_ret _ _ _ _ _ (links_load _ _ _ Hload)).
      rewrite bool_decide_true by done. unfold c_assert, priority_of. mstep. rewrite Hpx, Hpn.
      rewrite (proj2 (Z.ltb_lt _ _) Hlt), (links_store _ _ _ _ Hvn).
      by erewrite links_store by (cbn; by rewrite lookup_insert_ne).
    + destruct (IH (done ++ [x]) rest x s) as (h' & Hl & Hc'); rewrite <- ?app_assoc; try done.
      * by rewrite app_comm_cons, last_snoc.
      * intros y Hy. apply Hp. set_solver.
      * cbn in Hf. lia.
      * exists h'. rewrite <- app_assoc in Hc'. split; [|done].
        rewrite (loop_next _ _ _ _ x s); [done|].
        rewrite (bind_ret _ _ _ _ _ (links_load _ _ _ Hload)).
        rewrite bool_decide_true by done. unfold c_assert, priority_of. mstep. rewrite Hpx, Hpn.
        by rewrite (proj2 (Z.ltb_ge _ _) Hge).
Qed.

Lemma remove_loop root node fuel : forall done rest pos s,
  chain (pq_next s) root (done ++ rest) -> last (root :: done) = Some pos ->
  node ∉ done -> (length rest < fuel)%nat ->
  exists h',
    loop fuel (fun root =>
      let! nx := links (load root) in
      match nx with
      | None => ret (inr tt)
      | Some x =>
          if decide (x = node) then
            let! nn := links (load node) in
            do! links (store root nn);
            do! links (store node None);
            ret (inr tt)
          else ret (inl x)
      end) pos s = Ret tt (with_next h' s) /\
    chain h' root (done ++ without node rest) /\ (node ∈ rest -> h' !! node = Some None).
Proof.
  induction fuel as [|fuel IH]; intros done rest pos s Hc Hpos Hn Hf; [lia|].
  pose proof Hc as [Hd Hs]. pose proof (seg_mid _ _ _ _ _ _ Hs Hpos) as Hload.
  rewrite app_nil_r in Hload.
  destruct rest as [|x rest]; cbn [head] in *.
  - exists (pq_next s). split; [|by split; [|set_solver]].
    apply loop_exit. rewrite (bind_ret _ _ _ _ _ (links_load _ _ _ Hload)). by destruct s.
  - destruct (decide (x = node)) as [->|Hne].
    + pose proof (seg_delete _ _ _ _ _ _ _ Hs Hd Hpos) as Hdel. rewrite app_nil_r in Hdel.
      assert (pq_next s !! node = Some (head rest)) as Hnode.
      { rewrite <- (app_nil_r rest). change [] with (@option_list A None).
        apply seg_head with (xs := rest) (p := node). clear Hdel Hload.
        destruct (seg_app (pq_next s) root done node rest None) as [Happ _].
        by apply Happ in Hs as [_ ?]. }
      assert (pos <> node).
      { intros ->. apply last_Some_elem_of in Hpos. apply NoDup_cons in Hd as [Hr _].
        apply elem_of_cons in Hpos as [->|?]; [|done]. apply Hr. set_solver. }
      exists (<[node := None]> (<[pos := head rest]> (pq_next s))). split.
      { apply loop_exit. rewrite (bind_ret _ _ _ _ _ (links_load _ _ _ Hload)).
        rewrite decide_True by done. rewrite (bind_ret _ _ _ _ _ (links_load _ _ _ Hnode)).
        rewrite (bind_ret _ _ _ _ _ (links_store _ _ _ _ Hload)).
        by erewrite bind_ret by (eapply links_store; cbn; by rewrite lookup_insert_ne). }
      assert (without node (node :: rest) = rest) as ->.
      { apply (without_split node [] rest). apply NoDup_cons in Hd as [_ Hd].
        apply NoDup_app in Hd as (_ & _ & Hd). done. }
      split; [|by rewrite lookup_insert_eq].
      rewrite <- Permutation_middle, Permutation_swap in Hd. apply NoDup_cons in Hd as [Hnr Hd].
      split; [done|]. by apply seg_insert.
    + destruct (IH (done ++ [x]) rest x s) as (h' & Hl & Hc' & Hnone); rewrite <- ?app_assoc; try done.
      * by rewrite app_comm_cons, last_snoc.
      * set_solver.
      * cbn in Hf. lia.
      * exists h'. split; [|split; [|set_solver]].
        -- rewrite (loop_next _ _ _ _ x s); [done|].
           rewrite (bind_ret _ _ _ _ _ (links_load _ _ _ Hload)). by rewrite decide_False.
        -- unfold without. rewrite filter_cons_True by done. by rewrite <- app_assoc in Hc'.
Qed.

Lemma pq_sorted_without prio node xs :
  StronglySorted (ordered prio) xs -> StronglySorted (ordered prio) (without node xs).
Proof.
  unfold without. induction 1 as [|x r Hr IH Hx]; [constructor|].
  rewrite filter_cons. case_decide; [|done]. constructor; [done|].
  rewrite Forall_forall in *. intros y [_ Hy]%list_elem_of_filter. by apply Hx.
Qed.

(** ** Properties *)

(** The priority queue keeps its nodes sorted: adding a node puts it
    after every node of its own or a smaller priority number and before the
    greater ones, so nodes of one priority leave in the order they came;
    removing the head returns a node of least number; removing any other
    node leaves the rest in order and clears its link, and removing an
    absent one does nothing.  All loops end within the length of the queue. *)
Theorem priority_queue_ordered (prio : A -> Z) s root n xs fuel :
  pq_rep prio s root xs -> (length xs < fuel)%nat ->
  (n ∉ root :: xs -> is_Some (pq_next s !! n) -> pq_priority s !! n = Some (prio n) ->
     exists s', priority_queue_add fuel root n s = Ret tt s' /\
       pq_rep prio s' root (insert_by prio n xs) /\
       (forall p, filter (fun x => prio x = p) (insert_by prio n xs) =
          filter (fun x => prio x = p) xs ++ (if decide (prio n = p) then [n] else []))) /\
  (exists s', priority_queue_remove_head root s = Ret (head xs) s' /\
     pq_rep prio s' root (tail xs) /\
     forall x y, head xs = Some x -> y ∈ xs -> prio x <= prio y) /\
  (exists s', priority_queue_remove fuel root n s = Ret tt s' /\
     pq_rep prio s' root (without n xs) /\ (n ∈ xs -> pq_next s' !! n = Some None)).
Proof.
  intros (Hc & Hs & Hp) Hf. split; [|split].
  - intros Hn Hal Hpn. destruct (pq_add_loop prio root n fuel [] xs root s) as (h' & Hl & Hc');
      [done|done|done|done| |done|].
    { intros x [->|Hx]%elem_of_cons; [done|by apply Hp]. }
    eexists. split; [exact Hl|]. split; [|intros p; by apply insert_by_fifo].
    split; [done|]. split; [by apply insert_by_sorted|].
    intros x Hx. rewrite insert_by_perm in Hx. apply elem_of_cons in Hx as [->|Hx]; [done|by apply Hp].
  - destruct Hc as [Hd Hseg]. unfold priority_queue_remove_head. destruct xs as [|x r].
    + exists s. cbn in Hseg. rewrite (bind_ret _ _ _ _ _ (links_load _ _ _ Hseg)). done.
    + cbn [head tail seg] in *. destruct Hseg as [Hr Hseg].
      pose proof (seg_head _ _ _ _ Hseg) as Hx. rewrite app_nil_r in Hx.
      rewrite (bind_ret _ _ _ _ _ (links_load _ _ _ Hr)).
      rewrite bind_assoc, (bind_ret _ _ _ _ _ (links_load _ _ _ Hx)).
      rewrite (bind_ret _ _ _ _ _ (links_store _ _ _ _ Hr)).
      eexists. split; [done|]. apply StronglySorted_inv in Hs as [Hs Hle]. split.
      * split; [|split; [done|]].
        -- pose proof (seg_delete (pq_next s) root [] x r None root) as Hdel.
           rewrite app_nil_r in Hdel. split; [|by apply Hdel].
           rewrite Permutation_swap in Hd. by apply NoDup_cons in Hd as [_ Hd].
        -- intros y Hy. apply Hp. set_solver.
      * intros x' y [= <-] [->|Hy]%elem_of_cons; [done|]. rewrite Forall_forall in Hle. by apply Hle.
  - destruct (remove_loop root n fuel [] xs root s) as (h' & Hl & Hc' & Hnone); [done|done|set_solver|done|].
    eexists. split; [exact Hl|]. split; [|done]. split; [done|]. split; [by apply pq_sorted_without|].
    intros x Hx. apply Hp. unfold without in Hx. by apply list_elem_of_filter in Hx as [_ ?].
Qed.
End pqueue.

Definition pq_demo : pq_state (A := Z) :=
  Pq (list_to_map [(0, Some 1); (1, Some 2); (2, None); (3, None)])
     (list_to_map [(1, 5); (2, 7); (3, 5)]) (list_to_map [(1, 0); (2, 0); (3, 0)]).

Lemma priority_queue_ordered_witness :
  exists s', priority_queue_add 3 0 3 pq_demo = Ret tt s' /\
             chain (pq_next s') 0 [1; 3; 2].
Proof.
  destruct (priority_queue_ordered (fun x => if x =? 2 then 7 else 5) pq_demo 0 3 [1; 2] 3)
    as [Ha _].
  - split; [|split].
    + split; [apply (bool_decide_unpack _); vm_compute; exact I|]. repeat split.
    + repeat constructor; unfold ordered; cbn; lia.
    + intros x [->|[->|[]%elem_of_nil]%elem_of_cons]%elem_of_cons; reflexivity.
  - cbn. lia.
  - destruct Ha as (s' & H1 & (H2 & _) & _).
    + apply (bool_decide_unpack _). vm_compute. exact I.
    + by eexists.
    + reflexivity.
    + exists s'. split; [exact H1|exact H2].
Defined.
