(* ===== verification/Div.v ===== *)
(** * Division by multiplication (sys/include/div.h, sys/div/div.c) and the
    tick conversions built on it
    (sys/include/secure_mintimer/secure_mintimer_tick_conversion.h)

    Each routine multiplies by a rounded-up reciprocal and shifts.  The
    reciprocal is exact up to a bound that depends on its error
    ([reciprocal_exact]); the theorems say where each routine is the
    division its documentation promises and where it is not. *)

From S2P Require Import Prelude.

(** ** The program *)

Definition DIV_H_INV_15625_32 : Z := 0x431bde83.
Definition DIV_H_INV_15625_64 : Z := 0x431bde82d7b634db.
Definition DIV_H_INV_15625_SHIFT : Z := 12.

Definition _div_mulhi64 (a b : Z) : Z :=
  let a_lo := u32 a in
  let a_hi := u32 (Z.shiftr a 32) in
  let b_lo := u32 b in
  let b_hi := u32 (Z.shiftr b 32) in
  let a_x_b_mid := u64 (a_hi * b_lo) in
  let b_x_a_mid := u64 (b_hi * a_lo) in
  let a_x_b_lo := u64 (a_lo * b_lo) in
  let a_x_b_hi := u64 (a_hi * b_hi) in
  let carry_bits :=
    u32 (Z.shiftr (u64 (u64 (u32 a_x_b_mid + u32 b_x_a_mid) + Z.shiftr a_x_b_lo 32)) 32) in
  u64 (u64 (u64 (a_x_b_hi + Z.shiftr a_x_b_mid 32) + Z.shiftr b_x_a_mid 32) + carry_bits).

Definition div_u64_by_15625 (val : Z) : Z :=
  if 16383999997 <? val then
    Z.shiftr (_div_mulhi64 DIV_H_INV_15625_64 val) DIV_H_INV_15625_SHIFT
  else Z.shiftr (u64 (val * DIV_H_INV_15625_32)) (DIV_H_INV_15625_SHIFT + 32).

Definition div_u64_by_125 (val : Z) : M unit Z :=
  do! c_assert (val <=? 536870911999);
  let hi := u32 (Z.shiftr val 32) in
  let lo := u32 val in
  let r := u32 (Z.shiftr lo 16 + u32 (Z.shiftl hi 16)) in
  let res := r / 125 in
  let r := u32 (u32 (Z.shiftl (r mod 125) 16) + Z.land lo 0xFFFF) in
  let res := u32 (u32 (Z.shiftl res 16) + r / 125) in
  ret res.

Definition div_u64_by_1000000 (val : Z) : Z := Z.shiftr (div_u64_by_15625 val) 6.

Definition div_u32_by_15625div512 (val : Z) : Z :=
  u32 (Z.shiftr (u64 (val * DIV_H_INV_15625_32)) (DIV_H_INV_15625_SHIFT + 32 - 9)).

Definition div_u64_by_15625div512 (val : Z) : Z :=
  if 16383999997 <? val then
    Z.shiftr (_div_mulhi64 DIV_H_INV_15625_64 val) (DIV_H_INV_15625_SHIFT - 9)
  else Z.shiftr (u64 (val * DIV_H_INV_15625_32)) (DIV_H_INV_15625_SHIFT + 32 - 9).

Definition div_u32_by_44488 (val : Z) : Z := u32 (Z.shiftr (u64 (val * 0xBC8F1391)) (15 + 32)).

Definition div_u32_mod_44488 (val : Z) : Z := u32 (val - u32 (div_u32_by_44488 val * 44488)).

(** The frequency of the low-level timer chooses the conversion at compile
    time: 1 MHz (the Sancus boards), 1 MHz times or divided by [2^shift], or
    32768 Hz. *)
Inductive timer_hz := HZ_1M | HZ_up (shift : Z) | HZ_down (shift : Z) | HZ_32768.

Definition ticks_from_usec (hz : timer_hz) (usec : Z) : Z :=
  match hz with
  | HZ_1M => usec
  | HZ_up s => u32 (Z.shiftl usec s)
  | HZ_down s => Z.shiftr usec s
  | HZ_32768 => div_u32_by_15625div512 usec
  end.

Definition ticks_from_usec64 (hz : timer_hz) (usec : Z) : Z :=
  match hz with
  | HZ_1M => usec
  | HZ_up s => u64 (Z.shiftl usec s)
  | HZ_down s => Z.shiftr usec s
  | HZ_32768 => div_u64_by_15625div512 usec
  end.

Definition usec_from_ticks (hz : timer_hz) (ticks : Z) : Z :=
  match hz with
  | HZ_1M => ticks
  | HZ_up s => Z.shiftr ticks s
  | HZ_down s => u32 (Z.shiftl ticks s)
  | HZ_32768 => u32 (Z.shiftr (u64 (ticks * 15625)) 9)
  end.

Definition usec_from_ticks64 (hz : timer_hz) (ticks : Z) : Z :=
  match hz with
  | HZ_1M => ticks
  | HZ_up s => Z.shiftr ticks s
  | HZ_down s => u64 (Z.shiftl ticks s)
  | HZ_32768 => Z.shiftr (u64 (ticks * 15625)) 9
  end.

(** ** Reciprocals *)

(** [m] exceeds [P / d] by [e / d]: multiplying by [m] and dividing by [P]
    is dividing by [d] as long as [n * e < P]. *)
Lemma reciprocal_exact n d m P e :
  0 < d -> 0 < P -> 0 <= n -> 0 <= e -> m * d = P + e -> n * e < P -> n * m / P = n / d.
Proof.
  intros Hd HP Hn He Hm Hlt. symmetry.
  pose proof (Z.div_mod n d ltac:(lia)) as E. pose proof (Z.mod_pos_bound n d Hd) as Hr.
  set (q := n / d) in *. set (r := n mod d) in *.
  apply (Z.div_unique _ _ _ (q * e + r * m)); [|nia].
  left. assert (0 <= q) by (apply Z.div_pos; lia). split; [nia|].
  assert ((q * e + r * m) * d < P * d); [|nia].
  replace ((q * e + r * m) * d) with (e * (d * q + r) + r * P) by nia.
  rewrite <- E. nia.
Qed.

Lemma reciprocal_off_by_one n d m P e :
  0 < d -> 0 < P -> 0 <= n -> 0 <= e -> m * d = P + e -> n * e < d * P ->
  n / d <= n * m / P <= n / d + 1.
Proof.
  intros Hd HP Hn He Hm Hlt.
  pose proof (Z.div_mod n d ltac:(lia)) as E. pose proof (Z.mod_pos_bound n d Hd) as Hr.
  set (q := n / d) in *. set (r := n mod d) in *.
  assert (0 <= q) by (apply Z.div_pos; lia).
  assert (n * m = q * P + (q * e + r * m)) as Em by nia.
  assert ((q * e + r * m) * d < (2 * P) * d) as Hs.
  { replace ((q * e + r * m) * d) with (e * (d * q + r) + r * P) by nia. rewrite <- E. nia. }
  split.
  - apply Z.div_le_lower_bound; [done|]. nia.
  - apply Z.lt_succ_r. apply Z.div_lt_upper_bound; [done|]. nia.
Qed.

(** The upper half of a 128-bit product. *)
Lemma mulhi64_exact a b : in_u 64 a -> in_u 64 b -> _div_mulhi64 a b = a * b / 2 ^ 64.
Proof.
  intros Ha Hb. unfold in_u in *. unfold _div_mulhi64. rewrite !Z.shiftr_div_pow2 by lia.
  change (2 ^ 64) with (2 ^ 32 * 2 ^ 32) in *. set (W := 2 ^ 32) in *.
  assert (W = 4294967296) as HW by reflexivity.
  pose proof (Z.div_mod a W ltac:(lia)) as Ea. pose proof (Z.mod_pos_bound a W ltac:(lia)) as Hra.
  pose proof (Z.div_mod b W ltac:(lia)) as Eb. pose proof (Z.mod_pos_bound b W ltac:(lia)) as Hrb.
  assert (0 <= a / W < W) as Hah by (split; [apply Z.div_pos|apply Z.div_lt_upper_bound]; lia).
  assert (0 <= b / W < W) as Hbh by (split; [apply Z.div_pos|apply Z.div_lt_upper_bound]; lia).
  assert (u32 a = a mod W) as -> by done. assert (u32 b = b mod W) as -> by done.
  rewrite (wrapu_id 32 (a / W)), (wrapu_id 32 (b / W)) by done.
  set (ah := a / W) in *. set (al := a mod W) in *. set (bh := b / W) in *. set (bl := b mod W) in *.
  assert (forall x y, 0 <= x < W -> 0 <= y < W -> 0 <= x * y <= (W - 1) * (W - 1)) as Hprod by nia.
  assert (forall x y, 0 <= x < W -> 0 <= y < W -> u64 (x * y) = x * y) as Hu.
  { intros x y Hx Hy. apply wrapu_id. unfold in_u. change (2 ^ 64) with (W * W).
    specialize (Hprod x y Hx Hy). nia. }
  rewrite !Hu by done.
  set (m1 := ah * bl) in *. set (m2 := bh * al) in *. set (lo := al * bl) in *. set (hi := ah * bh) in *.
  pose proof (Hprod ah bl Hah Hrb) as H1. pose proof (Hprod bh al Hbh Hra) as H2.
  pose proof (Hprod al bl Hra Hrb) as H3. pose proof (Hprod ah bh Hah Hbh) as H4.
  fold m1 in H1. fold m2 in H2. fold lo in H3. fold hi in H4.
  change (u32 m1) with (m1 mod W). change (u32 m2) with (m2 mod W).
  pose proof (Z.div_mod m1 W ltac:(lia)) as E1. pose proof (Z.mod_pos_bound m1 W ltac:(lia)).
  pose proof (Z.div_mod m2 W ltac:(lia)) as E2. pose proof (Z.mod_pos_bound m2 W ltac:(lia)).
  pose proof (Z.div_mod lo W ltac:(lia)) as E3. pose proof (Z.mod_pos_bound lo W ltac:(lia)).
  assert (forall z, 0 <= z <= (W - 1) * (W - 1) -> 0 <= z / W < W) as Hdiv.
  { intros z Hz. split; [apply Z.div_pos; lia|apply Z.div_lt_upper_bound; nia]. }
  pose proof (Hdiv m1 H1). pose proof (Hdiv m2 H2). pose proof (Hdiv lo H3).
  assert (forall z, 0 <= z < W * W -> u64 z = z) as Hid by (intros z Hz; by apply wrapu_id).
  rewrite (Hid (m1 mod W + m2 mod W)) by nia.
  rewrite (Hid (m1 mod W + m2 mod W + lo / W)) by nia.
  set (c := (m1 mod W + m2 mod W + lo / W) / W).
  pose proof (Z.div_mod (m1 mod W + m2 mod W + lo / W) W ltac:(lia)) as Ec.
  pose proof (Z.mod_pos_bound (m1 mod W + m2 mod W + lo / W) W ltac:(lia)) as Hc. fold c in Ec.
  assert (0 <= c <= 2) as Hc2.
  { unfold c. split; [apply Z.div_pos; lia|]. apply Z.lt_succ_r, Z.div_lt_upper_bound; lia. }
  rewrite (wrapu_id 32 c) by (unfold in_u; fold W; lia).
  assert (a * b = (hi + m1 / W + m2 / W + c) * (W * W)
                  + ((m1 mod W + m2 mod W + lo / W) mod W * W + lo mod W)) as Eab.
  { rewrite Ea, Eb at 1.
    replace ((W * ah + al) * (W * bh + bl)) with (hi * (W * W) + (m1 + m2) * W + lo)
      by (unfold hi, m1, m2, lo; ring).
    rewrite E1, E2, E3 at 1. nia. }
  assert (hi + m1 / W + m2 / W + c < W * W) as Hres.
  { assert (a * b < (W * W) * (W * W)) by nia. nia. }
  rewrite (Hid (hi + m1 / W)) by nia. rewrite (Hid (hi + m1 / W + m2 / W)) by nia.
  rewrite (Hid (hi + m1 / W + m2 / W + c)) by nia.
  apply (Z.div_unique _ _ _ ((m1 mod W + m2 mod W + lo / W) mod W * W + lo mod W)); [left; nia|].
  rewrite Eab. ring.
Qed.

(** ** The routines *)

Lemma inv32_product v : 0 <= v <= 16383999997 -> u64 (v * DIV_H_INV_15625_32) = v * DIV_H_INV_15625_32.
Proof. intros. apply wrapu_id. unfold in_u, DIV_H_INV_15625_32. lia. Qed.

(** The 64-bit multiplication and the shift as one division. *)
Lemma mulhi_shift v s :
  in_u 64 v -> 0 <= s ->
  Z.shiftr (_div_mulhi64 DIV_H_INV_15625_64 v) s = v * DIV_H_INV_15625_64 / 2 ^ (64 + s).
Proof.
  intros Hv Hs. rewrite mulhi64_exact by (done || (unfold in_u, DIV_H_INV_15625_64; lia)).
  rewrite Z.shiftr_div_pow2 by done. rewrite Z.div_div by (try apply Z.pow_pos_nonneg; lia).
  rewrite <- Z.pow_add_r by lia. by rewrite (Z.mul_comm _ v).
Qed.

(** Scaling the numerator by 512 and shifting 9 less is the same. *)
Lemma scale512 v m s : 9 <= s -> v * m / 2 ^ (s - 9) = v * 512 * m / 2 ^ s.
Proof.
  intros Hs. replace (2 ^ s) with (2 ^ (s - 9) * 512).
  - replace (v * 512 * m) with (v * m * 512) by lia. by rewrite Z.div_mul_cancel_r by lia.
  - change 512 with (2 ^ 9). rewrite <- Z.pow_add_r by lia. f_equal. lia.
Qed.

Lemma div125_exact val :
  0 <= val <= 536870911999 -> div_u64_by_125 val tt = Ret (val / 125) tt.
Proof.
  intros Hv. unfold div_u64_by_125. rewrite (proj2 (Z.leb_le _ _)) by lia.
  unfold c_assert, bind, ret. f_equal. rewrite !Z.shiftr_div_pow2, !Z.shiftl_mul_pow2 by lia.
  change 0xFFFF with (Z.ones 16). rewrite Z.land_ones by lia.
  pose proof (Z.div_mod val (2 ^ 32) ltac:(lia)) as E.
  pose proof (Z.mod_pos_bound val (2 ^ 32) ltac:(lia)) as Hlo.
  assert (0 <= val / 2 ^ 32 < 125) as Hhi
    by (split; [apply Z.div_pos; lia|apply Z.div_lt_upper_bound; lia]).
  change (u32 val) with (val mod 2 ^ 32).
  rewrite (wrapu_id 32 (val / 2 ^ 32)) by (unfold in_u; lia).
  set (hi := val / 2 ^ 32) in *. set (lo := val mod 2 ^ 32) in *.
  rewrite (wrapu_id 32 (hi * 2 ^ 16)) by (unfold in_u; lia).
  pose proof (Z.div_mod lo (2 ^ 16) ltac:(lia)) as El.
  pose proof (Z.mod_pos_bound lo (2 ^ 16) ltac:(lia)) as Hll.
  assert (0 <= lo / 2 ^ 16 < 2 ^ 16) as Hlh
    by (split; [apply Z.div_pos; lia|apply Z.div_lt_upper_bound; lia]).
  rewrite (wrapu_id 32 (lo / 2 ^ 16 + hi * 2 ^ 16)) by (unfold in_u; lia).
  set (r := lo / 2 ^ 16 + hi * 2 ^ 16) in *.
  pose proof (Z.div_mod r 125 ltac:(lia)) as Er. pose proof (Z.mod_pos_bound r 125 ltac:(lia)) as Hr.
  rewrite (wrapu_id 32 (r mod 125 * 2 ^ 16)) by (unfold in_u; lia).
  set (ll := lo mod 2 ^ 16) in *.
  rewrite (wrapu_id 32 (r mod 125 * 2 ^ 16 + ll)) by (unfold in_u; lia).
  set (r2 := r mod 125 * 2 ^ 16 + ll).
  pose proof (Z.div_mod r2 125 ltac:(lia)) as Er2. pose proof (Z.mod_pos_bound r2 125 ltac:(lia)) as Hr2.
  assert (0 <= r / 125) by (apply Z.div_pos; lia). assert (0 <= r2 / 125) by (apply Z.div_pos; lia).
  assert (val = 125 * (r / 125 * 2 ^ 16 + r2 / 125) + r2 mod 125) as Ev by lia.
  rewrite (wrapu_id 32 (r / 125 * 2 ^ 16)) by (unfold in_u; lia).
  rewrite wrapu_id by (unfold in_u; lia).
  by apply (Z.div_unique _ _ _ (r2 mod 125)); [left|].
Qed.

(** Below the error of the constant both widths scale exactly. *)
Lemma div512_small val :
  0 <= val <= 13973053 ->
  div_u32_by_15625div512 val = val * 512 / 15625 /\ div_u64_by_15625div512 val = val * 512 / 15625.
Proof.
  intros Hle.
  assert (Z.shiftr (u64 (val * DIV_H_INV_15625_32)) (DIV_H_INV_15625_SHIFT + 32 - 9) = val * 512 / 15625) as E.
  { rewrite inv32_product by lia. rewrite Z.shiftr_div_pow2 by (unfold DIV_H_INV_15625_SHIFT; lia).
    rewrite scale512 by (unfold DIV_H_INV_15625_SHIFT; lia).
    apply (reciprocal_exact _ _ _ _ 2459); unfold DIV_H_INV_15625_SHIFT; lia || reflexivity. }
  unfold div_u32_by_15625div512, div_u64_by_15625div512.
  rewrite (proj2 (Z.ltb_ge _ _)) by lia. rewrite E. split; [|done].
  apply wrapu_id. split; [apply Z.div_pos; lia|apply Z.div_lt_upper_bound; lia].
Qed.

(** ** Properties *)

(** The exact divisions: [_div_mulhi64] is the upper half of the 128-bit
    product for all operands; [div_u64_by_125] divides exactly up to its
    documented bound and its assertion refuses greater values;
    [div_u32_by_44488] and its remainder are exact for all 32-bit values. *)
Theorem div_exact a b val w :
  in_u 64 a -> in_u 64 b -> in_u 64 val -> in_u 32 w ->
  _div_mulhi64 a b = a * b / 2 ^ 64 /\
  div_u64_by_125 val tt = (if val <=? 536870911999 then Ret (val / 125) tt else Err AssertFail) /\
  div_u32_by_44488 w = w / 44488 /\ div_u32_mod_44488 w = w mod 44488.
Proof.
  intros Ha Hb Hval Hw. split; [by apply mulhi64_exact|]. split.
  { destruct (Z.leb_spec val 536870911999) as [Hle|Hgt].
    - apply div125_exact. unfold in_u in Hval. lia.
    - unfold div_u64_by_125. by rewrite (proj2 (Z.leb_gt _ _)) by done. }
  unfold in_u in Hw.
  assert (div_u32_by_44488 w = w / 44488) as E.
  { unfold div_u32_by_44488. rewrite (wrapu_id 64) by (unfold in_u; lia).
    rewrite Z.shiftr_div_pow2 by lia.
    rewrite (reciprocal_exact w 44488 _ (2 ^ (15 + 32)) 17992) by lia.
    apply wrapu_id. split; [apply Z.div_pos; lia|apply Z.div_lt_upper_bound; lia]. }
  split; [done|]. unfold div_u32_mod_44488. rewrite E.
  pose proof (Z.div_mod w 44488 ltac:(lia)) as Ew. pose proof (Z.mod_pos_bound w 44488 ltac:(lia)).
  assert (0 <= w / 44488) by (apply Z.div_pos; lia).
  rewrite (wrapu_id 32 (w / 44488 * 44488)) by (unfold in_u; lia).
  rewrite wrapu_id; [lia|unfold in_u; lia].
Qed.

(** Division by 15625 and by 10^6 with the reciprocal: exact up to
    7154203352, where the error of the 32-bit constant begins to show, and
    again above 16383999997, where the code switches to the 64-bit constant;
    in between the result is the quotient or one more, and it is one more at
    7154218749 (the documentation promises [val / 15625] throughout). *)
Theorem div_by_15625 val :
  in_u 64 val ->
  (val <= 7154203352 \/ 16383999997 < val ->
     div_u64_by_15625 val = val / 15625 /\ div_u64_by_1000000 val = val / 1000000) /\
  val / 15625 <= div_u64_by_15625 val <= val / 15625 + 1 /\
  div_u64_by_15625 7154218749 = 7154218749 / 15625 + 1.
Proof.
  intros Hv. unfold in_u in Hv. split; [|split; [|done]].
  - intros Hr. assert (div_u64_by_15625 val = val / 15625) as E.
    { unfold div_u64_by_15625. destruct (Z.ltb_spec 16383999997 val).
      - rewrite mulhi_shift by (done || unfold DIV_H_INV_15625_SHIFT; lia).
        apply (reciprocal_exact _ _ _ _ 2739); unfold DIV_H_INV_15625_SHIFT; lia || reflexivity.
      - rewrite inv32_product by lia. rewrite Z.shiftr_div_pow2 by (unfold DIV_H_INV_15625_SHIFT; lia).
        apply (reciprocal_exact _ _ _ _ 2459); unfold DIV_H_INV_15625_SHIFT; lia || reflexivity. }
    split; [done|]. unfold div_u64_by_1000000. rewrite E, Z.shiftr_div_pow2 by lia.
    by rewrite Z.div_div by lia.
  - unfold div_u64_by_15625. destruct (Z.ltb_spec 16383999997 val).
    + rewrite mulhi_shift by (done || unfold DIV_H_INV_15625_SHIFT; lia).
      apply (reciprocal_off_by_one _ _ _ _ 2739); unfold DIV_H_INV_15625_SHIFT; lia || reflexivity.
    + rewrite inv32_product by lia. rewrite Z.shiftr_div_pow2 by (unfold DIV_H_INV_15625_SHIFT; lia).
      apply (reciprocal_off_by_one _ _ _ _ 2459); unfold DIV_H_INV_15625_SHIFT; lia || reflexivity.
Qed.

(** Scaling a 1 MHz value to 32768 Hz: [div_u32_by_15625div512] equals
    [floor(val * 512 / 15625)], as documented, up to 13973053 only; for
    every other 32-bit value it is that or one more, and 13978302 is the
    first value with one more.  The 64-bit version behaves alike below
    16384 seconds and is exact again from there to 5 * 10^16. *)
Theorem div_by_15625div512 val :
  in_u 64 val ->
  (val <= 13973053 -> div_u32_by_15625div512 val = val * 512 / 15625 /\
                      div_u64_by_15625div512 val = val * 512 / 15625) /\
  (16383999997 < val <= 53878770569432790 -> div_u64_by_15625div512 val = val * 512 / 15625) /\
  (val < 2 ^ 32 ->
     val * 512 / 15625 <= div_u32_by_15625div512 val <= val * 512 / 15625 + 1) /\
  div_u32_by_15625div512 13978302 = 13978302 * 512 / 15625 + 1.
Proof.
  intros Hv. unfold in_u in Hv. split; [|split; [|split; [|reflexivity]]].
  - intros Hle. apply div512_small. lia.
  - intros Hr. unfold div_u64_by_15625div512. rewrite (proj2 (Z.ltb_lt _ _)) by lia.
    rewrite mulhi_shift by (done || unfold DIV_H_INV_15625_SHIFT; lia).
    change (64 + (DIV_H_INV_15625_SHIFT - 9)) with (76 - 9). rewrite scale512 by lia.
    apply (reciprocal_exact _ _ _ _ 2739); unfold DIV_H_INV_15625_SHIFT; lia || reflexivity.
  - intros Hlt. unfold div_u32_by_15625div512. rewrite inv32_product by lia.
    rewrite Z.shiftr_div_pow2 by (unfold DIV_H_INV_15625_SHIFT; lia).
    rewrite scale512 by (unfold DIV_H_INV_15625_SHIFT; lia).
    assert (val * 512 / 15625 <= val * 512 * DIV_H_INV_15625_32 / 2 ^ (DIV_H_INV_15625_SHIFT + 32)
            <= val * 512 / 15625 + 1) as Hb.
    { apply (reciprocal_off_by_one _ _ _ _ 2459); unfold DIV_H_INV_15625_SHIFT; lia || reflexivity. }
    assert (0 <= val * 512 / 15625 < 2 ^ 31)
      by (split; [apply Z.div_pos; lia|apply Z.div_lt_upper_bound; lia]).
    rewrite wrapu_id; [done|unfold in_u; lia].
Qed.

(** Converting microseconds to timer ticks and back: the identity at
    1 MHz and, as long as the value fits, at multiples of 1 MHz; at 1 MHz
    divided by [2^s] it rounds down to a multiple of [2^s]; at 32768 Hz, in
    the exact range of the division, it loses at most 31
    microseconds, one tick rounded up.  The 32-bit and the 64-bit conversions agree there. *)
Theorem tick_conversion_roundtrip usec s :
  0 <= s <= 6 -> in_u 32 usec ->
  usec_from_ticks HZ_1M (ticks_from_usec HZ_1M usec) = usec /\
  (usec < 2 ^ (32 - s) ->
     usec_from_ticks (HZ_up s) (ticks_from_usec (HZ_up s) usec) = usec /\
     ticks_from_usec64 (HZ_up s) usec = ticks_from_usec (HZ_up s) usec) /\
  (usec_from_ticks (HZ_down s) (ticks_from_usec (HZ_down s) usec) = usec - usec mod 2 ^ s) /\
  (usec <= 13973053 ->
     usec - 31 <= usec_from_ticks HZ_32768 (ticks_from_usec HZ_32768 usec) <= usec /\
     usec_from_ticks64 HZ_32768 (ticks_from_usec64 HZ_32768 usec) =
       usec_from_ticks HZ_32768 (ticks_from_usec HZ_32768 usec)).
Proof.
  intros Hs Hu. unfold in_u in Hu. cbn [usec_from_ticks ticks_from_usec ticks_from_usec64 usec_from_ticks64].
  assert (0 < 2 ^ s) as Hps by (apply Z.pow_pos_nonneg; lia).
  split; [done|]. split; [|split].
  - intros Hlt. rewrite !Z.shiftl_mul_pow2, Z.shiftr_div_pow2 by lia.
    assert (usec * 2 ^ s < 2 ^ 32) as Hb.
    { replace (2 ^ 32) with (2 ^ (32 - s) * 2 ^ s) by (rewrite <- Z.pow_add_r by lia; f_equal; lia). nia. }
    rewrite !wrapu_id by (unfold in_u; nia). split; [by rewrite Z.div_mul by lia|done].
  - rewrite Z.shiftl_mul_pow2, Z.shiftr_div_pow2 by lia.
    pose proof (Z.div_mod usec (2 ^ s) ltac:(lia)) as E. pose proof (Z.mod_pos_bound usec (2 ^ s) Hps).
    assert (0 <= usec / 2 ^ s) by (apply Z.div_pos; lia).
    rewrite wrapu_id by (unfold in_u; nia). lia.
  - intros Hle.
    destruct (div512_small usec ltac:(lia)) as [E32 E64].
    rewrite E32, E64. set (t := usec * 512 / 15625).
    pose proof (Z.div_mod (usec * 512) 15625 ltac:(lia)) as Et. fold t in Et.
    pose proof (Z.mod_pos_bound (usec * 512) 15625 ltac:(lia)).
    assert (0 <= t < 2 ^ 20) by (unfold t; split; [apply Z.div_pos; lia|apply Z.div_lt_upper_bound; lia]).
    rewrite (wrapu_id 64) by (unfold in_u; lia). rewrite Z.shiftr_div_pow2 by lia.
    pose proof (Z.div_mod (t * 15625) (2 ^ 9) ltac:(lia)) as Ed.
    pose proof (Z.mod_pos_bound (t * 15625) (2 ^ 9) ltac:(lia)).
    generalize dependent (t * 15625 / 2 ^ 9). generalize dependent (t * 15625 mod 2 ^ 9). intros m Hm d Ed.
    clearbody t.
    assert (0 <= d < 2 ^ 32) as Hd by (clear -H0 Hm Ed; lia).
    rewrite wrapu_id by done. split; [clear -Et H H0 Hm Ed; lia|done].
Qed.

Lemma div_exact_witness : div_u64_by_125 1000000 tt = Ret 8000 tt /\ div_u32_mod_44488 100000 = 11024.
Proof.
  destruct (div_exact 1 1 1000000 100000) as (_ & H1 & _ & H2); [unfold in_u; lia..|].
  split; [exact H1|exact H2].
Defined.

Lemma div_by_15625_witness : div_u64_by_1000000 5000000 = 5.
Proof.
  destruct (div_by_15625 5000000 ltac:(unfold in_u; lia)) as [H _].
  destruct (H ltac:(left; lia)) as [_ E]. exact E.
Defined.

Lemma div_by_15625div512_witness : div_u32_by_15625div512 1000000 = 32768.
Proof.
  destruct (div_by_15625div512 1000000 ltac:(unfold in_u; lia)) as [H _].
  destruct (H ltac:(lia)) as [E _]. exact E.
Defined.

Lemma tick_conversion_roundtrip_witness :
  usec_from_ticks (HZ_down 2) (ticks_from_usec (HZ_down 2) 1003) = 1000.
Proof.
  destruct (tick_conversion_roundtrip 1003 2 ltac:(lia) ltac:(unfold in_u; lia)) as (_ & _ & H & _).
  exact H.
Defined.
