(* ===== verification/Rtc.v ===== *)
(** * Calendar arithmetic of the real-time clock (drivers/periph_common/rtc.c)

    [struct tm] fields are 16-bit [int]s.  The reference is a running count
    of days: [month_start n] is the day on which month [n] begins, counted
    from January 1900 and written with the calendar's own rules. *)

From S2P Require Import Prelude.

(** ** The program *)

Record tm := Tm {
  tm_sec : Z; tm_min : Z; tm_hour : Z; tm_mday : Z; tm_mon : Z; tm_year : Z
}.

Definition _is_leap_year (year : Z) : Z :=
  if c_true (Z.land year 0x3) then 0
  else c_bool (c_true (Z.rem year 25) || negb (c_true (Z.land year 15))).

Definition _month_length (month year : Z) : Z :=
  if month =? 1 then 28 + _is_leap_year year
  else 31 - Z.land (Z.rem month 7) 1.

Definition wday_t : list Z := [0; 3; 2; 5; 0; 3; 5; 1; 4; 6; 2; 4].

Definition _wday (day month year : Z) : Z :=
  let year := s16 (year - c_bool (month <? 2)) in
  Z.rem (s16 (year + Z.quot year 4 - Z.quot year 100 + Z.quot year 400
              + nth (Z.to_nat month) wday_t 0 + day)) 7.

Definition yday_d : list Z := [0; 31; 59; 90; 120; 151; 181; 212; 243; 17; 48; 78].

Definition _yday (day month year : Z) : Z :=
  let day := if 1 <? month then day + _is_leap_year year else day in
  let day := if 8 <? month then Z.lor day 0x100 else day in
  nth (Z.to_nat month) yday_d 0 + day - 1.

(** The loop that carries surplus days into the following months. *)
Definition normalize_days (fuel : nat) (t : tm) : option tm :=
  iter fuel (fun t =>
    let days := _month_length (tm_mon t) (s16 (tm_year t + 1900)) in
    if tm_mday t <=? days then inr t
    else
      let mon := s16 (tm_mon t + 1) in
      let '(mon, year) := if 11 <? mon then (0, s16 (tm_year t + 1)) else (mon, tm_year t) in
      inl (Tm (tm_sec t) (tm_min t) (tm_hour t) (s16 (tm_mday t - days)) mon year)) t.

Definition rtc_tm_normalize (fuel : nat) (t : tm) : option tm :=
  let min := s16 (tm_min t + Z.quot (tm_sec t) 60) in
  let sec := Z.rem (tm_sec t) 60 in
  let hour := s16 (tm_hour t + Z.quot min 60) in
  let min := Z.rem min 60 in
  let mday := s16 (tm_mday t + Z.quot hour 24) in
  let hour := Z.rem hour 24 in
  let year := s16 (tm_year t + Z.quot (tm_mon t) 12) in
  let mon := Z.rem (tm_mon t) 12 in
  normalize_days fuel (Tm sec min hour mday mon year).

Definition rtc_tm_compare (a b : tm) : Z :=
  if negb (tm_year a =? tm_year b) then s16 (tm_year a - tm_year b)
  else if negb (tm_mon a =? tm_mon b) then s16 (tm_mon a - tm_mon b)
  else if negb (tm_mday a =? tm_mday b) then s16 (tm_mday a - tm_mday b)
  else if negb (tm_hour a =? tm_hour b) then s16 (tm_hour a - tm_hour b)
  else if negb (tm_min a =? tm_min b) then s16 (tm_min a - tm_min b)
  else if negb (tm_sec a =? tm_sec b) then s16 (tm_sec a - tm_sec b)
  else 0.

(** ** The calendar *)

Definition leap (y : Z) : bool :=
  (y mod 4 =? 0) && (negb (y mod 100 =? 0) || (y mod 400 =? 0)).

(** The length of month [m] (0 to 11) of year [y]. *)
Definition month_days (m y : Z) : Z :=
  nth (Z.to_nat m) [31; 28 + c_bool (leap y); 31; 30; 31; 30; 31; 31; 30; 31; 30; 31] 0.

(** Month [n] counted from January 1900. *)
Definition month_len (n : nat) : Z :=
  month_days (Z.of_nat n mod 12) (1900 + Z.of_nat n / 12).

Fixpoint month_start (n : nat) : Z :=
  match n with O => 0 | Datatypes.S n' => month_start n' + month_len n' end.

Definition month_no (t : tm) : nat := Z.to_nat (tm_year t * 12 + tm_mon t).
Definition day_no (t : tm) : Z := month_start (month_no t) + tm_mday t.
Definition seconds (t : tm) : Z :=
  ((day_no t * 24 + tm_hour t) * 60 + tm_min t) * 60 + tm_sec t.

(** A date and time as a clock shows it. *)
Definition normal (t : tm) : Prop :=
  0 <= tm_sec t < 60 /\ 0 <= tm_min t < 60 /\ 0 <= tm_hour t < 24 /\
  0 <= tm_mon t < 12 /\ 0 <= tm_year t /\ 1 <= tm_mday t <= month_len (month_no t).

Lemma land_pow2_zero y k : 0 <= k -> c_true (Z.land y (2 ^ k - 1)) = negb (y mod 2 ^ k =? 0).
Proof.
  intros Hk. unfold c_true. replace (2 ^ k - 1) with (Z.ones k) by (rewrite Z.ones_equiv; lia).
  by rewrite Z.land_ones.
Qed.

Lemma leap_ok y : 0 <= y -> _is_leap_year y = c_bool (leap y).
Proof.
  intros Hy. unfold _is_leap_year, leap.
  pose proof (land_pow2_zero y 2 ltac:(lia)) as E2. change (2 ^ 2 - 1) with 3 in E2.
  pose proof (land_pow2_zero y 4 ltac:(lia)) as E16. change (2 ^ 4 - 1) with 15 in E16.
  rewrite E2, E16. change (2 ^ 2) with 4. change (2 ^ 4) with 16. unfold c_true. rewrite Z.rem_mod_nonneg by lia.
  destruct (Z.eqb_spec (y mod 4) 0) as [E4|]; [|done]. cbn [negb andb]. f_equal.
  assert ((y mod 25 =? 0) = (y mod 100 =? 0)) as ->.
  { destruct (Z.eqb_spec (y mod 25) 0), (Z.eqb_spec (y mod 100) 0); try done; exfalso;
      Z.div_mod_to_equations; lia. }
  destruct (Z.eqb_spec (y mod 100) 0) as [E100|]; [|done]. cbn [negb orb].
  destruct (Z.eqb_spec (y mod 16) 0), (Z.eqb_spec (y mod 400) 0); try done; exfalso;
    Z.div_mod_to_equations; lia.
Qed.

Lemma month_length_ok m y : 0 <= m < 12 -> 0 <= y -> _month_length m y = month_days m y.
Proof.
  intros Hm Hy. unfold _month_length. rewrite leap_ok by done.
  assert (m = 0 \/ m = 1 \/ m = 2 \/ m = 3 \/ m = 4 \/ m = 5 \/ m = 6 \/ m = 7 \/ m = 8 \/ m = 9
          \/ m = 10 \/ m = 11) as Hc by lia.
  repeat (destruct Hc as [-> | Hc]; [reflexivity|]). subst m. reflexivity.
Qed.

Lemma month_len_range n : 28 <= month_len n <= 31.
Proof.
  unfold month_len, month_days. pose proof (Z.mod_pos_bound (Z.of_nat n) 12 ltac:(lia)).
  set (m := Z.of_nat n mod 12) in *.
  assert (0 <= c_bool (leap (1900 + Z.of_nat n / 12)) <= 1) as Hb by (destruct (leap _); cbn; lia).
  generalize dependent (c_bool (leap (1900 + Z.of_nat n / 12))). intros c Hb. clearbody m.
  assert (m = 0 \/ m = 1 \/ m = 2 \/ m = 3 \/ m = 4 \/ m = 5 \/ m = 6 \/ m = 7 \/ m = 8 \/ m = 9
          \/ m = 10 \/ m = 11) as Hc by lia.
  repeat (destruct Hc as [-> | Hc]; [cbv [nth Z.to_nat Pos.to_nat Pos.iter_op Nat.add]; lia|]).
  subst m. cbv [nth Z.to_nat Pos.to_nat Pos.iter_op Nat.add]. lia.
Qed.

Lemma month_start_mono n k : month_start n + 28 * Z.of_nat k <= month_start (n + k).
Proof.
  induction k as [|k IH]; [rewrite Nat.add_0_r; lia|].
  rewrite Nat.add_succ_r. cbn [month_start]. pose proof (month_len_range (n + k)). lia.
Qed.

(** The month the code looks at is month [month_no t] of the count. *)
Lemma month_len_tm t :
  0 <= tm_mon t < 12 -> 0 <= tm_year t ->
  month_len (month_no t) = month_days (tm_mon t) (tm_year t + 1900).
Proof.
  intros Hm Hy. unfold month_len, month_no. rewrite Z2Nat.id by lia.
  rewrite (Z.add_comm (_ * 12)), Z.mod_add, Z.mod_small, Z.div_add, Z.div_small by lia.
  f_equal. lia.
Qed.

(** ** The day loop *)

Definition carry_ok (t : tm) : Prop :=
  0 <= tm_mon t < 12 /\ 0 <= tm_year t /\ 1 <= tm_mday t < 2 ^ 15 /\
  tm_year t * 12 + tm_mon t + tm_mday t < 340000.

Lemma normalize_days_ok t fuel :
  carry_ok t -> (Z.to_nat (tm_mday t) < fuel)%nat ->
  exists t', normalize_days fuel t = Some t' /\ day_no t' = day_no t /\
    0 <= tm_mon t' < 12 /\ 0 <= tm_year t' /\ 1 <= tm_mday t' <= month_len (month_no t') /\
    tm_sec t' = tm_sec t /\ tm_min t' = tm_min t /\ tm_hour t' = tm_hour t.
Proof.
  intros Hok Hf. unfold normalize_days.
  apply (iter_rule (fun u => carry_ok u /\ day_no u = day_no t /\
           tm_sec u = tm_sec t /\ tm_min u = tm_min t /\ tm_hour u = tm_hour t)
         (fun t' => day_no t' = day_no t /\
    0 <= tm_mon t' < 12 /\ 0 <= tm_year t' /\ 1 <= tm_mday t' <= month_len (month_no t') /\
    tm_sec t' = tm_sec t /\ tm_min t' = tm_min t /\ tm_hour t' = tm_hour t)
         (fun u => Z.to_nat (tm_mday u))); [|done|done].
  clear Hok Hf. intros u ((Hm & Hy & Hd & Hb) & Hday & Hs & Hmi & Hh). cbn zeta.
  rewrite (wraps_id 16 (tm_year u + 1900)) by (unfold in_s; lia).
  rewrite month_length_ok by lia. rewrite <- month_len_tm by done.
  pose proof (month_len_range (month_no u)) as Hlen.
  destruct (Z.leb_spec (tm_mday u) (month_len (month_no u))) as [Hle|Hgt]; [split_and!; done || lia|].
  rewrite (wraps_id 16 (tm_mon u + 1)) by (unfold in_s; lia).
  rewrite (wraps_id 16 (tm_mday u - _)) by (unfold in_s; lia).
  rewrite (wraps_id 16 (tm_year u + 1)) by (unfold in_s; lia).
  assert (forall mon year, year * 12 + mon = tm_year u * 12 + tm_mon u + 1 ->
    day_no (Tm (tm_sec u) (tm_min u) (tm_hour u) (tm_mday u - month_len (month_no u)) mon year)
    = day_no u) as Hkeep.
  { intros mon year E. unfold day_no. cbn [tm_mday].
    assert (month_no (Tm (tm_sec u) (tm_min u) (tm_hour u) (tm_mday u - month_len (month_no u)) mon year)
            = Datatypes.S (month_no u)) as -> by (unfold month_no; cbn; lia).
    cbn [month_start]. lia. }
  destruct (Z.ltb_spec 11 (tm_mon u + 1)).
  - split; [|cbn [tm_mday]; lia]. split; [|rewrite Hkeep by lia; done].
    unfold carry_ok. cbn [tm_mday tm_mon tm_year]. split_and!; lia.
  - split; [|cbn [tm_mday]; lia]. split; [|rewrite Hkeep by lia; done].
    unfold carry_ok. cbn [tm_mday tm_mon tm_year]. split_and!; lia.
Qed.

(** ** Order *)

Lemma seconds_lt a b :
  normal a -> normal b ->
  (month_no a < month_no b)%nat \/
  (month_no a = month_no b /\ tm_mday a < tm_mday b) ->
  seconds a < seconds b.
Proof.
  intros (Hs & Hm & Hh & _ & _ & Hd) (Hs' & Hm' & Hh' & _ & _ & Hd') Hlt.
  assert (day_no a < day_no b); [|unfold seconds; lia]. unfold day_no.
  destruct Hlt as [Hlt|[-> Hlt]]; [|lia].
  pose proof (month_start_mono (Datatypes.S (month_no a)) (month_no b - Datatypes.S (month_no a))) as Hmono.
  replace (Datatypes.S (month_no a) + (month_no b - Datatypes.S (month_no a)))%nat
    with (month_no b) in Hmono by lia.
  cbn [month_start] in Hmono. lia.
Qed.

(** ** Day of the year and of the week *)

(** Days of year [y] before month [m]. *)
Fixpoint days_before (m : nat) (y : Z) : Z :=
  match m with O => 0 | Datatypes.S m' => days_before m' y + month_days (Z.of_nat m') y end.

Definition wday_base (n : nat) : Z :=
  let m := Z.of_nat n mod 12 in
  let y := 1900 + Z.of_nat n / 12 - c_bool (m <? 2) in
  y + Z.quot y 4 - Z.quot y 100 + Z.quot y 400 + nth (Z.to_nat m) wday_t 0.

(** Month by month, Sakamoto's formula and the running count agree. *)
Fixpoint wday_check (k n : nat) (acc : Z) : bool :=
  match k with
  | O => true
  | Datatypes.S k' =>
      (wday_base n mod 7 =? acc mod 7) && (0 <=? wday_base n) && (wday_base n <? 32000)
      && wday_check k' (Datatypes.S n) (acc + month_len n)
  end.

Lemma wday_check_ok k n i :
  wday_check k n (month_start n) = true -> (i < k)%nat ->
  wday_base (n + i) mod 7 = month_start (n + i) mod 7 /\ 0 <= wday_base (n + i) < 32000.
Proof.
  revert n i. induction k as [|k IH]; intros n i Hc Hi; [lia|]. cbn [wday_check] in Hc.
  rewrite !andb_true_iff, Z.eqb_eq, Z.leb_le, Z.ltb_lt in Hc. destruct Hc as [[[H1 H2] H3] Hc].
  destruct i as [|i]; [rewrite Nat.add_0_r; lia|].
  rewrite Nat.add_succ_r, <- Nat.add_succ_l. apply IH; [done|lia].
Qed.

Lemma wday_table : wday_check 4800 0 (month_start 0) = true.
Proof. vm_compute. reflexivity. Qed.

(** Evaluate both sides for one month number. *)
Ltac yday_case :=
  cbv [Z.to_nat Pos.to_nat Pos.iter_op Nat.add nth yday_d Z.ltb Z.compare Pos.compare
       Pos.compare_cont Z.of_nat Pos.of_succ_nat Pos.succ days_before month_days]; lia.

(** One field of the comparison: when it differs it decides, by [tac]. *)
Ltac field_case field Hw tac :=
  match goal with a : tm, b : tm |- _ =>
    destruct (Z.eqb_spec (field a) (field b)) as [?|?]; cbn [negb];
    [|rewrite Hw by lia; destruct (Z.lt_ge_cases (field a) (field b));
      [left; split; [tac|split; [lia|congruence]]
      |right; left; split; [tac|split; [lia|congruence]]]]
  end.

(** ** Properties *)

(** C30 [rtc_tm_normalize] terminates on every date whose fields are in
    range of a day's or year's worth of surplus, keeps the instant (the same
    number of seconds since 1900) and leaves a date and time as a clock
    shows it, with the lengths of the Gregorian months, leap years included. *)
Theorem rtc_tm_normalize_ok t fuel :
  0 <= tm_sec t < 2 ^ 14 -> 0 <= tm_min t < 2 ^ 14 -> 0 <= tm_hour t < 2 ^ 14 ->
  1 <= tm_mday t < 2 ^ 14 -> 0 <= tm_mon t < 2 ^ 14 -> 0 <= tm_year t < 2 ^ 14 ->
  (Z.to_nat (2 ^ 15) <= fuel)%nat ->
  exists t', rtc_tm_normalize fuel t = Some t' /\ normal t' /\
    seconds t' = ((month_start (Z.to_nat (tm_year t * 12 + tm_mon t)) + tm_mday t) * 24 + tm_hour t)
                   * 3600 + tm_min t * 60 + tm_sec t.
Proof.
  intros Hs Hm Hh Hd Hmo Hy Hf. unfold rtc_tm_normalize.
  rewrite (Z.quot_div_nonneg (tm_sec t)), (Z.rem_mod_nonneg (tm_sec t)) by lia.
  rewrite (Z.quot_div_nonneg (tm_mon t)), (Z.rem_mod_nonneg (tm_mon t)) by lia.
  set (qs := tm_sec t / 60). set (rs := tm_sec t mod 60).
  assert (tm_sec t = 60 * qs + rs /\ 0 <= rs < 60) as [Es Hrs] by
    (unfold qs, rs; split; [apply Z.div_mod|apply Z.mod_pos_bound]; lia).
  rewrite (wraps_id 16 (tm_min t + qs)) by (unfold in_s; lia).
  set (m1 := tm_min t + qs). assert (0 <= m1 < 2 ^ 15) as Hm1 by lia.
  rewrite !(Z.quot_div_nonneg m1), (Z.rem_mod_nonneg m1) by lia.
  set (qm := m1 / 60). set (rm := m1 mod 60).
  assert (m1 = 60 * qm + rm /\ 0 <= rm < 60) as [Em Hrm] by
    (unfold qm, rm; split; [apply Z.div_mod|apply Z.mod_pos_bound]; lia).
  rewrite (wraps_id 16 (tm_hour t + qm)) by (unfold in_s; lia).
  set (h1 := tm_hour t + qm). assert (0 <= h1 < 2 ^ 15) as Hh1 by lia.
  rewrite (Z.quot_div_nonneg h1), (Z.rem_mod_nonneg h1) by lia.
  set (qh := h1 / 24). set (rh := h1 mod 24).
  assert (h1 = 24 * qh + rh /\ 0 <= rh < 24) as [Eh Hrh] by
    (unfold qh, rh; split; [apply Z.div_mod|apply Z.mod_pos_bound]; lia).
  rewrite (wraps_id 16 (tm_mday t + qh)) by (unfold in_s; lia).
  set (qy := tm_mon t / 12). set (ry := tm_mon t mod 12).
  assert (tm_mon t = 12 * qy + ry /\ 0 <= ry < 12) as [Ey Hry] by
    (unfold qy, ry; split; [apply Z.div_mod|apply Z.mod_pos_bound]; lia).
  rewrite (wraps_id 16 (tm_year t + qy)) by (unfold in_s; lia).
  destruct (normalize_days_ok (Tm rs rm rh (tm_mday t + qh) ry (tm_year t + qy)) fuel)
    as (t' & Hn & Hday & Hmon & Hyr & Hmd & E1 & E2 & E3).
  - unfold carry_ok. cbn [tm_mon tm_year tm_mday]. split_and!; lia.
  - cbn [tm_mday]. lia.
  - exists t'. cbn [tm_sec tm_min tm_hour] in *. split; [done|]. split; [unfold normal; split_and!; lia|].
    unfold seconds. rewrite Hday, E1, E2, E3. unfold day_no, month_no. cbn [tm_year tm_mon tm_mday].
    replace ((tm_year t + qy) * 12 + ry) with (tm_year t * 12 + tm_mon t) by lia. lia.
Qed.

(** [rtc_tm_compare] orders dates as time does: on dates a clock can show
    it is negative, zero or positive exactly when the first instant is
    before, equal to or after the second. *)
Theorem rtc_tm_compare_ok a b :
  normal a -> normal b -> tm_year a < 2 ^ 15 -> tm_year b < 2 ^ 15 ->
  (rtc_tm_compare a b < 0 <-> seconds a < seconds b) /\
  (rtc_tm_compare a b = 0 <-> seconds a = seconds b) /\
  (rtc_tm_compare a b = 0 <-> a = b).
Proof.
  intros Ha Hb Hya Hyb. pose proof Ha as (Hs & Hm & Hh & Hmo & Hy & Hd).
  pose proof Hb as (Hs' & Hm' & Hh' & Hmo' & Hy' & Hd').
  pose proof (month_len_range (month_no a)). pose proof (month_len_range (month_no b)).
  assert (seconds a < seconds b /\ rtc_tm_compare a b < 0 /\ a <> b \/
          seconds b < seconds a /\ 0 < rtc_tm_compare a b /\ a <> b \/
          a = b /\ rtc_tm_compare a b = 0) as Hcase.
  2: { destruct Hcase as [(? & ? & ?)|[(? & ? & ?)|[-> ?]]]; split_and!; split; intros;
         first [lia|congruence|exfalso; lia]. }
  assert (forall x y, 0 <= x < 2 ^ 15 -> 0 <= y < 2 ^ 15 -> s16 (x - y) = x - y) as Hw.
  { intros x y Hx Hy0. apply wraps_id; [lia|]. unfold in_s. lia. }
  unfold rtc_tm_compare.
  assert (month_no a = Z.to_nat (tm_year a * 12 + tm_mon a)) as Ea by done.
  assert (month_no b = Z.to_nat (tm_year b * 12 + tm_mon b)) as Eb by done.
  field_case tm_year Hw ltac:(apply seconds_lt; [done..|left; lia]).
  field_case tm_mon Hw ltac:(apply seconds_lt; [done..|left; lia]).
  assert (month_no a = month_no b) as E by (rewrite Ea, Eb; f_equal; lia).
  field_case tm_mday Hw ltac:(apply seconds_lt; [done..|right; split; lia]).
  assert (day_no a = day_no b) as Eday by (unfold day_no; rewrite E; lia).
  unfold seconds. rewrite Eday.
  field_case tm_hour Hw ltac:(lia). field_case tm_min Hw ltac:(lia). field_case tm_sec Hw ltac:(lia).
  right; right. split; [|done]. destruct a, b. cbn in *. congruence.
Qed.

(** [_yday] is the number of days since the first of January for every
    date of every year, and [_wday] the day of the week (0 for Sunday) for
    every date from 1900 to 2299: it advances by one with each day, from the
    Monday the year 1900 began with. *)
Theorem rtc_yday_wday t :
  0 <= tm_mon t < 12 -> 0 <= tm_year t -> 1 <= tm_mday t <= 31 ->
  _yday (tm_mday t) (tm_mon t) (tm_year t + 1900) =
    days_before (Z.to_nat (tm_mon t)) (tm_year t + 1900) + tm_mday t - 1 /\
  (tm_year t < 400 ->
     _wday (tm_mday t) (tm_mon t) (tm_year t + 1900) = day_no t mod 7).
Proof.
  intros Hm Hy Hd. split.
  - unfold _yday. rewrite leap_ok by lia. set (y := tm_year t + 1900). set (m := tm_mon t) in *.
    set (d := tm_mday t) in *. clearbody m d y.
    assert (forall d, 1 <= d <= 32 -> Z.lor d 0x100 = d + 256) as Hlor.
    { intros d' Hd'. assert (Forall (fun d => Z.lor d 0x100 = d + 256) (seqZ 1 32)) as Hall
        by (apply (bool_decide_unpack _); vm_compute; exact I).
      rewrite Forall_forall in Hall. apply Hall, elem_of_seqZ. lia. }
    assert (0 <= c_bool (leap y) <= 1) as Hl by (destruct (leap y); cbn; lia).
    rewrite Hlor by (destruct (1 <? m); lia).
    assert (m = 0 \/ m = 1 \/ m = 2 \/ m = 3 \/ m = 4 \/ m = 5 \/ m = 6 \/ m = 7 \/ m = 8 \/ m = 9
            \/ m = 10 \/ m = 11) as Hc by lia.
    repeat (destruct Hc as [-> | Hc]; [yday_case|]). subst m. yday_case.
  - intros Hlt.
    destruct (wday_check_ok 4800 0 (month_no t) wday_table) as [He Hb]; [unfold month_no; lia|].
    cbn [Nat.add] in *. unfold _wday.
    assert (Z.of_nat (month_no t) mod 12 = tm_mon t) as Em.
    { unfold month_no. rewrite Z2Nat.id by lia. rewrite (Z.add_comm (_ * 12)), Z.mod_add by lia.
      by apply Z.mod_small. }
    assert (Z.of_nat (month_no t) / 12 = tm_year t) as Ey.
    { unfold month_no. rewrite Z2Nat.id by lia. rewrite (Z.add_comm (_ * 12)), Z.div_add by lia.
      rewrite Z.div_small by lia. lia. }
    unfold wday_base in He, Hb. rewrite Em, Ey in He, Hb.
    rewrite (Z.add_comm (tm_year t)). set (b := c_bool (tm_mon t <? 2)) in *.
    assert (0 <= b <= 1) by (unfold b; destruct (tm_mon t <? 2); cbn; lia).
    rewrite (wraps_id 16 (1900 + tm_year t - b)) by (unfold in_s; lia).
    rewrite wraps_id by (unfold in_s; lia). rewrite Z.rem_mod_nonneg by lia.
    unfold day_no. rewrite Zplus_mod, He, <- Zplus_mod. done.
Qed.

Lemma rtc_tm_normalize_ok_witness :
  exists t', rtc_tm_normalize (Z.to_nat (2 ^ 15)) (Tm 59 1499 0 28 1 124) = Some t' /\ normal t' /\
             t' = Tm 59 59 0 29 1 124.
Proof.
  destruct (rtc_tm_normalize_ok (Tm 59 1499 0 28 1 124) (Z.to_nat (2 ^ 15))) as (t' & H1 & H2 & _);
    [cbn [tm_sec tm_min tm_hour tm_mday tm_mon tm_year]; lia..|lia|].
  exists t'. split; [exact H1|]. split; [exact H2|].
  vm_compute in H1. by injection H1 as <-.
Defined.

Lemma rtc_tm_compare_ok_witness :
  seconds (Tm 0 0 0 29 1 124) < seconds (Tm 0 0 0 1 2 124).
Proof.
  apply (rtc_tm_compare_ok (Tm 0 0 0 29 1 124) (Tm 0 0 0 1 2 124)).
  - unfold normal. vm_compute. intuition discriminate.
  - unfold normal. vm_compute. intuition discriminate.
  - reflexivity.
  - reflexivity.
  - reflexivity.
Defined.

Lemma rtc_yday_wday_witness : _wday 29 1 2024 = day_no (Tm 0 0 0 29 1 124) mod 7.
Proof.
  apply (rtc_yday_wday (Tm 0 0 0 29 1 124)); cbn [tm_mon tm_year tm_mday]; lia.
Defined.
