(* ===== verification/Framing.v ===== *)
(** * Byte stuffing and the host side of a serial line

    What the serial tools of dist/tools have in common: a frame ends at a
    delimiter, and the delimiter and the escape character inside a frame are
    sent as an escape sequence.  [Stuffing] is what the receivers promise and
    the senders rely on; [host] is the operating system the tools write to. *)

From S2P Require Import Prelude.

(** ** Stuffing *)

Class Stuffing : Type := { delim : Z; esc : Z; code : Z -> Z }.

Definition special `{Stuffing} (c : Z) : bool := (c =? delim) || (c =? esc).

(** [code] is injective on the special characters and avoids the delimiter. *)
Class StuffingLaws `{Stuffing} : Prop := {
  delim_esc : delim <> esc;
  code_delim c : special c = true -> code c <> delim;
  code_inj c d : special c = true -> special d = true -> code c = code d -> c = d
}.

Definition stuff1 `{Stuffing} (c : Z) : list Z := if special c then [esc; code c] else [c].
Definition stuff `{Stuffing} (bs : list Z) : list Z := bs ≫= stuff1.

(** A frame on the line. *)
Definition framed `{Stuffing} (bs : list Z) : list Z := delim :: stuff bs ++ [delim].

Section stuffing.
Context `{StuffingLaws}.

Lemma stuff_cons c bs : stuff (c :: bs) = stuff1 c ++ stuff bs.
Proof. done. Qed.

Lemma stuff_app bs cs : stuff (bs ++ cs) = stuff bs ++ stuff cs.
Proof. apply bind_app. Qed.

Lemma special_delim : special delim = true.
Proof. unfold special. by rewrite Z.eqb_refl. Qed.

Lemma special_esc : special esc = true.
Proof. unfold special. by rewrite Z.eqb_refl, orb_true_r. Qed.

Lemma special_false c : special c = false -> c <> delim /\ c <> esc.
Proof. unfold special. intros [H1%Z.eqb_neq H2%Z.eqb_neq]%orb_false_elim. done. Qed.

(** The delimiter occurs in no stuffed text. *)
Lemma stuff_no_delim bs : delim ∉ stuff bs.
Proof.
  induction bs as [|c bs IH]; [apply not_elem_of_nil|].
  rewrite stuff_cons, elem_of_app. intros [Hin|]; [|done]. unfold stuff1 in Hin.
  destruct (special c) eqn:E.
  - rewrite !elem_of_cons, elem_of_nil in Hin. pose proof delim_esc. pose proof (code_delim c E). naive_solver.
  - apply list_elem_of_singleton in Hin as <-. by rewrite special_delim in E.
Qed.

Lemma stuff_length bs : (length bs <= length (stuff bs) <= 2 * length bs)%nat.
Proof.
  induction bs as [|c bs IH]; [done|]. rewrite stuff_cons, length_app. unfold stuff1. cbn [length].
  destruct (special c); cbn [length]; lia.
Qed.

Lemma stuff_inj bs cs : stuff bs = stuff cs -> bs = cs.
Proof.
  revert cs. induction bs as [|b bs IH]; intros [|c cs]; [done| | |]; rewrite ?stuff_cons; unfold stuff1.
  - by destruct (special c).
  - by destruct (special b).
  - destruct (special b) eqn:Eb, (special c) eqn:Ec; cbn; intros E; simplify_eq.
    + f_equal; [by apply code_inj|by apply IH].
    + by rewrite special_esc in Ec.
    + by rewrite special_esc in Eb.
    + f_equal. by apply IH.
Qed.
End stuffing.

Lemma take_insert_snoc {A} (l : list A) i x : (i < length l)%nat -> take (S i) (<[i := x]> l) = take i l ++ [x].
Proof.
  intros Hi. rewrite (take_S_r _ i x) by (apply list_lookup_insert_eq; lia). by rewrite take_insert_ge by lia.
Qed.

(** ** The operating system *)

(** What a call of [write] answers: the number of bytes it took, or -1 with
    [errno] set to [EAGAIN] or to another error. *)
Inductive wres : Type := Took (n : nat) | Again | Failed.

(** What leaves a tool: bytes written to a descriptor, or a command. *)
Inductive event : Type := Wrote (fd : Z) (bs : list Z) | Ran (cmd : Z) (arg : list Z).

(** The answers of the next calls of [write] (when they are used up, calls
    take everything), and what has left, newest last. *)
Record host : Type := Host { answers : list wres; events : list event }.

Definition emit (e : event) : M host unit := modify (fun h => Host (answers h) (events h ++ [e])).

(** [write(fd, buf, n)] of the [n] bytes [bs]. *)
Definition write (fd : Z) (bs : list Z) : M host wres :=
  let! l := gets answers in
  match l with
  | [] => do! emit (Wrote fd bs); ret (Took (length bs))
  | r :: l =>
      do! modify (fun h => Host l (events h));
      match r with
      | Took n => let n := Nat.min n (length bs) in do! emit (Wrote fd (take n bs)); ret (Took n)
      | _ => ret r
      end
  end.

(** What was written to [fd]. *)
Definition written (fd : Z) (es : list event) : list Z :=
  es ≫= (fun e => match e with Wrote f bs => if f =? fd then bs else [] | Ran _ _ => [] end).

Lemma written_app fd es fs : written fd (es ++ fs) = written fd es ++ written fd fs.
Proof. apply bind_app. Qed.

Lemma written_one fd bs : written fd [Wrote fd bs] = bs.
Proof. cbn. by rewrite Z.eqb_refl, app_nil_r. Qed.

Lemma written_other fd fd' bs : fd' <> fd -> written fd [Wrote fd' bs] = [].
Proof. intros H. cbn. by rewrite (proj2 (Z.eqb_neq _ _) H). Qed.

(** The calls of [write] take all. *)
Lemma write_all fd bs es : write fd bs (Host [] es) = Ret (Took (length bs)) (Host [] (es ++ [Wrote fd bs])).
Proof. done. Qed.

(** ** Safety *)

(** A computation stays inside its buffers: it returns with [Q], or ends the
    program on purpose. *)
Definition safe {S A} (Q : A -> S -> Prop) (r : outcome S A) : Prop :=
  match r with Ret a s => Q a s | Err f => f = Exited end.

Lemma safe_bind {S A B} (m : M S A) (k : A -> M S B) s (P : A -> S -> Prop) (Q : B -> S -> Prop) :
  safe P (m s) -> (forall a s', P a s' -> safe Q (k a s')) -> safe Q (bind m k s).
Proof. intros Hm Hk. unfold bind. destruct (m s); cbn in *; [by apply Hk|done]. Qed.

Lemma safe_mono {S A} (P Q : A -> S -> Prop) r : safe P r -> (forall a s, P a s -> Q a s) -> safe Q r.
Proof. destruct r; cbn; eauto. Qed.

Lemma write_safe fd bs h : safe (fun r _ => forall n, r = Took n -> (n <= length bs)%nat) (write fd bs h).
Proof.
  destruct h as [[|[n| |] l] es]; cbn; [| |done|done]; intros m [= <-]; lia.
Qed.
