(* ===== verification/Ethos.v ===== *)
(** * Ethernet over serial (dist/tools/ethos/ethos.c)

    The host end of the serial line: frames from the line go to the tap
    device or the terminal, packets from the tap device and text from the
    terminal go out as frames.  A [char] is the byte it holds, 0 to 255; the
    code compares it with values below 128 only.  [select], opening the
    devices and setting up the line are the environment: an iteration of
    [main] gets what the descriptors that are ready deliver. *)

From S2P Require Import Prelude Framing.

Definition MTU : Z := 9000.
Definition SERIAL_BUFFER_SIZE : Z := 64.
Definition LINE_FRAME_DELIMITER : Z := 0x7E.
Definition LINE_ESC_CHAR : Z := 0x7D.
Definition LINE_FRAME_TYPE_DATA : Z := 0x00.
Definition LINE_FRAME_TYPE_TEXT : Z := 0x01.
Definition LINE_FRAME_TYPE_HELLO : Z := 0x02.
Definition LINE_FRAME_TYPE_HELLO_REPLY : Z := 0x03.

Inductive line_state_t : Type := WAIT_FRAMESTART | IN_FRAME | IN_ESCAPE.

Record serial_t : Type := Serial {
  state : line_state_t; frametype : Z; framebytes : Z; frame : list Z;
  local_l2_addr : list Z; remote_l2_addr : list Z
}.

Definition with_state (v : line_state_t) (s : serial_t) : serial_t :=
  Serial v (frametype s) (framebytes s) (frame s) (local_l2_addr s) (remote_l2_addr s).
Definition with_frametype (v : Z) (s : serial_t) : serial_t :=
  Serial (state s) v (framebytes s) (frame s) (local_l2_addr s) (remote_l2_addr s).
Definition with_framebytes (v : Z) (s : serial_t) : serial_t :=
  Serial (state s) (frametype s) v (frame s) (local_l2_addr s) (remote_l2_addr s).
Definition with_frame (v : list Z) (s : serial_t) : serial_t :=
  Serial (state s) (frametype s) (framebytes s) v (local_l2_addr s) (remote_l2_addr s).
Definition with_remote (v : list Z) (s : serial_t) : serial_t :=
  Serial (state s) (frametype s) (framebytes s) (frame s) (local_l2_addr s) v.

(** All bytes zero, as [main] and [memset] leave it. *)
Definition serial_zero : serial_t :=
  Serial WAIT_FRAMESTART 0 0 (replicate (Z.to_nat MTU) 0) (replicate 6 0) (replicate 6 0).

(** ** Receiving *)

Definition _handle_char (c : Z) : M serial_t unit :=
  let! s := gets id in
  let! f := unwrap OutOfBounds (aset (frame s) (framebytes s) c) in
  do! modify (with_frame f);
  modify (fun s => with_framebytes (u64 (framebytes s + 1)) s).

Definition _serial_handle_byte (c : Z) : M serial_t Z :=
  let! s := gets id in
  match state s with
  | WAIT_FRAMESTART =>
      do! when (c =? LINE_FRAME_DELIMITER)
        (do! modify (with_state IN_FRAME);
         do! modify (with_frametype 0);
         modify (with_framebytes 0));
      ret 0
  | IN_FRAME =>
      if c =? LINE_ESC_CHAR then
        do! modify (with_state IN_ESCAPE); ret 0
      else if c =? LINE_FRAME_DELIMITER then
        if framebytes s =? 0 then ret 0
        else do! modify (with_state WAIT_FRAMESTART); ret (s32 (framebytes s))
      else
        do! _handle_char c; ret 0
  | IN_ESCAPE =>
      do! (if c =? Z.lxor LINE_FRAME_DELIMITER 0x20 then _handle_char LINE_FRAME_DELIMITER
           else if c =? Z.lxor LINE_ESC_CHAR 0x20 then _handle_char LINE_ESC_CHAR
           else if c =? Z.lxor LINE_FRAME_TYPE_TEXT 0x20 then modify (with_frametype LINE_FRAME_TYPE_TEXT)
           else if c =? Z.lxor LINE_FRAME_TYPE_HELLO 0x20 then modify (with_frametype LINE_FRAME_TYPE_HELLO)
           else if c =? Z.lxor LINE_FRAME_TYPE_HELLO_REPLY 0x20 then
             modify (with_frametype LINE_FRAME_TYPE_HELLO_REPLY)
           else ret tt);
      do! modify (with_state IN_FRAME);
      ret 0
  end.

(** ** Sending *)

(** The pointer is the same in every round: [write] gets the start of the
    buffer again. *)
Definition checked_step (handle : Z) (buffer : list Z) (nbyte : Z) : M host (Z + unit) :=
  if 0 <? nbyte then
    let! res := write handle (take (Z.to_nat nbyte) buffer) in
    match res with
    | Took n => if Z.of_nat n <=? 0 then ret (inr tt) else ret (inl (nbyte - Z.of_nat n))
    | _ => ret (inr tt)
    end
  else ret (inr tt).
Definition checked_write (handle : Z) (buffer : list Z) (nbyte : Z) : M host unit :=
  loop (Datatypes.S (Z.to_nat nbyte)) (checked_step handle buffer) nbyte.

(** [out[buffered++] = c] and the flush of a full buffer; the locals are
    [out] and [buffered] ([escaped] is never read). *)
Definition put_char (fd : Z) (l : list Z * Z) (c : Z) : M host (list Z * Z) :=
  let! out := unwrap OutOfBounds (aset l.1 l.2 c) in
  let buffered := u64 (l.2 + 1) in
  if SERIAL_BUFFER_SIZE <=? buffered then
    do! checked_write fd out buffered; ret (out, 0)
  else ret (out, buffered).

Fixpoint write_escaped_loop (fd : Z) (buf : list Z) (l : list Z * Z) : M host (list Z * Z) :=
  match buf with
  | [] => ret l
  | c :: buf =>
      let! l :=
        (if (c =? LINE_FRAME_DELIMITER) || (c =? LINE_ESC_CHAR) then
           let! l := put_char fd l LINE_ESC_CHAR in put_char fd l (Z.lxor c 0x20)
         else put_char fd l c) in
      write_escaped_loop fd buf l
  end.

Definition _write_escaped (fd : Z) (buf : list Z) : M host unit :=
  let! l := write_escaped_loop fd buf (replicate (Z.to_nat SERIAL_BUFFER_SIZE) 0, 0) in
  if c_true l.2 then checked_write fd l.1 l.2 else ret tt.

Definition _send_hello (serial_fd : Z) (local : list Z) (type : Z) : M host unit :=
  do! checked_write serial_fd [LINE_FRAME_DELIMITER; LINE_ESC_CHAR; u8 (Z.lxor type 0x20)] 3;
  do! checked_write serial_fd local 6;
  checked_write serial_fd [LINE_FRAME_DELIMITER] 1.

(** ** The tool *)

(** The locals of [main] and the operating system. *)
Record tool : Type := Tool { serial : serial_t; os : host; stdin_open : bool }.

Definition on_line {A} : M serial_t A -> M tool A := zoom serial (fun s t => Tool s (os t) (stdin_open t)).
Definition on_os {A} : M host A -> M tool A := zoom os (fun h t => Tool (serial t) h (stdin_open t)).

(** The result of [read], of at least one byte if it is [Got]. *)
Inductive rd : Type := Got (bs : list Z) | Eof | Bad.

Definition STDIN_FILENO : Z := 0.
Definition STDOUT_FILENO : Z := 1.

Section main.
(** The descriptors, and whether [isatty(STDIN_FILENO)]. *)
Context (tap_fd serial_fd : Z) (tty : bool).

(** [_clear_neighbor_cache] runs a command. *)
Definition NEIGH_FLUSH : Z := 1.
Definition _clear_neighbor_cache : M host unit := emit (Ran NEIGH_FLUSH []).

Definition handle_frame : M tool unit :=
  let! t := gets id in
  let s := serial t in
  let ft := frametype s in
  if ft =? LINE_FRAME_TYPE_DATA then on_os (checked_write tap_fd (frame s) (framebytes s))
  else if ft =? LINE_FRAME_TYPE_TEXT then on_os (checked_write STDOUT_FILENO (frame s) (framebytes s))
  else if (ft =? LINE_FRAME_TYPE_HELLO) || (ft =? LINE_FRAME_TYPE_HELLO_REPLY) then
    when (framebytes s =? 6)
      (do! on_line (modify (with_remote (take 6 (frame s))));
       do! when (ft =? LINE_FRAME_TYPE_HELLO)
         (on_os (_send_hello serial_fd (local_l2_addr s) LINE_FRAME_TYPE_HELLO_REPLY));
       on_os _clear_neighbor_cache)
  else ret tt.

Fixpoint serial_bytes (bs : list Z) : M tool unit :=
  match bs with
  | [] => ret tt
  | c :: bs =>
      let! res := on_line (_serial_handle_byte c) in
      do! when (c_true res) (do! handle_frame; on_line (modify (fun _ => serial_zero)));
      serial_bytes bs
  end.

(** The three branches of an iteration of [main]; [Some n] when the tool
    exits with code [n], [inl] when the iteration is cut short. *)
Definition serial_readable (r : rd) : M tool (option Z) :=
  match r with
  | Got bs => do! serial_bytes bs; ret None
  | _ => ret (Some 1)
  end.

Definition tap_readable (r : rd) : M tool bool :=
  match r with
  | Got bs =>
      do! on_os (checked_write serial_fd [LINE_FRAME_DELIMITER] 1);
      do! on_os (_write_escaped serial_fd bs);
      do! on_os (checked_write serial_fd [LINE_FRAME_DELIMITER] 1);
      ret true
  | _ => ret false
  end.

Definition stdin_readable (r : rd) : M tool (option Z) :=
  match r with
  | Eof =>
      if tty then ret (Some 0)
      else do! modify (fun t => Tool (serial t) (os t) false); ret None
  | Bad => ret None
  | Got bs =>
      do! on_os (checked_write serial_fd
        [LINE_FRAME_DELIMITER; LINE_ESC_CHAR; Z.lxor LINE_FRAME_TYPE_TEXT 0x20] 3);
      do! on_os (_write_escaped serial_fd bs);
      do! on_os (checked_write serial_fd [LINE_FRAME_DELIMITER] 1);
      ret None
  end.

(** One iteration, with the reads of the descriptors that are ready. *)
Definition main_iter (ser tap inp : option rd) : M tool (option Z) :=
  let! e := match ser with Some r => serial_readable r | None => ret None end in
  match e with
  | Some n => ret (Some n)
  | None =>
      let! go := match tap with Some r => tap_readable r | None => ret true end in
      if go then match inp with Some r => stdin_readable r | None => ret None end
      else ret None
  end.

(** What [main] does before its loop. *)
Definition main_start : M tool unit :=
  do! on_os (_send_hello serial_fd (local_l2_addr serial_zero) LINE_FRAME_TYPE_HELLO);
  on_os (_send_hello serial_fd (local_l2_addr serial_zero) LINE_FRAME_TYPE_HELLO).
End main.
