(* ===== verification/EthosProps.v ===== *)
(** * Properties of ethos: framing, round trips, memory safety *)

From S2P Require Import Prelude Framing Ethos.

#[export] Instance ethos_stuffing : Stuffing := {
  delim := LINE_FRAME_DELIMITER; esc := LINE_ESC_CHAR; code c := Z.lxor c 0x20
}.

Lemma ethos_special c : special c = (c =? LINE_FRAME_DELIMITER) || (c =? LINE_ESC_CHAR).
Proof. done. Qed.

Lemma special_cases c : special c = true -> c = LINE_FRAME_DELIMITER \/ c = LINE_ESC_CHAR.
Proof. rewrite ethos_special, orb_true_iff, !Z.eqb_eq. done. Qed.

#[export] Instance ethos_laws : StuffingLaws.
Proof.
  split; [done| |].
  - intros c [-> | ->]%special_cases; done.
  - intros c d [-> | ->]%special_cases [-> | ->]%special_cases; done.
Qed.

(** ** Sending *)

Lemma checked_loop_all fuel fd buf n es :
  (2 <= fuel)%nat -> 0 < n <= Z.of_nat (length buf) ->
  loop fuel (checked_step fd buf) n (Host [] es) = Ret tt (Host [] (es ++ [Wrote fd (take (Z.to_nat n) buf)])).
Proof.
  intros Hf Hn. destruct fuel as [|[|k]]; [lia..|].
  erewrite loop_next.
  2: { unfold checked_step. rewrite (proj2 (Z.ltb_lt 0 n)), (bind_ret _ _ _ _ _ (write_all _ _ _)) by lia.
       rewrite length_take_le, (proj2 (Z.leb_gt _ _)) by lia. done. }
  apply loop_exit. unfold checked_step. rewrite (proj2 (Z.ltb_ge _ _)) by lia. done.
Qed.

Lemma checked_write_all fd buf n es :
  0 < n <= Z.of_nat (length buf) ->
  checked_write fd buf n (Host [] es) = Ret tt (Host [] (es ++ [Wrote fd (take (Z.to_nat n) buf)])).
Proof. intros Hn. apply checked_loop_all; lia. Qed.

(** Sent so far: what was written and what waits in the buffer. *)
Definition out_ok (fd : Z) (es : list event) (l : list Z * Z) (bs : list Z) : Prop :=
  length l.1 = 64%nat /\ 0 <= l.2 < 64 /\
  exists ps, es = Wrote fd <$> ps /\ Forall (fun p => (length p <= 64)%nat) ps /\
    concat ps ++ take (Z.to_nat l.2) l.1 = bs.

Lemma put_char_ok fd es0 es l bs c :
  out_ok fd es l bs -> exists es' l', put_char fd l c (Host [] (es0 ++ es)) = Ret l' (Host [] (es0 ++ es')) /\
    out_ok fd es' l' (bs ++ [c]).
Proof.
  destruct l as [out b]. intros (Hl & Hb & ps & -> & Hp & <-). cbn [fst snd] in *.
  unfold put_char. cbn [fst snd]. rewrite aset_ok by lia. cbn [unwrap].
  rewrite (bind_ret (ret _) _ _ _ _ eq_refl). rewrite (wrapu_id 64) by (unfold in_u; lia).
  assert (take (Z.to_nat (b + 1)) (<[Z.to_nat b := c]> out) = take (Z.to_nat b) out ++ [c]) as Et.
  { rewrite <- take_insert_snoc by lia. f_equal. lia. }
  unfold SERIAL_BUFFER_SIZE. destruct (Z.leb_spec 64 (b + 1)) as [Hle|Hlt].
  - erewrite bind_ret by (apply checked_write_all; rewrite length_insert; lia).
    eexists (_ ++ _), _. rewrite <- app_assoc. split; [done|]. split; [cbn; by rewrite length_insert|].
    split; [cbn; lia|]. exists (ps ++ [take (Z.to_nat b) out ++ [c]]). rewrite Et. split.
    + by rewrite fmap_app.
    + split.
      * apply Forall_app. split; [done|]. apply Forall_singleton. rewrite length_app, length_take. cbn. lia.
      * cbn [fst snd]. rewrite take_0, app_nil_r, concat_app. cbn. by rewrite app_nil_r, app_assoc.
  - eexists _, _. split; [done|]. split; [cbn; by rewrite length_insert|]. split; [cbn; lia|].
    exists ps. split; [done|]. split; [done|]. cbn [fst snd]. by rewrite Et, app_assoc.
Qed.

Lemma write_escaped_loop_ok fd es0 buf : forall es l bs,
  out_ok fd es l bs -> exists es' l', write_escaped_loop fd buf l (Host [] (es0 ++ es)) = Ret l' (Host [] (es0 ++ es'))
    /\ out_ok fd es' l' (bs ++ stuff buf).
Proof.
  induction buf as [|c buf IH]; intros es l bs Ho.
  { exists es, l. cbn. by rewrite app_nil_r. }
  cbn [write_escaped_loop]. change (_ || _) with (special c). rewrite stuff_cons, app_assoc. unfold stuff1.
  destruct (special c).
  - destruct (put_char_ok fd es0 es l bs LINE_ESC_CHAR Ho) as (es1 & l1 & E1 & Ho1).
    destruct (put_char_ok fd es0 es1 l1 _ (Z.lxor c 0x20) Ho1) as (es2 & l2 & E2 & Ho2).
    rewrite bind_assoc, (bind_ret _ _ _ _ _ E1), (bind_ret _ _ _ _ _ E2). rewrite <- app_assoc in Ho2. by apply IH.
  - destruct (put_char_ok fd es0 es l bs c Ho) as (es1 & l1 & E1 & Ho1).
    rewrite (bind_ret _ _ _ _ _ E1). by apply IH.
Qed.

(** [_write_escaped] sends the stuffed text, in pieces of at most 64 bytes,
    and stays inside its buffer. *)
Lemma write_escaped_ok fd buf es0 :
  exists ps, _write_escaped fd buf (Host [] es0) = Ret tt (Host [] (es0 ++ (Wrote fd <$> ps))) /\
    Forall (fun p => (length p <= 64)%nat) ps /\ concat ps = stuff buf.
Proof.
  unfold _write_escaped. set (l0 := replicate (Z.to_nat SERIAL_BUFFER_SIZE) 0).
  destruct (write_escaped_loop_ok fd es0 buf [] (l0, 0) []) as (es & [out b] & E & Hl & Hb & ps & -> & Hp & Hc).
  { split; [done|]. split; [cbn; lia|]. exists []. cbn. done. }
  rewrite app_nil_r in E. rewrite (bind_ret _ _ _ _ _ E). cbn [fst snd app] in *. unfold c_true.
  destruct (Z.eqb_spec b 0) as [->|Hne]; cbn [negb].
  - exists ps. split; [done|]. split; [done|]. rewrite take_0, app_nil_r in Hc. done.
  - exists (ps ++ [take (Z.to_nat b) out]).
    rewrite checked_write_all, fmap_app, app_assoc by lia. split; [done|]. split.
    + apply Forall_app. split; [done|]. apply Forall_singleton. rewrite length_take. lia.
    + rewrite concat_app. cbn. by rewrite app_nil_r.
Qed.

Lemma written_pieces fd ps : written fd (Wrote fd <$> ps) = concat ps.
Proof.
  induction ps as [|p ps IH]; [done|]. cbn [fmap list_fmap concat].
  change (Wrote fd p :: ?es) with ([Wrote fd p] ++ es). by rewrite written_app, written_one, IH.
Qed.

(** ** Receiving *)

(** The receiver is inside a frame of which it has the bytes [bs]. *)
Definition in_frame (ft : Z) (bs : list Z) (s : serial_t) : Prop :=
  state s = IN_FRAME /\ frametype s = ft /\ framebytes s = Z.of_nat (length bs) /\
  length (frame s) = Z.to_nat MTU /\ take (length bs) (frame s) = bs.

(** The bytes of a line, one after the other, by the receiver alone. *)
Fixpoint receive (cs : list Z) : M serial_t (list Z) :=
  match cs with
  | [] => ret []
  | c :: cs => let! r := _serial_handle_byte c in let! rs := receive cs in ret (r :: rs)
  end.

Lemma handle_char_ok ft bs s c st :
  in_frame ft bs (with_state IN_FRAME s) -> st = state s -> Z.of_nat (length bs) < MTU ->
  exists s', _handle_char c s = Ret tt s' /\ state s' = st /\ in_frame ft (bs ++ [c]) (with_state IN_FRAME s') /\
    local_l2_addr s' = local_l2_addr s.
Proof.
  intros (_ & Hft & Hn & Hl & Ht) -> Hlt. cbn in Hft, Hn, Hl, Ht. unfold _handle_char.
  rewrite (bind_ret _ _ _ _ _ (gets_ok _ _)). unfold id. rewrite Hn, aset_ok by (unfold MTU in *; lia).
  rewrite Nat2Z.id. eexists. split; [done|]. split; [done|]. split; [|done].
  split; [done|]. cbn. split; [done|]. rewrite Hn, wrapu_id by (unfold in_u, MTU in *; lia).
  rewrite length_app, length_insert. cbn. split; [lia|]. split; [done|].
  replace (length bs + 1)%nat with (S (length bs)) by lia. rewrite take_insert_snoc, Ht by (unfold MTU in *; lia). done.
Qed.

Lemma step_plain ft bs s c :
  in_frame ft bs s -> special c = false -> Z.of_nat (length bs) < MTU ->
  exists s', _serial_handle_byte c s = Ret 0 s' /\ in_frame ft (bs ++ [c]) s' /\ local_l2_addr s' = local_l2_addr s.
Proof.
  intros Hs Hc Hlt. destruct Hs as (Hst & Hs). destruct (special_false c Hc) as [H1%Z.eqb_neq H2%Z.eqb_neq].
  destruct (handle_char_ok ft bs s c IN_FRAME) as (s' & E & Hst' & Hf & Hloc); [done|done|done|].
  exists s'. split; [|split; [|done]].
  - unfold _serial_handle_byte. rewrite (bind_ret _ _ _ _ _ (gets_ok _ _)). unfold id. rewrite Hst.
    change (c =? LINE_ESC_CHAR) with (c =? esc). change (c =? LINE_FRAME_DELIMITER) with (c =? delim).
    rewrite H2, H1. by rewrite (bind_ret _ _ _ _ _ E).
  - split; [done|apply Hf].
Qed.

Lemma step_esc ft bs s :
  in_frame ft bs s -> exists s', _serial_handle_byte LINE_ESC_CHAR s = Ret 0 s' /\ state s' = IN_ESCAPE /\
    in_frame ft bs (with_state IN_FRAME s') /\ local_l2_addr s' = local_l2_addr s.
Proof.
  intros (Hst & Hs). eexists. split.
  - unfold _serial_handle_byte. rewrite (bind_ret _ _ _ _ _ (gets_ok _ _)). unfold id. rewrite Hst. done.
  - done.
Qed.

Lemma step_code ft bs s c :
  in_frame ft bs (with_state IN_FRAME s) -> state s = IN_ESCAPE -> special c = true -> Z.of_nat (length bs) < MTU ->
  exists s', _serial_handle_byte (Z.lxor c 0x20) s = Ret 0 s' /\ in_frame ft (bs ++ [c]) s' /\
    local_l2_addr s' = local_l2_addr s.
Proof.
  intros Hs Hst Hc Hlt. destruct (handle_char_ok ft bs s c IN_ESCAPE) as (s' & E & Hst' & Hf & Hloc); [done|done|done|].
  exists (with_state IN_FRAME s'). split; [|done].
  unfold _serial_handle_byte. rewrite (bind_ret _ _ _ _ _ (gets_ok _ _)). unfold id. rewrite Hst.
  apply special_cases in Hc as [-> | ->]; cbn [Z.lxor Z.eqb Pos.eqb]; by rewrite (bind_ret _ _ _ _ _ E).
Qed.

(** Stuffed text is unstuffed into the frame. *)
Lemma receive_stuffed ft cs : forall bs s,
  in_frame ft bs s -> Z.of_nat (length bs + length cs) <= MTU ->
  exists s', receive (stuff cs) s = Ret (replicate (length (stuff cs)) 0) s' /\ in_frame ft (bs ++ cs) s' /\
    local_l2_addr s' = local_l2_addr s.
Proof.
  induction cs as [|c cs IH]; intros bs s Hs Hn.
  { exists s. by rewrite app_nil_r. }
  cbn [length] in Hn. rewrite stuff_cons. unfold stuff1. destruct (special c) eqn:Ec; cbn [app length replicate].
  - destruct (step_esc ft bs s Hs) as (s1 & E1 & Hst1 & Hs1 & L1).
    destruct (step_code ft bs s1 c Hs1 Hst1 Ec) as (s2 & E2 & Hs2 & L2); [lia|].
    destruct (IH (bs ++ [c]) s2 Hs2) as (s' & E & Hs' & L); [rewrite length_app; cbn; lia|].
    exists s'. rewrite <- app_assoc in Hs'. split; [|split; [done|congruence]].
    cbn [receive]. change esc with LINE_ESC_CHAR. change (code c) with (Z.lxor c 0x20).
    rewrite (bind_ret _ _ _ _ _ E1), bind_assoc, (bind_ret _ _ _ _ _ E2), bind_assoc, (bind_ret _ _ _ _ _ E). done.
  - destruct (step_plain ft bs s c Hs Ec) as (s1 & E1 & Hs1 & L1); [lia|].
    destruct (IH (bs ++ [c]) s1 Hs1) as (s' & E & Hs' & L); [rewrite length_app; cbn; lia|].
    exists s'. rewrite <- app_assoc in Hs'. split; [|split; [done|congruence]].
    cbn [receive]. rewrite (bind_ret _ _ _ _ _ E1), (bind_ret _ _ _ _ _ E). done.
Qed.

(** [serial_bytes] on bytes that complete no frame is [receive]. *)
Lemma serial_bytes_receive tap_fd serial_fd cs : forall s s' h o,
  receive cs s = Ret (replicate (length cs) 0) s' ->
  serial_bytes tap_fd serial_fd cs (Tool s h o) = Ret tt (Tool s' h o).
Proof.
  induction cs as [|c cs IH]; intros s s' h o E; cbn [receive serial_bytes] in *; [by inversion E|].
  apply bind_inv in E as (r & s1 & E1 & (rs & s2 & E2 & E3)%bind_inv).
  cbn [length replicate] in E3. inversion E3; subst.
  rewrite (bind_ret _ _ _ 0 (Tool s1 h o)) by (unfold on_line, zoom; cbn [serial]; by rewrite E1).
  cbn. apply IH. exact E2.
Qed.

Lemma serial_bytes_app tap_fd serial_fd cs ds t :
  serial_bytes tap_fd serial_fd (cs ++ ds) t
    = (do! serial_bytes tap_fd serial_fd cs; serial_bytes tap_fd serial_fd ds) t.
Proof.
  revert t. induction cs as [|c cs IH]; intros t; [done|]. cbn [app serial_bytes].
  unfold bind. destruct (on_line _ t) as [r t1|]; [|done]. destruct (when _ _ t1) as [[] t2|]; [|done]. apply IH.
Qed.

(** The frame of a complete line. *)
Lemma close_frame ft bs s :
  in_frame ft bs s -> bs <> [] ->
  exists s', _serial_handle_byte LINE_FRAME_DELIMITER s = Ret (Z.of_nat (length bs)) s' /\
    s' = with_state WAIT_FRAMESTART s /\ c_true (Z.of_nat (length bs)) = true.
Proof.
  intros (Hst & Hft & Hn & Hl & Ht) Hne. exists (with_state WAIT_FRAMESTART s).
  assert (length bs <> 0%nat) as Hpos by (by destruct bs). split; [|split; [done|]].
  - assert (length bs <= Z.to_nat MTU)%nat as Hle by (rewrite <- Ht, length_take; lia).
    unfold _serial_handle_byte. rewrite (bind_ret _ _ _ _ _ (gets_ok _ _)). unfold id. rewrite Hst, Hn.
    cbn [Z.eqb Pos.eqb LINE_FRAME_DELIMITER LINE_ESC_CHAR]. rewrite (proj2 (Z.eqb_neq _ 0)) by lia.
    rewrite (bind_ret _ _ _ _ _ (modify_ok _ _)), wraps_id; [done|lia|].
    unfold in_s. unfold MTU in Hle. change (2 ^ (32 - 1)) with 2147483648. lia.
  - unfold c_true. by rewrite (proj2 (Z.eqb_neq _ 0)) by lia.
Qed.

(** The receiver between frames, whatever its frame buffer holds. *)
Definition idle (s : serial_t) : Prop := state s = WAIT_FRAMESTART /\ length (frame s) = Z.to_nat MTU.

Lemma open_frame s :
  idle s -> exists s', _serial_handle_byte LINE_FRAME_DELIMITER s = Ret 0 s' /\ in_frame 0 [] s' /\
    local_l2_addr s' = local_l2_addr s.
Proof.
  intros [Hst Hl]. eexists. split.
  - unfold _serial_handle_byte. rewrite (bind_ret _ _ _ _ _ (gets_ok _ _)). unfold id. rewrite Hst. done.
  - split; [|done]. split; [done|]. cbn. done.
Qed.

(** The type of the frame, as an escape sequence, which is absent for data. *)
Definition type_seq (ft : Z) : list Z := if ft =? 0 then [] else [LINE_ESC_CHAR; Z.lxor ft 0x20].

Lemma receive_type ft s :
  in_frame 0 [] s -> 0 <= ft <= 3 ->
  exists s', receive (type_seq ft) s = Ret (replicate (length (type_seq ft)) 0) s' /\ in_frame ft [] s' /\
    local_l2_addr s' = local_l2_addr s.
Proof.
  intros Hs Hft. assert (ft = 0 \/ ft = 1 \/ ft = 2 \/ ft = 3) as Hc by lia.
  destruct (decide (ft = 0)) as [->|Hne]; [by exists s|].
  destruct (step_esc 0 [] s Hs) as (s1 & E1 & Hst1 & (_ & Hft1 & Hs1) & L1).
  exists (with_state IN_FRAME (with_frametype ft s1)).
  unfold type_seq. rewrite (proj2 (Z.eqb_neq _ _) Hne). cbn [receive]. split; [|done].
  rewrite (bind_ret _ _ _ _ _ E1), bind_assoc.
  rewrite (bind_ret _ _ _ 0 (with_state IN_FRAME (with_frametype ft s1))); [done|].
  unfold _serial_handle_byte. rewrite (bind_ret _ _ _ _ _ (gets_ok _ _)). unfold id. rewrite Hst1.
  destruct Hc as [->|[->|[->| ->]]]; done.
Qed.

Lemma receive_app cs ds s rs s1 rs' s2 :
  receive cs s = Ret rs s1 -> receive ds s1 = Ret rs' s2 -> receive (cs ++ ds) s = Ret (rs ++ rs') s2.
Proof.
  revert s rs. induction cs as [|c cs IH]; intros s rs; cbn [receive app].
  { intros [= <- <-]. done. }
  intros (r & s0 & E1 & (rs0 & s3 & E2 & [= <- <-])%bind_inv)%bind_inv E'.
  rewrite (bind_ret _ _ _ _ _ E1), (bind_ret _ _ _ _ _ (IH _ _ E2 E')). done.
Qed.

(** What a frame of a type is on the line, and that the receiver has it when
    the closing delimiter comes. *)
Definition frame_of (ft : Z) (bs : list Z) : list Z :=
  LINE_FRAME_DELIMITER :: type_seq ft ++ stuff bs ++ [LINE_FRAME_DELIMITER].

Lemma receive_frame ft bs s :
  idle s -> 0 <= ft <= 3 -> Z.of_nat (length bs) <= MTU ->
  exists s', receive (LINE_FRAME_DELIMITER :: type_seq ft ++ stuff bs) s
      = Ret (replicate (length (LINE_FRAME_DELIMITER :: type_seq ft ++ stuff bs)) 0) s' /\
    in_frame ft bs s' /\ local_l2_addr s' = local_l2_addr s.
Proof.
  intros Hi Hft Hn. destruct (open_frame s Hi) as (s1 & E1 & H1 & L1).
  destruct (receive_type ft s1 H1 Hft) as (s2 & E2 & H2 & L2).
  destruct (receive_stuffed ft bs [] s2 H2) as (s3 & E3 & H3 & L3); [cbn; lia|].
  exists s3. split; [|split; [done|congruence]]. cbn [receive length].
  rewrite (bind_ret _ _ _ _ _ E1), (bind_ret _ _ _ _ _ (receive_app _ _ _ _ _ _ _ E2 E3)).
  by rewrite <- replicate_add, length_app.
Qed.

(** A tool that gets a frame dispatches it and starts afresh. *)
Lemma serial_bytes_frame tap_fd serial_fd ft bs s h o :
  idle s -> 0 <= ft <= 3 -> bs <> [] -> Z.of_nat (length bs) <= MTU ->
  exists s', in_frame ft bs (with_state IN_FRAME s') /\ local_l2_addr s' = local_l2_addr s /\
    serial_bytes tap_fd serial_fd (frame_of ft bs) (Tool s h o)
      = (do! handle_frame tap_fd serial_fd; on_line (modify (fun _ => serial_zero))) (Tool s' h o).
Proof.
  intros Hi Hft Hne Hn. destruct (receive_frame ft bs s Hi Hft Hn) as (s1 & E1 & H1 & L1).
  destruct (close_frame ft bs s1 H1 Hne) as (s2 & E2 & -> & Hc).
  exists (with_state WAIT_FRAMESTART s1). split; [exact (conj eq_refl (proj2 H1))|]. split; [done|].
  unfold frame_of. rewrite app_comm_cons, app_assoc, serial_bytes_app.
  rewrite (bind_ret _ _ _ _ _ (serial_bytes_receive tap_fd serial_fd _ _ _ h o E1)). cbn [serial_bytes].
  rewrite (bind_ret _ _ _ (Z.of_nat (length bs)) (Tool (with_state WAIT_FRAMESTART s1) h o))
    by (unfold on_line, zoom; cbn [serial]; by rewrite E2).
  rewrite Hc. cbn [when]. unfold bind. by destruct (handle_frame _ _ _) as [[] ?|].
Qed.

(** ** From one tool to the other *)

(** The serial line becomes readable again and again, with these reads. *)
Fixpoint serial_reads (tap_fd serial_fd : Z) (tty : bool) (chunks : list (list Z)) : M tool (option Z) :=
  match chunks with
  | [] => ret None
  | c :: chunks =>
      let! e := main_iter tap_fd serial_fd tty (Some (Got c)) None None in
      match e with Some n => ret (Some n) | None => serial_reads tap_fd serial_fd tty chunks end
  end.

Lemma serial_reads_concat tap_fd serial_fd tty chunks : forall t t',
  serial_bytes tap_fd serial_fd (concat chunks) t = Ret tt t' ->
  serial_reads tap_fd serial_fd tty chunks t = Ret None t'.
Proof.
  induction chunks as [|c chunks IH]; intros t t'; cbn [concat serial_reads]; [by intros [= <-]|].
  rewrite serial_bytes_app. intros ([] & t1 & E1 & E2)%bind_inv.
  rewrite (bind_ret _ _ _ None t1); [by apply IH|].
  unfold main_iter, serial_readable. rewrite bind_assoc, (bind_ret _ _ _ _ _ E1). done.
Qed.

Lemma on_os_ok {A} (m : M host A) s h o a h' : m h = Ret a h' -> on_os m (Tool s h o) = Ret a (Tool s h' o).
Proof. intros E. unfold on_os, zoom. cbn [os]. by rewrite E. Qed.

(** A head, the stuffed text and the delimiter leave as they are. *)
Lemma send_frame fd head n bs s es o :
  n = Z.of_nat (length head) -> head <> [] ->
  exists sent, (do! on_os (checked_write fd head n); do! on_os (_write_escaped fd bs);
                on_os (checked_write fd [LINE_FRAME_DELIMITER] 1)) (Tool s (Host [] es) o)
      = Ret tt (Tool s (Host [] (es ++ sent)) o) /\
    written fd sent = head ++ stuff bs ++ [LINE_FRAME_DELIMITER].
Proof.
  intros -> Hne. assert (length head <> 0%nat) by (by destruct head).
  destruct (write_escaped_ok fd bs (es ++ [Wrote fd head])) as (ps & E & _ & Hps).
  exists ([Wrote fd head] ++ (Wrote fd <$> ps) ++ [Wrote fd [LINE_FRAME_DELIMITER]]). split.
  - erewrite bind_ret; [|apply on_os_ok, checked_write_all; lia]. rewrite Nat2Z.id, take_ge by lia.
    rewrite (bind_ret _ _ _ _ _ (on_os_ok _ _ _ _ _ _ E)).
    erewrite on_os_ok; [|apply checked_write_all; cbn; lia]. by rewrite <- !app_assoc.
  - by rewrite !written_app, written_pieces, !written_one, Hps.
Qed.

Lemma frame_arrives tap_fd serial_fd tty ft bs s es o chunks fd :
  idle s -> bs <> [] -> Z.of_nat (length bs) <= MTU -> concat chunks = frame_of ft bs ->
  (ft, fd) = (LINE_FRAME_TYPE_DATA, tap_fd) \/ (ft, fd) = (LINE_FRAME_TYPE_TEXT, STDOUT_FILENO) ->
  serial_reads tap_fd serial_fd tty chunks (Tool s (Host [] es) o)
    = Ret None (Tool serial_zero (Host [] (es ++ [Wrote fd bs])) o).
Proof.
  intros Hi Hne Hn Hc Hfd. apply serial_reads_concat. rewrite Hc.
  destruct (serial_bytes_frame tap_fd serial_fd ft bs s (Host [] es) o Hi) as (s' & Hs' & _ & ->); [|done|done|].
  { destruct Hfd as [[= -> ->]|[= -> ->]]; done. }
  destruct Hs' as (_ & Hft & Hfb & Hl & Ht). cbn in Hft, Hfb, Hl, Ht.
  assert (length bs <> 0%nat) by (by destruct bs).
  assert (checked_write fd (frame s') (framebytes s') (Host [] es) = Ret tt (Host [] (es ++ [Wrote fd bs]))) as Ew.
  { rewrite Hfb, checked_write_all, Nat2Z.id, Ht by lia. done. }
  rewrite (bind_ret _ _ _ tt (Tool s' (Host [] (es ++ [Wrote fd bs])) o)); [done|]. unfold handle_frame. rewrite (bind_ret _ _ _ _ _ (gets_ok _ _)). unfold id.
  cbn [serial]. rewrite Hft. destruct Hfd as [[= -> ->]|[= -> ->]]; cbn [Z.eqb LINE_FRAME_TYPE_DATA LINE_FRAME_TYPE_TEXT];
    exact (on_os_ok _ _ _ _ _ _ Ew).
Qed.

(** C31 What goes in at one end comes out at the other: a packet read from the
    tap device of one tool is written to the tap device of the other as it
    was, and a text typed at one is printed at the other, however the line
    cuts the bytes into reads; the receiver is then ready for the next frame.
    [write] is assumed to take what it is given. *)
Theorem ethos_roundtrip tap_fd serial_fd tty bs s0 es0 o0 s es o :
  bs <> [] -> Z.of_nat (length bs) <= MTU -> idle s ->
  let sender := Tool s0 (Host [] es0) o0 in
  let receiver := Tool s (Host [] es) o in
  (exists sent, tap_readable serial_fd (Got bs) sender = Ret true (Tool s0 (Host [] (es0 ++ sent)) o0) /\
     forall chunks, concat chunks = written serial_fd sent ->
     serial_reads tap_fd serial_fd tty chunks receiver
       = Ret None (Tool serial_zero (Host [] (es ++ [Wrote tap_fd bs])) o)) /\
  (exists sent, stdin_readable serial_fd tty (Got bs) sender = Ret None (Tool s0 (Host [] (es0 ++ sent)) o0) /\
     forall chunks, concat chunks = written serial_fd sent ->
     serial_reads tap_fd serial_fd tty chunks receiver
       = Ret None (Tool serial_zero (Host [] (es ++ [Wrote STDOUT_FILENO bs])) o)).
Proof.
  intros Hne Hn Hi. split.
  - destruct (send_frame serial_fd [LINE_FRAME_DELIMITER] 1 bs s0 es0 o0) as (sent & E & Hw); [done|done|].
    exists sent. split.
    + unfold tap_readable. apply bind_inv in E as ([] & t1 & E1 & ([] & t2 & E2 & E3)%bind_inv).
      by rewrite (bind_ret _ _ _ _ _ E1), (bind_ret _ _ _ _ _ E2), (bind_ret _ _ _ _ _ E3).
    + intros chunks Hc. apply (frame_arrives _ _ _ LINE_FRAME_TYPE_DATA); try done; [by rewrite Hc, Hw|by left].
  - destruct (send_frame serial_fd [LINE_FRAME_DELIMITER; LINE_ESC_CHAR; Z.lxor LINE_FRAME_TYPE_TEXT 0x20] 3
      bs s0 es0 o0) as (sent & E & Hw); [done|done|].
    exists sent. split.
    + unfold stdin_readable. apply bind_inv in E as ([] & t1 & E1 & ([] & t2 & E2 & E3)%bind_inv).
      by rewrite (bind_ret _ _ _ _ _ E1), (bind_ret _ _ _ _ _ E2), (bind_ret _ _ _ _ _ E3).
    + intros chunks Hc. apply (frame_arrives _ _ _ LINE_FRAME_TYPE_TEXT); try done; [by rewrite Hc, Hw|by right].
Qed.

(** ** Errors *)

(** The buffer is the one of the receiver, and its count is inside it. *)
Definition serial_wf (s : serial_t) : Prop := length (frame s) = Z.to_nat MTU /\ 0 <= framebytes s <= MTU.

(** The receiver stays well formed whatever byte comes, and fails in exactly
    one way: it writes a byte behind its buffer when a frame of more than
    [MTU] bytes arrives, which nothing checks. *)
Theorem handle_byte_wf s c :
  serial_wf s ->
  match _serial_handle_byte c s with
  | Ret r s' => serial_wf s' /\ (r = 0 \/ (r = framebytes s /\ state s = IN_FRAME /\ state s' = WAIT_FRAMESTART))
  | Err f => f = OutOfBounds /\ framebytes s = MTU /\ state s <> WAIT_FRAMESTART
  end.
Proof.
  intros [Hl Hn]. assert (forall c, match _handle_char c s with
    | Ret _ s' => serial_wf s' | Err f => f = OutOfBounds /\ framebytes s = MTU end) as Hchar.
  { intros d. unfold _handle_char. rewrite (bind_ret _ _ _ _ _ (gets_ok _ _)). unfold id.
    destruct (decide (framebytes s = MTU)) as [E|Hne].
    - unfold aset. rewrite E, Hl, andb_comm. cbn. done.
    - rewrite aset_ok by (rewrite Hl; lia). cbn. unfold serial_wf. cbn.
      rewrite length_insert, wrapu_id by (unfold in_u, MTU in *; lia). unfold MTU in *. lia. }
  unfold _serial_handle_byte. rewrite (bind_ret _ _ _ _ _ (gets_ok _ _)). unfold id.
  destruct (state s) eqn:Est.
  - destruct (c =? LINE_FRAME_DELIMITER); cbn; (split; [|by left]); [|done]. split; [done|]. cbn. unfold MTU. lia.
  - destruct (c =? LINE_ESC_CHAR); [split; [done|by left]|]. destruct (c =? LINE_FRAME_DELIMITER).
    + destruct (framebytes s =? 0); [split; [done|by left]|]. cbn. split; [done|]. right.
      rewrite wraps_id; [done|lia|]. unfold in_s, MTU in *. change (2 ^ (32 - 1)) with 2147483648. lia.
    + specialize (Hchar c). unfold bind. destruct (_handle_char c s); [split; [done|by left]|]. naive_solver.
  - unfold bind.
    repeat match goal with |- context [if ?b then _ else _] => destruct b end.
    all: try match goal with |- context [_handle_char ?d ?x] => specialize (Hchar d); destruct (_handle_char d x) end.
    all: first [split; [done|by left] | (destruct Hchar; done)].
Qed.

(** A frame longer than the buffer is written behind it. *)
Theorem ethos_overflow tap_fd serial_fd ft bs s h o :
  idle s -> 0 <= ft <= 3 -> MTU < Z.of_nat (length bs) ->
  serial_bytes tap_fd serial_fd (frame_of ft bs) (Tool s h o) = Err OutOfBounds.
Proof.
  intros Hi Hft Hn. set (n := Z.to_nat MTU).
  assert (n < length bs)%nat as Hlt by (subst n; unfold MTU in *; lia). destruct (drop n bs) as [|c rest] eqn:Ed.
  { exfalso. apply (f_equal length) in Ed. rewrite length_drop in Ed. cbn in Ed. lia. }
  assert (length (take n bs) = n) as Hlen by (rewrite length_take; lia).
  destruct (receive_frame ft (take n bs) s Hi Hft) as (s1 & E1 & (Hst & _ & Hfb & Hl & _) & _).
  { rewrite Hlen. subst n. unfold MTU. lia. }
  assert (forall d s', framebytes s' = MTU -> length (frame s') = n -> _handle_char d s' = Err OutOfBounds) as Hfull.
  { intros d s' Hb Hf. unfold _handle_char. rewrite (bind_ret _ _ _ _ _ (gets_ok _ _)). unfold id, aset.
    rewrite Hb, Hf, andb_comm. done. }
  unfold frame_of. rewrite <- (take_drop n bs), Ed, stuff_app, stuff_cons, <- !app_assoc.
  rewrite (app_assoc (type_seq ft)), app_comm_cons, serial_bytes_app.
  rewrite (bind_ret _ _ _ _ _ (serial_bytes_receive tap_fd serial_fd _ _ _ h o E1)).
  rewrite Hlen in Hfb. unfold stuff1. destruct (special c) eqn:Ec; cbn [app serial_bytes].
  - rewrite (bind_ret _ _ _ 0 (Tool (with_state IN_ESCAPE s1) h o)).
    2: { unfold on_line, zoom, _serial_handle_byte. cbn [serial]. rewrite (bind_ret _ _ _ _ _ (gets_ok _ _)).
         unfold id. by rewrite Hst. }
    cbn [c_true Z.eqb negb when]. rewrite (bind_ret (ret tt) _ _ _ _ eq_refl). apply bind_err.
    unfold on_line, zoom, _serial_handle_byte. cbn [serial]. rewrite (bind_ret _ _ _ _ _ (gets_ok _ _)). unfold id.
    change (code c) with (Z.lxor c 0x20). apply special_cases in Ec as [-> | ->]; cbn [state with_state].
    + by rewrite (bind_err _ _ _ _ (Hfull LINE_FRAME_DELIMITER (with_state IN_ESCAPE s1) Hfb Hl)).
    + by rewrite (bind_err _ _ _ _ (Hfull LINE_ESC_CHAR (with_state IN_ESCAPE s1) Hfb Hl)).
  - apply bind_err. destruct (special_false c Ec) as [H1%Z.eqb_neq H2%Z.eqb_neq].
    unfold on_line, zoom, _serial_handle_byte. cbn [serial]. rewrite (bind_ret _ _ _ _ _ (gets_ok _ _)). unfold id.
    rewrite Hst. change LINE_ESC_CHAR with esc. change LINE_FRAME_DELIMITER with delim. rewrite H2, H1.
    by rewrite (bind_err _ _ _ _ (Hfull _ _ Hfb Hl)).
Qed.

(** A [write] that takes only a part is followed by the same bytes again: the
    pointer is not moved. *)
Theorem checked_write_repeats fd buf n k es :
  0 < Z.of_nat k < n -> n <= Z.of_nat (length buf) ->
  checked_write fd buf n (Host [Took k] es)
    = Ret tt (Host [] (es ++ [Wrote fd (take k buf); Wrote fd (take (Z.to_nat n - k) buf)])).
Proof.
  intros Hk Hn. unfold checked_write. erewrite loop_next.
  2: { unfold checked_step. rewrite (proj2 (Z.ltb_lt 0 n)) by lia. unfold write.
       rewrite bind_assoc, (bind_ret _ _ _ _ _ (gets_ok _ _)).
       cbn [answers]. rewrite length_take_le, Nat.min_l, take_take, Nat.min_l by lia.
       rewrite bind_assoc, (bind_ret _ _ _ _ _ (modify_ok _ _)). rewrite bind_assoc.
       rewrite (bind_ret (emit _) _ _ _ _ eq_refl), (bind_ret (ret _) _ _ _ _ eq_refl).
       rewrite (proj2 (Z.leb_gt _ _)) by lia. done. }
  cbn [events answers]. rewrite checked_loop_all by lia. rewrite <- app_assoc.
  by replace (Z.to_nat (n - Z.of_nat k)) with (Z.to_nat n - k)%nat by lia.
Qed.

Lemma send_hello_ok fd local type es :
  length local = 6%nat ->
  _send_hello fd local type (Host [] es) = Ret tt (Host [] (es ++
    [Wrote fd [LINE_FRAME_DELIMITER; LINE_ESC_CHAR; u8 (Z.lxor type 0x20)]; Wrote fd local;
     Wrote fd [LINE_FRAME_DELIMITER]])).
Proof.
  intros Hl. unfold _send_hello. erewrite bind_ret by (apply checked_write_all; cbn; lia).
  erewrite bind_ret by (apply checked_write_all; rewrite Hl; lia).
  rewrite checked_write_all, (take_ge local) by (rewrite ?Hl; cbn; lia). by rewrite <- !app_assoc.
Qed.

(** The hello of another tool is answered with one's own address, and the
    address of the other one is then forgotten: [memset] clears the whole
    [serial_t], not the frame alone. *)
Theorem hello_answered tap_fd serial_fd addr s es o :
  idle s -> length addr = 6%nat -> length (local_l2_addr s) = 6%nat ->
  exists sent, serial_bytes tap_fd serial_fd (frame_of LINE_FRAME_TYPE_HELLO addr) (Tool s (Host [] es) o)
      = Ret tt (Tool serial_zero (Host [] (es ++ sent ++ [Ran NEIGH_FLUSH []])) o) /\
    written serial_fd sent = [LINE_FRAME_DELIMITER; LINE_ESC_CHAR; Z.lxor LINE_FRAME_TYPE_HELLO_REPLY 0x20]
      ++ local_l2_addr s ++ [LINE_FRAME_DELIMITER] /\
    remote_l2_addr serial_zero = replicate 6 0.
Proof.
  intros Hi Ha Hl.
  destruct (serial_bytes_frame tap_fd serial_fd LINE_FRAME_TYPE_HELLO addr s (Host [] es) o Hi)
    as (s' & (_ & Hft & Hfb & Hfl & Ht) & Hloc & ->); [done|by intros ->|by rewrite Ha|].
  cbn in Hft, Hfb, Hfl, Ht. exists ([Wrote serial_fd [LINE_FRAME_DELIMITER; LINE_ESC_CHAR; 0x23]]
    ++ [Wrote serial_fd (local_l2_addr s)] ++ [Wrote serial_fd [LINE_FRAME_DELIMITER]]).
  split; [|split; [by rewrite !written_app, !written_one|done]].
  unfold handle_frame. rewrite bind_assoc, (bind_ret _ _ _ _ _ (gets_ok _ _)). unfold id. cbn [serial].
  rewrite Hft, Hfb, Ha, Hloc. cbn [Z.eqb Pos.eqb LINE_FRAME_TYPE_DATA LINE_FRAME_TYPE_TEXT LINE_FRAME_TYPE_HELLO orb].
  change (Z.of_nat 6 =? 6) with true. unfold bind, on_os, on_line, zoom, modify. cbn [when serial os stdin_open].
  rewrite send_hello_ok by done. cbn. by rewrite <- app_assoc.
Qed.

(** ** Witnesses *)

Lemma ethos_roundtrip_witness :
  (exists sent, tap_readable 4 (Got [1; 0x7E; 2]) (Tool serial_zero (Host [] []) true)
      = Ret true (Tool serial_zero (Host [] ([] ++ sent)) true) /\
     forall chunks, concat chunks = written 4 sent ->
     serial_reads 5 4 true chunks (Tool serial_zero (Host [] []) true)
       = Ret None (Tool serial_zero (Host [] ([] ++ [Wrote 5 [1; 0x7E; 2]])) true)) /\
  (exists sent, stdin_readable 4 true (Got [1; 0x7E; 2]) (Tool serial_zero (Host [] []) true)
      = Ret None (Tool serial_zero (Host [] ([] ++ sent)) true) /\
     forall chunks, concat chunks = written 4 sent ->
     serial_reads 5 4 true chunks (Tool serial_zero (Host [] []) true)
       = Ret None (Tool serial_zero (Host [] ([] ++ [Wrote STDOUT_FILENO [1; 0x7E; 2]])) true)).
Proof. apply (ethos_roundtrip 5 4 true [1; 0x7E; 2] serial_zero [] true serial_zero [] true); done. Defined.

Lemma handle_byte_wf_witness :
  serial_wf serial_zero /\
  match _serial_handle_byte LINE_FRAME_DELIMITER serial_zero with
  | Ret r s' => serial_wf s' /\
      (r = 0 \/ (r = framebytes serial_zero /\ state serial_zero = IN_FRAME /\ state s' = WAIT_FRAMESTART))
  | Err f => f = OutOfBounds /\ framebytes serial_zero = MTU /\ state serial_zero <> WAIT_FRAMESTART
  end.
Proof.
  assert (serial_wf serial_zero) as H by (split; [done|cbn; unfold MTU; lia]).
  split; [exact H|]. exact (handle_byte_wf serial_zero LINE_FRAME_DELIMITER H).
Defined.
