(* ===== verification/Slip.v ===== *)
(** * The SLIP queue of the tunnel tools (dist/tools/tunslip)

    Bytes for the serial line wait in a buffer of 2000 bytes that is flushed
    when the line can take them.  [tunslip.c] (and [tapslip6.c], whose copy is
    the same) ends when the buffer is full; [tunslip6.c] flushes it. *)

From S2P Require Import Prelude Framing.

Definition SLIP_END : Z := 192.
Definition SLIP_ESC : Z := 219.
Definition SLIP_ESC_END : Z := 220.
Definition SLIP_ESC_ESC : Z := 221.

#[export] Instance slip_stuffing : Stuffing := {
  delim := SLIP_END; esc := SLIP_ESC; code c := if c =? SLIP_END then SLIP_ESC_END else SLIP_ESC_ESC
}.

Lemma slip_special c : special c = true -> c = SLIP_END \/ c = SLIP_ESC.
Proof. unfold special. rewrite orb_true_iff, !Z.eqb_eq. done. Qed.

#[export] Instance slip_laws : StuffingLaws.
Proof.
  split; [done| |].
  - intros c [-> | ->]%slip_special; done.
  - intros c d [-> | ->]%slip_special [-> | ->]%slip_special; done.
Qed.

Definition SLIP_BUF : Z := 2000.

(** The queue and the operating system it is written to. *)
Record queue : Type := Queue { slip_buf : list Z; slip_begin : Z; slip_end : Z; sys : host }.

Definition with_sys (h : host) (q : queue) : queue := Queue (slip_buf q) (slip_begin q) (slip_end q) h.
Definition on_sys {A} : M host A -> M queue A := zoom sys with_sys.

Definition slip_empty : M queue bool := gets (fun q => slip_end q =? 0).

Definition slip_flushbuf (fd : Z) : M queue unit :=
  let! e := slip_empty in
  if e then ret tt
  else
    let! q := gets id in
    let pending := drop (Z.to_nat (slip_begin q)) (take (Z.to_nat (slip_end q)) (slip_buf q)) in
    let! n := on_sys (write fd pending) in
    match n with
    | Failed => fail Exited
    | Again => ret tt
    | Took n =>
        do! modify (fun q => Queue (slip_buf q) (slip_begin q + Z.of_nat n) (slip_end q) (sys q));
        modify (fun q => if slip_begin q =? slip_end q then Queue (slip_buf q) 0 0 (sys q) else q)
    end.

(** [slip_buf[slip_end] = c; slip_end++] behind the check for a full buffer. *)
Definition slip_put (c : Z) : M queue unit :=
  let! q := gets id in
  if SLIP_BUF <=? slip_end q then fail Exited
  else
    let! b := unwrap OutOfBounds (aset (slip_buf q) (slip_end q) c) in
    modify (fun q => Queue b (slip_begin q) (slip_end q + 1) (sys q)).

(** [slip_send] of tunslip.c, and of tunslip6.c. *)
Definition slip_send (fd c : Z) : M queue unit := slip_put c.
Definition slip_send6 (fd c : Z) : M queue unit :=
  do! slip_put c;
  let! q := gets id in
  when (SLIP_BUF <=? slip_end q) (slip_flushbuf fd).

Section senders.
(** Either [slip_send]. *)
Context (send : Z -> Z -> M queue unit).

Definition send_stuffed (fd c : Z) : M queue unit :=
  if c =? SLIP_END then do! send fd SLIP_ESC; send fd SLIP_ESC_END
  else if c =? SLIP_ESC then do! send fd SLIP_ESC; send fd SLIP_ESC_ESC
  else send fd c.

(** The loop over the bytes of a packet, and the end of the frame. *)
Fixpoint send_bytes (fd : Z) (p : list Z) : M queue unit :=
  match p with
  | [] => ret tt
  | c :: p => do! send_stuffed fd c; send_bytes fd p
  end.

Definition send_packet (fd : Z) (p : list Z) : M queue unit :=
  do! send_bytes fd p; send fd SLIP_END.
End senders.

(** ** The queue as a sequence *)

(** What is queued and not yet written. *)
Definition pending (q : queue) : list Z :=
  drop (Z.to_nat (slip_begin q)) (take (Z.to_nat (slip_end q)) (slip_buf q)).

Definition queue_wf (q : queue) : Prop :=
  length (slip_buf q) = Z.to_nat SLIP_BUF /\ 0 <= slip_begin q <= slip_end q /\ slip_end q <= SLIP_BUF /\
  (slip_begin q = slip_end q -> slip_end q = 0).

Lemma pending_length q : queue_wf q -> length (pending q) = Z.to_nat (slip_end q - slip_begin q).
Proof.
  intros (Hl & Hb & He & _). unfold pending. rewrite length_drop, length_take. unfold SLIP_BUF in *. lia.
Qed.

Lemma pending_nil q : queue_wf q -> pending q = [] <-> slip_end q = 0.
Proof.
  intros Hq. pose proof (pending_length q Hq) as Hl. destruct Hq as (_ & Hb & _ & Hz). split.
  - intros E. rewrite E in Hl. cbn in Hl. apply Hz. lia.
  - intros E. apply length_zero_iff_nil. lia.
Qed.

Lemma slip_put_ok c q :
  queue_wf q -> slip_end q < SLIP_BUF ->
  exists q', slip_put c q = Ret tt q' /\ queue_wf q' /\ pending q' = pending q ++ [c] /\
    slip_end q' = slip_end q + 1 /\ sys q' = sys q.
Proof.
  intros (Hl & Hb & He & Hz) Hlt. unfold slip_put. rewrite (bind_ret _ _ _ _ _ (gets_ok _ _)). unfold id.
  rewrite (proj2 (Z.leb_gt _ _)), aset_ok by (rewrite ?Hl; unfold SLIP_BUF in *; lia).
  eexists. split; [done|]. split; [|split; [|done]].
  - unfold queue_wf. cbn. rewrite length_insert. unfold SLIP_BUF in *. lia.
  - unfold pending. cbn. replace (Z.to_nat (slip_end q + 1)) with (S (Z.to_nat (slip_end q))) by lia.
    rewrite take_insert_snoc, drop_app_le by (rewrite ?length_take, Hl; unfold SLIP_BUF in *; lia). done.
Qed.

Lemma slip_put_full c q : SLIP_BUF <= slip_end q -> slip_put c q = Err Exited.
Proof.
  intros H. unfold slip_put. rewrite (bind_ret _ _ _ _ _ (gets_ok _ _)). unfold id. by rewrite (proj2 (Z.leb_le _ _)).
Qed.

Lemma flush_took fd q l n es :
  queue_wf q -> slip_end q <> 0 -> (n <= length (pending q))%nat ->
  (exists m, sys q = Host (Took m :: l) es /\ n = Nat.min m (length (pending q))) \/
    (sys q = Host [] es /\ l = [] /\ n = length (pending q)) ->
  exists q', slip_flushbuf fd q = Ret tt q' /\ queue_wf q' /\ pending q' = drop n (pending q) /\
    sys q' = Host l (es ++ [Wrote fd (take n (pending q))]) /\
    slip_end q' = if decide (n = length (pending q)) then 0 else slip_end q.
Proof.
  intros Hq Hne Hn Hsys. pose proof (pending_length q Hq) as Hpl. pose proof Hq as (Hl & Hb & He & Hz).
  unfold slip_flushbuf, slip_empty. rewrite (bind_ret _ _ _ _ _ (gets_ok _ _)), (proj2 (Z.eqb_neq _ _) Hne).
  rewrite (bind_ret _ _ _ _ _ (gets_ok _ _)). unfold id. fold (pending q).
  set (h := Host l (es ++ [Wrote fd (take n (pending q))])).
  rewrite (bind_ret _ _ _ (Took n) (with_sys h q)).
  2: { unfold on_sys, zoom. destruct Hsys as [(m & -> & ->) | (-> & -> & ->)].
       - unfold write, bind, gets, modify, emit, ret. cbn. done.
       - rewrite write_all. subst h. by rewrite firstn_all. }
  rewrite (bind_ret _ _ _ _ _ (modify_ok _ _)), modify_ok. cbn [slip_begin slip_end with_sys slip_buf sys].
  case_decide as Hd.
  - assert (slip_begin q + Z.of_nat n = slip_end q) as -> by lia. rewrite Z.eqb_refl. eexists. split; [done|].
    split; [unfold queue_wf; cbn; unfold SLIP_BUF in *; lia|]. split; [|done]. cbn.
    rewrite drop_ge by lia. done.
  - rewrite (proj2 (Z.eqb_neq _ _)) by lia. eexists. split; [done|].
    split; [unfold queue_wf; cbn; unfold SLIP_BUF in *; lia|]. split; [|done]. unfold pending. cbn.
    rewrite drop_drop. f_equal. lia.
Qed.

(** Sending the bytes one after the other. *)
Fixpoint send_all (send : Z -> Z -> M queue unit) (fd : Z) (cs : list Z) : M queue unit :=
  match cs with
  | [] => ret tt
  | c :: cs => do! send fd c; send_all send fd cs
  end.

Lemma send_all_app send fd cs ds q :
  send_all send fd (cs ++ ds) q = (do! send_all send fd cs; send_all send fd ds) q.
Proof.
  revert q. induction cs as [|c cs IH]; intros q; [done|]. cbn [app send_all]. unfold bind.
  destruct (send fd c q) as [[] q1|]; [|done]. apply IH.
Qed.

Lemma send_stuffed_all send fd c q : send_stuffed send fd c q = send_all send fd (stuff1 c) q.
Proof.
  unfold send_stuffed, stuff1, special. cbn [delim esc code slip_stuffing].
  destruct (Z.eqb_spec c SLIP_END) as [->|H1]; [|destruct (Z.eqb_spec c SLIP_ESC) as [->|H2]]; cbn [orb send_all];
    unfold bind, ret; repeat (destruct (send _ _ _) as [[] ?|]; try done).
Qed.

(** A packet is sent as its stuffed text and the delimiter. *)
Lemma send_packet_all send fd p q : send_packet send fd p q = send_all send fd (stuff p ++ [SLIP_END]) q.
Proof.
  unfold send_packet. rewrite send_all_app.
  assert (forall q, send_bytes send fd p q = send_all send fd (stuff p) q) as E.
  { induction p as [|c p IH]; intros s; [done|]. rewrite stuff_cons, send_all_app. cbn [send_bytes]. unfold bind.
    rewrite send_stuffed_all. destruct (send_all send fd (stuff1 c) s) as [[] s1|]; [|done]. apply IH. }
  unfold bind. rewrite E. destruct (send_all send fd (stuff p) q) as [[] q1|]; [|done].
  cbn. unfold bind. by destruct (send fd SLIP_END q1) as [[] ?|].
Qed.

Lemma send_all_ok fd cs : forall q,
  queue_wf q ->
  if decide (slip_end q + Z.of_nat (length cs) <= SLIP_BUF) then
    exists q', send_all slip_send fd cs q = Ret tt q' /\ queue_wf q' /\ pending q' = pending q ++ cs /\
      slip_end q' = slip_end q + Z.of_nat (length cs) /\ sys q' = sys q
  else send_all slip_send fd cs q = Err Exited.
Proof.
  induction cs as [|c cs IH]; intros q Hq; cbn [send_all length].
  { destruct Hq as (Hl & Hb & He & Hz). rewrite decide_True by lia. exists q. rewrite app_nil_r.
    split; [done|]. split; [done|]. split; [done|]. split; [lia|done]. }
  destruct (decide (slip_end q < SLIP_BUF)) as [Hlt|Hge].
  - destruct (slip_put_ok c q Hq Hlt) as (q1 & E1 & Hq1 & Hp1 & He1 & Hs1). specialize (IH q1 Hq1).
    rewrite He1 in IH. unfold slip_send at 2 4. rewrite (bind_ret _ _ _ _ _ E1).
    replace (slip_end q + Z.of_nat (S (length cs))) with (slip_end q + 1 + Z.of_nat (length cs)) by lia.
    case_decide; [|done]. destruct IH as (q' & E & Hq' & Hp & He & Hs). exists q'.
    rewrite Hp, Hp1, <- app_assoc, Hs, Hs1. done.
  - rewrite decide_False by lia. apply bind_err, slip_put_full. lia.
Qed.

(** tunslip.c and tapslip6.c queue a packet as one frame, or end when the
    frame does not fit into the buffer: a packet of 1000 bytes can be too
    much. *)
Theorem slip_packet_queued fd p q :
  queue_wf q ->
  if decide (slip_end q + Z.of_nat (length (stuff p)) < SLIP_BUF) then
    exists q', send_packet slip_send fd p q = Ret tt q' /\ queue_wf q' /\
      pending q' = pending q ++ stuff p ++ [SLIP_END] /\ sys q' = sys q
  else send_packet slip_send fd p q = Err Exited.
Proof.
  intros Hq. rewrite send_packet_all. pose proof (send_all_ok fd (stuff p ++ [SLIP_END]) q Hq) as H.
  rewrite length_app in H. cbn in H. repeat case_decide; try lia; [|done].
  destruct H as (q' & E & Hq' & Hp & _ & Hs). by exists q'.
Qed.

(** *** The queue of tunslip6.c *)

(** Bytes that have left or wait, in the order they were sent. *)
Definition line (fd : Z) (q : queue) : list Z := written fd (events (sys q)) ++ pending q.

Lemma slip_send6_ok fd c q es :
  queue_wf q -> slip_end q < SLIP_BUF -> sys q = Host [] es ->
  exists q' es', slip_send6 fd c q = Ret tt q' /\ queue_wf q' /\ slip_end q' < SLIP_BUF /\ sys q' = Host [] es' /\
    line fd q' = line fd q ++ [c].
Proof.
  intros Hq Hlt Hs. destruct (slip_put_ok c q Hq Hlt) as (q1 & E1 & Hq1 & Hp1 & He1 & Hs1).
  unfold slip_send6. rewrite (bind_ret _ _ _ _ _ E1), (bind_ret _ _ _ _ _ (gets_ok _ _)). unfold id.
  rewrite Hs in Hs1. destruct (Z.leb_spec SLIP_BUF (slip_end q1)) as [Hle|Hgt]; cbn [when].
  - destruct (flush_took fd q1 [] (length (pending q1)) es) as (q2 & E2 & Hq2 & Hp2 & Hs2 & He2); try done.
    { intros E. unfold SLIP_BUF in *. lia. }
    { by right. }
    exists q2, (es ++ [Wrote fd (pending q1)]). rewrite decide_True in He2 by done. rewrite firstn_all in Hs2.
    split; [done|]. split; [done|]. split; [rewrite He2; unfold SLIP_BUF; lia|]. split; [done|].
    unfold line. rewrite Hs2, Hp2, drop_all, Hs. cbn [events].
    by rewrite written_app, written_one, Hp1, app_nil_r, app_assoc.
  - exists q1, es. split; [done|]. split; [done|]. split; [done|]. split; [done|].
    unfold line. by rewrite Hs1, Hs, Hp1, app_assoc.
Qed.

Lemma send_all6_ok fd cs : forall q es,
  queue_wf q -> slip_end q < SLIP_BUF -> sys q = Host [] es ->
  exists q' es', send_all slip_send6 fd cs q = Ret tt q' /\ queue_wf q' /\ slip_end q' < SLIP_BUF /\
    sys q' = Host [] es' /\ line fd q' = line fd q ++ cs.
Proof.
  induction cs as [|c cs IH]; intros q es Hq Hlt Hs; cbn [send_all].
  { exists q, es. by rewrite app_nil_r. }
  destruct (slip_send6_ok fd c q es Hq Hlt Hs) as (q1 & es1 & E1 & Hq1 & Hlt1 & Hs1 & L1).
  destruct (IH q1 es1 Hq1 Hlt1 Hs1) as (q' & es' & E & Hq' & Hlt' & Hs' & L).
  exists q', es'. rewrite (bind_ret _ _ _ _ _ E1), L, L1, <- app_assoc. done.
Qed.

(** tunslip6.c sends packets of any length, as long as [write] takes what it
    is given. *)
Lemma slip6_packet_sent fd p q es :
  queue_wf q -> slip_end q < SLIP_BUF -> sys q = Host [] es ->
  exists q' es', send_packet slip_send6 fd p q = Ret tt q' /\ queue_wf q' /\ slip_end q' < SLIP_BUF /\
    sys q' = Host [] es' /\ line fd q' = line fd q ++ stuff p ++ [SLIP_END].
Proof. intros. rewrite send_packet_all. by apply (send_all6_ok fd _ q es). Qed.

(** ... and ends, with bytes in the buffer that were already written, when the
    full buffer is taken in part only: the part is not given back. *)
Theorem slip6_partial_flush_exits fd c d q es n l :
  queue_wf q -> slip_end q = SLIP_BUF - 1 -> sys q = Host (Took n :: l) es ->
  (n < Z.to_nat (SLIP_BUF - slip_begin q))%nat ->
  (do! slip_send6 fd c; slip_send6 fd d) q = Err Exited.
Proof.
  intros Hq He Hs Hn. destruct (slip_put_ok c q Hq) as (q1 & E1 & Hq1 & Hp1 & He1 & Hs1); [lia|].
  assert (slip_begin q1 = slip_begin q) as Hb1.
  { revert E1. unfold slip_put, bind, gets, id, unwrap, modify. rewrite (proj2 (Z.leb_gt _ _)) by lia.
    destruct (aset _ _ _); [|done]. by intros [= <-]. }
  pose proof (pending_length q1 Hq1) as Hl. rewrite He1, He, Hb1 in Hl.
  destruct (flush_took fd q1 l n es) as (q2 & E2 & _ & _ & _ & He2).
  { done. } { unfold SLIP_BUF in *. lia. } { lia. } { left. exists n. split; [congruence|lia]. }
  rewrite decide_False in He2 by lia.
  rewrite (bind_ret _ _ _ tt q2).
  - unfold slip_send6. apply bind_err, slip_put_full. lia.
  - unfold slip_send6. rewrite (bind_ret _ _ _ _ _ E1), (bind_ret _ _ _ _ _ (gets_ok _ _)). unfold id.
    rewrite (proj2 (Z.leb_le _ _)) by lia. exact E2.
Qed.

(** *** Flushing *)

Lemma flush_again fd q l es :
  slip_end q <> 0 -> sys q = Host (Again :: l) es ->
  slip_flushbuf fd q = Ret tt (with_sys (Host l es) q).
Proof.
  intros Hnz Hs. unfold slip_flushbuf, slip_empty.
  rewrite (bind_ret _ _ _ _ _ (gets_ok _ _)), (proj2 (Z.eqb_neq _ _) Hnz), (bind_ret _ _ _ _ _ (gets_ok _ _)).
  unfold id, on_sys, zoom, bind. by rewrite Hs.
Qed.

(** A flush writes the front of the queue, as much as [write] takes. *)
Lemma flush_line fd q l es :
  queue_wf q -> slip_end q <> 0 -> sys q = Host l es -> hd_error l <> Some Failed ->
  exists q' es', slip_flushbuf fd q = Ret tt q' /\ queue_wf q' /\ sys q' = Host (tail l) es' /\
    line fd q' = line fd q /\
    length (pending q') = match l with
                          | Took n :: _ => (length (pending q) - n)%nat
                          | [] => O
                          | _ => length (pending q)
                          end.
Proof.
  intros Hq Hnz Hs Hl.
  assert (forall n, (n <= length (pending q))%nat ->
    (exists m, sys q = Host (Took m :: tail l) es /\ n = Nat.min m (length (pending q))) \/
      (sys q = Host [] es /\ tail l = [] /\ n = length (pending q)) ->
    exists q' es', slip_flushbuf fd q = Ret tt q' /\ queue_wf q' /\ sys q' = Host (tail l) es' /\
      line fd q' = line fd q /\ length (pending q') = (length (pending q) - n)%nat) as Htook.
  { intros n Hn Hc. destruct (flush_took fd q (tail l) n es Hq Hnz Hn Hc) as (q' & E & Hq' & Hp & Hs' & _).
    eexists q', _. split; [done|]. split; [done|]. split; [done|]. unfold line.
    rewrite Hp, length_drop, Hs', Hs. cbn [events]. by rewrite written_app, written_one, <- app_assoc, take_drop. }
  destruct l as [|[n| |] l]; cbn [tail] in *.
  - destruct (Htook (length (pending q))) as (q' & es' & H); [lia|by right|]. rewrite Nat.sub_diag in H. eauto.
  - destruct (Htook (Nat.min n (length (pending q)))) as (q' & es' & H); [lia|by left; exists n|].
    replace (length (pending q) - _)%nat with (length (pending q) - n)%nat in H by lia. eauto.
  - exists (with_sys (Host l es) q), es. rewrite (flush_again fd q l es Hnz Hs).
    split; [done|]. split; [exact Hq|]. split; [done|]. split; [|done]. unfold line. by rewrite Hs.
  - done.
Qed.

Fixpoint flushes (fd : Z) (n : nat) : M queue unit :=
  match n with O => ret tt | Datatypes.S n => do! slip_flushbuf fd; flushes fd n end.

(** Flushes write the queue in order and every byte once, whatever part each
    [write] takes and however often it says [EAGAIN]; the queue is empty after
    as many flushes as there are answers and bytes at the latest. *)
Theorem slip_flush_order fd k : forall q l es,
  queue_wf q -> sys q = Host l es -> Failed ∉ l ->
  (length l + length (pending q) <= k)%nat ->
  exists q' es', flushes fd k q = Ret tt q' /\ queue_wf q' /\ pending q' = [] /\ events (sys q') = es' /\
    written fd es' = written fd es ++ pending q.
Proof.
  induction k as [|k IH]; intros q l es Hq Hs Hl Hk; cbn [flushes].
  { exists q, es. assert (pending q = []) as E by (apply length_zero_iff_nil; lia).
    rewrite E, app_nil_r, Hs. done. }
  destruct (decide (slip_end q = 0)) as [Hz|Hnz].
  - rewrite (bind_ret _ _ _ tt q).
    2: { unfold slip_flushbuf, slip_empty. by rewrite (bind_ret _ _ _ _ _ (gets_ok _ _)), (proj2 (Z.eqb_eq _ _) Hz). }
    clear IH. assert (forall k, flushes fd k q = Ret tt q) as ->.
    { clear k Hk. induction k as [|k IH]; [done|]. cbn [flushes]. rewrite (bind_ret _ _ _ tt q); [done|].
      unfold slip_flushbuf, slip_empty. by rewrite (bind_ret _ _ _ _ _ (gets_ok _ _)), (proj2 (Z.eqb_eq _ _) Hz). }
    exists q, es. rewrite (proj2 (pending_nil q Hq) Hz), app_nil_r, Hs. done.
  - destruct (flush_line fd q l es Hq Hnz Hs) as (q1 & es1 & E1 & Hq1 & Hs1 & L1 & Hn1).
    { destruct l as [|[]]; try done. exfalso. apply Hl. by left. }
    destruct (IH q1 (tail l) es1 Hq1 Hs1) as (q' & es' & E & Hq' & Hp & He & Hw).
    + intros Hin. apply Hl. destruct l; [done|by right].
    + destruct l as [|[n| |] l]; cbn in *; try lia.
    + exists q', es'. rewrite (bind_ret _ _ _ _ _ E1). split; [done|]. split; [done|]. split; [done|].
      split; [done|]. rewrite Hw. unfold line in L1. by rewrite Hs1, Hs in L1.
Qed.

(** A flush keeps to the buffer. *)
Lemma slip_flushbuf_safe fd q : queue_wf q -> safe (fun _ q' => queue_wf q' /\ slip_end q' <= slip_end q) (slip_flushbuf fd q).
Proof.
  intros Hq. pose proof (pending_length q Hq) as Hl. pose proof Hq as (Hb & Hr & He & Hz). unfold slip_flushbuf.
  apply (safe_bind _ _ _ (fun e s => s = q /\ (e = false -> slip_end q <> 0))).
  { cbn. split; [done|]. by intros ?%Z.eqb_neq. }
  intros e s [-> Hne]. destruct e; [cbn; split; [done|lia]|]. specialize (Hne eq_refl).
  rewrite (bind_ret _ _ _ _ _ (gets_ok _ _)). unfold id. fold (pending q).
  apply (safe_bind _ _ _ (fun r s => (exists h, s = with_sys h q) /\ forall n, r = Took n -> (n <= length (pending q))%nat)).
  { unfold on_sys, zoom. pose proof (write_safe fd (pending q) (sys q)) as H. destruct (write _ _ _); [|done].
    split; [by eexists|done]. }
  intros r s [[h ->] Hr']. destruct r as [n| |]; [|cbn; split; [exact Hq|lia]|done].
  specialize (Hr' n eq_refl). rewrite (bind_ret _ _ _ _ _ (modify_ok _ _)), modify_ok. cbn [safe slip_begin slip_end with_sys slip_buf].
  destruct (Z.eqb_spec (slip_begin q + Z.of_nat n) (slip_end q)); cbn; unfold queue_wf, SLIP_BUF in *; cbn; lia.
Qed.

(** ** Witnesses *)

Definition demo_queue (ws : list wres) : queue := Queue (replicate 2000 0) 0 3 (Host ws []).

Lemma demo_queue_wf ws : queue_wf (demo_queue ws).
Proof. unfold queue_wf, SLIP_BUF. cbn. lia. Qed.

Lemma slip_flush_order_witness : exists q' es',
  flushes 4 5 (demo_queue [Took 1; Again]) = Ret tt q' /\ queue_wf q' /\ pending q' = [] /\ events (sys q') = es' /\
  written 4 es' = written 4 [] ++ [0; 0; 0].
Proof.
  apply (slip_flush_order 4 5 (demo_queue [Took 1; Again]) [Took 1; Again] []).
  - apply demo_queue_wf.
  - done.
  - by rewrite !elem_of_cons, elem_of_nil; naive_solver.
  - vm_compute. lia.
Defined.

Lemma slip_packet_queued_witness :
  if decide (slip_end (demo_queue []) + Z.of_nat (length (stuff [1; SLIP_END])) < SLIP_BUF) then
    exists q', send_packet slip_send 4 [1; SLIP_END] (demo_queue []) = Ret tt q' /\ queue_wf q' /\
      pending q' = pending (demo_queue []) ++ stuff [1; SLIP_END] ++ [SLIP_END] /\ sys q' = sys (demo_queue [])
  else send_packet slip_send 4 [1; SLIP_END] (demo_queue []) = Err Exited.
Proof. apply (slip_packet_queued 4 [1; SLIP_END] (demo_queue [])). apply demo_queue_wf. Defined.
