(* ===== verification/Tunslip6.v ===== *)
(** * The SLIP tunnel (dist/tools/tunslip/tunslip6.c)

    Packets between a tun device and a SLIP line.  What is read from the line
    is a list of bytes that [fread] takes from the front; [fread] of a line
    without bytes returns 0, as it does on a descriptor that does not block.
    Output to the terminal is kept, time stamps and messages on stderr and the
    hex dumps of higher verbosity are not. *)

From S2P Require Import Prelude Framing Slip.

Definition INBUF : Z := 2000.
Definition DEBUG_LINE_MARKER : Z := 13.
Definition NEWLINE : Z := 10.

Record tun6 : Type := Tun6 { inbuf : list Z; inbufptr : Z; input : list Z; que : queue }.

Definition with_inbuf (v : list Z) (s : tun6) : tun6 := Tun6 v (inbufptr s) (input s) (que s).
Definition with_inbufptr (v : Z) (s : tun6) : tun6 := Tun6 (inbuf s) v (input s) (que s).
Definition with_input (v : list Z) (s : tun6) : tun6 := Tun6 (inbuf s) (inbufptr s) v (que s).
Definition with_que (v : queue) (s : tun6) : tun6 := Tun6 (inbuf s) (inbufptr s) (input s) v.
Definition on_que {A} : M queue A -> M tun6 A := zoom que with_que.
Definition on_host {A} (m : M host A) : M tun6 A := on_que (on_sys m).

(** [fread(&c, 1, 1, inslip)], [None] when it returns 0; and [ungetc]. *)
Definition fread : M tun6 (option Z) :=
  let! s := gets id in
  match input s with
  | [] => ret None
  | c :: cs => do! modify (with_input cs); ret (Some c)
  end.
Definition ungetc (c : Z) : M tun6 unit := modify (fun s => with_input (c :: input s) s).

(** The characters that may occur in a text, and those that make it one. *)
Definition printable (c : Z) : bool :=
  (c =? 13) || (c =? 10) || (c =? 9) || negb ((c <? 32) || (126 <? c)).
Definition alnum (c : Z) : bool :=
  ((65 <=? c) && (c <=? 90)) || ((97 <=? c) && (c <=? 122)) || ((48 <=? c) && (c <=? 57)).

Fixpoint sensible_loop (s : list Z) (ret : bool) : bool :=
  match s with
  | [] => ret
  | c :: s =>
      if (c =? 13) || (c =? 10) || (c =? 9) then sensible_loop s ret
      else if (c <? 32) || (126 <? c) then false
      else sensible_loop s (if alnum c then true else ret)
  end.
Definition is_sensible_string (s : list Z) : bool :=
  match s with
  | 0x60 :: _ => false
  | _ => sensible_loop s false
  end.

(** The hexadecimal address of the gateway, with colons, from the 16 bytes at
    [inbuf + 2]. *)
Fixpoint mac_text (i : Z) (bs : list Z) : list Z :=
  match bs with
  | [] => []
  | b :: bs => [b] ++ (if (Z.land i 1 =? 1) && (i <? 14) then [58] else []) ++ mac_text (i + 1) bs
  end.

(** A text up to its terminating zero. *)
Fixpoint c_str (bs : list Z) : list Z :=
  match bs with
  | [] => []
  | b :: bs => if b =? 0 then [] else b :: c_str bs
  end.

Definition IF_DOWN : Z := 2.
Definition IF_HW_ETHER : Z := 3.
Definition IF_UP : Z := 4.

Section tunslip6.
(** The descriptors, the verbosity, and the first eight bytes of the address
    on the command line as [inet_pton] gives them. *)
Context (slipfd tunfd verbose : Z) (prefix : list Z).
Definition STDOUT : Z := 1.

(** [inbuf[0..inbufptr)] *)
Definition received (s : tun6) : list Z := take (Z.to_nat (inbufptr s)) (inbuf s).

Fixpoint send_prefix (bs : list Z) : M queue unit :=
  match bs with
  | [] => ret tt
  | b :: bs => do! send_stuffed slip_send6 slipfd b; send_prefix bs
  end.

Definition on_packet : M tun6 unit :=
  let! s := gets id in
  let! b0 := unwrap OutOfBounds (aget (inbuf s) 0) in
  let! b1 := unwrap OutOfBounds (aget (inbuf s) 1) in
  if b0 =? 33 then
    when (b1 =? 77)
      (let macs := mac_text 0 (take 16 (drop 2 (inbuf s))) in
       do! on_host (emit (Ran IF_DOWN []));
       do! on_host (emit (Ran IF_HW_ETHER (c_str (drop 6 macs))));
       on_host (emit (Ran IF_UP [])))
  else if b0 =? 63 then
    when (b1 =? 80)
      (do! on_que (slip_send6 slipfd 33);
       do! on_que (slip_send6 slipfd 80);
       do! on_que (send_prefix prefix);
       on_que (slip_send6 slipfd SLIP_END))
  else if b0 =? DEBUG_LINE_MARKER then
    on_host (emit (Wrote STDOUT (tail (received s))))
  else if is_sensible_string (received s) then
    when (verbose =? 1) (on_host (emit (Wrote STDOUT (received s))))
  else
    let! r := on_host (write tunfd (received s)) in
    match r with
    | Took n => if Z.of_nat n =? inbufptr s then ret tt else fail Exited
    | _ => fail Exited
    end.

(** [uip.inbuf[inbufptr++] = c] and the echo of lines and characters. *)
Definition store_char (c : Z) : M tun6 unit :=
  let! s := gets id in
  let! b := unwrap OutOfBounds (aset (inbuf s) (inbufptr s) c) in
  do! modify (with_inbuf b);
  do! modify (fun s => with_inbufptr (inbufptr s + 1) s);
  let! s := gets id in
  if (verbose =? 2) || (verbose =? 3) || (4 <? verbose) then
    when ((c =? NEWLINE) && is_sensible_string (received s))
      (do! on_host (emit (Wrote STDOUT (received s)));
       modify (with_inbufptr 0))
  else when (verbose =? 4)
    (when ((c =? 0) || printable c) (on_host (emit (Wrote STDOUT [c])))).

(** A character that was read; [false] when the function returns. *)
Definition on_char (c : Z) : M tun6 bool :=
  if c =? SLIP_END then
    let! s := gets id in
    do! when (0 <? inbufptr s) (do! on_packet; modify (with_inbufptr 0));
    ret true
  else if c =? SLIP_ESC then
    let! d := fread in
    match d with
    | None => do! ungetc SLIP_ESC; ret false
    | Some d =>
        do! store_char (if d =? SLIP_ESC_END then SLIP_END else if d =? SLIP_ESC_ESC then SLIP_ESC else d);
        ret true
    end
  else do! store_char c; ret true.

(** The top of the loop: a buffer that is full is dropped. *)
Definition drop_full : M tun6 unit :=
  modify (fun s => if INBUF <=? inbufptr s then with_inbufptr 0 s else s).

Definition read_step (_ : unit) : M tun6 (unit + unit) :=
  do! drop_full;
  let! c := fread in
  match c with
  | None => ret (inr tt)
  | Some c => let! go := on_char c in ret (if go then inl tt else inr tt)
  end.

Definition read_more (fuel : nat) : M tun6 unit := loop fuel read_step tt.

(** On Linux the first character is read before the loop is entered behind
    its check. *)
Definition serial_to_tun (fuel : nat) : M tun6 unit :=
  let! c := fread in
  match c with
  | None => fail Exited
  | Some c =>
      let! go := on_char c in
      if go then read_more fuel else ret tt
  end.

Definition write_to_serial (p : list Z) : M queue unit := send_packet slip_send6 slipfd p.

(** [read] of the tun device gave [p]; [None] when it failed. *)
Definition tun_to_serial (p : option (list Z)) : M queue unit :=
  match p with Some p => write_to_serial p | None => fail Exited end.

(** An iteration of [main] without delay between packets: what arrived on the
    line when it is readable, whether it can be written, and what the tun
    device has when it is readable.  The tun device is looked at only when the
    queue was empty before. *)
Definition main_iter (arrived : option (list Z)) (writable : bool) (packet : option (option (list Z))) : M tun6 unit :=
  let! empty := on_que slip_empty in
  do! match arrived with
      | Some bs =>
          do! modify (fun s => with_input (input s ++ bs) s);
          let! s := gets id in
          serial_to_tun (Datatypes.S (length (input s)))
      | None => ret tt
      end;
  do! when (negb empty && writable) (on_que (slip_flushbuf slipfd));
  let! e := on_que slip_empty in
  match packet with
  | Some p => when (e && empty) (do! on_que (tun_to_serial p); on_que (slip_flushbuf slipfd))
  | None => ret tt
  end.
End tunslip6.
