(* ===== verification/Tunslip6Props.v ===== *)
(** * Properties of the SLIP tunnel *)

From S2P Require Import Prelude Framing Slip Tunslip6.

Section props.
Context (slipfd tunfd verbose : Z) (prefix : list Z).
Abbreviation store := (store_char verbose).
Abbreviation char := (on_char slipfd tunfd verbose prefix).
Abbreviation more := (read_more slipfd tunfd verbose prefix).
Abbreviation serial := (serial_to_tun slipfd tunfd verbose prefix).
Abbreviation rstep := (read_step slipfd tunfd verbose prefix).

(** ** Memory safety *)

Definition tun_wf (s : tun6) : Prop :=
  length (inbuf s) = Z.to_nat INBUF /\ 0 <= inbufptr s <= INBUF /\ queue_wf (que s).

Lemma slip_send6_safe fd c q : queue_wf q -> safe (fun _ => queue_wf) (slip_send6 fd c q).
Proof.
  intros Hq. destruct (decide (slip_end q < SLIP_BUF)) as [Hlt|Hge].
  - destruct (slip_put_ok c q Hq Hlt) as (q1 & E1 & Hq1 & _). unfold slip_send6.
    rewrite (bind_ret _ _ _ _ _ E1), (bind_ret _ _ _ _ _ (gets_ok _ _)). unfold id.
    destruct (SLIP_BUF <=? slip_end q1); [|done].
    eapply safe_mono; [by apply slip_flushbuf_safe|]. naive_solver.
  - unfold slip_send6. rewrite (bind_err _ _ _ _ (slip_put_full c q ltac:(lia))). done.
Qed.

Lemma send_all6_safe fd cs q : queue_wf q -> safe (fun _ => queue_wf) (send_all slip_send6 fd cs q).
Proof.
  revert q. induction cs as [|c cs IH]; intros q Hq; [done|]. cbn [send_all].
  eapply safe_bind; [by apply slip_send6_safe|]. intros [] q'. apply IH.
Qed.

Lemma on_que_safe {A} (m : M queue A) s :
  tun_wf s -> safe (fun _ => queue_wf) (m (que s)) ->
  safe (fun _ s' => tun_wf s' /\ inbuf s' = inbuf s /\ inbufptr s' = inbufptr s /\ input s' = input s) (on_que m s).
Proof.
  intros (Hl & Hp & _) H. unfold on_que, zoom. destruct (m (que s)); [|done]. cbn in *. unfold tun_wf. naive_solver.
Qed.

Lemma on_host_safe {A} (m : M host A) s :
  tun_wf s -> safe (fun _ _ => True) (m (sys (que s))) ->
  safe (fun _ s' => tun_wf s' /\ inbuf s' = inbuf s /\ inbufptr s' = inbufptr s /\ input s' = input s) (on_host m s).
Proof.
  intros Hs H. apply on_que_safe; [done|]. destruct Hs as (_ & _ & Hq). unfold on_sys, zoom.
  by destruct (m (sys (que s))).
Qed.

Lemma emit_safe e h : safe (fun (_ : unit) (_ : host) => True) (emit e h).
Proof. done. Qed.

Lemma send_prefix_all fd bs q : send_prefix fd bs q = send_all slip_send6 fd (stuff bs) q.
Proof.
  revert q. induction bs as [|b bs IH]; intros q; [done|]. rewrite stuff_cons, send_all_app. cbn [send_prefix].
  unfold bind. rewrite send_stuffed_all. destruct (send_all _ _ _ q) as [[] q1|]; [|done]. apply IH.
Qed.

(** The state keeps its input. *)
Definition kept (s s' : tun6) : Prop := tun_wf s' /\ input s' = input s.

Lemma on_packet_safe s :
  tun_wf s -> safe (fun _ s' => kept s s' /\ inbufptr s' = inbufptr s) (on_packet slipfd tunfd verbose prefix s).
Proof.
  intros Hs. pose proof Hs as (Hl & Hp & Hq). unfold on_packet. rewrite (bind_ret _ _ _ _ _ (gets_ok _ _)). unfold id.
  destruct (aget_some (inbuf s) 0) as [b0 E0]; [rewrite Hl; unfold INBUF; lia|].
  destruct (aget_some (inbuf s) 1) as [b1 E1]; [rewrite Hl; unfold INBUF; lia|].
  rewrite E0, E1. cbn [unwrap]. rewrite !(bind_ret (ret _) _ _ _ _ eq_refl).
  assert (forall m : M host unit, safe (fun _ _ => True) (m (sys (que s))) ->
    safe (fun _ s' => kept s s' /\ inbufptr s' = inbufptr s) (on_host m s)) as Hhost.
  { intros m Hm. eapply safe_mono; [by apply on_host_safe|]. unfold kept. naive_solver. }
  assert (safe (fun _ s' => kept s s' /\ inbufptr s' = inbufptr s) (ret tt s)) as Hret by exact (conj (conj Hs eq_refl) eq_refl).
  destruct (b0 =? 33); [destruct (b1 =? 77); [|exact Hret]|].
  { cbn. unfold kept, tun_wf. cbn. done. }
  destruct (b0 =? 63); [destruct (b1 =? 80); [|exact Hret]|].
  { cbn [when]. eapply safe_bind; [apply (on_que_safe _ s Hs); eapply slip_send6_safe; done|].
    intros [] s1 (H1 & E1a & E1b & E1c). eapply safe_bind; [apply (on_que_safe _ s1 H1); eapply slip_send6_safe, H1|].
    intros [] s2 (H2 & E2a & E2b & E2c). eapply safe_bind.
    { apply (on_que_safe _ s2 H2). rewrite send_prefix_all. apply send_all6_safe, H2. }
    intros [] s3 (H3 & E3a & E3b & E3c). eapply safe_mono; [apply (on_que_safe _ s3 H3); eapply slip_send6_safe, H3|].
    intros [] s4 (H4 & E4a & E4b & E4c). unfold kept. repeat split; try congruence; apply H4. }
  destruct (b0 =? DEBUG_LINE_MARKER); [by apply Hhost|]. destruct (is_sensible_string _).
  { destruct (verbose =? 1); [by apply Hhost|exact Hret]. }
  eapply safe_bind; [apply (on_host_safe _ s Hs)|].
  { eapply safe_mono; [apply write_safe|]. done. }
  intros r s1 (H1 & Ea & Eb & Ec). destruct r; [|done..]. destruct (_ =? _); [|done]. exact (conj (conj H1 Ec) Eb).
Qed.

Lemma store_char_safe c s :
  tun_wf s -> inbufptr s < INBUF -> safe (fun _ s' => kept s s') (store c s).
Proof.
  intros (Hl & Hp & Hq) Hlt. unfold store_char. rewrite (bind_ret _ _ _ _ _ (gets_ok _ _)). unfold id.
  rewrite aset_ok by (rewrite Hl; unfold INBUF in *; lia). cbn [unwrap].
  rewrite (bind_ret (ret _) _ _ _ _ eq_refl), !(bind_ret _ _ _ _ _ (modify_ok _ _)), (bind_ret _ _ _ _ _ (gets_ok _ _)).
  set (s1 := with_inbufptr _ _). assert (kept s s1) as H1.
  { unfold kept, tun_wf. cbn. rewrite length_insert. unfold INBUF in *. repeat split; try lia; apply Hq. }
  assert (forall e, safe (fun _ s' => kept s s') (on_host (emit e) s1)) as He by (intros e; exact H1).
  destruct (_ || _); [|destruct (verbose =? 4); [|exact H1]]; (destruct (_ && _) || destruct (_ || _)); try exact H1.
  eapply safe_bind; [apply He|]. intros [] s2 [(Hl2 & _ & Hq2) Hi2]. cbn. unfold kept, tun_wf, INBUF in *. cbn.
  repeat split; try congruence; try lia; apply Hq2.
Qed.

Lemma fread_ok s :
  fread s = match input s with [] => Ret None s | c :: cs => Ret (Some c) (with_input cs s) end.
Proof. unfold fread. rewrite (bind_ret _ _ _ _ _ (gets_ok _ _)). unfold id. by destruct (input s). Qed.

(** A character is handled inside the buffers; only the one behind an escape
    is taken from the input. *)
Lemma on_char_safe c s :
  tun_wf s -> inbufptr s < INBUF ->
  safe (fun go s' => tun_wf s' /\ (go = false -> inbufptr s' < INBUF) /\
    (if go then (length (input s') <= length (input s))%nat else True)) (char c s).
Proof.
  intros Hs Hlt. unfold on_char. destruct (c =? SLIP_END).
  - rewrite (bind_ret _ _ _ _ _ (gets_ok _ _)). unfold id. destruct (0 <? inbufptr s); cbn [when].
    + apply (safe_bind _ _ _ (fun _ => kept s)).
      * eapply safe_bind; [apply on_packet_safe, Hs|]. intros [] s1 [[(Hl & _ & Hq) Hi] _].
        cbn. unfold kept, tun_wf, INBUF in *. cbn. repeat split; try lia; try done; apply Hq.
      * intros [] s1 [H1 Hi]. cbn. rewrite Hi. done.
    + cbn. split; [done|]. split; [done|lia].
  - destruct (c =? SLIP_ESC).
    + unfold bind at 1. rewrite fread_ok. destruct (input s) as [|d cs] eqn:Ei.
      * cbn. split; [exact Hs|]. done.
      * eapply safe_bind; [apply store_char_safe; [exact Hs|done]|]. intros [] s1 [H1 Hi]. cbn in *.
        split; [done|]. split; [done|]. rewrite Hi. lia.
    + eapply safe_bind; [apply store_char_safe; [exact Hs|done]|]. intros [] s1 [H1 Hi]. cbn in *.
      split; [done|]. split; [done|]. rewrite Hi. lia.
Qed.

Lemma drop_full_ok s :
  tun_wf s -> exists s', drop_full s = Ret tt s' /\ tun_wf s' /\ inbufptr s' < INBUF /\ input s' = input s.
Proof.
  intros (Hl & Hp & Hq). unfold drop_full. rewrite modify_ok. eexists. split; [done|].
  destruct (Z.leb_spec INBUF (inbufptr s)); cbn; unfold tun_wf, INBUF in *; cbn; repeat split; try lia; apply Hq.
Qed.

Lemma read_more_safe fuel : forall s,
  tun_wf s -> (length (input s) < fuel)%nat ->
  safe (fun _ s' => tun_wf s' /\ inbufptr s' < INBUF) (more fuel s).
Proof.
  induction fuel as [|fuel IH]; intros s Hs Hf; [lia|]. unfold read_more. cbn [loop].
  destruct (drop_full_ok s Hs) as (s1 & E1 & H1 & Hlt & Hi). unfold read_step at 1.
  rewrite bind_assoc, (bind_ret _ _ _ _ _ E1), bind_assoc. unfold bind at 1. rewrite fread_ok, Hi.
  destruct (input s) as [|c cs] eqn:Ei; [done|]. rewrite bind_assoc.
  eapply safe_bind; [apply on_char_safe; [exact H1|done]|]. intros go s2 (H2 & Hgo & Hi2). cbn in Hi2.
  destruct go; [|by split; [|apply Hgo]]. apply IH; [done|]. cbn in Hf. lia.
Qed.

(** [serial_to_tun] reads what waits and leaves room for a byte. *)
Lemma serial_safe s :
  tun_wf s -> inbufptr s < INBUF ->
  safe (fun _ s' => tun_wf s' /\ inbufptr s' < INBUF) (serial (S (length (input s))) s).
Proof.
  intros Hs Hlt. unfold serial_to_tun. unfold bind at 1. rewrite fread_ok.
  destruct (input s) as [|c cs] eqn:Ei; [done|].
  eapply safe_bind; [apply on_char_safe; [exact Hs|done]|]. intros go s2 (H2 & Hgo & Hi2). cbn in Hi2.
  destruct go; [|by split; [|apply Hgo]]. apply read_more_safe; [done|]. cbn. lia.
Qed.

(** C34 Whatever bytes arrive on the line and whatever the tun device delivers, an
    iteration of the tunnel stays inside its buffers: it returns with a state
    that is well formed, and with room for a byte, or ends the program because
    a device failed, the queue is full or there was nothing to read. *)
Theorem tunnel_safe arrived writable packet s :
  tun_wf s -> inbufptr s < INBUF ->
  safe (fun _ s' => tun_wf s' /\ inbufptr s' < INBUF) (main_iter slipfd tunfd verbose prefix arrived writable packet s).
Proof.
  intros Hs Hlt. unfold main_iter.
  assert (forall A (m : M queue A) t, tun_wf t /\ inbufptr t < INBUF -> safe (fun _ => queue_wf) (m (que t)) ->
    safe (fun _ s' => tun_wf s' /\ inbufptr s' < INBUF) (on_que m t)) as Hq.
  { intros A m t [Ht Hl] Hm. eapply safe_mono; [by apply on_que_safe|]. intros a t' (H1 & _ & -> & _). done. }
  eapply safe_bind; [apply Hq; [done|apply Hs]|]. intros e s1 H1.
  apply (safe_bind _ _ _ (fun _ s' => tun_wf s' /\ inbufptr s' < INBUF)).
  { destruct arrived as [bs|]; [|done]. rewrite (bind_ret _ _ _ _ _ (modify_ok _ _)), (bind_ret _ _ _ _ _ (gets_ok _ _)).
    unfold id. by apply serial_safe; destruct H1. }
  intros [] s2 H2. apply (safe_bind _ _ _ (fun _ s' => tun_wf s' /\ inbufptr s' < INBUF)).
  { destruct (negb e && writable); [|done]. apply Hq; [done|].
    eapply safe_mono; [apply slip_flushbuf_safe, H2|]. naive_solver. }
  intros [] s3 H3. eapply safe_bind; [apply Hq; [done|apply H3]|]. intros e' s4 H4.
  destruct packet as [p|]; [|done]. destruct (e' && e); [|done]. cbn [when].
  eapply safe_bind; [apply Hq; [done|]|].
  { destruct p as [p|]; [|done]. unfold tun_to_serial, write_to_serial. rewrite send_packet_all. apply send_all6_safe, H4. }
  intros [] s5 H5. apply Hq; [done|]. eapply safe_mono; [apply slip_flushbuf_safe, H5|]. naive_solver.
Qed.

(** ** Reads compose *)

Definition arrive (y : list Z) (s : tun6) : tun6 := with_input (input s ++ y) s.

Definition mapst {S T A} (f : S -> T) (r : outcome S A) : outcome T A :=
  match r with Ret a s => Ret a (f s) | Err e => Err e end.

(** A computation that leaves the input alone. *)
Definition blind {A} (m : M tun6 A) : Prop := forall y s, m (arrive y s) = mapst (arrive y) (m s).

Lemma blind_bind {A B} (m : M tun6 A) (k : A -> M tun6 B) : blind m -> (forall a, blind (k a)) -> blind (bind m k).
Proof.
  intros Hm Hk y s. unfold bind. rewrite Hm. destruct (m s) as [a s'|]; [|done]. apply Hk.
Qed.

Lemma blind_on_que {A} (m : M queue A) : blind (on_que m).
Proof. intros y [b p i q]. unfold on_que, zoom. cbn. by destruct (m q). Qed.

Lemma blind_on_host {A} (m : M host A) : blind (on_host m).
Proof. apply blind_on_que. Qed.

Lemma blind_ret {A} (a : A) : blind (ret a).
Proof. done. Qed.

Lemma blind_when b m : blind m -> blind (when b m).
Proof. by destruct b. Qed.

Lemma blind_unwrap {A} f (o : option A) : blind (unwrap f o).
Proof. by destruct o. Qed.

Lemma blind_read {A B} (f : tun6 -> A) (k : A -> M tun6 B) :
  (forall y s, f (arrive y s) = f s) -> (forall a, blind (k a)) -> blind (bind (gets f) k).
Proof. intros Hf Hk y s. rewrite !(bind_ret _ _ _ _ _ (gets_ok _ _)), Hf. apply Hk. Qed.

Lemma blind_modify f : (forall y s, f (arrive y s) = arrive y (f s)) -> blind (modify f).
Proof. intros Hf y s. rewrite !modify_ok. cbn. by rewrite Hf. Qed.

Create HintDb blind.
Hint Resolve blind_bind blind_on_que blind_on_host blind_ret blind_when blind_unwrap blind_modify : blind.

Lemma on_packet_blind : blind (on_packet slipfd tunfd verbose prefix).
Proof.
  intros y s. unfold on_packet. rewrite !(bind_ret _ _ _ _ _ (gets_ok _ _)). unfold id.
  change (inbuf (arrive y s)) with (inbuf s). change (inbufptr (arrive y s)) with (inbufptr s).
  change (received (arrive y s)) with (received s).
  match goal with |- ?m _ = _ => enough (blind m) as H by apply H end.
  apply blind_bind; [auto with blind|intros b0]. apply blind_bind; [auto with blind|intros b1].
  repeat match goal with |- blind (if ?b then _ else _) => destruct b end; auto 10 with blind.
  apply blind_bind; [auto with blind|]. intros [n| |]; [|done..]. by destruct (_ =? _).
Qed.

Lemma store_char_blind c : blind (store c).
Proof.
  intros y [b p i q]. unfold store_char, bind, gets, id, unwrap, modify. cbn.
  destruct (aset b p c) as [b'|]; [|done]. cbn. unfold received. cbn.
  destruct (_ || _); [destruct (_ && _)|destruct (verbose =? 4); [destruct (_ || _)|]]; done.
Qed.

Lemma on_char_arrive c y s :
  char c (arrive y s) =
    match input s with
    | [] => if c =? SLIP_ESC then char c (with_input y s) else mapst (arrive y) (char c s)
    | _ => mapst (arrive y) (char c s)
    end.
Proof.
  assert (c <> SLIP_ESC -> char c (arrive y s) = mapst (arrive y) (char c s)) as Hne.
  { intros Hc%Z.eqb_neq. unfold on_char. rewrite Hc. destruct (c =? SLIP_END).
    - rewrite !(bind_ret _ _ _ _ _ (gets_ok _ _)). unfold id. change (inbufptr (arrive y s)) with (inbufptr s).
      apply (blind_bind (when (0 <? inbufptr s) (do! on_packet slipfd tunfd verbose prefix; modify (with_inbufptr 0)))).
      + apply blind_when, blind_bind; [apply on_packet_blind|]. intros _. by apply blind_modify.
      + intros _. apply blind_ret.
    - apply (blind_bind (store c)); [apply store_char_blind|]. intros _. apply blind_ret. }
  destruct (Z.eqb_spec c SLIP_ESC) as [->|Hc]; [|rewrite Hne by done; by destruct (input s)].
  destruct (input s) as [|d cs] eqn:Ei; [unfold arrive; by rewrite Ei|].
  destruct s as [b p i q]. cbn in Ei. subst i.
  set (e := if d =? SLIP_ESC_END then SLIP_END else if d =? SLIP_ESC_ESC then SLIP_ESC else d).
  exact (blind_bind (store e) (fun _ => ret true) (store_char_blind e) (fun _ => blind_ret _) y (Tun6 b p cs q)).
Qed.

Lemma on_char_false c s s' : char c s = Ret false s' -> c = SLIP_ESC /\ input s = [].
Proof.
  unfold on_char. destruct (c =? SLIP_END).
  - intros (a & s1 & _ & (b & s2 & _ & [=])%bind_inv)%bind_inv.
  - destruct (Z.eqb_spec c SLIP_ESC) as [->|].
    + unfold bind at 1. rewrite fread_ok. destruct (input s); [done|]. intros (a & s1 & _ & [=])%bind_inv.
    + intros (a & s1 & _ & [=])%bind_inv.
Qed.

(** ** Fuel *)

Lemma read_more_unfold fuel s s1 :
  drop_full s = Ret tt s1 ->
  more (S fuel) s =
    match input s with
    | [] => Ret tt s1
    | c :: cs => match char c (with_input cs s1) with
                 | Ret true s2 => more fuel s2
                 | Ret false s2 => Ret tt s2
                 | Err f => Err f
                 end
    end.
Proof.
  intros E. unfold read_more. cbn [loop]. unfold read_step at 1.
  rewrite bind_assoc, (bind_ret _ _ _ _ _ E), bind_assoc. unfold bind at 1. rewrite fread_ok.
  assert (input s1 = input s) as ->.
  { unfold drop_full in E. rewrite modify_ok in E. injection E as <-. by destruct (_ <=? _). }
  destruct (input s) as [|c cs]; [done|]. unfold bind. by destruct (char c _) as [[] s2|].
Qed.

Lemma read_more_fuel n : forall m s,
  tun_wf s -> (length (input s) < n)%nat -> (length (input s) < m)%nat -> more n s = more m s.
Proof.
  induction n as [|n IH]; intros m s Hs Hn Hm; [lia|]. destruct m as [|m]; [lia|].
  destruct (drop_full_ok s Hs) as (s1 & E & H1 & Hlt & Hi). rewrite !(read_more_unfold _ s s1 E).
  destruct (input s) as [|c cs]; [done|]. cbn in Hn, Hm.
  pose proof (on_char_safe c (with_input cs s1) H1 Hlt) as Hc.
  destruct (char c _) as [[] s2|]; [|done..]. cbn in Hc. destruct Hc as (H2 & _ & Hi2). cbn in Hi2.
  apply IH; [done|lia..].
Qed.

(** Reading the bytes [x] that wait and then, when [y] have arrived, the rest,
    is reading all of them. *)
Lemma read_more_arrive y n : forall s m k,
  tun_wf s -> (length (input s) < n)%nat -> (length (input s ++ y) < m)%nat -> (length (input s ++ y) < k)%nat ->
  more m (arrive y s) = match more n s with Ret _ s1 => more k (arrive y s1) | Err f => Err f end.
Proof.
  induction n as [|n IH]; intros s m k Hs Hn Hm Hk; [lia|]. destruct m as [|m]; [lia|].
  destruct (drop_full_ok s Hs) as (s1 & E & H1 & Hlt & Hi).
  assert (drop_full (arrive y s) = Ret tt (arrive y s1)) as Ey.
  { unfold drop_full in *. rewrite modify_ok in *. injection E as <-. change (inbufptr (arrive y s)) with (inbufptr s).
    by destruct (_ <=? _). }
  assert (drop_full (arrive y s1) = Ret tt (arrive y s1)) as Ey1.
  { unfold drop_full. rewrite modify_ok. change (inbufptr (arrive y s1)) with (inbufptr s1).
    by rewrite (proj2 (Z.leb_gt _ _)). }
  rewrite (read_more_unfold n s s1 E). destruct (input s) as [|c cs] eqn:Ei.
  - assert (more (S m) (arrive y s) = more (S m) (arrive y s1)) as ->.
    { rewrite (read_more_unfold m _ _ Ey), (read_more_unfold m _ _ Ey1). cbn. by rewrite Hi, Ei. }
    apply read_more_fuel; [exact H1|unfold arrive; cbn [input with_input]; rewrite Hi; cbn in *; lia..].
  - rewrite (read_more_unfold m _ _ Ey). cbn [input arrive with_input]. rewrite Ei. cbn [app].
    change (with_input (cs ++ y) (arrive y s1)) with (arrive y (with_input cs s1)). rewrite on_char_arrive.
    cbn [input with_input]. pose proof (on_char_safe c (with_input cs s1) H1 Hlt) as Hc.
    destruct (decide (cs = [] /\ c = SLIP_ESC)) as [[-> ->]|Hd].
    + change (char SLIP_ESC (with_input [] s1)) with (Ret false (with_input [SLIP_ESC] s1)).
      rewrite Z.eqb_refl. change (arrive y (with_input [SLIP_ESC] s1)) with (arrive y (with_input [SLIP_ESC] s1)).
      transitivity (more (S m) (arrive y (with_input [SLIP_ESC] s1))).
      * rewrite (read_more_unfold m _ (arrive y (with_input [SLIP_ESC] s1))); [done|].
        unfold drop_full. rewrite modify_ok.
        change (inbufptr (arrive y (with_input [SLIP_ESC] s1))) with (inbufptr s1). by rewrite (proj2 (Z.leb_gt _ _)).
      * apply read_more_fuel; [exact H1|cbn in *; lia..].
    + assert (forall r : outcome tun6 bool, (match cs with [] => if c =? SLIP_ESC then r else mapst (arrive y)
        (char c (with_input cs s1)) | _ => mapst (arrive y) (char c (with_input cs s1)) end)
        = mapst (arrive y) (char c (with_input cs s1))) as ->.
      { intros r. destruct cs; [|done]. destruct (Z.eqb_spec c SLIP_ESC); naive_solver. }
      pose proof (on_char_false c (with_input cs s1)) as Hf.
      destruct (char c (with_input cs s1)) as [[] s2|f]; cbn [mapst]; [| |done].
      * destruct Hc as (H2 & _ & Hi2). cbn in Hi2, Hn, Hm, Hk. rewrite length_app in Hm, Hk.
        apply IH; rewrite ?length_app; try done; lia.
      * exfalso. destruct (Hf s2 eq_refl). by apply Hd.
Qed.

Definition run (bs : list Z) (s : tun6) : outcome tun6 unit := serial (S (length (input s ++ bs))) (arrive bs s).

(** Reading [x] and then [y] is reading both at once, even where an escape
    sequence is cut in two. *)
Lemma run_app x y s :
  tun_wf s -> inbufptr s < INBUF -> x <> [] -> y <> [] ->
  run (x ++ y) s = match run x s with Ret _ s1 => run y s1 | Err f => Err f end.
Proof.
  intros Hs Hlt Hx Hy.
  assert (Hrun : forall bs s, tun_wf s -> inbufptr s < INBUF -> bs <> [] ->
    run bs s = more (S (S (length (input s ++ bs)))) (arrive bs s)).
  { intros bs s0 H0 Hlt0 Hbs. unfold run.
    rewrite (read_more_unfold _ _ (arrive bs s0)).
    2: { unfold drop_full. rewrite modify_ok. change (inbufptr (arrive bs s0)) with (inbufptr s0).
         by rewrite (proj2 (Z.leb_gt _ _)). }
    unfold serial_to_tun. unfold bind at 1. rewrite fread_ok. change (input (arrive bs s0)) with (input s0 ++ bs).
    destruct (input s0 ++ bs) eqn:E; [by apply app_eq_nil in E as [_ ->]|].
    unfold bind. by destruct (char _ _) as [[] ?|]. }
  rewrite !Hrun; [|done|done|done|done|done|by destruct x].
  pose proof (read_more_arrive y (S (S (length (input s ++ x)))) (arrive x s) (S (S (length (input s ++ x ++ y))))) as Hr.
  change (input (arrive x s)) with (input s ++ x) in Hr. 
  assert (arrive y (arrive x s) = arrive (x ++ y) s) as Ea by (unfold arrive; cbn; by rewrite app_assoc).
  rewrite Ea in Hr.
  pose proof (read_more_safe (S (S (length (input s ++ x)))) (arrive x s) Hs) as Hsafe.
  change (input (arrive x s)) with (input s ++ x) in Hsafe. specialize (Hsafe ltac:(lia)).
  destruct (more (S (S (length (input s ++ x)))) (arrive x s)) as [[] s1|f].
  - destruct Hsafe as [H1 Hlt1]. rewrite Hrun by done.
    rewrite (Hr (S (length (input s ++ x ++ y) + S (length (input s1 ++ y)))) Hs) by (rewrite ?length_app; lia).
    apply read_more_fuel; [exact H1|cbn; rewrite ?length_app; lia..].
  - apply (Hr (S (S (length (input s ++ x ++ y)))) Hs); rewrite ?length_app; lia.
Qed.

(** The line becomes readable again and again, with these reads. *)
Fixpoint line_reads (chunks : list (list Z)) : M tun6 unit :=
  match chunks with
  | [] => ret tt
  | c :: chunks => do! main_iter slipfd tunfd verbose prefix (Some c) false None; line_reads chunks
  end.

Lemma main_iter_read bs s : main_iter slipfd tunfd verbose prefix (Some bs) false None s = run bs s.
Proof.
  unfold main_iter, run. unfold bind at 1. unfold on_que at 1, zoom. cbn [slip_empty gets].
  assert (with_que (que s) s = s) as -> by (by destruct s).
  rewrite bind_assoc. unfold bind at 1. rewrite modify_ok, bind_assoc, (bind_ret _ _ _ _ _ (gets_ok _ _)). unfold id.
  change (with_input (input s ++ bs) s) with (arrive bs s). change (input (arrive bs s)) with (input s ++ bs).
  unfold bind at 1. destruct (serial _ _) as [[] s1|]; [|done]. rewrite andb_false_r. by destruct s1.
Qed.

Lemma line_reads_run chunks : forall s c,
  tun_wf s -> inbufptr s < INBUF -> Forall (fun c => c <> []) (c :: chunks) ->
  line_reads (c :: chunks) s = run (concat (c :: chunks)) s.
Proof.
  induction chunks as [|d chunks IH]; intros s c Hs Hlt HF; apply Forall_cons in HF as [Hc HF].
  - cbn [line_reads concat]. rewrite app_nil_r. unfold bind. rewrite main_iter_read. by destruct (run c s) as [[]|].
  - change (concat (c :: d :: chunks)) with (c ++ concat (d :: chunks)).
    rewrite (run_app c (concat (d :: chunks)) s Hs Hlt Hc).
    2: { apply Forall_cons in HF as [Hd _]. cbn. by destruct d. }
    change (line_reads (c :: d :: chunks)) with
      (do! main_iter slipfd tunfd verbose prefix (Some c) false None; line_reads (d :: chunks)).
    unfold bind. rewrite main_iter_read.
    pose proof (serial_safe (arrive c s) Hs Hlt) as Hsafe.
    change (safe (fun _ s' => tun_wf s' /\ inbufptr s' < INBUF) (run c s)) in Hsafe.
    destruct (run c s) as [[] s1|]; [|done]. destruct Hsafe as [H1 Hlt1].
    by apply IH.
Qed.

(** C33 The state does not depend on how the bytes of the line are cut into reads,
    even where an escape sequence is cut in two. *)
Theorem reads_compose cs ds s :
  tun_wf s -> inbufptr s < INBUF -> Forall (fun c => c <> []) cs -> Forall (fun d => d <> []) ds ->
  concat cs = concat ds -> line_reads cs s = line_reads ds s.
Proof.
  intros Hs Hlt Hc Hd E. destruct cs as [|c cs], ds as [|d ds].
  - done.
  - apply Forall_cons in Hd as [Hd _]. by destruct d.
  - apply Forall_cons in Hc as [Hc _]. by destruct c.
  - by rewrite !line_reads_run, E by done.
Qed.

(** ** Round trip *)

(** The receiver has [bs] of a packet, which may not be taken for a text. *)
Definition has (bs : list Z) (s : tun6) : Prop :=
  length (inbuf s) = Z.to_nat INBUF /\ inbufptr s = Z.of_nat (length bs) /\ received s = bs.

(** An IPv6 packet of traffic class 0. *)
Definition ipv6 (bs : list Z) : Prop := head bs = Some 0x60.

Lemma ipv6_not_text bs : ipv6 bs -> is_sensible_string bs = false.
Proof. destruct bs as [|b bs]; [done|]. by intros [= ->]. Qed.

Definition quiet : bool := negb (verbose =? 4).

Lemma store_char_has c bs s :
  has bs s -> Z.of_nat (length bs) < INBUF -> ipv6 (bs ++ [c]) -> quiet = true ->
  exists s', store c s = Ret tt s' /\ has (bs ++ [c]) s' /\ input s' = input s /\ que s' = que s.
Proof.
  intros (Hl & Hp & Hr) Hlt Hip Hquiet. unfold store_char. rewrite (bind_ret _ _ _ _ _ (gets_ok _ _)). unfold id.
  rewrite aset_ok by (rewrite Hl; unfold INBUF in *; lia). cbn [unwrap].
  rewrite (bind_ret (ret _) _ _ _ _ eq_refl), !(bind_ret _ _ _ _ _ (modify_ok _ _)), (bind_ret _ _ _ _ _ (gets_ok _ _)).
  set (s1 := with_inbufptr _ _). assert (received s1 = bs ++ [c]) as Er.
  { unfold received. subst s1. cbn. rewrite Hp. replace (Z.to_nat (Z.of_nat (length bs) + 1)) with (S (length bs)) by lia.
    rewrite Nat2Z.id, take_insert_snoc by (rewrite Hl; unfold INBUF in *; lia).
    unfold received in Hr. by rewrite Hp, Nat2Z.id in Hr; rewrite Hr. }
  exists s1. split.
  - rewrite Er, (ipv6_not_text _ Hip), andb_false_r. unfold quiet in Hquiet. apply negb_true_iff in Hquiet.
    rewrite Hquiet. by destruct (_ || _).
  - split; [|done]. split; [|split; [|done]]; subst s1; cbn; rewrite ?length_insert, ?length_app; [done|cbn; lia].
Qed.

(** A stuffed byte is taken from the front of the input ... *)
Lemma read_one_stuffed c bs rest s fuel :
  has bs s -> tun_wf s -> ipv6 (bs ++ [c]) -> Z.of_nat (length bs) < INBUF -> quiet = true ->
  input s = stuff1 c ++ rest ->
  exists s', has (bs ++ [c]) s' /\ tun_wf s' /\ input s' = rest /\ que s' = que s /\ more (S fuel) s = more fuel s'.
Proof.
  intros Hs Hwf Hip Hlt Hq Hi.
  assert (drop_full s = Ret tt s) as Ed.
  { destruct Hs as (_ & Hp & _). unfold drop_full. rewrite modify_ok, Hp. by rewrite (proj2 (Z.leb_gt _ _)). }
  destruct (store_char_has c bs (with_input rest s) Hs Hlt Hip Hq) as (s' & E & H' & Hi' & Hq').
  exists s'. split; [done|]. split; [|split; [done|split; [done|]]].
  { pose proof (store_char_safe c (with_input rest s) Hwf) as Hsafe. destruct Hs as (_ & Hp & _).
    cbn [inbufptr with_input] in Hsafe. rewrite Hp, E in Hsafe. by apply Hsafe. }
  rewrite (read_more_unfold fuel s s Ed), Hi. unfold stuff1. destruct (special c) eqn:Ec; cbn [app].
  - unfold on_char at 1. cbn [Z.eqb Pos.eqb SLIP_ESC SLIP_END esc slip_stuffing].
    unfold bind at 1. rewrite fread_ok. cbn [input with_input].
    assert (with_input rest (with_input (code c :: rest) s) = with_input rest s) as -> by done.
    assert ((if code c =? SLIP_ESC_END then SLIP_END else if code c =? SLIP_ESC_ESC then SLIP_ESC else code c) = c) as ->
      by (by apply slip_special in Ec as [-> | ->]).
    by rewrite (bind_ret _ _ _ _ _ E).
  - destruct (special_false c Ec) as [N1%Z.eqb_neq N2%Z.eqb_neq].
    unfold on_char at 1. cbn [delim esc slip_stuffing] in N1, N2. rewrite N1, N2. by rewrite (bind_ret _ _ _ _ _ E).
Qed.

(** ... and a stuffed text. *)
Lemma read_more_stuffed cs : forall bs rest s fuel,
  has bs s -> tun_wf s -> ipv6 (bs ++ cs) -> Z.of_nat (length (bs ++ cs)) < INBUF -> quiet = true ->
  input s = stuff cs ++ rest ->
  exists s', has (bs ++ cs) s' /\ tun_wf s' /\ input s' = rest /\ que s' = que s /\
    more (length cs + fuel) s = more fuel s'.
Proof.
  induction cs as [|c cs IH]; intros bs rest s fuel Hs Hwf Hip Hn Hq Hi.
  { rewrite app_nil_r. by exists s. }
  rewrite stuff_cons, <- app_assoc in Hi. rewrite length_app in Hn. cbn [length] in Hn.
  destruct (read_one_stuffed c bs (stuff cs ++ rest) s (length cs + fuel)) as (s1 & H1 & Hwf1 & Hi1 & Hq1 & E1);
    [done|done|by destruct bs|lia|done|done|].
  rewrite (app_assoc bs [c] cs : bs ++ c :: cs = _) in *.
  destruct (IH (bs ++ [c]) rest s1 fuel) as (s' & H' & Hwf' & Hi' & Hq' & E');
    [done|done|done|rewrite !length_app; cbn; lia|done|done|].
  exists s'. split; [done|]. split; [done|]. split; [done|]. split; [congruence|]. by rewrite <- E'.
Qed.

(** The end of the frame hands the packet to the tun device. *)
Lemma on_char_end p s es :
  has p s -> tun_wf s -> ipv6 p -> sys (que s) = Host [] es ->
  exists s', char SLIP_END s = Ret true s' /\ tun_wf s' /\ inbufptr s' = 0 /\ input s' = input s /\
    sys (que s') = Host [] (es ++ [Wrote tunfd p]).
Proof.
  intros (Hl & Hp & Hr) Hs Hip Hes. destruct p as [|b p]; [done|]. injection Hip as ->.
  assert (aget (inbuf s) 0 = Some 0x60) as H0.
  { change (inbuf s !! 0%nat = Some 0x60). unfold received in Hr. rewrite Hp, Nat2Z.id in Hr. rewrite <- (lookup_take_lt _ (length (0x60 :: p))), Hr; [done|cbn; lia]. }
  destruct (aget_some (inbuf s) 1) as [b1 E1]; [rewrite Hl; unfold INBUF; lia|].
  exists (with_inbufptr 0 (with_que (with_sys (Host [] (es ++ [Wrote tunfd (0x60 :: p)])) (que s)) s)).
  split; [|split; [|done]].
  - unfold on_char. rewrite Z.eqb_refl, (bind_ret _ _ _ _ _ (gets_ok _ _)). unfold id.
    rewrite (proj2 (Z.ltb_lt _ _)) by (rewrite Hp; cbn; lia). cbn [when]. rewrite bind_assoc.
    rewrite (bind_ret _ _ _ tt (with_que (with_sys (Host [] (es ++ [Wrote tunfd (0x60 :: p)])) (que s)) s)); [done|].
    unfold on_packet. rewrite (bind_ret _ _ _ _ _ (gets_ok _ _)). unfold id.
    rewrite H0, E1. cbn [unwrap]. rewrite !(bind_ret (ret _) _ _ _ _ eq_refl). cbn [Z.eqb Pos.eqb DEBUG_LINE_MARKER].
    rewrite Hr. change (is_sensible_string (0x60 :: p)) with false. cbn [orb].
    rewrite (bind_ret _ _ _ (Took (length (0x60 :: p)))
      (with_que (with_sys (Host [] (es ++ [Wrote tunfd (0x60 :: p)])) (que s)) s)).
    + by rewrite Hp, Z.eqb_refl.
    + unfold on_host, on_que, on_sys, zoom. by rewrite Hes, write_all.
  - unfold tun_wf, INBUF in *. cbn. destruct Hs as (_ & _ & Hq). repeat split; try lia; apply Hq.
Qed.

(** C32 An IPv6 packet (of traffic class 0, and below the 2000 bytes of the
    receiver) that one tunnel reads from its tun device is written to the tun
    device of the other as it was, however the line cuts it into reads, and
    both are then ready for the next one.  [write] is assumed to take what it
    is given. *)
Theorem tunslip6_roundtrip p q es s es' :
  ipv6 p -> Z.of_nat (length p) < INBUF -> quiet = true ->
  queue_wf q -> slip_end q = 0 -> sys q = Host [] es ->
  tun_wf s -> inbufptr s = 0 -> input s = [] -> sys (que s) = Host [] es' ->
  exists q', (do! tun_to_serial slipfd (Some p); slip_flushbuf slipfd) q = Ret tt q' /\
    queue_wf q' /\ slip_end q' = 0 /\
    written slipfd (events (sys q')) = written slipfd es ++ stuff p ++ [SLIP_END] /\
    forall chunks, concat chunks = stuff p ++ [SLIP_END] -> Forall (fun c => c <> []) chunks ->
    exists s', line_reads chunks s = Ret tt s' /\ tun_wf s' /\ inbufptr s' = 0 /\ input s' = [] /\
      sys (que s') = Host [] (es' ++ [Wrote tunfd p]).
Proof.
  intros Hip Hn Hquiet Hq He Hsys Hs Hp0 Hi Hes. 
  destruct (slip6_packet_sent slipfd p q es Hq) as (q1 & es1 & E1 & Hq1 & Hlt1 & Hs1 & L1);
    [rewrite He; unfold SLIP_BUF; lia|done|].
  assert (line slipfd q = written slipfd es) as L0.
  { unfold line. by rewrite Hsys, (proj2 (pending_nil q Hq) He), app_nil_r. }
  assert (exists q', slip_flushbuf slipfd q1 = Ret tt q' /\ queue_wf q' /\ slip_end q' = 0 /\
    written slipfd (events (sys q')) = line slipfd q1) as (q' & E' & Hq' & He' & Hw').
  { destruct (decide (slip_end q1 = 0)) as [Hz|Hnz].
    - exists q1. split; [|split; [done|split; [done|]]].
      + unfold slip_flushbuf, slip_empty. by rewrite (bind_ret _ _ _ _ _ (gets_ok _ _)), (proj2 (Z.eqb_eq _ _) Hz).
      + unfold line. by rewrite (proj2 (pending_nil q1 Hq1) Hz), app_nil_r.
    - destruct (flush_line slipfd q1 [] es1 Hq1 Hnz Hs1) as (q' & es2 & E' & Hq' & Hs' & L' & Hlen); [done|].
      apply length_zero_iff_nil in Hlen. exists q'. split; [done|]. split; [done|].
      split; [by apply (pending_nil q' Hq')|]. rewrite <- L'. unfold line. by rewrite Hlen, app_nil_r. }
  exists q'. split; [|split; [done|split; [done|split; [congruence|]]]].
  { unfold tun_to_serial, write_to_serial. by rewrite (bind_ret _ _ _ _ _ E1). }
  intros [|c chunks] Hc HF; [symmetry in Hc; by apply app_eq_nil in Hc as [_ [=]]|].
  rewrite line_reads_run, Hc by (done || (rewrite Hp0; unfold INBUF; lia)).
  assert (has [] s) as H0.
  { split; [apply Hs|]. split; [by rewrite Hp0|]. unfold received. by rewrite Hp0, take_0. }
  set (s0 := arrive (stuff p ++ [SLIP_END]) s).
  assert (Hs0 : input s0 = stuff p ++ [SLIP_END]) by (subst s0; cbn; by rewrite Hi).
  destruct (read_more_stuffed p [] [SLIP_END] s0 (S (S (S (length (stuff p) - length p)))))
    as (s1 & H1 & Hwf1 & Hi1 & Hq1' & Hm); try done.
  destruct (on_char_end p (with_input [] s1) es') as (s2 & E2 & H2 & Hp2 & Hi2 & Hs2); [done|done|done| |].
  { cbn. rewrite Hq1'. exact Hes. }
  assert (forall s m, input s = [] -> inbufptr s = 0 -> more (S m) s = Ret tt s) as Hend.
  { intros s3 m H3 Hz3. rewrite (read_more_unfold m s3 s3); [by rewrite H3|].
    unfold drop_full. by rewrite modify_ok, Hz3. }
  exists s2. split; [|done].
  transitivity (more (S (S (length (stuff p ++ [SLIP_END])))) s0).
  - unfold run. rewrite Hi. cbn [app]. fold s0. rewrite (read_more_unfold _ s0 s0).
    2: { unfold drop_full. rewrite modify_ok. change (inbufptr s0) with (inbufptr s). by rewrite Hp0. }
    unfold serial_to_tun. unfold bind at 1. rewrite fread_ok. rewrite Hs0.
    destruct (stuff p ++ [SLIP_END]) eqn:E; [by apply app_eq_nil in E as [_ [=]]|].
    unfold bind. by destruct (char _ (with_input _ s0)) as [[] ?|].
  - assert (S (S (length (stuff p ++ [SLIP_END]))) = length p + S (S (S (length (stuff p) - length p))))%nat as ->.
    { pose proof (stuff_length p). rewrite length_app. cbn [length]. lia. }
    rewrite Hm, (read_more_unfold _ s1 s1), Hi1, E2.
    + apply Hend; [by rewrite Hi2|done].
    + destruct H1 as (_ & Hp1 & _). unfold drop_full. rewrite modify_ok, Hp1.
      rewrite (proj2 (Z.leb_gt INBUF _)); [done|]. cbn in Hn. cbn. lia.
Qed.
End props.

(** ** Witnesses *)

Definition demo_tun (bs : list Z) : tun6 :=
  Tun6 (replicate (Z.to_nat INBUF) 0) 0 bs (Queue (replicate (Z.to_nat SLIP_BUF) 0) 0 0 (Host [] [])).

Lemma demo_tun_wf bs : tun_wf (demo_tun bs).
Proof. unfold tun_wf, queue_wf. repeat split; vm_compute; done. Qed.

Lemma reads_compose_witness :
  line_reads 4 5 1 [] [[0x60; SLIP_ESC]; [SLIP_ESC_END; 1; SLIP_END]] (demo_tun [])
    = line_reads 4 5 1 [] [[0x60; SLIP_ESC; SLIP_ESC_END]; [1; SLIP_END]] (demo_tun []).
Proof. apply reads_compose; [apply demo_tun_wf|done|by repeat constructor..|done]. Defined.

Lemma tunnel_safe_witness :
  safe (fun _ s' => tun_wf s' /\ inbufptr s' < INBUF)
    (main_iter 4 5 1 [] (Some [33; SLIP_END]) true (Some (Some [0x60])) (demo_tun [])).
Proof. apply tunnel_safe; [apply demo_tun_wf|done]. Defined.

Lemma tunslip6_roundtrip_witness : exists q',
  (do! tun_to_serial 4 (Some [0x60; SLIP_END]); slip_flushbuf 4) (que (demo_tun [])) = Ret tt q' /\
  queue_wf q' /\ slip_end q' = 0 /\
  written 4 (events (sys q')) = written 4 [] ++ stuff [0x60; SLIP_END] ++ [SLIP_END] /\
  forall chunks, concat chunks = stuff [0x60; SLIP_END] ++ [SLIP_END] -> Forall (fun c => c <> []) chunks ->
  exists s', line_reads 4 5 1 [] chunks (demo_tun []) = Ret tt s' /\ tun_wf s' /\ inbufptr s' = 0 /\ input s' = [] /\
    sys (que s') = Host [] ([] ++ [Wrote 5 [0x60; SLIP_END]]).
Proof.
  apply (tunslip6_roundtrip 4 5 1 [] [0x60; SLIP_END] (que (demo_tun [])) [] (demo_tun []) []); done.
Defined.
