(* ===== verification/Chksum.v ===== *)
(** * Internet checksums and packet checks (dist/tools/tunslip/tunslip.c)

    [ip4sum] and [check_ip] over the bytes of a buffer.  The machine of the
    tool is little endian: a 16-bit field that is read without [ntohs] has the
    bytes of the packet in the other order. *)

From S2P Require Import Prelude.

Abbreviation buf := (list Z).

Definition byte_at (p : Z) : M buf Z := let! b := gets id in unwrap OutOfBounds (aget b p).

(** [sum += t; if (sum < t) sum++;] *)
Definition ones_add (sum t : Z) : Z :=
  let s := u16 (sum + t) in if s <? t then u16 (s + 1) else s.

Definition ip4sum_step (end_ : Z) (l : Z * Z) : M buf (Z * Z + Z * Z) :=
  let '(sum, p) := l in
  if p <? end_ - 1 then
    let! hi := byte_at p in
    let! lo := byte_at (p + 1) in
    ret (inl (ones_add sum (u16 (Z.shiftl hi 8 + lo)), p + 2))
  else ret (inr (sum, p)).

(** [_p] is an offset in the buffer. *)
Definition ip4sum (sum _p len : Z) : M buf Z :=
  let end_ := _p + len in
  let! '(sum, p) := loop (Datatypes.S (Z.to_nat len)) (ip4sum_step end_) (sum, _p) in
  if p <? end_ then
    let! hi := byte_at p in ret (ones_add sum (u16 (Z.shiftl hi 8)))
  else ret sum.

(** A 16-bit field, as [ntohs] gives it, and as the machine reads it. *)
Definition be16 (p : Z) : M buf Z :=
  let! hi := byte_at p in let! lo := byte_at (p + 1) in ret (256 * hi + lo).
Definition le16 (p : Z) : M buf Z :=
  let! lo := byte_at p in let! hi := byte_at (p + 1) in ret (lo + 256 * hi).

(** Offsets in [struct ip]. *)
Definition IP_VHL : Z := 0.
Definition IP_LEN : Z := 2.
Definition IP_ID : Z := 4.
Definition IP_OFF : Z := 6.
Definition IP_P : Z := 9.
Definition IP_SUM : Z := 10.
Definition IP_SRC : Z := 12.
Definition IP_DST : Z := 16.
Definition UH_SPORT : Z := 20.
Definition UH_DPORT : Z := 22.
Definition UH_SUM : Z := 26.

Definition IP_V4 : Z := 0x40.
Definition IP_V : Z := 0xf0.
Definition IP_HL : Z := 0x0f.
Definition IP_DF : Z := 0x4000.

Definition bad_sum (sum : Z) : bool := negb (sum =? 0xffff) && negb (sum =? 0).

(** The packet starts at the start of the buffer. *)
Definition check_ip (ip_len : Z) : M buf Z :=
  let! vhl := byte_at IP_VHL in
  if negb (Z.land vhl IP_V =? IP_V4) then ret (-1)
  else
    let! len := be16 IP_LEN in
    if ip_len <? len then ret (-2)
    else if len <? ip_len then ret (-3)
    else
      let ip_hl := u16 (4 * Z.land vhl IP_HL) in
      let! sum := ip4sum 0 0 ip_hl in
      if bad_sum sum then ret (-4)
      else
        let! p := byte_at IP_P in
        if (p =? 6) || (p =? 17) then
          let tcp_len := u16 (ip_len - ip_hl) in
          let! sum := ip4sum (u16 (p + tcp_len)) IP_SRC 8 in
          let! sum := ip4sum sum ip_hl tcp_len in
          if bad_sum sum then
            if p =? 6 then ret (-5)
            else
              let! us := le16 UH_SUM in
              if negb (us =? 0) then ret (-6) else ret 0
          else ret 0
        else if p =? 1 then
          let icmp_len := u16 (ip_len - ip_hl) in
          let! sum := ip4sum 0 ip_hl icmp_len in
          if bad_sum sum then ret (-7) else ret 0
        else ret 0.

(** ** The checksum as a sum modulo 65535 *)

Definition bytes_ok (b : buf) : Prop := Forall (fun x => 0 <= x < 256) b.

(** The 16-bit words of a text, the last one filled up with a zero. *)
Fixpoint words_sum (bs : list Z) : Z :=
  match bs with
  | hi :: lo :: bs => 256 * hi + lo + words_sum bs
  | [hi] => 256 * hi
  | [] => 0
  end.

(** The representative of [z] modulo 65535 that one's complement addition
    gives: 0 only for 0. *)
Definition ones_rep (z : Z) : Z := if z =? 0 then 0 else (z - 1) mod 65535 + 1.

Lemma ones_rep_small z : 0 <= z <= 65535 -> ones_rep z = z.
Proof.
  intros H. unfold ones_rep. destruct (Z.eqb_spec z 0); [done|]. rewrite Z.mod_small; lia.
Qed.

Lemma ones_rep_range z : 0 <= z -> 0 <= ones_rep z <= 65535.
Proof.
  intros H. unfold ones_rep. destruct (Z.eqb_spec z 0); [lia|]. pose proof (Z.mod_pos_bound (z - 1) 65535). lia.
Qed.

Lemma ones_rep_mod z : ones_rep z mod 65535 = z mod 65535.
Proof.
  unfold ones_rep. destruct (Z.eqb_spec z 0) as [->|]; [done|]. rewrite Zplus_mod_idemp_l. f_equal. lia.
Qed.

Lemma ones_rep_congr a b : 0 < a -> 0 < b -> a mod 65535 = b mod 65535 -> ones_rep a = ones_rep b.
Proof.
  intros Ha Hb H. unfold ones_rep. rewrite (proj2 (Z.eqb_neq a 0)), (proj2 (Z.eqb_neq b 0)) by lia.
  by rewrite Zminus_mod, H, <- Zminus_mod.
Qed.

Lemma ones_add_rep a t : 0 <= a -> 0 <= t <= 65535 -> ones_add (ones_rep a) t = ones_rep (a + t).
Proof.
  intros Ha Ht. pose proof (ones_rep_range a Ha) as Hr. unfold ones_add, wrapu. change (2 ^ 16) with 65536.
  assert (ones_rep (a + t) = ones_rep (ones_rep a + t)) as ->.
  { destruct (decide (a = 0)) as [->|]; [done|].
    assert (0 < ones_rep a). { unfold ones_rep. rewrite (proj2 (Z.eqb_neq a 0)) by done.
      pose proof (Z.mod_pos_bound (a - 1) 65535). lia. }
    apply ones_rep_congr; [lia..|]. by rewrite <- Zplus_mod_idemp_l, <- (ones_rep_mod a), Zplus_mod_idemp_l. }
  set (r := ones_rep a) in *. destruct (decide (r + t < 65536)) as [Hlt|Hge].
  - rewrite Z.mod_small, (proj2 (Z.ltb_ge _ _)), ones_rep_small by lia. done.
  - assert ((r + t) mod 65536 = r + t - 65536) as ->.
    { symmetry. apply (Z.mod_unique_pos _ _ 1); lia. }
    rewrite (proj2 (Z.ltb_lt _ _)), Z.mod_small by lia. unfold ones_rep. rewrite (proj2 (Z.eqb_neq _ _)) by lia.
    rewrite (Z.mod_unique_pos (r + t - 1) 65535 1 (r + t - 65536)); lia.
Qed.

Lemma byte_at_ok b p x : aget b p = Some x -> byte_at p b = Ret x b.
Proof. intros E. unfold byte_at, bind, gets, id. by rewrite E. Qed.

Lemma bytes_ok_aget b p x : bytes_ok b -> aget b p = Some x -> 0 <= x < 256.
Proof.
  unfold aget. destruct (0 <=? p); [|done]. intros Hb Hx. by apply (Forall_lookup_1 _ _ _ _ Hb Hx).
Qed.

(** The bytes from [p] up to [p + n]. *)
Definition slice (b : buf) (p n : Z) : list Z := take (Z.to_nat n) (drop (Z.to_nat p) b).

Lemma slice_cons b p n x :
  0 <= p -> 0 < n -> aget b p = Some x -> slice b p n = x :: slice b (p + 1) (n - 1).
Proof.
  intros Hp Hn. unfold aget, slice. rewrite (proj2 (Z.leb_le _ _) Hp). intros Hx.
  rewrite (drop_S _ x) by done. replace (Z.to_nat n) with (S (Z.to_nat (n - 1))) by lia. cbn. do 3 f_equal. lia.
Qed.

Lemma slice_nil b p : slice b p 0 = [].
Proof. done. Qed.

Lemma words_sum_nonneg bs : bytes_ok bs -> 0 <= words_sum bs.
Proof.
  revert bs. fix IH 1. intros [|hi [|lo bs]] Hb; cbn [words_sum]; [lia| |].
  - pose proof (proj1 (Forall_singleton _ _) Hb) as H. cbn in H. lia.
  - apply (proj1 (Forall_cons _ _ _)) in Hb as [H1 [H2 Hb]%(proj1 (Forall_cons _ _ _))]. pose proof (IH bs Hb). cbn in H1, H2. lia.
Qed.

Lemma shift_byte hi lo : 0 <= hi < 256 -> 0 <= lo < 256 -> u16 (Z.shiftl hi 8 + lo) = 256 * hi + lo.
Proof.
  intros. rewrite Z.shiftl_mul_pow2 by lia. change (2 ^ 8) with 256. unfold wrapu. change (2 ^ 16) with 65536.
  rewrite Z.mod_small; lia.
Qed.

Lemma ip4sum_loop n : forall b sum p len fuel,
  bytes_ok b -> 0 <= sum -> 0 <= p -> 0 <= len <= Z.of_nat n -> p + len <= Z.of_nat (length b) ->
  (n < fuel)%nat ->
  (let! '(sum, p') := loop fuel (ip4sum_step (p + len)) (ones_rep sum, p) in
   if p' <? p + len then let! hi := byte_at p' in ret (ones_add sum (u16 (Z.shiftl hi 8))) else ret sum) b
  = Ret (ones_rep (sum + words_sum (slice b p len))) b.
Proof.
  induction n as [n IH] using lt_wf_ind. intros b sum p len fuel Hb Hs Hp Hlen Hend Hf.
  destruct fuel as [|fuel]; [lia|]. cbn [loop]. unfold ip4sum_step at 1. cbn beta iota.
  destruct (Z.ltb_spec p (p + len - 1)) as [Hlt|Hge].
  - destruct (aget_some b p) as [hi Ehi]; [lia|]. destruct (aget_some b (p + 1)) as [lo Elo]; [lia|].
    pose proof (bytes_ok_aget b p hi Hb Ehi). pose proof (bytes_ok_aget b (p + 1) lo Hb Elo).
    unfold bind. rewrite (byte_at_ok b p hi Ehi), (byte_at_ok b _ lo Elo). cbn [ret].
    rewrite shift_byte, ones_add_rep by lia.
    specialize (IH (n - 2)%nat ltac:(lia) b (sum + (256 * hi + lo)) (p + 2) (len - 2) fuel).
    replace (p + 2 + (len - 2)) with (p + len) in IH by lia.
    etransitivity; [apply IH; done || lia|]. f_equal.
    rewrite (slice_cons b p len hi), (slice_cons b (p + 1) (len - 1) lo) by (done || lia). cbn [words_sum].
    replace (p + 1 + 1) with (p + 2) by lia. replace (len - 1 - 1) with (len - 2) by lia. f_equal. lia.
  - rewrite !bind_assoc, (bind_ret (ret _) _ _ _ _ eq_refl), (bind_ret (ret _) _ _ _ _ eq_refl).
    destruct (Z.ltb_spec p (p + len)) as [Hl|Hl].
    + assert (len = 1) as -> by lia. destruct (aget_some b p) as [hi Ehi]; [lia|].
      pose proof (bytes_ok_aget b p hi Hb Ehi). rewrite (bind_ret _ _ _ _ _ (byte_at_ok b p hi Ehi)).
      rewrite <- (Z.add_0_r (Z.shiftl hi 8)), shift_byte, ones_add_rep by lia.
      rewrite (slice_cons b p 1 hi), Z.add_0_r by (done || lia). done.
    + assert (len = 0) as -> by lia. rewrite slice_nil. cbn. by rewrite Z.add_0_r.
Qed.

(** [ip4sum] is the one's complement sum of the 16-bit words of the text, an
    odd byte filled up with a zero: the sum of the words modulo 65535, with
    65535 for a sum that is a multiple but not 0. *)
Theorem ip4sum_is_ones_sum b sum p len :
  bytes_ok b -> 0 <= sum <= 65535 -> 0 <= p -> 0 <= len -> p + len <= Z.of_nat (length b) ->
  ip4sum sum p len b = Ret (ones_rep (sum + words_sum (slice b p len))) b.
Proof.
  intros Hb Hs Hp Hl He. unfold ip4sum. rewrite <- (ones_rep_small sum) at 1 by done.
  apply (ip4sum_loop (Z.to_nat len)); try done; lia.
Qed.

(** ** What [check_ip] accepts *)

Lemma bad_sum_rep z : 0 <= z -> bad_sum (ones_rep z) = negb (z mod 65535 =? 0).
Proof.
  intros Hz. unfold bad_sum, ones_rep. destruct (Z.eqb_spec z 0) as [->|Hne]; [done|].
  pose proof (Z.mod_pos_bound (z - 1) 65535 ltac:(lia)) as Hr.
  assert (z mod 65535 = ((z - 1) mod 65535 + 1) mod 65535) as ->.
  { rewrite Zplus_mod_idemp_l. f_equal. lia. }
  set (r := (z - 1) mod 65535) in *. rewrite (proj2 (Z.eqb_neq (r + 1) 0)) by lia. cbn [negb]. rewrite andb_true_r.
  f_equal. destruct (decide (r = 65534)) as [->|Hn]; [done|].
  rewrite Z.mod_small by lia. rewrite !(proj2 (Z.eqb_neq _ _)) by lia. done.
Qed.

(** The verdict of a packet of [n] bytes at the start of a buffer, as the
    headers define it: the sums of a sound header and of a sound payload with
    its pseudo header are multiples of 65535. *)
Definition sum_ok (z : Z) : bool := z mod 65535 =? 0.

Definition verdict (b : buf) (n : Z) : Z :=
  let at_ := fun i => default 0 (aget b i) in
  let hl := 4 * Z.land (at_ IP_VHL) IP_HL in
  let len := 256 * at_ IP_LEN + at_ (IP_LEN + 1) in
  let payload := words_sum (slice b hl (n - hl)) in
  let pseudo := at_ IP_P + (n - hl) + words_sum (slice b IP_SRC 8) in
  if negb (Z.land (at_ IP_VHL) IP_V =? IP_V4) then -1
  else if n <? len then -2
  else if len <? n then -3
  else if negb (sum_ok (words_sum (slice b 0 hl))) then -4
  else if (at_ IP_P =? 6) || (at_ IP_P =? 17) then
    if sum_ok (pseudo + payload) then 0
    else if at_ IP_P =? 6 then -5
    else if (at_ UH_SUM =? 0) && (at_ (UH_SUM + 1) =? 0) then 0 else -6
  else if at_ IP_P =? 1 then if sum_ok payload then 0 else -7
  else 0.

(** The length of the header of a packet at the start of [b]. *)
Definition header_len (b : buf) : Z := 4 * Z.land (default 0 (aget b 0)) IP_HL.

Lemma header_len_range b : 0 <= header_len b <= 60.
Proof.
  unfold header_len. change IP_HL with (Z.ones 4). rewrite Z.land_ones by lia.
  pose proof (Z.mod_pos_bound (default 0 (aget b 0)) (2 ^ 4) ltac:(lia)) as H. change (2 ^ 4) with 16 in *. lia.
Qed.

Lemma byte_at_default b i : 0 <= i < Z.of_nat (length b) -> byte_at i b = Ret (default 0 (aget b i)) b.
Proof. intros Hi. destruct (aget_some b i Hi) as [x E]. by rewrite E, (byte_at_ok b i x E). Qed.

Lemma be16_ok b i :
  0 <= i -> i + 1 < Z.of_nat (length b) ->
  be16 i b = Ret (256 * default 0 (aget b i) + default 0 (aget b (i + 1))) b.
Proof. intros. unfold be16, bind. by rewrite !byte_at_default by lia. Qed.

Lemma le16_ok b i :
  0 <= i -> i + 1 < Z.of_nat (length b) ->
  le16 i b = Ret (default 0 (aget b i) + 256 * default 0 (aget b (i + 1))) b.
Proof. intros. unfold le16, bind. by rewrite !byte_at_default by lia. Qed.

Lemma byte_range b i : bytes_ok b -> 0 <= default 0 (aget b i) < 256.
Proof. intros Hb. destruct (aget b i) as [x|] eqn:E; cbn; [by apply (bytes_ok_aget b i)|lia]. Qed.

Lemma slice_bytes b p n : bytes_ok b -> bytes_ok (slice b p n).
Proof. intros Hb. by apply Forall_take, Forall_drop. Qed.

(** [check_ip] decides the verdict, for a packet inside its buffer whose
    header is inside the packet. *)
Theorem check_ip_decides b n :
  bytes_ok b -> 28 <= Z.of_nat (length b) -> header_len b <= n -> n <= Z.of_nat (length b) -> n < 65000 ->
  check_ip n b = Ret (verdict b n) b.
Proof.
  intros Hb H28 Hhl Hn H16. pose proof (header_len_range b) as Hr. unfold header_len in Hhl, Hr.
  pose proof (byte_range b IP_P Hb) as Hp.
  unfold check_ip, verdict. set (v := default 0 (aget b IP_VHL)) in *.
  change (aget b 0) with (aget b IP_VHL) in Hhl, Hr. fold v in Hhl, Hr.
  rewrite (bind_ret _ _ _ _ _ (byte_at_default b IP_VHL ltac:(unfold IP_VHL; lia))). fold v.
  destruct (Z.land v IP_V =? IP_V4); cbn [negb]; [|done].
  rewrite (bind_ret _ _ _ _ _ (be16_ok b IP_LEN ltac:(done) ltac:(unfold IP_LEN; lia))).
  destruct (n <? _); [done|]. destruct (_ <? n); [done|].
  assert (forall x, 0 <= x < 65536 -> u16 x = x) as Hu by (intros x Hx; apply wrapu_id; exact Hx).
  rewrite (Hu (4 * Z.land v IP_HL)) by lia. set (hl := 4 * Z.land v IP_HL) in *.
  pose proof (words_sum_nonneg _ (slice_bytes b 0 hl Hb)) as P1.
  pose proof (words_sum_nonneg _ (slice_bytes b IP_SRC 8 Hb)) as P2.
  pose proof (words_sum_nonneg _ (slice_bytes b hl (n - hl) Hb)) as P3.
  rewrite (bind_ret _ _ _ _ _ (ip4sum_is_ones_sum b 0 0 hl Hb ltac:(lia) ltac:(lia) ltac:(lia) ltac:(lia))).
  rewrite bad_sum_rep by lia. rewrite Z.add_0_l. unfold sum_ok. destruct (_ =? 0); cbn [negb]; [|done].
  rewrite (bind_ret _ _ _ _ _ (byte_at_default b IP_P ltac:(unfold IP_P; lia))).
  set (p := default 0 (aget b IP_P)) in *. rewrite !(Hu (n - hl)) by lia.
  destruct ((p =? 6) || (p =? 17)) eqn:Ep.
  - rewrite (Hu (p + (n - hl))) by lia. unfold IP_SRC in *.
    rewrite (bind_ret _ _ _ _ _ (ip4sum_is_ones_sum b (p + (n - hl)) 12 8 Hb ltac:(lia) ltac:(lia) ltac:(lia) ltac:(lia))).
    pose proof (ones_rep_range (p + (n - hl) + words_sum (slice b 12 8)) ltac:(lia)) as Hrep.
    rewrite (bind_ret _ _ _ _ _ (ip4sum_is_ones_sum b _ hl (n - hl) Hb Hrep ltac:(lia) ltac:(lia) ltac:(lia))).
    rewrite bad_sum_rep by lia.
    rewrite <- (Zplus_mod_idemp_l (ones_rep _)), ones_rep_mod, Zplus_mod_idemp_l.
    destruct (_ =? 0); cbn [negb]; [done|]. destruct (p =? 6); [done|].
    rewrite (bind_ret _ _ _ _ _ (le16_ok b UH_SUM ltac:(done) ltac:(unfold UH_SUM; lia))).
    pose proof (byte_range b UH_SUM Hb). pose proof (byte_range b (UH_SUM + 1) Hb).
    destruct (Z.eqb_spec (default 0 (aget b UH_SUM)) 0), (Z.eqb_spec (default 0 (aget b (UH_SUM + 1))) 0);
      cbn [andb]; [rewrite (proj2 (Z.eqb_eq _ _)) by lia; done|rewrite (proj2 (Z.eqb_neq _ _)) by lia; done..].
  - destruct (p =? 1); [|done].
    rewrite (bind_ret _ _ _ _ _ (ip4sum_is_ones_sum b 0 hl (n - hl) Hb ltac:(lia) ltac:(lia) ltac:(lia) ltac:(lia))).
    rewrite bad_sum_rep, Z.add_0_l by lia. by destruct (_ =? 0).
Qed.

(** What the checks of the code come to: version 4, the length of the packet,
    and checksums that add up to a multiple of 65535; for UDP the bytes 26 and
    27 of the packet may be zero instead, whatever the length of the header,
    and that length is not bounded from below. *)
Definition passes_ip (b : buf) (n : Z) : Prop :=
  let at_ := fun i => default 0 (aget b i) in
  let payload := words_sum (slice b (header_len b) (n - header_len b)) in
  let pseudo := at_ IP_P + (n - header_len b) + words_sum (slice b IP_SRC 8) in
  Z.land (at_ IP_VHL) IP_V = IP_V4 /\ 256 * at_ IP_LEN + at_ (IP_LEN + 1) = n /\
  words_sum (slice b 0 (header_len b)) mod 65535 = 0 /\
  (at_ IP_P = 6 -> (pseudo + payload) mod 65535 = 0) /\
  (at_ IP_P = 17 -> (at_ UH_SUM = 0 /\ at_ (UH_SUM + 1) = 0) \/ (pseudo + payload) mod 65535 = 0) /\
  (at_ IP_P = 1 -> payload mod 65535 = 0).

Lemma verdict_passes b n : verdict b n = 0 <-> passes_ip b n.
Proof.
  unfold verdict, passes_ip, sum_ok. change (4 * Z.land (default 0 (aget b IP_VHL)) IP_HL) with (header_len b).
  set (hl := header_len b). set (p := default 0 (aget b IP_P)). set (payload := words_sum (slice b hl (n - hl))).
  set (pseudo := p + (n - hl) + _).
  destruct (Z.eqb_spec (Z.land (default 0 (aget b IP_VHL)) IP_V) IP_V4); cbn [negb]; [|naive_solver lia].
  destruct (Z.ltb_spec n (256 * default 0 (aget b IP_LEN) + default 0 (aget b (IP_LEN + 1)))); [naive_solver lia|].
  destruct (Z.ltb_spec (256 * default 0 (aget b IP_LEN) + default 0 (aget b (IP_LEN + 1))) n); [naive_solver lia|].
  destruct (Z.eqb_spec (words_sum (slice b 0 hl) mod 65535) 0); cbn [negb]; [|naive_solver lia].
  destruct (Z.eqb_spec p 6), (Z.eqb_spec p 17), (Z.eqb_spec p 1), (Z.eqb_spec (default 0 (aget b UH_SUM)) 0),
    (Z.eqb_spec (default 0 (aget b (UH_SUM + 1))) 0), (Z.eqb_spec (payload mod 65535) 0),
    (Z.eqb_spec ((pseudo + payload) mod 65535) 0); cbn [orb andb]; split; intros; try lia;
    repeat split; try lia; intros; try lia; tauto.
Qed.

(** A sound packet, by RFC 791, 768, 793 and 792: version 4, a header of at
    least five words that is inside the packet, the length of the packet, a
    header whose words add up to a multiple of 65535, and the checksum of the
    protocol over its own part of the packet, for TCP and UDP with the pseudo
    header.  The header of a UDP datagram starts where the header of the packet
    ends and has its checksum at its byte 6; a checksum of zero says there is
    none.  A fragment is judged like a whole packet. *)
Definition sound_ip (b : buf) (n : Z) : Prop :=
  let at_ := fun i => default 0 (aget b i) in
  let hl := header_len b in
  let payload := words_sum (slice b hl (n - hl)) in
  let pseudo := at_ IP_P + (n - hl) + words_sum (slice b IP_SRC 8) in
  Z.land (at_ IP_VHL) IP_V = IP_V4 /\ 20 <= hl <= n /\ 256 * at_ IP_LEN + at_ (IP_LEN + 1) = n /\
  words_sum (slice b 0 hl) mod 65535 = 0 /\
  (at_ IP_P = 6 -> (pseudo + payload) mod 65535 = 0) /\
  (at_ IP_P = 17 -> hl + 8 <= n /\
     ((at_ (hl + 6) = 0 /\ at_ (hl + 7) = 0) \/ (pseudo + payload) mod 65535 = 0)) /\
  (at_ IP_P = 1 -> payload mod 65535 = 0).

(** Where the code looks for the checksum of UDP is where it is when the
    header has no options. *)
Lemma sound_passes b n :
  20 <= header_len b <= n -> (default 0 (aget b IP_P) = 17 -> header_len b = 20 /\ 28 <= n) ->
  passes_ip b n <-> sound_ip b n.
Proof.
  intros Hhl Hudp. unfold passes_ip, sound_ip. cbv zeta.
  destruct (decide (default 0 (aget b IP_P) = 17)) as [E|E].
  - destruct (Hudp E) as [-> H28]. rewrite E. change (20 + 6) with UH_SUM. change (20 + 7) with (UH_SUM + 1).
    intuition lia.
  - intuition lia.
Qed.

(** C36 [check_ip] accepts exactly the sound packets, among those that are inside
    their buffer and shorter than 65000 bytes, whose header has at least 20 bytes
    and is inside the packet, and, for UDP, has no options and is
    followed by the header of the datagram.  ([check_ip] itself does not test
    that the header has 20 bytes, [check_ip_short_header], and when there are
    options it looks for the checksum of UDP among them,
    [check_ip_udp_options].) *)
Theorem check_ip_accepts b n :
  bytes_ok b -> 28 <= Z.of_nat (length b) -> n <= Z.of_nat (length b) -> n < 65000 ->
  20 <= header_len b <= n -> (default 0 (aget b IP_P) = 17 -> header_len b = 20 /\ 28 <= n) ->
  check_ip n b = Ret 0 b <-> sound_ip b n.
Proof.
  intros Hb H28 Hn H65 Hhl Hudp.
  rewrite check_ip_decides, <- sound_passes, <- verdict_passes by (done || lia). split; [by intros [= E]|by intros ->].
Qed.

(** A header longer than its packet makes the length of the payload negative,
    that is close to 65536, and the check reads behind its buffer. *)
Lemma ip4sum_overreads n : forall b sum p len fuel,
  bytes_ok b -> 0 <= p -> p <= Z.of_nat (length b) -> Z.of_nat (length b) + 1 < p + len ->
  len <= Z.of_nat n -> (n < fuel)%nat ->
  loop fuel (ip4sum_step (p + len)) (sum, p) b = Err OutOfBounds.
Proof.
  induction n as [n IH] using lt_wf_ind. intros b sum p len fuel Hb Hp Hpl Hl Hn Hf.
  destruct fuel as [|fuel]; [lia|]. cbn [loop]. unfold ip4sum_step at 1. rewrite (proj2 (Z.ltb_lt p _)) by lia.
  assert (forall i, Z.of_nat (length b) <= i -> byte_at i b = Err OutOfBounds) as Hout.
  { intros i Hi. unfold byte_at, bind, gets, id. destruct (aget b i) as [x|] eqn:E; [|done].
    apply aget_range in E. lia. }
  destruct (decide (p = Z.of_nat (length b))) as [->|H1]; [unfold bind; by rewrite Hout by lia|].
  unfold bind. rewrite byte_at_default by lia.
  destruct (decide (p + 1 = Z.of_nat (length b))) as [E|H2]; [by rewrite (Hout (p + 1)) by lia|].
  rewrite byte_at_default by lia. cbn [ret].
  pose proof (IH (n - 2)%nat ltac:(lia) b (ones_add sum (u16 (Z.shiftl (default 0 (aget b p)) 8 + default 0 (aget b (p + 1)))))
    (p + 2) (len - 2) fuel) as H. replace (p + 2 + (len - 2)) with (p + len) in H by lia. apply H; done || lia.
Qed.

Theorem check_ip_overreads b n :
  bytes_ok b -> length b = 2000%nat -> 0 <= n < header_len b ->
  Z.land (default 0 (aget b IP_VHL)) IP_V = IP_V4 ->
  256 * default 0 (aget b IP_LEN) + default 0 (aget b (IP_LEN + 1)) = n ->
  sum_ok (words_sum (slice b 0 (header_len b))) = true ->
  default 0 (aget b IP_P) ∈ [1; 6; 17] ->
  check_ip n b = Err OutOfBounds.
Proof.
  intros Hb Hl Hn Hv Hlen Hsum Hproto. pose proof (header_len_range b) as Hr.
  unfold check_ip. rewrite (bind_ret _ _ _ _ _ (byte_at_default b IP_VHL ltac:(rewrite Hl; unfold IP_VHL; lia))).
  rewrite Hv, Z.eqb_refl. cbn [negb].
  rewrite (bind_ret _ _ _ _ _ (be16_ok b IP_LEN ltac:(done) ltac:(rewrite Hl; unfold IP_LEN; lia))), Hlen, !Z.ltb_irrefl.
  change (4 * Z.land (default 0 (aget b IP_VHL)) IP_HL) with (header_len b).
  rewrite (wrapu_id 16 (header_len b)) by (unfold in_u; lia). set (hl := header_len b) in *.
  pose proof (words_sum_nonneg _ (slice_bytes b 0 hl Hb)).
  rewrite (bind_ret _ _ _ _ _ (ip4sum_is_ones_sum b 0 0 hl Hb ltac:(lia) ltac:(lia) ltac:(lia) ltac:(lia))).
  rewrite bad_sum_rep, Z.add_0_l by lia. unfold sum_ok in Hsum. rewrite Hsum. cbn [negb].
  rewrite (bind_ret _ _ _ _ _ (byte_at_default b IP_P ltac:(rewrite Hl; unfold IP_P; lia))).
  assert (u16 (n - hl) = 65536 + n - hl) as ->.
  { unfold wrapu. change (2 ^ 16) with 65536. symmetry. apply (Z.mod_unique_pos _ _ (-1)); lia. }
  assert (forall sum, ip4sum sum hl (65536 + n - hl) b = Err OutOfBounds) as Hover.
  { intros sum. unfold ip4sum. apply bind_err. apply (ip4sum_overreads (Z.to_nat (65536 + n - hl))); try done; lia. }
  assert (forall s, 0 <= s <= 65535 -> exists r, ip4sum s IP_SRC 8 b = Ret r b) as Hsrc.
  { intros s Hs. eexists. apply ip4sum_is_ones_sum; try done; rewrite Hl; unfold IP_SRC; lia. }
  set (p := default 0 (aget b IP_P)) in *.
  destruct ((p =? 6) || (p =? 17)) eqn:Ep.
  - destruct (Hsrc (u16 (p + (65536 + n - hl)))) as [r E].
    { pose proof (wrapu_range 16 (p + (65536 + n - hl)) ltac:(lia)) as Hw. unfold in_u in Hw. lia. }
    rewrite (bind_ret _ _ _ _ _ E). apply bind_err, Hover.
  - assert (p = 1) as ->.
    { apply orb_false_elim in Ep as [?%Z.eqb_neq ?%Z.eqb_neq]. set_solver. }
    cbn [Z.eqb Pos.eqb]. apply bind_err, Hover.
Qed.

(** ** Witnesses *)

(** A UDP packet of 30 bytes in a buffer of 40. *)
Definition demo_packet : list Z :=
  [69; 0; 0; 30; 0; 0; 0; 64; 64; 17; 102; 141; 10; 0; 0; 1; 10; 0; 0; 2;
   19; 136; 19; 137; 0; 10; 92; 93; 104; 105] ++ replicate 10 0.

Lemma demo_packet_bytes : bytes_ok demo_packet.
Proof. apply (bool_decide_unpack _). vm_compute. exact I. Qed.

Lemma check_ip_accepts_witness : check_ip 30 demo_packet = Ret 0 demo_packet <-> sound_ip demo_packet 30.
Proof.
  apply (check_ip_accepts demo_packet 30); [apply demo_packet_bytes|..]; vm_compute; done.
Defined.

Lemma check_ip_decides_witness : check_ip 30 demo_packet = Ret 0 demo_packet.
Proof.
  apply (check_ip_decides demo_packet 30); [apply demo_packet_bytes|..]; vm_compute; done.
Defined.

(** ** Where the code and the standards differ *)

(** A UDP packet with options in its header, where the code looks for the
    checksum, and a wrong checksum. *)
Definition options_packet : list Z :=
  [71; 0; 0; 40; 0; 0; 0; 0; 64; 17; 100; 195; 10; 0; 0; 1; 10; 0; 0; 2; 0; 0; 0; 0; 0; 0; 0; 0; 19; 136; 19; 137; 0; 12; 18; 52; 1; 2; 3; 4].

(** The same packet without a checksum and with other options. *)
Definition unsummed_packet : list Z :=
  [71; 0; 0; 40; 0; 0; 0; 0; 64; 17; 96; 192; 10; 0; 0; 1; 10; 0; 0; 2; 1; 1; 1; 1; 1; 1; 1; 0; 19; 136; 19; 137; 0; 12; 0; 0; 1; 2; 3; 4].

(** A packet whose header says it has two words. *)
Definition short_packet : list Z :=
  [66; 0; 0; 30; 0; 0; 189; 225; 64; 2; 0; 7; 10; 0; 0; 1; 10; 0; 0; 2] ++ replicate 10 0.

(** With options in the header the code takes the options for the checksum of
    UDP: it accepts a packet with a wrong checksum, and drops a sound packet
    that has none. *)
Theorem check_ip_udp_options :
  (check_ip 40 options_packet = Ret 0 options_packet /\ ~ sound_ip options_packet 40) /\
  check_ip 40 unsummed_packet = Ret (-6) unsummed_packet /\ sound_ip unsummed_packet 40.
Proof.
  split; [split; [by vm_compute|]|split; [by vm_compute|]].
  - unfold sound_ip. cbv zeta. intros (_ & _ & _ & _ & _ & H & _). specialize (H eq_refl). destruct H as [_ [[H _]|H]].
    + vm_compute in H. done.
    + vm_compute in H. done.
  - unfold sound_ip. cbv zeta. repeat split; try (by vm_compute); try (by intros H; vm_compute in H).
    left. by vm_compute.
Qed.

(** The length in the header is not compared with the 20 bytes every header
    has. *)
Theorem check_ip_short_header :
  check_ip 30 short_packet = Ret 0 short_packet /\ header_len short_packet = 8 /\ ~ sound_ip short_packet 30.
Proof.
  split; [by vm_compute|]. split; [by vm_compute|]. unfold sound_ip. cbv zeta. intros (_ & H & _).
  destruct H as [H _]. vm_compute in H. by apply H.
Qed.
