(* ===== verification/Tunslip.v ===== *)
(** * The IPv4 tunnel (dist/tools/tunslip/tunslip.c): sending

    A packet from the tun device is checked, gets an identification when it
    has none, and is queued for the line. *)

From S2P Require Import Prelude Framing Slip Chksum.

(** The buffer the packet was read into, the counter [ip_id], the queue. *)
Record tun4 : Type := Tun4 { pkt : buf; ip_id : Z; tq : queue }.

Definition with_pkt (v : buf) (s : tun4) : tun4 := Tun4 v (ip_id s) (tq s).
Definition with_ip_id (v : Z) (s : tun4) : tun4 := Tun4 (pkt s) v (tq s).
Definition with_tq (v : queue) (s : tun4) : tun4 := Tun4 (pkt s) (ip_id s) v.
Definition on_pkt {A} : M buf A -> M tun4 A := zoom pkt with_pkt.
Definition on_tq {A} : M queue A -> M tun4 A := zoom tq with_tq.

(** [htons] of the C library on a little endian machine. *)
Definition htons16 (x : Z) : Z := 256 * (x mod 256) + x / 256.

Definition put_byte (p v : Z) : M buf unit :=
  let! b := gets id in
  let! b := unwrap OutOfBounds (aset b p v) in
  modify (fun _ => b).
Definition put_le16 (p v : Z) : M buf unit := do! put_byte p (v mod 256); put_byte (p + 1) (v / 256).

(** The new identification [nid], and the checksum of the header that goes
    with it. *)
Definition renumber (nid : Z) : M buf unit :=
  do! put_le16 IP_ID nid;
  let nid := u16 (Z.lnot nid) in
  let! sum := le16 IP_SUM in
  do! put_le16 IP_SUM (u16 (sum + nid));
  let! sum := le16 IP_SUM in
  if sum <? nid then put_le16 IP_SUM (u16 (sum + 1)) else ret tt.

(** Whether the packet needs one: [ip_off] is tested in the byte order of the
    packet. *)
Definition needs_id : M buf bool :=
  let! id := le16 IP_ID in
  let! off := le16 IP_OFF in
  ret ((id =? 0) && c_true (Z.land off IP_DF)).

Definition write_to_serial (outfd len : Z) : M tun4 unit :=
  let! ecode := on_pkt (check_ip len) in
  if ecode <? 0 then ret tt
  else
    let! need := on_pkt needs_id in
    let! ecode :=
      (if need then
         let! s := gets id in
         do! modify (with_ip_id (u16 (ip_id s + 1)));
         do! on_pkt (renumber (htons16 (ip_id s)));
         on_pkt (check_ip len)
       else ret 0) in
    if ecode <? 0 then ret tt
    else
      let! b := gets pkt in
      on_tq (send_packet slip_send outfd (take (Z.to_nat len) b)).

(** [read] of the tun device into the buffer of 2000 bytes. *)
Definition tun_to_serial (outfd : Z) (p : option (list Z)) : M tun4 unit :=
  match p with
  | None => fail Exited
  | Some p =>
      do! modify (fun s => with_pkt (p ++ drop (length p) (pkt s)) s);
      write_to_serial outfd (Z.of_nat (length p))
  end.

(** ** Properties *)

Lemma put_byte_ok b p v :
  0 <= p < Z.of_nat (length b) -> put_byte p v b = Ret tt (<[Z.to_nat p := v]> b).
Proof. intros Hp. unfold put_byte, bind, gets, id. by rewrite aset_ok. Qed.

Lemma put_le16_ok b p v :
  0 <= p -> p + 1 < Z.of_nat (length b) ->
  put_le16 p v b = Ret tt (<[Z.to_nat (p + 1) := v / 256]> (<[Z.to_nat p := v mod 256]> b)).
Proof.
  intros. unfold put_le16. rewrite (bind_ret _ _ _ _ _ (put_byte_ok b p _ ltac:(lia))).
  apply put_byte_ok. rewrite length_insert. lia.
Qed.

(** The first words of a header, by their bytes. *)
Section header.
Context (b0 b1 b2 b3 b4 b5 b6 b7 b8 b9 b10 b11 : Z) (rest : list Z).
Abbreviation hdr := (b0 :: b1 :: b2 :: b3 :: b4 :: b5 :: b6 :: b7 :: b8 :: b9 :: b10 :: b11 :: rest).

Lemma put_id v : put_le16 IP_ID v hdr
  = Ret tt (b0 :: b1 :: b2 :: b3 :: v mod 256 :: v / 256 :: b6 :: b7 :: b8 :: b9 :: b10 :: b11 :: rest).
Proof. rewrite put_le16_ok; [done|done|]. unfold IP_ID. cbn [length]. lia. Qed.

Lemma put_sum v : put_le16 IP_SUM v hdr
  = Ret tt (b0 :: b1 :: b2 :: b3 :: b4 :: b5 :: b6 :: b7 :: b8 :: b9 :: v mod 256 :: v / 256 :: rest).
Proof. rewrite put_le16_ok; [done|done|]. unfold IP_SUM. cbn [length]. lia. Qed.

Lemma get_sum : le16 IP_SUM hdr = Ret (b10 + 256 * b11) hdr.
Proof. rewrite le16_ok; [done|done|]. unfold IP_SUM. cbn [length]. lia. Qed.
End header.

(** A header without identification before and behind the renumbering, byte
    by byte. *)
Lemma renumber_ok b0 b1 b2 b3 b6 b7 b8 b9 b10 b11 rest c :
  0 <= b10 < 256 -> 0 <= b11 < 256 -> 0 <= c < 65536 ->
  exists s10 s11,
    renumber (htons16 c) ([b0; b1; b2; b3; 0; 0; b6; b7; b8; b9; b10; b11] ++ rest)
      = Ret tt ([b0; b1; b2; b3; c / 256; c mod 256; b6; b7; b8; b9; s10; s11] ++ rest) /\
    0 <= s10 < 256 /\ 0 <= s11 < 256 /\
    (c + (256 * s10 + s11)) mod 65535 = (256 * b10 + b11) mod 65535.
Proof.
  intros H10 H11 Hc. set (n := htons16 c).
  assert (0 <= n < 65536 /\ n mod 256 = c / 256 /\ n / 256 = c mod 256) as (Hn & Nlo & Nhi).
  { subst n. unfold htons16. pose proof (Z.div_mod c 256 ltac:(lia)). pose proof (Z.mod_pos_bound c 256 ltac:(lia)).
    assert (0 <= c / 256 < 256) by (split; [apply Z.div_pos; lia|apply Z.div_lt_upper_bound; lia]).
    split; [lia|]. split.
    - symmetry. apply (Z.mod_unique_pos _ _ (c mod 256)); lia.
    - symmetry. apply (Z.div_unique_pos _ _ _ (c / 256)); lia. }
  assert (c = 256 * n - 65535 * (c mod 256)) as Ec
    by (subst n; unfold htons16; pose proof (Z.div_mod c 256 ltac:(lia)); lia).
  clearbody n. set (S := ones_add (b10 + 256 * b11) (65535 - n)).
  assert (u16 (Z.lnot n) = 65535 - n) as Enot.
  { unfold wrapu, Z.lnot. change (2 ^ 16) with 65536. symmetry. apply (Z.mod_unique_pos _ _ (-1)); lia. }
  assert (S = ones_rep (b10 + 256 * b11 + (65535 - n))) as ES.
  { subst S. rewrite <- (ones_rep_small (b10 + 256 * b11)) at 1 by lia. apply ones_add_rep; lia. }
  assert (0 <= S <= 65535) as HS by (rewrite ES; apply ones_rep_range; lia).
  exists (S mod 256), (S / 256).
  pose proof (Z.div_mod S 256 ltac:(lia)) as DS. pose proof (Z.mod_pos_bound S 256 ltac:(lia)) as RS.
  assert (0 <= S / 256 < 256) as RS' by (split; [apply Z.div_pos; lia|apply Z.div_lt_upper_bound; lia]).
  split; [|split; [done|split; [done|]]].
  - unfold renumber. rewrite Enot. subst S. unfold ones_add in *.
    set (s := u16 (b10 + 256 * b11 + (65535 - n))) in *.
    pose proof (wrapu_range 16 (b10 + 256 * b11 + (65535 - n)) ltac:(lia)) as Rs. fold s in Rs. unfold in_u in Rs.
    cbn [app]. rewrite (bind_ret _ _ _ _ _ (put_id _ _ _ _ _ _ _ _ _ _ _ _ _ n)), Nlo, Nhi.
    rewrite (bind_ret _ _ _ _ _ (get_sum _ _ _ _ _ _ _ _ _ _ _ _ _)). fold s.
    rewrite (bind_ret _ _ _ _ _ (put_sum _ _ _ _ _ _ _ _ _ _ _ _ _ s)).
    rewrite (bind_ret _ _ _ _ _ (get_sum _ _ _ _ _ _ _ _ _ _ _ _ _)).
    replace (s mod 256 + 256 * (s / 256)) with s by (pose proof (Z.div_mod s 256 ltac:(lia)); lia).
    destruct (s <? 65535 - n); [|done]. by rewrite put_sum.
  - pose proof (ones_rep_mod (b10 + 256 * b11 + (65535 - n))) as Hm. rewrite <- ES in Hm.
    pose proof (Z.div_mod S 65535 ltac:(lia)) as D1.
    pose proof (Z.div_mod (b10 + 256 * b11 + (65535 - n)) 65535 ltac:(lia)) as D2. rewrite <- Hm in D2.
    set (q1 := S / 65535) in *. set (q2 := (b10 + 256 * b11 + (65535 - n)) / 65535) in *.
    set (r := S mod 65535) in *.
    assert (c + (256 * (S mod 256) + S / 256)
      = 256 * b10 + b11 + (256 * (q1 - q2 + 1) + b11 - c mod 256 - S / 256) * 65535) as ->.
    { lia. }
    apply Z_mod_plus_full.
Qed.

Lemma words_sum_12 b0 b1 b2 b3 b4 b5 b6 b7 b8 b9 b10 b11 bs :
  words_sum (b0 :: b1 :: b2 :: b3 :: b4 :: b5 :: b6 :: b7 :: b8 :: b9 :: b10 :: b11 :: bs)
    = (256 * b4 + b5) + (256 * b10 + b11)
      + (256 * b0 + b1 + (256 * b2 + b3) + (256 * b6 + b7) + (256 * b8 + b9) + words_sum bs).
Proof. cbn [words_sum]. lia. Qed.

(** The verdict does not see the identification change when the checksum
    goes with it. *)
Lemma verdict_renumber b0 b1 b2 b3 b4 b5 b6 b7 b8 b9 b10 b11 c4 c5 c10 c11 rest n :
  let b := b0 :: b1 :: b2 :: b3 :: b4 :: b5 :: b6 :: b7 :: b8 :: b9 :: b10 :: b11 :: rest in
  let b' := b0 :: b1 :: b2 :: b3 :: c4 :: c5 :: b6 :: b7 :: b8 :: b9 :: c10 :: c11 :: rest in
  20 <= header_len b ->
  ((256 * c4 + c5) + (256 * c10 + c11)) mod 65535 = ((256 * b4 + b5) + (256 * b10 + b11)) mod 65535 ->
  verdict b' n = verdict b n.
Proof.
  intros b b' Hhl Hm. unfold verdict.
  change (aget b' IP_VHL) with (aget b IP_VHL). change (aget b' IP_LEN) with (aget b IP_LEN).
  change (aget b' (IP_LEN + 1)) with (aget b (IP_LEN + 1)). change (aget b' IP_P) with (aget b IP_P).
  change (aget b' UH_SUM) with (aget b UH_SUM). change (aget b' (UH_SUM + 1)) with (aget b (UH_SUM + 1)).
  change (slice b' IP_SRC 8) with (slice b IP_SRC 8). unfold header_len in Hhl.
  change (aget b 0) with (aget b IP_VHL) in Hhl. set (hl := 4 * Z.land (default 0 (aget b IP_VHL)) IP_HL) in *.
  assert (exists k, Z.to_nat hl = (12 + k)%nat) as [k Ek] by (exists (Z.to_nat hl - 12)%nat; lia).
  assert (slice b' hl (n - hl) = slice b hl (n - hl)) as -> by (unfold slice; by rewrite Ek).
  assert (sum_ok (words_sum (slice b' 0 hl)) = sum_ok (words_sum (slice b 0 hl))) as ->; [|done].
  unfold sum_ok, slice. rewrite Ek. subst b b'. change (Z.to_nat 0) with 0%nat.
  rewrite !drop_0. cbn [Nat.add firstn]. rewrite !words_sum_12.
  by rewrite <- Zplus_mod_idemp_l, Hm, Zplus_mod_idemp_l.
Qed.

(** [needs_id] asks for identification 0 and bit 6 of byte 7, the low byte of
    the fragment offset; [IP_DF] is bit 6 of byte 6. *)
Lemma needs_id_tests b :
  bytes_ok b -> 8 <= Z.of_nat (length b) ->
  needs_id b = Ret ((default 0 (aget b 4) =? 0) && (default 0 (aget b 5) =? 0)
    && Z.testbit (default 0 (aget b 7)) 6) b.
Proof.
  intros Hb Hl. unfold needs_id.
  rewrite (bind_ret _ _ _ _ _ (le16_ok b IP_ID ltac:(done) ltac:(unfold IP_ID; lia))).
  rewrite (bind_ret _ _ _ _ _ (le16_ok b IP_OFF ltac:(done) ltac:(unfold IP_OFF; lia))).
  unfold ret. f_equal. change (IP_ID + 1) with 5. change (IP_OFF + 1) with 7. unfold IP_ID, IP_OFF.
  pose proof (byte_range b 4 Hb) as H4. pose proof (byte_range b 5 Hb) as H5. pose proof (byte_range b 6 Hb) as H6.
  f_equal.
  - destruct (Z.eqb_spec (default 0 (aget b 4)) 0), (Z.eqb_spec (default 0 (aget b 5)) 0); cbn [andb];
      [apply Z.eqb_eq; lia|apply Z.eqb_neq; lia..].
  - set (x := default 0 (aget b 6)) in *. set (y := default 0 (aget b 7)).
    change IP_DF with (Z.shiftl 1 14). assert (Z.testbit (x + 256 * y) 14 = Z.testbit y 6) as E.
    { replace (Z.testbit y 6) with (Z.testbit (Z.shiftr (x + 256 * y) 8) 6); [by rewrite Z.shiftr_spec by lia|].
      f_equal. rewrite Z.shiftr_div_pow2 by lia. change (2 ^ 8) with 256. symmetry.
      apply (Z.div_unique_pos _ _ _ x); lia. }
    rewrite <- E. clear E. set (v := x + 256 * y). unfold c_true. rewrite Z.land_comm.
    destruct (Z.testbit v 14) eqn:E.
    + apply negb_true_iff, Z.eqb_neq. intros H. assert (Z.testbit (Z.land (Z.shiftl 1 14) v) 14 = true) as H1.
      { by rewrite Z.land_spec, E. }
      by rewrite H, Z.bits_0 in H1.
    + apply negb_false_iff, Z.eqb_eq. apply Z.bits_inj'. intros i Hi. rewrite Z.land_spec, Z.bits_0.
      rewrite Z.shiftl_1_l, Z.pow2_bits_eqb by lia. destruct (Z.eqb_spec 14 i) as [<-|]; [by rewrite E|done].
Qed.

Lemma on_pkt_ok {A} (m : M buf A) s a b : m (pkt s) = Ret a b -> on_pkt m s = Ret a (with_pkt b s).
Proof. intros E. unfold on_pkt, zoom. by rewrite E. Qed.

Lemma on_pkt_read {A} (m : M buf A) s a : m (pkt s) = Ret a (pkt s) -> on_pkt m s = Ret a s.
Proof. intros E. rewrite (on_pkt_ok m s a _ E). by destruct s. Qed.

(** A sound packet without identification is sound with one. *)
Lemma sound_renumbered b n c :
  bytes_ok b -> 28 <= n <= Z.of_nat (length b) -> n < 65000 -> 20 <= header_len b <= n -> 0 <= c < 65536 ->
  verdict b n = 0 -> default 0 (aget b 4) = 0 -> default 0 (aget b 5) = 0 ->
  exists b', renumber (htons16 c) b = Ret tt b' /\ verdict b' n = 0 /\ check_ip n b' = Ret 0 b' /\
    256 * default 0 (aget b' 4) + default 0 (aget b' 5) = c /\
    forall i, i <> 4 -> i <> 5 -> i <> 10 -> i <> 11 -> aget b' i = aget b i.
Proof.
  intros Hb Hn H65 Hhl Hc Hv E4 E5. do 12 (destruct b as [|? b]; [cbn in Hn; lia|]).
  rename z into b0, z0 into b1, z1 into b2, z2 into b3, z5 into b6, z6 into b7, z7 into b8, z8 into b9,
    z9 into b10, z10 into b11, b into rest.
  change (z3 = 0) in E4. change (z4 = 0) in E5. subst z3 z4.
  pose proof (bytes_ok_aget _ 10 b10 Hb eq_refl) as H10. pose proof (bytes_ok_aget _ 11 b11 Hb eq_refl) as H11.
  destruct (renumber_ok b0 b1 b2 b3 b6 b7 b8 b9 b10 b11 rest c H10 H11 Hc) as (s10 & s11 & E & R10 & R11 & Hm).
  pose proof (Z.div_mod c 256 ltac:(lia)) as Dc. pose proof (Z.mod_pos_bound c 256 ltac:(lia)) as Rc.
  assert (0 <= c / 256 < 256) as Rc' by (split; [apply Z.div_pos; lia|apply Z.div_lt_upper_bound; lia]).
  exists ([b0; b1; b2; b3; c / 256; c mod 256; b6; b7; b8; b9; s10; s11] ++ rest). split; [exact E|].
  cbn [app] in *. set (b' := b0 :: b1 :: b2 :: b3 :: c / 256 :: _). set (b := b0 :: b1 :: b2 :: b3 :: 0 :: _) in *.
  assert (verdict b' n = 0) as Hv'.
  { rewrite <- Hv. apply (verdict_renumber b0 b1 b2 b3 0 0 b6 b7 b8 b9 b10 b11 (c / 256) (c mod 256) s10 s11 rest n);
      [apply Hhl|].
    transitivity ((c + (256 * s10 + s11)) mod 65535); [apply (f_equal (fun x => x mod 65535)); lia|].
    rewrite Hm. apply (f_equal (fun x => x mod 65535)). lia. }
  split; [done|]. split.
  - assert (header_len b' = header_len b) as Eh by done. rewrite check_ip_decides, Hv'; [done| |change (length b') with (length b); lia..].
    subst b b'. unfold bytes_ok in *. rewrite !Forall_cons in *. naive_solver.
  - split; [change (256 * (c / 256) + c mod 256 = c); lia|]. intros i N4 N5 N10 N11.
    destruct (decide (i < 0)) as [|Hi]; [by rewrite !aget_neg by done|]. destruct (decide (i < 12)) as [|Hge].
    + assert (i = 0 \/ i = 1 \/ i = 2 \/ i = 3 \/ i = 6 \/ i = 7 \/ i = 8 \/ i = 9) as H by lia.
      by destruct H as [->|[->|[->|[->|[->|[->|[->| ->]]]]]]].
    + unfold aget. destruct (0 <=? i); [|done]. replace (Z.to_nat i) with (12 + (Z.to_nat i - 12))%nat by lia. done.
Qed.

(** What [write_to_serial] makes of a sound packet: the packet, or the packet
    with the next identification. *)
Definition renumbered (s : tun4) (b : buf) (c : Z) : Prop :=
  (b = pkt s /\ c = ip_id s) \/
  (c = u16 (ip_id s + 1) /\ 256 * default 0 (aget b 4) + default 0 (aget b 5) = ip_id s /\
   forall i, i <> 4 -> i <> 5 -> i <> 10 -> i <> 11 -> aget b i = aget (pkt s) i).

Lemma sound_packet_sent outfd n s :
  bytes_ok (pkt s) -> 28 <= n <= Z.of_nat (length (pkt s)) -> n < 65000 -> 20 <= header_len (pkt s) <= n ->
  0 <= ip_id s < 65536 -> check_ip n (pkt s) = Ret 0 (pkt s) ->
  exists b c, write_to_serial outfd n s
      = on_tq (send_packet slip_send outfd (take (Z.to_nat n) b)) (with_ip_id c (with_pkt b s)) /\
    check_ip n b = Ret 0 b /\ renumbered s b c.
Proof.
  intros Hb Hn H65 Hhl Hid Echk. set (b := pkt s) in *.
  assert (verdict b n = 0) as Hv by (rewrite check_ip_decides in Echk by (done || lia); by injection Echk).
  unfold write_to_serial. rewrite (bind_ret _ _ _ _ _ (on_pkt_read _ s _ Echk)). cbn [Z.ltb Z.compare].
  rewrite (bind_ret _ _ _ _ _ (on_pkt_read _ s _ (needs_id_tests b Hb ltac:(lia)))).
  destruct (default 0 (aget b 4) =? 0) eqn:E4; [destruct (default 0 (aget b 5) =? 0) eqn:E5|]; cbn [andb].
  2-3: exists b, (ip_id s); split; [|split; [done|by left]]; destruct s; done.
  destruct (Z.testbit _ 6).
  2: { exists b, (ip_id s). split; [|split; [done|by left]]. by destruct s. }
  apply Z.eqb_eq in E4, E5. rewrite bind_assoc, (bind_ret _ _ _ _ _ (gets_ok _ _)). unfold id.
  rewrite bind_assoc, (bind_ret _ _ _ _ _ (modify_ok _ _)).
  destruct (sound_renumbered b n (ip_id s)) as (b' & Er & Hv' & Hc' & Hid' & Hsame); try done.
  rewrite bind_assoc, (bind_ret _ _ _ tt (with_pkt b' (with_ip_id (u16 (ip_id s + 1)) s)))
    by (by apply on_pkt_ok).
  rewrite (bind_ret _ _ _ _ _ (on_pkt_read (check_ip n) (with_pkt b' _) 0 Hc')). cbn [Z.ltb Z.compare].
  exists b', (u16 (ip_id s + 1)). split; [|split; [exact Hc'|by right]].
  rewrite (bind_ret _ _ _ _ _ (gets_ok _ _)). done.
Qed.

(** C37 A packet of at least 28 and fewer than 65000 bytes, with a header length of at
    least 20 that does not exceed the packet, that passes [check_ip] is queued
    as one frame, as it is or with an identification and a checksum that pass
    it again: the second check does not drop it, and what is queued passes the
    check of the receiver.  The tool ends when the frame does not fit into the
    buffer.  (With a shorter header length, which [check_ip] lets pass, the
    second check can drop the packet: [short_packet_dropped].) *)
Theorem sound_packet_queued outfd n s :
  bytes_ok (pkt s) -> 28 <= n <= Z.of_nat (length (pkt s)) -> n < 65000 -> 20 <= header_len (pkt s) <= n ->
  0 <= ip_id s < 65536 -> queue_wf (tq s) -> check_ip n (pkt s) = Ret 0 (pkt s) ->
  exists b c, check_ip n b = Ret 0 b /\ renumbered s b c /\
    let frame := stuff (take (Z.to_nat n) b) in
    if decide (slip_end (tq s) + Z.of_nat (length frame) < SLIP_BUF) then
      exists q, write_to_serial outfd n s = Ret tt (with_tq q (with_ip_id c (with_pkt b s))) /\ queue_wf q /\
        pending q = pending (tq s) ++ frame ++ [SLIP_END]
    else write_to_serial outfd n s = Err Exited.
Proof.
  intros Hb Hn H65 Hhl Hid Hq Hs. destruct (sound_packet_sent outfd n s) as (b & c & E & Hs' & Hr); try done.
  exists b, c. split; [done|]. split; [done|]. cbv zeta. rewrite E.
  pose proof (slip_packet_queued outfd (take (Z.to_nat n) b) (tq s) Hq) as H. unfold on_tq, zoom.
  cbn [tq with_ip_id with_pkt] in *. destruct (decide _).
  - destruct H as (q & E' & Hq' & Hp & _). exists q. by rewrite E'.
  - by rewrite H.
Qed.

(** ** Witness *)

Definition demo_tun4 : tun4 := Tun4 demo_packet 513 (Queue (replicate 2000 0) 0 0 (Host [] [])).

Lemma sound_packet_queued_witness : exists b c, check_ip 30 b = Ret 0 b /\ renumbered demo_tun4 b c /\
  let frame := stuff (take (Z.to_nat 30) b) in
  if decide (slip_end (tq demo_tun4) + Z.of_nat (length frame) < SLIP_BUF) then
    exists q, write_to_serial 4 30 demo_tun4 = Ret tt (with_tq q (with_ip_id c (with_pkt b demo_tun4))) /\ queue_wf q /\
      pending q = pending (tq demo_tun4) ++ frame ++ [SLIP_END]
  else write_to_serial 4 30 demo_tun4 = Err Exited.
Proof.
  apply (sound_packet_queued 4 30 demo_tun4); [apply demo_packet_bytes|..];
    vm_compute; (done || (split; done) || (repeat split; done)).
Defined.

(** A packet with a header length of eight bytes passes the first check, gets
    an identification, and is dropped by the second: the checksum is not in
    the part of the packet it is made for. *)
Definition short_tun4 : tun4 := Tun4 short_packet 513 (Queue (replicate 2000 0) 0 0 (Host [] [])).

Theorem short_packet_dropped :
  check_ip 30 (pkt short_tun4) = Ret 0 (pkt short_tun4) /\
  exists b, write_to_serial 4 30 short_tun4 = Ret tt (with_ip_id 514 (with_pkt b short_tun4)).
Proof. split; [by vm_compute|]. eexists. by vm_compute. Qed.
