(* ===== verification/Receive.v ===== *)
(** * The receiver of tunslip.c and tapslip6.c

    The loop that reads the serial line is the same in both: it differs from
    tunslip6.c in ending the program when nothing waits on the line.  What a
    frame is taken for is a parameter; the tool's own state is [rest]. *)

From S2P Require Import Prelude Framing Slip.

Definition INBUF : Z := 2000.

Record rx (X : Type) : Type := Rx { inbuf : list Z; inbufptr : Z; input : list Z; rest : X }.
Arguments Rx {X}.
Arguments inbuf {X}.
Arguments inbufptr {X}.
Arguments input {X}.
Arguments rest {X}.

(** The texts that are printed: no control characters but line ends, tabs
    and zeros, behind the first byte, which is not looked at. *)
Fixpoint sensible_loop (s : list Z) : bool :=
  match s with
  | [] => true
  | c :: s =>
      if (c =? 0) || (c =? 13) || (c =? 10) || (c =? 9) then sensible_loop s
      else if (c <? 32) || (126 <? c) then false
      else sensible_loop s
  end.
Definition is_sensible_string (s : list Z) : bool := sensible_loop (tail s).

Section receive.
Context {X : Type}.

Definition with_inbuf (v : list Z) (s : rx X) : rx X := Rx v (inbufptr s) (input s) (rest s).
Definition with_inbufptr (v : Z) (s : rx X) : rx X := Rx (inbuf s) v (input s) (rest s).
Definition with_input (v : list Z) (s : rx X) : rx X := Rx (inbuf s) (inbufptr s) v (rest s).
Definition with_rest (v : X) (s : rx X) : rx X := Rx (inbuf s) (inbufptr s) (input s) v.
Definition on_inbuf {A} : M (list Z) A -> M (rx X) A := zoom inbuf with_inbuf.
Definition on_rest {A} : M X A -> M (rx X) A := zoom rest with_rest.

(** [inbuf[0..inbufptr)] *)
Definition received (s : rx X) : list Z := take (Z.to_nat (inbufptr s)) (inbuf s).

(** [fread(&c, 1, 1, inslip)], [None] when it returns 0; and [ungetc]. *)
Definition fread : M (rx X) (option Z) :=
  let! s := gets id in
  match input s with
  | [] => ret None
  | c :: cs => do! modify (with_input cs); ret (Some c)
  end.
Definition ungetc (c : Z) : M (rx X) unit := modify (fun s => with_input (c :: input s) s).

(** [uip.inbuf[inbufptr++] = c] *)
Definition store_char (c : Z) : M (rx X) unit :=
  let! s := gets id in
  let! b := unwrap OutOfBounds (aset (inbuf s) (inbufptr s) c) in
  do! modify (with_inbuf b);
  modify (fun s => with_inbufptr (inbufptr s + 1) s).

(** What is done at the end of a frame that is not empty. *)
Context (on_packet : M (rx X) unit).

(** A character that was read; [false] when the function returns. *)
Definition on_char (c : Z) : M (rx X) bool :=
  if c =? SLIP_END then
    let! s := gets id in
    do! when (0 <? inbufptr s) on_packet;
    ret true
  else if c =? SLIP_ESC then
    let! d := fread in
    match d with
    | None => do! ungetc SLIP_ESC; ret false
    | Some d =>
        do! store_char (if d =? SLIP_ESC_END then SLIP_END else if d =? SLIP_ESC_ESC then SLIP_ESC else d);
        ret true
    end
  else do! store_char c; ret true.

(** The top of the loop: a buffer that is full is dropped. *)
Definition drop_full : M (rx X) unit :=
  modify (fun s => if INBUF <=? inbufptr s then with_inbufptr 0 s else s).

Definition read_step (_ : unit) : M (rx X) (unit + unit) :=
  do! drop_full;
  let! c := fread in
  match c with
  | None => fail Exited
  | Some c => let! go := on_char c in ret (if go then inl tt else inr tt)
  end.

Definition read_more (fuel : nat) : M (rx X) unit := loop fuel read_step tt.

(** On Linux the first character is read before the loop is entered behind
    its check. *)
Definition serial_to_tun (fuel : nat) : M (rx X) unit :=
  let! c := fread in
  match c with
  | None => fail Exited
  | Some c =>
      let! go := on_char c in
      if go then read_more fuel else ret tt
  end.

(** ** The loop *)

Definition rx_wf (s : rx X) : Prop := length (inbuf s) = Z.to_nat INBUF /\ 0 <= inbufptr s <= INBUF.

(** The receiver has [bs] of a packet. *)
Definition has (bs : list Z) (s : rx X) : Prop :=
  length (inbuf s) = Z.to_nat INBUF /\ inbufptr s = Z.of_nat (length bs) /\ received s = bs.

Lemma rx_fread_ok s :
  fread s = match input s with [] => Ret None s | c :: cs => Ret (Some c) (with_input cs s) end.
Proof. unfold fread. rewrite (bind_ret _ _ _ _ _ (gets_ok _ _)). unfold id. by destruct (input s). Qed.

Lemma rx_store_char_ok c s :
  rx_wf s -> inbufptr s < INBUF ->
  store_char c s = Ret tt (Rx (<[Z.to_nat (inbufptr s) := c]> (inbuf s)) (inbufptr s + 1) (input s) (rest s)).
Proof.
  intros (Hl & Hp) Hlt. unfold store_char. rewrite (bind_ret _ _ _ _ _ (gets_ok _ _)). unfold id.
  by rewrite aset_ok by (rewrite Hl; unfold INBUF in *; lia).
Qed.

Lemma rx_store_char_wf c s :
  rx_wf s -> inbufptr s < INBUF ->
  exists s', store_char c s = Ret tt s' /\ rx_wf s' /\ input s' = input s /\ rest s' = rest s.
Proof.
  intros Hs Hlt. eexists. rewrite rx_store_char_ok by done. split; [done|]. destruct Hs as (Hl & Hp).
  unfold rx_wf. cbn. rewrite length_insert. split; [lia|done].
Qed.

Lemma rx_store_char_has c bs s :
  has bs s -> Z.of_nat (length bs) < INBUF ->
  exists s', store_char c s = Ret tt s' /\ has (bs ++ [c]) s' /\ input s' = input s /\ rest s' = rest s /\
    drop (length (bs ++ [c])) (inbuf s') = drop (length (bs ++ [c])) (inbuf s).
Proof.
  intros (Hl & Hp & Hr) Hlt. eexists. rewrite rx_store_char_ok by (unfold rx_wf; lia). split; [done|].
  split; [|split; [done|split; [done|cbn [inbuf]; rewrite length_app; cbn [length]; by rewrite drop_insert_lt by lia]]]. unfold has, received. cbn. rewrite length_insert, length_app. cbn [length].
  split; [done|]. split; [lia|]. rewrite Hp. replace (Z.to_nat (Z.of_nat (length bs) + 1)) with (S (length bs)) by lia.
  rewrite Nat2Z.id, take_insert_snoc by (rewrite Hl; unfold INBUF in *; lia). f_equal.
  unfold received in Hr. by rewrite Hp, Nat2Z.id in Hr.
Qed.

Lemma has_wf bs s : has bs s -> Z.of_nat (length bs) <= INBUF -> rx_wf s.
Proof. intros (Hl & Hp & _) H. split; [done|lia]. Qed.

Lemma rx_on_char_false c s s' : on_char c s = Ret false s' -> c = SLIP_ESC /\ input s' = [SLIP_ESC].
Proof.
  unfold on_char. destruct (c =? SLIP_END).
  - intros (a & s1 & _ & (b & s2 & _ & [=])%bind_inv)%bind_inv.
  - destruct (Z.eqb_spec c SLIP_ESC) as [->|].
    + unfold bind at 1. rewrite rx_fread_ok. destruct (input s) eqn:E.
      * cbn. intros [= <-]. cbn. by rewrite E.
      * intros (a & s1 & _ & [=])%bind_inv.
    + intros (a & s1 & _ & [=])%bind_inv.
Qed.

Lemma rx_read_more_unfold fuel s s1 :
  drop_full s = Ret tt s1 ->
  read_more (S fuel) s =
    match input s with
    | [] => Err Exited
    | c :: cs => match on_char c (with_input cs s1) with
                 | Ret true s2 => read_more fuel s2
                 | Ret false s2 => Ret tt s2
                 | Err f => Err f
                 end
    end.
Proof.
  intros E. unfold read_more. cbn [loop]. unfold read_step at 1.
  rewrite bind_assoc, (bind_ret _ _ _ _ _ E), bind_assoc. unfold bind at 1. rewrite rx_fread_ok.
  assert (input s1 = input s) as ->.
  { unfold drop_full in E. rewrite modify_ok in E. injection E as <-. by destruct (_ <=? _). }
  destruct (input s) as [|c cs]; [done|]. unfold bind. by destruct (on_char c _) as [[] s2|].
Qed.

Lemma rx_drop_full_ok s :
  rx_wf s -> exists s', drop_full s = Ret tt s' /\ rx_wf s' /\ inbufptr s' < INBUF /\ input s' = input s /\ rest s' = rest s.
Proof.
  intros (Hl & Hp). unfold drop_full. rewrite modify_ok. eexists. split; [done|].
  destruct (Z.leb_spec INBUF (inbufptr s)); cbn; unfold rx_wf, INBUF in *; cbn; lia || (repeat split; try lia; done).
Qed.

(** The loop is left only with an escape that nothing follows put back. *)
Lemma rx_read_more_returns fuel : forall s s', read_more fuel s = Ret tt s' -> input s' = [SLIP_ESC].
Proof.
  induction fuel as [|fuel IH]; intros s s'; [done|].
  rewrite (rx_read_more_unfold fuel s _ (modify_ok _ _)). destruct (input s) as [|c cs]; [done|].
  destruct (on_char c _) as [[] s2|] eqn:E; [apply IH| |done]. intros [= <-]. by apply rx_on_char_false in E as [_ ?].
Qed.

Lemma rx_serial_returns fuel s s' : serial_to_tun fuel s = Ret tt s' -> input s' = [SLIP_ESC].
Proof.
  unfold serial_to_tun. unfold bind at 1. rewrite rx_fread_ok. destruct (input s) as [|c cs]; [done|].
  intros ([] & s1 & E & H)%bind_inv; [by apply rx_read_more_returns in H|]. injection H as <-.
  by apply rx_on_char_false in E as [_ ?].
Qed.

(** ** Frames *)

(** A stuffed byte is taken from the front of the input ... *)
Lemma rx_read_one_stuffed c bs tl s fuel :
  has bs s -> Z.of_nat (length bs) < INBUF -> input s = stuff1 c ++ tl ->
  exists s', has (bs ++ [c]) s' /\ input s' = tl /\ rest s' = rest s /\
    drop (length (bs ++ [c])) (inbuf s') = drop (length (bs ++ [c])) (inbuf s) /\ read_more (S fuel) s = read_more fuel s'.
Proof.
  intros Hs Hlt Hi. assert (drop_full s = Ret tt s) as Ed.
  { destruct Hs as (_ & Hp & _). unfold drop_full. rewrite modify_ok, Hp. by rewrite (proj2 (Z.leb_gt _ _)). }
  destruct (rx_store_char_has c bs (with_input tl s) Hs Hlt) as (s' & E & H' & Hi' & Hr' & Hd').
  exists s'. split; [done|]. split; [done|]. split; [done|]. split; [done|].
  rewrite (rx_read_more_unfold fuel s s Ed), Hi. unfold stuff1. destruct (special c) eqn:Ec; cbn [app].
  - unfold on_char at 1. cbn [Z.eqb Pos.eqb SLIP_ESC SLIP_END esc slip_stuffing].
    unfold bind at 1. rewrite rx_fread_ok. cbn [input with_input].
    assert (with_input tl (with_input (code c :: tl) s) = with_input tl s) as -> by done.
    assert ((if code c =? SLIP_ESC_END then SLIP_END else if code c =? SLIP_ESC_ESC then SLIP_ESC else code c) = c) as ->
      by (by apply slip_special in Ec as [-> | ->]).
    by rewrite (bind_ret _ _ _ _ _ E).
  - destruct (special_false c Ec) as [N1%Z.eqb_neq N2%Z.eqb_neq].
    unfold on_char at 1. cbn [delim esc slip_stuffing] in N1, N2. rewrite N1, N2. by rewrite (bind_ret _ _ _ _ _ E).
Qed.

(** ... and a stuffed text. *)
Lemma rx_read_more_stuffed cs : forall bs tl s fuel,
  has bs s -> Z.of_nat (length (bs ++ cs)) <= INBUF -> input s = stuff cs ++ tl ->
  exists s', has (bs ++ cs) s' /\ input s' = tl /\ rest s' = rest s /\
    drop (length (bs ++ cs)) (inbuf s') = drop (length (bs ++ cs)) (inbuf s) /\
    read_more (length cs + fuel) s = read_more fuel s'.
Proof.
  induction cs as [|c cs IH]; intros bs tl s fuel Hs Hn Hi.
  { rewrite app_nil_r. by exists s. }
  rewrite stuff_cons, <- app_assoc in Hi. rewrite length_app in Hn. cbn [length] in Hn.
  destruct (rx_read_one_stuffed c bs (stuff cs ++ tl) s (length cs + fuel)) as (s1 & H1 & Hi1 & Hr1 & Hd1 & E1); [done|lia|done|].
  destruct (IH (bs ++ [c]) tl s1 fuel) as (s' & H' & Hi' & Hr' & Hd' & E');
    [done|rewrite !length_app; cbn; lia|done|].
  rewrite <- app_assoc in H', Hd'. exists s'. split; [done|]. split; [done|]. split; [congruence|].
  split; [|by rewrite <- E']. cbn [app] in Hd'. rewrite Hd'. change (bs ++ c :: cs) with (bs ++ [c] ++ cs).
  by rewrite app_assoc, (length_app _ cs), <- !drop_drop, Hd1.
Qed.

(** A frame that waits on the line is handed over as it was before stuffing. *)
Lemma read_more_frame p tl s fuel :
  has [] s -> p <> [] -> Z.of_nat (length p) < INBUF -> input s = stuff p ++ SLIP_END :: tl ->
  exists s1, has p s1 /\ input s1 = tl /\ rest s1 = rest s /\ drop (length p) (inbuf s1) = drop (length p) (inbuf s) /\
    read_more (S (length p + fuel)) s =
      match on_packet s1 with Ret _ s2 => read_more fuel s2 | Err f => Err f end.
Proof.
  intros Hs Hp Hn Hi. rewrite plus_n_Sm.
  destruct (rx_read_more_stuffed p [] (SLIP_END :: tl) s (S fuel)) as (s1 & (Hl1 & Hp1 & Hr1) & Hi1 & Ht1 & Hd1 & E1);
    [done|cbn [app]; lia|done|].
  exists (with_input tl s1). split; [done|]. split; [done|]. split; [done|]. split; [done|]. rewrite E1.
  cbn [app] in Hp1. assert (0 < inbufptr s1) as H0 by (rewrite Hp1; destruct p; [done|cbn; lia]).
  rewrite (rx_read_more_unfold fuel s1 s1), Hi1.
  - unfold on_char. rewrite Z.eqb_refl, (bind_ret _ _ _ _ _ (gets_ok _ _)). unfold id. cbn [inbufptr with_input].
    rewrite (proj2 (Z.ltb_lt _ _) H0). cbn [when]. unfold bind. by destruct (on_packet _) as [[] ?|].
  - unfold drop_full. rewrite modify_ok. by rewrite (proj2 (Z.leb_gt _ _)) by lia.
Qed.

(** ** Where the loop ends *)

Section ends.
Context (on_packet_input : forall s s', on_packet s = Ret tt s' -> input s' = input s).

Lemma store_char_input c s s' : store_char c s = Ret tt s' -> input s' = input s.
Proof.
  unfold store_char. rewrite (bind_ret _ _ _ _ _ (gets_ok _ _)). unfold id.
  destruct (aset _ _ _); cbn; [by intros [= <-]|done].
Qed.

(** The last byte of the input is the escape if the handling of [c] ends the
    loop, and also if it is the last byte of what is left. *)
Lemma rx_on_char_last c s go s' :
  on_char c s = Ret go s' -> (go = true -> last (input s') = Some SLIP_ESC) -> last (c :: input s) = Some SLIP_ESC.
Proof.
  assert (forall d t, (do! store_char d; ret true) t = Ret go s' -> go = true /\ input s' = input t) as Hstore.
  { intros d t ([] & t1 & E%store_char_input & [= <- <-])%bind_inv. done. }
  assert (forall pre, input s = pre ++ input s' -> last (input s') = Some SLIP_ESC -> last (c :: input s) = Some SLIP_ESC) as Hl.
  { intros pre E El. rewrite E. change (c :: pre ++ input s') with ((c :: pre) ++ input s'). by rewrite last_app, El. }
  unfold on_char. destruct (c =? SLIP_END); [|destruct (Z.eqb_spec c SLIP_ESC) as [->|]].
  - rewrite (bind_ret _ _ _ _ _ (gets_ok _ _)). unfold id. intros ([] & s1 & E & [= <- <-])%bind_inv H.
    apply (Hl []); [|by apply H]. destruct (0 <? inbufptr s); [symmetry; by apply on_packet_input|]. by injection E as <-.
  - unfold bind at 1. rewrite rx_fread_ok. destruct (input s) as [|d cs]; [done|].
    intros [-> E]%Hstore H. apply (Hl [d]); [by rewrite E|by apply H].
  - intros [-> E]%Hstore H. apply (Hl []); [by rewrite E|by apply H].
Qed.

Lemma rx_read_more_last fuel : forall s s', read_more fuel s = Ret tt s' -> last (input s) = Some SLIP_ESC.
Proof.
  induction fuel as [|fuel IH]; intros s s'; [done|].
  rewrite (rx_read_more_unfold fuel s _ (modify_ok _ _)). destruct (input s) as [|c cs]; [done|].
  destruct (on_char c _) as [go s2|] eqn:E; [|done]. intros H. apply (rx_on_char_last _ _ _ _ E). intros ->. by apply IH in H.
Qed.

Lemma rx_serial_last fuel s s' : serial_to_tun fuel s = Ret tt s' -> last (input s) = Some SLIP_ESC.
Proof.
  unfold serial_to_tun. unfold bind at 1. rewrite rx_fread_ok. destruct (input s) as [|c cs]; [done|].
  intros (go & s2 & E & H)%bind_inv. apply (rx_on_char_last _ _ _ _ E). intros ->. by apply rx_read_more_last in H.
Qed.
End ends.

(** ** Safety *)

Section safety.
(** What the handler of a frame keeps of the tool's own state, and that it
    stays inside its buffers. *)
Context (I : X -> Prop) (on_packet_safe : forall s,
  rx_wf s -> 0 < inbufptr s -> I (rest s) ->
  safe (fun _ s' => rx_wf s' /\ inbufptr s' < INBUF /\ input s' = input s /\ I (rest s')) (on_packet s)).

Lemma rx_on_char_safe c s :
  rx_wf s -> inbufptr s < INBUF -> I (rest s) ->
  safe (fun go s' => rx_wf s' /\ (go = false -> inbufptr s' < INBUF) /\ I (rest s') /\
    (if go then (length (input s') <= length (input s))%nat else True)) (on_char c s).
Proof.
  intros Hs Hlt HI. unfold on_char.
  assert (forall d t, rx_wf t -> inbufptr t < INBUF -> I (rest t) -> (length (input t) <= length (input s))%nat ->
    safe (fun go s' => rx_wf s' /\ (go = false -> inbufptr s' < INBUF) /\ I (rest s') /\
      (if go then (length (input s') <= length (input s))%nat else True)) ((do! store_char d; ret true) t)) as Hstore.
  { intros d t Ht Hlt' HI' Hle. destruct (rx_store_char_wf d t Ht Hlt') as (s' & E & H' & Hi & Hr).
    rewrite (bind_ret _ _ _ _ _ E). cbn. rewrite Hi, Hr. done. }
  destruct (c =? SLIP_END).
  - rewrite (bind_ret _ _ _ _ _ (gets_ok _ _)). unfold id. destruct (Z.ltb_spec 0 (inbufptr s)); cbn [when].
    + eapply safe_bind; [by apply on_packet_safe|]. intros [] s1 (H1 & H2 & H3 & H4). cbn. rewrite H3. done.
    + cbn. split; [done|]. split; [done|]. split; [done|lia].
  - destruct (c =? SLIP_ESC); [|by apply Hstore].
    unfold bind at 1. rewrite rx_fread_ok. destruct (input s) as [|d cs] eqn:Ei; [done|]. apply Hstore; try done. cbn. lia.
Qed.

Lemma rx_read_more_safe fuel : forall s,
  rx_wf s -> I (rest s) -> (length (input s) < fuel)%nat ->
  safe (fun _ s' => rx_wf s' /\ inbufptr s' < INBUF /\ I (rest s')) (read_more fuel s).
Proof.
  induction fuel as [|fuel IH]; intros s Hs HI Hf; [lia|].
  destruct (rx_drop_full_ok s Hs) as (s1 & E1 & H1 & Hlt & Hi & Hr). rewrite (rx_read_more_unfold fuel s s1 E1).
  destruct (input s) as [|c cs] eqn:Ei; [done|].
  pose proof (rx_on_char_safe c (with_input cs s1) H1 Hlt) as Hc. cbn [rest with_input] in Hc. rewrite Hr in Hc. specialize (Hc HI).
  destruct (on_char c _) as [[] s2|]; [|cbn in Hc; naive_solver|done].
  destruct Hc as (H2 & _ & HI2 & Hl). cbn in *. apply IH; [done|done|lia].
Qed.

Lemma rx_serial_safe s :
  rx_wf s -> inbufptr s < INBUF -> I (rest s) ->
  safe (fun _ s' => rx_wf s' /\ inbufptr s' < INBUF /\ I (rest s') /\ input s' = [SLIP_ESC])
    (serial_to_tun (S (length (input s))) s).
Proof.
  intros Hs Hlt HI. pose proof (rx_serial_returns (S (length (input s))) s) as Hret.
  enough (safe (fun _ s' => rx_wf s' /\ inbufptr s' < INBUF /\ I (rest s')) (serial_to_tun (S (length (input s))) s)) as H.
  { destruct (serial_to_tun _ _) as [[] s'|]; [|done]. cbn in *. naive_solver. }
  clear Hret. unfold serial_to_tun. unfold bind at 1. rewrite rx_fread_ok. destruct (input s) as [|c cs] eqn:Ei; [done|].
  eapply safe_bind; [by apply rx_on_char_safe|]. intros go s2 (H2 & Hgo & HI2 & Hi2). cbn in Hi2.
  destruct go; [|cbn; naive_solver]. apply rx_read_more_safe; [done|done|cbn; lia].
Qed.
End safety.
End receive.
