(* ===== verification/Tapslip6.v ===== *)
(** * The tap tunnel (dist/tools/tunslip/tapslip6.c)

    Ethernet frames between a tap device and a SLIP line.  The queue is the
    one of tunslip.c, the receiver that of [Receive].  Frames that are printed
    are kept as output, the tool's own messages are not. *)

From S2P Require Import Prelude Framing Slip Receive.

Definition DEBUG_LINE_MARKER : Z := 13.
Definition STDOUT : Z := 1.
Definition IF_DOWN : Z := 2.
Definition IF_HW_ETHER : Z := 3.
Definition IF_UP : Z := 4.

(** The hexadecimal address of the gateway, with colons, from the 16 bytes at
    [inbuf + 2]; and a text up to its terminating zero. *)
Fixpoint mac_text (i : Z) (bs : list Z) : list Z :=
  match bs with
  | [] => []
  | b :: bs => [b] ++ (if (Z.land i 1 =? 1) && (i <? 14) then [58] else []) ++ mac_text (i + 1) bs
  end.
Fixpoint c_str (bs : list Z) : list Z :=
  match bs with
  | [] => []
  | b :: bs => if b =? 0 then [] else b :: c_str bs
  end.

(** The queue, and whether the address has to be asked for. *)
Record tap : Type := Tap { tq : queue; request_mac : bool }.

Definition with_tq (q : queue) (t : tap) : tap := Tap q (request_mac t).
Definition with_request_mac (b : bool) (t : tap) : tap := Tap (tq t) b.

Section tapslip6.
Context (slipfd tunfd : Z).

Definition on_tq {A} (m : M queue A) : M (rx tap) A := on_rest (zoom tq with_tq m).
Definition on_host {A} (m : M host A) : M (rx tap) A := on_tq (on_sys m).

(** The end of a frame; the request that starts with [!] is not handed on
    when it is unknown. *)
Definition on_packet : M (rx tap) unit :=
  let! s := gets id in
  let! b0 := unwrap OutOfBounds (aget (inbuf s) 0) in
  let! b1 := unwrap OutOfBounds (aget (inbuf s) 1) in
  do! (if b0 =? 33 then
         when (b1 =? 77)
           (let macs := mac_text 0 (take 16 (drop 2 (inbuf s))) in
            do! on_host (emit (Ran IF_DOWN []));
            do! on_host (emit (Ran IF_HW_ETHER (c_str (drop 6 macs))));
            on_host (emit (Ran IF_UP [])))
       else if b0 =? DEBUG_LINE_MARKER then
         on_host (emit (Wrote STDOUT (tail (received s))))
       else if is_sensible_string (received s) then
         on_host (emit (Wrote STDOUT (received s)))
       else
         let! r := on_host (write tunfd (received s)) in
         match r with
         | Took n => if Z.of_nat n =? inbufptr s then ret tt else fail Exited
         | _ => fail Exited
         end);
  modify (with_inbufptr 0).

Definition serial_to_tun : nat -> M (rx tap) unit := Receive.serial_to_tun on_packet.

Definition write_to_serial (p : list Z) : M queue unit := send_packet slip_send slipfd p.

(** [read] of the tap device gave [p]; [None] when it failed. *)
Definition tun_to_serial (p : option (list Z)) : M queue unit :=
  match p with Some p => write_to_serial p | None => fail Exited end.

(** An iteration of [main]: whether the alarm went off, what arrived on the
    line when it is readable, whether it can be written, and what the tap
    device has when it is readable. *)
Definition main_iter (got_sigalarm : bool) (arrived : option (list Z)) (writable : bool)
    (packet : option (option (list Z))) : M (rx tap) unit :=
  let! s := gets id in
  do! when (request_mac (rest s))
        (do! on_tq (send_all slip_send slipfd [63; 77; SLIP_END]); on_rest (modify (with_request_mac false)));
  do! when got_sigalarm (on_tq (send_all slip_send slipfd [63; 73; 80; 65; SLIP_END]));
  let! empty := on_tq slip_empty in
  do! match arrived with
      | Some bs =>
          do! modify (fun s => with_input (input s ++ bs) s);
          let! s := gets id in
          serial_to_tun (Datatypes.S (length (input s)))
      | None => ret tt
      end;
  do! when (negb empty && writable) (on_tq (slip_flushbuf slipfd));
  let! e := on_tq slip_empty in
  match packet with
  | Some p => when (e && empty) (do! on_tq (tun_to_serial p); on_tq (slip_flushbuf slipfd))
  | None => ret tt
  end.

(** Before the loop: a delimiter is queued. *)
Definition main_start : M (rx tap) unit := on_tq (slip_send slipfd SLIP_END).
End tapslip6.

(** ** Properties *)

Section props.
Context (slipfd tunfd : Z).
Abbreviation more := (read_more (on_packet tunfd)).

Lemma on_rest_input {X A} (m : M X A) (s : rx X) a s' :
  on_rest m s = Ret a s' -> input s' = input s /\ inbuf s' = inbuf s /\ inbufptr s' = inbufptr s.
Proof. unfold on_rest, zoom. destruct (m (rest s)); [|done]. by intros [= _ <-]. Qed.

(** The handler of a frame keeps to the queue's side of the state. *)
Lemma tap_on_host_safe {A} (m : M host A) (s : rx tap) :
  safe (fun _ _ => True) (m (sys (tq (rest s)))) ->
  safe (fun _ s' => inbuf s' = inbuf s /\ inbufptr s' = inbufptr s /\ input s' = input s /\
    (queue_wf (tq (rest s)) -> queue_wf (tq (rest s')))) (on_host m s).
Proof. unfold on_host, on_tq, on_rest, on_sys, zoom. by destruct (m _). Qed.

Lemma tap_on_packet_safe s :
  rx_wf s -> 0 < inbufptr s -> queue_wf (tq (rest s)) ->
  safe (fun _ s' => rx_wf s' /\ inbufptr s' < INBUF /\ input s' = input s /\ queue_wf (tq (rest s'))) (on_packet tunfd s).
Proof.
  intros (Hl & Hp) H0 Hq. unfold on_packet. rewrite (bind_ret _ _ _ _ _ (gets_ok _ _)). unfold id.
  destruct (aget_some (inbuf s) 0) as [b0 E0]; [rewrite Hl; unfold INBUF; lia|].
  destruct (aget_some (inbuf s) 1) as [b1 E1]; [rewrite Hl; unfold INBUF; lia|].
  rewrite E0, E1. cbn [unwrap]. rewrite !(bind_ret (ret _) _ _ _ _ eq_refl).
  apply (safe_bind _ _ _ (fun _ s' => inbuf s' = inbuf s /\ inbufptr s' = inbufptr s /\ input s' = input s /\
    (queue_wf (tq (rest s)) -> queue_wf (tq (rest s'))))).
  - destruct (b0 =? 33); [by destruct (b1 =? 77)|].
    destruct (b0 =? DEBUG_LINE_MARKER); [by apply tap_on_host_safe|].
    destruct (is_sensible_string _); [by apply tap_on_host_safe|].
    eapply safe_bind; [apply tap_on_host_safe; eapply safe_mono; [apply write_safe|done]|].
    intros r s1 H1. destruct r; [|done..]. by destruct (_ =? _).
  - intros [] s1 (H1 & H2 & H3 & H4). cbn. unfold rx_wf, INBUF in *. cbn. rewrite H1, H3. split; [lia|]. split; [lia|].
    split; [done|]. by apply H4.
Qed.

Lemma tap_on_packet_input s s' : on_packet tunfd s = Ret tt s' -> input s' = input s.
Proof.
  unfold on_packet. rewrite (bind_ret _ _ _ _ _ (gets_ok _ _)). unfold id.
  destruct (aget (inbuf s) 0) as [b0|], (aget (inbuf s) 1) as [b1|]; try done.
  cbn [unwrap]. rewrite !(bind_ret (ret _) _ _ _ _ eq_refl). intros ([] & s1 & E & [= <-])%bind_inv. cbn.
  revert E. destruct (b0 =? 33); [destruct (b1 =? 77); by intros [= <-]|].
  destruct (b0 =? DEBUG_LINE_MARKER); [by intros [= <-]|].
  destruct (is_sensible_string _); [by intros [= <-]|].
  intros (r & s2 & [E _]%on_rest_input & H)%bind_inv. destruct r; try done. destruct (_ =? _); [|done]. by injection H as <-.
Qed.

(** Reading keeps to the buffers, but it comes back only when the last byte
    that waits on the line is an escape character; otherwise the tool ends as
    soon as the line has nothing more. *)
Theorem tapslip6_idle_exits s :
  rx_wf s -> inbufptr s < INBUF -> queue_wf (tq (rest s)) ->
  let r := serial_to_tun tunfd (S (length (input s))) s in
  safe (fun _ s' => rx_wf s' /\ inbufptr s' < INBUF /\ queue_wf (tq (rest s')) /\ input s' = [SLIP_ESC]) r /\
  (last (input s) <> Some SLIP_ESC -> r = Err Exited).
Proof.
  intros Hs Hlt Hq r. assert (safe (fun _ s' => rx_wf s' /\ inbufptr s' < INBUF /\ queue_wf (tq (rest s')) /\ input s' = [SLIP_ESC]) r) as H.
  { apply (rx_serial_safe (on_packet tunfd) (fun t => queue_wf (tq t)) tap_on_packet_safe); done. }
  split; [exact H|]. intros Hn. destruct r as [[] s'|f] eqn:E; [|by rewrite H]. exfalso. apply Hn.
  by apply (rx_serial_last (on_packet tunfd) tap_on_packet_input (S (length (input s))) s s').
Qed.

(** What is not handed on: the answer to a request, lines of the debug
    output, and texts. *)
Definition is_data (p : list Z) : Prop :=
  head p <> Some 33 /\ head p <> Some DEBUG_LINE_MARKER /\ is_sensible_string p = false.

(** A frame from one tap device is queued as its stuffed text, or ends the
    tool when it does not fit; from the line it reaches the other tap device
    as it was, and the receiver is ready for the next frame. *)
Theorem tapslip6_roundtrip p q s tl es fuel :
  is_data p -> Z.of_nat (length p) < INBUF -> queue_wf q ->
  has [] s -> sys (tq (rest s)) = Host [] es ->
  (if decide (slip_end q + Z.of_nat (length (stuff p)) < SLIP_BUF) then
     exists q', tun_to_serial slipfd (Some p) q = Ret tt q' /\ queue_wf q' /\
       pending q' = pending q ++ stuff p ++ [SLIP_END]
   else tun_to_serial slipfd (Some p) q = Err Exited) /\
  (input s = stuff p ++ SLIP_END :: tl ->
   exists s', more (S (length p + fuel)) s = more fuel s' /\ has [] s' /\ input s' = tl /\
     sys (tq (rest s')) = Host [] (es ++ [Wrote tunfd p])).
Proof.
  intros (H33 & H13 & Htxt) Hn Hq Hs Hsys. split.
  { pose proof (slip_packet_queued slipfd p q Hq) as H. unfold tun_to_serial, write_to_serial.
    destruct (decide _); [|done]. destruct H as (q' & E & Hq' & Hp & _). eauto. }
  intros Hi. assert (p <> []) as Hne by (intros ->; done).
  destruct (read_more_frame (on_packet tunfd) p tl s fuel Hs Hne Hn Hi) as (s1 & (Hl1 & Hp1 & Hr1) & Hi1 & Ht1 & _ & ->).
  destruct p as [|b p]; [done|].
  assert (aget (inbuf s1) 0 = Some b) as E0.
  { change (inbuf s1 !! 0%nat = Some b). unfold received in Hr1. rewrite Hp1, Nat2Z.id in Hr1.
    rewrite <- (lookup_take_lt _ (length (b :: p))), Hr1; [done|cbn; lia]. }
  destruct (aget_some (inbuf s1) 1) as [b1 E1]; [rewrite Hl1; unfold INBUF; lia|].
  set (t := with_rest (with_tq (with_sys (Host [] (es ++ [Wrote tunfd (b :: p)])) (tq (rest s1))) (rest s1)) s1).
  exists (with_inbufptr 0 t). split; [|split; [done|split; [done|done]]].
  unfold on_packet at 1. rewrite (bind_ret _ _ _ _ _ (gets_ok _ _)). unfold id. rewrite E0, E1. cbn [unwrap].
  rewrite !(bind_ret (ret _) _ _ _ _ eq_refl). cbn [head] in H33, H13.
  rewrite (proj2 (Z.eqb_neq b 33)) by congruence. rewrite (proj2 (Z.eqb_neq b DEBUG_LINE_MARKER)) by congruence.
  rewrite Hr1, Htxt. rewrite (bind_ret _ _ _ tt t); [by rewrite modify_ok|].
  rewrite (bind_ret _ _ _ (Took (length (b :: p))) t).
  - by rewrite Hp1, Z.eqb_refl.
  - unfold on_host, on_tq, on_rest, on_sys, zoom. by rewrite Ht1, Hsys, write_all, <- Ht1.
Qed.
End props.

(** ** Witnesses *)

Definition demo_tap (bs : list Z) : rx tap :=
  Rx (replicate (Z.to_nat INBUF) 0) 0 bs (Tap (Queue (replicate (Z.to_nat SLIP_BUF) 0) 0 0 (Host [] [])) false).

Lemma demo_tap_queue bs : queue_wf (tq (rest (demo_tap bs))).
Proof. unfold queue_wf. repeat split; vm_compute; done. Qed.

Lemma demo_tap_wf bs : rx_wf (demo_tap bs).
Proof. unfold rx_wf. repeat split; vm_compute; done. Qed.

Lemma tapslip6_idle_exits_witness :
  serial_to_tun 5 3 (demo_tap [200; SLIP_END]) = Err Exited.
Proof.
  apply (tapslip6_idle_exits 5 (demo_tap [200; SLIP_END])); [apply demo_tap_wf|done|apply demo_tap_queue|done].
Defined.

Lemma tapslip6_roundtrip_witness : exists s',
  read_more (on_packet 5) 8 (demo_tap (stuff [1; 200; SLIP_END] ++ [SLIP_END; 7])) = read_more (on_packet 5) 4 s' /\
  has [] s' /\ input s' = [7] /\ sys (tq (rest s')) = Host [] ([] ++ [Wrote 5 [1; 200; SLIP_END]]).
Proof.
  destruct (tapslip6_roundtrip 4 5 [1; 200; SLIP_END] (tq (rest (demo_tap [])))
    (demo_tap (stuff [1; 200; SLIP_END] ++ [SLIP_END; 7])) [7] [] 4) as [_ H]; [by repeat split|done| | |done|by apply H].
  - apply demo_tap_queue.
  - repeat split; vm_compute; done.
Defined.
