(* ===== verification/Dhcp.v ===== *)
(** * The DHCP relay of the IPv4 tunnel (dist/tools/tunslip/tunslip.c)

    A request of the node is handed to a DHCP server with the options a relay
    adds; a reply of the server is cut down to the options the node wants and
    sent to it in a UDP packet of its own.  Messages and packets are the bytes
    of the structures; an access outside the object is [OutOfBounds]. *)

From S2P Require Import Prelude Framing Slip Chksum Tunslip.

(** ** Copies *)

Definition memcpy_to (p : Z) (bs : list Z) : M buf unit :=
  let! b := gets id in
  if (0 <=? p) && (p + Z.of_nat (length bs) <=? Z.of_nat (length b)) then
    modify (fun _ => take (Z.to_nat p) b ++ bs ++ drop (Z.to_nat p + length bs) b)
  else fail OutOfBounds.

(** The source of a copy of [n] bytes; a negative [n] is a huge [size_t]. *)
Definition bytes_from (p n : Z) : M buf (list Z) :=
  let! b := gets id in
  if (0 <=? p) && (0 <=? n) && (p + n <=? Z.of_nat (length b)) then ret (slice b p n) else fail OutOfBounds.

Definition memset_to (p c : Z) (n : nat) : M buf unit := memcpy_to p (replicate n c).

(** Bytes written one behind the other through a pointer that moves. *)
Fixpoint put_bytes (p : Z) (bs : list Z) : M buf unit :=
  match bs with
  | [] => ret tt
  | b :: bs => do! put_byte p b; put_bytes (p + 1) bs
  end.

(** ** The structures *)

Definition IP_TOS : Z := 1.
Definition IP_TTL : Z := 8.
Definition UH_ULEN : Z := 24.
Definition IP_HDR : Z := 28.

(** Offsets in [struct dhcp_msg], whose options start at [OPTIONS], and in
    [struct dhcp_light_msg], which has no server name and no file name. *)
Definition OP : Z := 0.
Definition HOPS : Z := 3.
Definition FLAGS : Z := 10.
Definition YIADDR : Z := 16.
Definition GIADDR : Z := 24.
Definition DHCP_BASE_LEN : Z := 4 * 7 + 16.
Definition DHCP_HOLE_LEN : Z := 64 + 128.
Definition OPTIONS : Z := DHCP_BASE_LEN + DHCP_HOLE_LEN.
Definition OPTIONS_LEN : Z := 312.
Definition DHCP_MSG : Z := OPTIONS + OPTIONS_LEN.
Definition LIGHT_OPTIONS : Z := DHCP_BASE_LEN.
Definition LIGHT_MSG : Z := LIGHT_OPTIONS + OPTIONS_LEN.

Definition DHCP_OPTION_SUBNET_MASK : Z := 1.
Definition DHCP_OPTION_ROUTER : Z := 3.
Definition DHCP_OPTION_DNS_SERVER : Z := 6.
Definition DHCP_OPTION_LEASE_TIME : Z := 51.
Definition DHCP_OPTION_MSG_TYPE : Z := 53.
Definition DHCP_OPTION_SERVER_ID : Z := 54.
Definition DHCP_OPTION_AGENT : Z := 82.
Definition DHCP_OPTION_SUBNET_SELECTION : Z := 118.
Definition DHCP_OPTION_END : Z := 255.
Definition RAI_CIRCUIT_ID : Z := 1.
Definition RAI_AGENT_ID : Z := 3.
Definition RAI_SUBNET_SELECTION : Z := 5.
Definition BOOTP_BROADCAST : Z := 0x8000.
Definition BOOTPS : Z := 67.
Definition BOOTPC : Z := 68.
Definition BOOTREQUEST : Z := 1.
Definition BOOTREPLY : Z := 2.

Section relay.
(** The addresses of the command line, in network order. *)
Context (giaddr netaddr circuit_addr : list Z).

(** ** To the server *)

(** The options a relay adds. *)
Definition agent_options : list Z :=
  [DHCP_OPTION_SUBNET_SELECTION; 4] ++ netaddr ++
  [DHCP_OPTION_AGENT; 18] ++ [RAI_SUBNET_SELECTION; 4] ++ netaddr ++
  [RAI_CIRCUIT_ID; 4] ++ circuit_addr ++ [RAI_AGENT_ID; 4] ++ giaddr.

(** The message [m] for the server, from the start of the request and its
    options; the result is the length that is sent. *)
Definition build_request (base options : list Z) (len : Z) : M buf Z :=
  do! memcpy_to 0 base;
  do! memset_to DHCP_BASE_LEN 0 (Z.to_nat DHCP_HOLE_LEN);
  do! memcpy_to OPTIONS options;
  let n := len - 20 - 8 + DHCP_HOLE_LEN in
  let optptr := OPTIONS + (n - DHCP_BASE_LEN - DHCP_HOLE_LEN - 1) in
  do! put_bytes optptr agent_options;
  do! put_byte (optptr + Z.of_nat (length agent_options)) DHCP_OPTION_END;
  let! hops := byte_at HOPS in
  do! put_byte HOPS (u8 (hops + 1));
  do! memcpy_to GIADDR giaddr;
  ret (n + (4 + 2) + (18 + 2)).

(** The request is in [b] behind the headers.  [m] is what the local variable
    holds before; the result is what is handed to [sendto], and whether. *)
Definition request_of (m : buf) (len : Z) : M buf (option (list Z)) :=
  let! op := byte_at (IP_HDR + OP) in
  if negb (op =? BOOTREQUEST) then ret None
  else
    do! put_le16 (IP_HDR + FLAGS) (htons16 BOOTP_BROADCAST);
    let! base := bytes_from IP_HDR DHCP_BASE_LEN in
    let! options := bytes_from (IP_HDR + LIGHT_OPTIONS) (len - 20 - 8 - DHCP_BASE_LEN) in
    match build_request base options len m with
    | Ret n m' =>
        match bytes_from 0 n m' with
        | Ret bs _ => ret (Some bs)
        | Err f => fail f
        end
    | Err f => fail f
    end.

(** ** To the client *)

(** The message of the server, and the state of the tunnel with the packet
    for the client in place of the buffer of the tun device. *)
Record relay : Type := Relay { inm : buf; r4 : tun4 }.

Definition with_inm (v : buf) (s : relay) : relay := Relay v (r4 s).
Definition with_r4 (v : tun4) (s : relay) : relay := Relay (inm s) v.
Definition on_inm {A} : M buf A -> M relay A := zoom inm with_inm.
Definition on_r4 {A} : M tun4 A -> M relay A := zoom r4 with_r4.
Definition on_out {A} (m : M buf A) : M relay A := on_r4 (on_pkt m).

Definition copied_option (op : Z) : bool :=
  (op =? DHCP_OPTION_MSG_TYPE) || (op =? DHCP_OPTION_SUBNET_MASK) || (op =? DHCP_OPTION_ROUTER)
    || (op =? DHCP_OPTION_LEASE_TIME) || (op =? DHCP_OPTION_SERVER_ID).

(** The loop over the options: [p] in the message, [t] in the packet, the last
    option [op] and the type of the message. *)
Definition option_step (end_ : Z) (l : Z * Z * Z * Z) : M relay ((Z * Z * Z * Z) + (Z * Z * Z * Z)) :=
  let '(p, t, op, msg_type) := l in
  if p <? end_ then
    let! op := on_inm (byte_at p) in
    if op =? DHCP_OPTION_END then ret (inr (p, t, op, msg_type))
    else if copied_option op then
      let! msg_type := (if op =? DHCP_OPTION_MSG_TYPE then on_inm (byte_at (p + 2)) else ret msg_type) in
      let! n := on_inm (byte_at (p + 1)) in
      let! bs := on_inm (bytes_from p (n + 2)) in
      do! on_out (memcpy_to t bs);
      ret (inl (p + (n + 2), t + (n + 2), op, msg_type))
    else if op =? DHCP_OPTION_DNS_SERVER then
      do! on_out (put_byte t op);
      do! on_out (put_byte (t + 1) 4);
      let! bs := on_inm (bytes_from (p + 2) 4) in
      do! on_out (memcpy_to (t + 2) bs);
      let! n := on_inm (byte_at (p + 1)) in
      ret (inl (p + (n + 2), t + 2 + 4, op, msg_type))
    else
      let! n := on_inm (byte_at (p + 1)) in
      ret (inl (p + (n + 2), t, op, msg_type))
  else ret (inr l).

(** The headers of the packet.  [yiaddr] and [broadcast] are of the message. *)
Definition fill_header (ip_len udp_len ip_id : Z) (dst : list Z) : M buf unit :=
  do! put_byte IP_VHL 0x45;
  do! put_byte IP_TOS 0;
  do! put_le16 IP_LEN (htons16 (u16 ip_len));
  do! put_le16 IP_ID (htons16 ip_id);
  do! put_le16 IP_OFF 0;
  do! put_byte IP_TTL 64;
  do! put_byte IP_P 17;
  do! put_le16 IP_SUM 0;
  do! memcpy_to IP_SRC giaddr;
  do! memcpy_to IP_DST dst;
  do! put_le16 UH_SPORT (htons16 BOOTPS);
  do! put_le16 UH_DPORT (htons16 BOOTPC);
  do! put_le16 UH_ULEN (htons16 (u16 udp_len));
  put_le16 UH_SUM 0.

Definition fill_sums (udp_len : Z) : M buf unit :=
  let! sum := ip4sum 0 0 20 in
  do! put_le16 IP_SUM (u16 (Z.lnot (htons16 sum)));
  let sum := u16 (17 + udp_len) in
  let! sum := ip4sum sum IP_SRC 8 in
  let! sum := ip4sum sum UH_SPORT (u16 udp_len) in
  put_le16 UH_SUM (if negb (sum =? 0xffff) then u16 (Z.lnot (htons16 sum)) else 0xffff).

(** The start of the packet's message and of its options; the result is the
    address the server gives to the client. *)
Definition copy_base : M relay (list Z) :=
  let! yiaddr := on_inm (bytes_from YIADDR 4) in
  let! base := on_inm (bytes_from 0 DHCP_BASE_LEN) in
  do! on_out (memcpy_to IP_HDR base);
  let! hops := on_out (byte_at (IP_HDR + HOPS)) in
  do! on_out (put_byte (IP_HDR + HOPS) (u8 (hops + 1)));
  do! on_out (memset_to (IP_HDR + GIADDR) 0 4);
  let! cookie := on_inm (bytes_from OPTIONS 4) in
  do! on_out (memcpy_to (IP_HDR + LIGHT_OPTIONS) cookie);
  ret yiaddr.

(** The [END] behind the options, which is not copied but counted up in the
    message. *)
Definition end_options (p t op : Z) : M relay Z :=
  if op =? DHCP_OPTION_END then
    do! on_out (put_byte t op);
    let! c := on_inm (byte_at p) in
    do! on_inm (put_byte p (u8 (c + 1)));
    ret (t + 1)
  else ret t.

(** The headers, and the packet is sent. *)
Definition send_reply (slipfd t : Z) (yiaddr : list Z) : M relay unit :=
  let optlen := t - (IP_HDR + LIGHT_OPTIONS) in
  let ip_len := 20 + 8 + DHCP_BASE_LEN + optlen in
  let udp_len := 8 + DHCP_BASE_LEN + optlen in
  let! id := on_r4 (gets ip_id) in
  do! on_r4 (modify (with_ip_id (u16 (id + 1))));
  let! flags := on_inm (le16 FLAGS) in
  let dst := if c_true (Z.land flags (htons16 BOOTP_BROADCAST)) then [255; 255; 255; 255] else yiaddr in
  do! on_out (fill_header ip_len udp_len id dst);
  do! on_out (fill_sums udp_len);
  on_r4 (write_to_serial slipfd ip_len).

Definition relay_dhcp_to_client_body (slipfd op0 n : Z) : M relay unit :=
  let! op := on_inm (byte_at OP) in
  if negb (op =? BOOTREPLY) then ret tt
  else
    let! yiaddr := copy_base in
    let! '(p, t, op, _) :=
      loop (Datatypes.S (Z.to_nat n)) (option_step n) (OPTIONS + 4, IP_HDR + LIGHT_OPTIONS + 4, op0, 0) in
    let! t := end_options p t op in
    send_reply slipfd t yiaddr.

(** [recv] gave the message [d], cut to the size of the structure, or failed.
    [stk], [out] and [op0] are what the local variables hold before; the
    buffer of the tun device is not touched. *)
Definition relay_dhcp_to_client (stk out : buf) (op0 slipfd : Z) (d : option (list Z)) : M tun4 unit := fun s =>
  let options_cleared := take (Z.to_nat OPTIONS) stk ++ replicate (Z.to_nat OPTIONS_LEN) 0 in
  let '(m, n) := match d with
                 | Some d => let d := take (Z.to_nat DHCP_MSG) d in (d ++ drop (length d) options_cleared, Z.of_nat (length d))
                 | None => (options_cleared, -1)
                 end in
  match relay_dhcp_to_client_body slipfd op0 n (Relay m (with_pkt out s)) with
  | Ret _ r => Ret tt (with_pkt (pkt s) (r4 r))
  | Err f => Err f
  end.
End relay.
