(* ===== verification/DhcpProps.v ===== *)
(** * Properties of the DHCP relay *)

From S2P Require Import Prelude Framing Slip Chksum Tunslip Dhcp.

(** ** Copies *)

Lemma memcpy_to_ok b p bs :
  0 <= p -> p + Z.of_nat (length bs) <= Z.of_nat (length b) ->
  memcpy_to p bs b = Ret tt (take (Z.to_nat p) b ++ bs ++ drop (Z.to_nat p + length bs) b).
Proof.
  intros H1 H2. unfold memcpy_to. rewrite (bind_ret _ _ _ _ _ (gets_ok _ _)). unfold id.
  by rewrite (proj2 (Z.leb_le _ _) H1), (proj2 (Z.leb_le _ _) H2).
Qed.

Lemma memcpy_to_out b p bs : Z.of_nat (length b) < p + Z.of_nat (length bs) -> memcpy_to p bs b = Err OutOfBounds.
Proof.
  intros H. unfold memcpy_to. rewrite (bind_ret _ _ _ _ _ (gets_ok _ _)). unfold id.
  by rewrite (proj2 (Z.leb_gt _ _) H), andb_false_r.
Qed.

(** A copy behind a prefix. *)
Lemma memcpy_to_app pre post bs p :
  p = Z.of_nat (length pre) -> (length bs <= length post)%nat ->
  memcpy_to p bs (pre ++ post) = Ret tt (pre ++ bs ++ drop (length bs) post).
Proof.
  intros -> H. rewrite memcpy_to_ok by (rewrite ?length_app; lia). rewrite Nat2Z.id, take_app_length.
  do 3 f_equal. rewrite drop_app_ge by lia. f_equal. lia.
Qed.

Lemma bytes_from_ok b p n :
  0 <= p -> 0 <= n -> p + n <= Z.of_nat (length b) -> bytes_from p n b = Ret (slice b p n) b.
Proof.
  intros H1 H2 H3. unfold bytes_from. rewrite (bind_ret _ _ _ _ _ (gets_ok _ _)). unfold id.
  by rewrite (proj2 (Z.leb_le _ _) H1), (proj2 (Z.leb_le _ _) H2), (proj2 (Z.leb_le _ _) H3).
Qed.

Lemma bytes_from_out b p n : n < 0 \/ Z.of_nat (length b) < p + n -> bytes_from p n b = Err OutOfBounds.
Proof.
  intros H. unfold bytes_from. rewrite (bind_ret _ _ _ _ _ (gets_ok _ _)). unfold id.
  destruct (Z.leb_spec 0 p), (Z.leb_spec 0 n), (Z.leb_spec (p + n) (Z.of_nat (length b))); cbn; done || lia.
Qed.

Lemma slice_app pre mid post p n :
  p = Z.of_nat (length pre) -> n = Z.of_nat (length mid) -> slice (pre ++ mid ++ post) p n = mid.
Proof. intros -> ->. unfold slice. by rewrite !Nat2Z.id, drop_app_length, take_app_length. Qed.

Lemma bytes_from_app pre mid post p n :
  p = Z.of_nat (length pre) -> n = Z.of_nat (length mid) ->
  bytes_from p n (pre ++ mid ++ post) = Ret mid (pre ++ mid ++ post).
Proof.
  intros -> ->. rewrite bytes_from_ok by (rewrite ?length_app; lia). by rewrite slice_app.
Qed.

Lemma bytes_from_prefix mid post n :
  n = Z.of_nat (length mid) -> bytes_from 0 n (mid ++ post) = Ret mid (mid ++ post).
Proof. apply (bytes_from_app [] mid post 0 n eq_refl). Qed.

Lemma byte_at_app pre x post p : p = Z.of_nat (length pre) -> byte_at p (pre ++ x :: post) = Ret x (pre ++ x :: post).
Proof. intros ->. apply byte_at_ok. rewrite aget_nat. by apply list_lookup_middle. Qed.

Lemma put_byte_app pre x post p v :
  p = Z.of_nat (length pre) -> put_byte p v (pre ++ x :: post) = Ret tt (pre ++ v :: post).
Proof.
  intros ->. rewrite put_byte_ok by (rewrite length_app; cbn [length]; lia).
  rewrite Nat2Z.id, insert_app_r_alt, Nat.sub_diag by lia. done.
Qed.

Lemma put_bytes_app bs : forall pre post p,
  p = Z.of_nat (length pre) -> (length bs <= length post)%nat ->
  put_bytes p bs (pre ++ post) = Ret tt (pre ++ bs ++ drop (length bs) post).
Proof.
  induction bs as [|b bs IH]; intros pre post p -> Hl; [done|]. destruct post as [|x post]; [cbn in Hl; lia|].
  cbn [put_bytes length] in *. rewrite (bind_ret _ _ _ _ _ (put_byte_app pre x post _ b eq_refl)).
  change (b :: post) with ([b] ++ post). rewrite app_assoc, (IH (pre ++ [b]) post) by (rewrite ?length_app; cbn; lia).
  by rewrite <- app_assoc.
Qed.

(** Writes succeed exactly inside the buffer, and keep its length. *)
Definition fits (p n : Z) (b : buf) (r : outcome buf unit) : Prop :=
  match r with
  | Ret _ b' => length b' = length b /\ (0 < n -> p + n <= Z.of_nat (length b))
  | Err f => f = OutOfBounds /\ Z.of_nat (length b) < p + n
  end.

Ltac oob := repeat match goal with H : _ = OutOfBounds /\ _ |- _ => destruct H end; split; [congruence|lia].

Lemma put_byte_fits p v b : 0 <= p -> fits p 1 b (put_byte p v b).
Proof.
  intros Hp. unfold put_byte, bind, gets, id, modify. destruct (aset b p v) as [c|] eqn:E.
  - apply aset_some in E as [? ->]. cbn. rewrite length_insert. lia.
  - cbn. split; [done|]. destruct (decide (p < Z.of_nat (length b))); [|lia].
    rewrite aset_ok in E by lia. done.
Qed.

Lemma memcpy_fits p bs b : 0 <= p -> fits p (Z.of_nat (length bs)) b (memcpy_to p bs b).
Proof.
  intros Hp. destruct (decide (p + Z.of_nat (length bs) <= Z.of_nat (length b))) as [H|H].
  - rewrite memcpy_to_ok by done. cbn [fits]. rewrite !length_app, length_take, length_drop. lia.
  - rewrite memcpy_to_out by lia. cbn [fits]. oob.
Qed.

Lemma put_bytes_fits bs : forall p b, 0 <= p -> fits p (Z.of_nat (length bs)) b (put_bytes p bs b).
Proof.
  induction bs as [|x bs IH]; intros p b Hp; [cbn [put_bytes fits length ret]; lia|]. cbn [put_bytes]. unfold bind.
  pose proof (put_byte_fits p x b Hp) as H. destruct (put_byte p x b) as [[] b1|f]; cbn [fits length] in *; [|oob].
  specialize (IH (p + 1) b1 ltac:(lia)). destruct (put_bytes (p + 1) bs b1); cbn [fits] in *; [lia|oob].
Qed.

(** ** Requests *)

Section relay.
Context (giaddr netaddr circuit_addr : list Z).
Hypothesis Hgi : length giaddr = 4%nat.
Hypothesis Hnet : length netaddr = 4%nat.
Hypothesis Hci : length circuit_addr = 4%nat.
Abbreviation agents := (agent_options giaddr netaddr circuit_addr).
Abbreviation build := (build_request giaddr netaddr circuit_addr).

Lemma agents_length : length agents = 26%nat.
Proof. unfold agent_options. rewrite !length_app. cbn [length]. lia. Qed.

(** The message for the server, from a request that ends in [END]. *)
Lemma build_request_ok op ht hl hops mid gi ch opts len m :
  length mid = 20%nat -> length gi = 4%nat -> length ch = 16%nat -> length m = Z.to_nat DHCP_MSG ->
  (length opts <= 285)%nat -> len = 73 + Z.of_nat (length opts) ->
  exists m', build ([op; ht; hl; hops] ++ mid ++ gi ++ ch) (opts ++ [DHCP_OPTION_END]) len m
    = Ret (len + 190) (([op; ht; hl; u8 (hops + 1)] ++ mid ++ giaddr ++ ch ++ replicate 192 0
        ++ opts ++ agents ++ [DHCP_OPTION_END]) ++ m').
Proof.
  intros Hm Hg Hc Hl Ho ->. pose proof agents_length as Ha.
  set (base := [op; ht; hl; hops] ++ mid ++ gi ++ ch).
  assert (length base = 44%nat) as Hb by (subst base; rewrite !length_app; cbn [length]; lia).
  unfold build_request. change DHCP_MSG with 548 in Hl.
  rewrite (bind_ret _ _ _ _ _ (memcpy_to_app [] m base 0 eq_refl ltac:(lia))). cbn [app].
  unfold memset_to. rewrite (bind_ret _ _ _ _ _ (memcpy_to_app base (drop (length base) m) (replicate (Z.to_nat DHCP_HOLE_LEN) 0) DHCP_BASE_LEN
    ltac:(by rewrite Hb) ltac:(rewrite length_replicate, length_drop; unfold DHCP_HOLE_LEN; lia))).
  rewrite length_replicate, drop_drop. change (Z.to_nat DHCP_HOLE_LEN) with 192%nat. rewrite app_assoc.
  rewrite (bind_ret _ _ _ _ _ (memcpy_to_app (base ++ replicate 192 0) (drop (length base + 192) m) (opts ++ [DHCP_OPTION_END]) OPTIONS
    ltac:(rewrite length_app, length_replicate, Hb; done) ltac:(rewrite length_drop, length_app, Hb; cbn [length]; lia))).
  rewrite length_app, drop_drop, <- (app_assoc opts). cbn [length app].
  set (post := drop _ m). set (optptr := OPTIONS + _).
  assert (optptr = Z.of_nat (length ((base ++ replicate 192 0) ++ opts))) as Eo.
  { subst optptr. rewrite !length_app, length_replicate, Hb. unfold OPTIONS, DHCP_BASE_LEN, DHCP_HOLE_LEN. lia. }
  assert (length post = (311 - length opts)%nat) as Hp by (subst post; rewrite length_drop, Hb; lia).
  rewrite (app_assoc (base ++ _) opts), Eo.
  rewrite (bind_ret _ _ _ _ _ (put_bytes_app agents _ (DHCP_OPTION_END :: post) _ eq_refl ltac:(cbn [length]; lia))).
  rewrite Ha. cbn [drop]. destruct (drop 25 post) as [|x m'] eqn:Ed.
  { apply (f_equal length) in Ed. rewrite length_drop in Ed. cbn [length] in Ed. lia. }
  rewrite (app_assoc _ agents).
  rewrite (bind_ret _ _ _ _ _ (put_byte_app (((base ++ replicate 192 0) ++ opts) ++ agents) x m'
    (Z.of_nat (length ((base ++ replicate 192 0) ++ opts)) + Z.of_nat 26) DHCP_OPTION_END
    ltac:(rewrite (length_app _ agents), Ha; lia))).
  exists m'. subst base. set (tl := replicate 192 0 ++ opts ++ agents ++ [DHCP_OPTION_END] ++ m').
  assert ((((([op; ht; hl; hops] ++ mid ++ gi ++ ch) ++ replicate 192 0) ++ opts) ++ agents) ++ DHCP_OPTION_END :: m'
    = [op; ht; hl] ++ hops :: (mid ++ gi ++ ch ++ tl)) as -> by (subst tl; cbn [app]; by rewrite <- !app_assoc).
  rewrite (bind_ret _ _ _ _ _ (byte_at_app [op; ht; hl] hops _ HOPS eq_refl)).
  rewrite (bind_ret _ _ _ _ _ (put_byte_app [op; ht; hl] hops _ HOPS (u8 (hops + 1)) eq_refl)).
  assert ([op; ht; hl] ++ u8 (hops + 1) :: mid ++ gi ++ ch ++ tl = ([op; ht; hl; u8 (hops + 1)] ++ mid) ++ gi ++ ch ++ tl) as ->
    by (cbn [app]; done).
  rewrite (bind_ret _ _ _ _ _ (memcpy_to_app ([op; ht; hl; u8 (hops + 1)] ++ mid) (gi ++ ch ++ tl) giaddr GIADDR
    ltac:(rewrite length_app, Hm; done) ltac:(rewrite length_app; lia))).
  rewrite drop_app_length' by congruence. unfold ret. subst tl. f_equal; [unfold DHCP_HOLE_LEN; lia|].
  by rewrite <- !app_assoc.
Qed.

Lemma request_of_unfold m len b op :
  aget b (IP_HDR + OP) = Some op ->
  request_of giaddr netaddr circuit_addr m len b =
    if op =? BOOTREQUEST then
      (do! put_le16 (IP_HDR + FLAGS) (htons16 BOOTP_BROADCAST);
       let! base := bytes_from IP_HDR DHCP_BASE_LEN in
       let! options := bytes_from (IP_HDR + LIGHT_OPTIONS) (len - 20 - 8 - DHCP_BASE_LEN) in
       match build base options len m with
       | Ret n m' => match bytes_from 0 n m' with Ret bs _ => ret (Some bs) | Err f => fail f end
       | Err f => fail f
       end) b
    else Ret None b.
Proof.
  intros E. unfold request_of. rewrite (bind_ret _ _ _ _ _ (byte_at_ok _ _ _ E)). by destruct (op =? BOOTREQUEST).
Qed.

(** A request whose last byte is the [END] of its options reaches the server
    with an empty name of the server and of the file, one hop more, the flag
    that asks for a broadcast, the address of the relay, and the relay's
    options in front of [END]. *)
Theorem dhcp_request_relayed hdr ht hl hops xs fl addrs gi ch opts stale m :
  length hdr = 28%nat -> length xs = 6%nat -> length fl = 2%nat -> length addrs = 12%nat ->
  length gi = 4%nat -> length ch = 16%nat -> length m = Z.to_nat DHCP_MSG -> (length opts <= 285)%nat ->
  let request := fun fl => hdr ++ [BOOTREQUEST; ht; hl; hops] ++ xs ++ fl ++ addrs ++ gi ++ ch
                    ++ opts ++ [DHCP_OPTION_END] ++ stale in
  request_of giaddr netaddr circuit_addr m (73 + Z.of_nat (length opts)) (request fl)
  = Ret (Some ([BOOTREQUEST; ht; hl; u8 (hops + 1)] ++ xs ++ [128; 0] ++ addrs ++ giaddr ++ ch
                 ++ replicate 192 0 ++ opts ++ agents ++ [DHCP_OPTION_END]))
        (request [128; 0]).
Proof.
  intros Hh Hx Hf Ha Hg Hc Hm Ho request.
  assert (aget (request fl) (IP_HDR + OP) = Some BOOTREQUEST) as Eop.
  { change (IP_HDR + OP) with (Z.of_nat 28). rewrite aget_nat, <- Hh. by apply list_lookup_middle. }
  rewrite (request_of_unfold _ _ _ _ Eop). cbn [Z.eqb BOOTREQUEST Pos.eqb].
  rewrite (bind_ret _ _ _ tt (request [128; 0])).
  2: { do 2 (destruct fl as [|? fl]; [done|]). destruct fl; [|done]. subst request.
       set (pre := hdr ++ [BOOTREQUEST; ht; hl; hops] ++ xs). assert (length pre = 38%nat) as Hp.
       { subst pre. rewrite !length_app. cbn [length]. lia. }
       assert (forall f tl, hdr ++ [BOOTREQUEST; ht; hl; hops] ++ xs ++ f ++ tl = pre ++ f ++ tl) as E
         by (intros; subst pre; by rewrite <- !app_assoc).
       cbn beta. rewrite !E. clearbody pre. change (IP_HDR + FLAGS) with 38.
       rewrite put_le16_ok by (rewrite ?length_app; cbn [length]; lia). f_equal.
       change (Z.to_nat 38) with 38%nat. change (Z.to_nat (38 + 1)) with 39%nat.
       rewrite !insert_app_r_alt by lia. rewrite Hp. done. }
  subst request. cbn beta.
  assert (hdr ++ [BOOTREQUEST; ht; hl; hops] ++ xs ++ [128; 0] ++ addrs ++ gi ++ ch ++ opts ++ [DHCP_OPTION_END] ++ stale
    = hdr ++ ([BOOTREQUEST; ht; hl; hops] ++ (xs ++ [128; 0] ++ addrs) ++ gi ++ ch) ++ (opts ++ [DHCP_OPTION_END]) ++ stale) as ->
    by (by rewrite <- !app_assoc).
  set (base := [BOOTREQUEST; ht; hl; hops] ++ _ ++ gi ++ ch).
  assert (length base = 44%nat) as Hb by (subst base; rewrite !length_app; cbn [length]; lia).
  rewrite (bind_ret _ _ _ _ _ (bytes_from_app hdr base _ IP_HDR DHCP_BASE_LEN ltac:(by rewrite Hh) ltac:(by rewrite Hb))).
  rewrite (app_assoc hdr base).
  rewrite (bind_ret _ _ _ _ _ (bytes_from_app (hdr ++ base) (opts ++ [DHCP_OPTION_END]) stale (IP_HDR + LIGHT_OPTIONS)
    (73 + Z.of_nat (length opts) - 20 - 8 - DHCP_BASE_LEN)
    ltac:(rewrite length_app, Hh, Hb; done) ltac:(rewrite length_app; cbn [length]; unfold DHCP_BASE_LEN; lia))).
  subst base. destruct (build_request_ok BOOTREQUEST ht hl hops (xs ++ [128; 0] ++ addrs) gi ch opts (73 + Z.of_nat (length opts)) m)
    as (m' & ->); try done; [rewrite !length_app; cbn [length]; lia|].
  rewrite bytes_from_prefix.
  - unfold ret. rewrite <- !app_assoc. done.
  - rewrite !length_app, length_replicate, agents_length. cbn [length]. lia.
Qed.

(** C40 A request is handled inside the buffers exactly when it has 72 to 358
    bytes, though packets of up to 2000 bytes are accepted: the length is not
    looked at. *)
Theorem dhcp_request_bounds b len m :
  length b = 2000%nat -> 0 <= len <= 2000 -> length m = Z.to_nat DHCP_MSG -> aget b (IP_HDR + OP) = Some BOOTREQUEST ->
  match request_of giaddr netaddr circuit_addr m len b with
  | Ret _ _ => 72 <= len <= 358
  | Err f => f = OutOfBounds /\ (len < 72 \/ 358 < len)
  end.
Proof.
  intros Hb Hlen Hm Eop. rewrite (request_of_unfold _ _ _ _ Eop). cbn [Z.eqb BOOTREQUEST Pos.eqb].
  rewrite (bind_ret _ _ _ _ _ (put_le16_ok b (IP_HDR + FLAGS) _ ltac:(done) ltac:(rewrite Hb; unfold IP_HDR, FLAGS; lia))).
  set (b' := <[_ := _]> (<[_ := _]> b)). assert (length b' = 2000%nat) as Hb' by (subst b'; by rewrite !length_insert).
  clearbody b'. clear Eop b Hb.
  rewrite (bind_ret _ _ _ _ _ (bytes_from_ok b' IP_HDR DHCP_BASE_LEN ltac:(done) ltac:(done) ltac:(rewrite Hb'; done))).
  set (base := slice b' _ _). assert (length base = 44%nat) as Hbase.
  { subst base. unfold slice. rewrite length_take, length_drop, Hb'. done. }
  change (IP_HDR + LIGHT_OPTIONS) with 72. unfold DHCP_BASE_LEN at 1. change DHCP_MSG with 548 in Hm.
  destruct (decide (72 <= len)) as [H72|H72].
  2: { rewrite (bind_err _ _ _ _ (bytes_from_out b' 72 (len - 20 - 8 - (4 * 7 + 16)) ltac:(lia))). oob. }
  rewrite (bind_ret _ _ _ _ _ (bytes_from_ok b' 72 (len - 20 - 8 - (4 * 7 + 16)) ltac:(done) ltac:(lia) ltac:(lia))).
  set (opts := slice b' 72 _). assert (length opts = Z.to_nat (len - 72)) as Ho.
  { subst opts. unfold slice. rewrite length_take, length_drop, Hb'. lia. }
  clearbody base opts.
  enough (match build base opts len m with
          | Ret n m' => length m' = 548%nat /\ n = len + 190 /\ len <= 358
          | Err f => f = OutOfBounds /\ 358 < len
          end) as H.
  { destruct (build base opts len m) as [n m'|f]; [|oob]. destruct H as (Hl' & -> & Hle).
    rewrite bytes_from_ok by lia. cbn. lia. }
  pose proof agents_length as Ha. unfold build_request, bind.
  pose proof (memcpy_fits 0 base m ltac:(lia)) as F. destruct (memcpy_to _ _ m) as [[] m1|]; cbn [fits] in F; [|oob].
  pose proof (memcpy_fits DHCP_BASE_LEN (replicate (Z.to_nat DHCP_HOLE_LEN) 0) m1 ltac:(done)) as F1. unfold memset_to.
  destruct (memcpy_to DHCP_BASE_LEN _ m1) as [[] m2|]; cbn [fits] in F1; rewrite length_replicate in F1;
    unfold DHCP_BASE_LEN, DHCP_HOLE_LEN in F1; [|oob].
  pose proof (memcpy_fits OPTIONS opts m2 ltac:(done)) as F2.
  destruct (memcpy_to OPTIONS _ m2) as [[] m3|]; cbn [fits] in F2; change OPTIONS with 236 in *; [|oob].
  unfold DHCP_BASE_LEN, DHCP_HOLE_LEN.
  set (ptr := 236 + _). assert (ptr = len + 163) as Ep by (subst ptr; lia). clearbody ptr. subst ptr.
  pose proof (put_bytes_fits agents (len + 163) m3 ltac:(lia)) as F3.
  destruct (put_bytes _ agents m3) as [[] m4|]; cbn [fits] in F3; rewrite Ha in F3; [|oob].
  rewrite Ha. pose proof (put_byte_fits (len + 163 + Z.of_nat 26) DHCP_OPTION_END m4 ltac:(lia)) as F4.
  destruct (put_byte _ _ m4) as [[] m5|]; cbn [fits] in F4; [|oob].
  rewrite byte_at_default by (unfold HOPS; lia). pose proof (put_byte_fits HOPS (u8 (default 0 (aget m5 HOPS) + 1)) m5 ltac:(done)) as F5.
  destruct (put_byte HOPS _ m5) as [[] m6|]; cbn [fits] in F5; unfold HOPS in F5; [|oob].
  pose proof (memcpy_fits GIADDR giaddr m6 ltac:(done)) as F6. destruct (memcpy_to GIADDR _ m6) as [[] m7|]; cbn [fits] in F6;
    unfold GIADDR in F6; [|oob]. cbn [ret]. lia.
Qed.
End relay.

(** ** Witnesses *)

Lemma dhcp_request_relayed_witness :
  request_of [10; 0; 0; 1] [10; 0; 0; 0] [10; 0; 0; 1] (replicate 548 9) (73 + Z.of_nat 4)
    (replicate 28 0 ++ [BOOTREQUEST; 1; 6; 0] ++ replicate 6 1 ++ [0; 0] ++ replicate 12 2 ++ replicate 4 3 ++ replicate 16 4
       ++ [99; 130; 83; 99] ++ [DHCP_OPTION_END] ++ [])
  = Ret (Some ([BOOTREQUEST; 1; 6; 1] ++ replicate 6 1 ++ [128; 0] ++ replicate 12 2 ++ [10; 0; 0; 1] ++ replicate 16 4
           ++ replicate 192 0 ++ [99; 130; 83; 99] ++ agent_options [10; 0; 0; 1] [10; 0; 0; 0] [10; 0; 0; 1] ++ [DHCP_OPTION_END]))
      (replicate 28 0 ++ [BOOTREQUEST; 1; 6; 0] ++ replicate 6 1 ++ [128; 0] ++ replicate 12 2 ++ replicate 4 3 ++ replicate 16 4
         ++ [99; 130; 83; 99] ++ [DHCP_OPTION_END] ++ []).
Proof.
  apply (dhcp_request_relayed [10; 0; 0; 1] [10; 0; 0; 0] [10; 0; 0; 1] eq_refl eq_refl eq_refl
    (replicate 28 0) 1 6 0 (replicate 6 1) [0; 0] (replicate 12 2) (replicate 4 3) (replicate 16 4) [99; 130; 83; 99] []
    (replicate 548 9)); vm_compute; done || lia.
Defined.

Lemma dhcp_request_bounds_witness :
  match request_of [10; 0; 0; 1] [10; 0; 0; 0] [10; 0; 0; 1] (replicate 548 9) 359 (replicate 2000 1) with
  | Ret _ _ => 72 <= 359 <= 358
  | Err f => f = OutOfBounds /\ (359 < 72 \/ 358 < 359)
  end.
Proof.
  apply (dhcp_request_bounds [10; 0; 0; 1] [10; 0; 0; 0] [10; 0; 0; 1] eq_refl eq_refl eq_refl (replicate 2000 1) 359
    (replicate 548 9)); [by rewrite length_replicate|lia|done|done].
Defined.
