(* ===== verification/DhcpReply.v ===== *)
(** * Replies of the DHCP server *)

From S2P Require Import Prelude Framing Slip Chksum Tunslip Dhcp DhcpProps.

(** ** The headers *)

Lemma htons_bytes x : 0 <= x < 65536 -> htons16 x mod 256 = x / 256 /\ htons16 x / 256 = x mod 256 /\ 0 <= htons16 x < 65536.
Proof.
  intros Hx. unfold htons16. pose proof (Z.mod_pos_bound x 256 ltac:(lia)).
  assert (0 <= x / 256 < 256) by (split; [apply Z.div_pos; lia|apply Z.div_lt_upper_bound; lia]).
  split; [|split; [|lia]]; symmetry; [apply (Z.mod_unique_pos _ _ (x mod 256))|apply (Z.div_unique_pos _ _ _ (x / 256))]; lia.
Qed.

(** The bytes of [~htons(x)]. *)
Lemma neg_bytes x :
  0 <= x <= 65535 ->
  let v := u16 (Z.lnot (htons16 x)) in
  0 <= v mod 256 < 256 /\ 0 <= v / 256 < 256 /\ 256 * (v mod 256) + v / 256 = 65535 - x.
Proof.
  intros Hx v. destruct (htons_bytes x ltac:(lia)) as (H1 & H2 & H3).
  assert (v = 65535 - htons16 x) as Ev.
  { subst v. unfold wrapu, Z.lnot. change (2 ^ 16) with 65536. symmetry. apply (Z.mod_unique_pos _ _ (-1)); lia. }
  pose proof (Z.div_mod x 256 ltac:(lia)). pose proof (Z.mod_pos_bound x 256 ltac:(lia)).
  assert (0 <= x / 256 < 256) by (split; [apply Z.div_pos; lia|apply Z.div_lt_upper_bound; lia]).
  assert (v mod 256 = 255 - x / 256) as ->.
  { symmetry. apply (Z.mod_unique_pos _ _ (255 - x mod 256)); unfold htons16 in Ev; lia. }
  assert (v / 256 = 255 - x mod 256) as ->.
  { symmetry. apply (Z.div_unique_pos _ _ _ (255 - x / 256)); unfold htons16 in Ev; lia. }
  lia.
Qed.

Section header.
Context (s0 s1 s2 s3 d0 d1 d2 d3 : Z).

(** The headers around the fields that vary. *)
Definition header (lh ll ih il c1 c2 uh ul u1 u2 : Z) : list Z :=
  [69; 0; lh; ll; ih; il; 0; 0; 64; 17; c1; c2; s0; s1; s2; s3; d0; d1; d2; d3; 0; 67; 0; 68; uh; ul; u1; u2].

Ltac store := erewrite bind_ret by
  (first [apply put_le16_ok; [done|rewrite ?length_insert; cbn [length]; lia]
         |apply put_byte_ok; rewrite ?length_insert; cbn [length]; lia
         |apply memcpy_to_ok; [done|rewrite ?length_insert; cbn [length]; lia]]);
  cbv [insert list_insert Z.to_nat Pos.to_nat Pos.iter_op Nat.add Z.add Pos.add Pos.succ take drop app length].

Lemma fill_header_ok x ip_len udp_len id body :
  length x = 28%nat -> 0 <= ip_len < 65536 -> 0 <= udp_len < 65536 -> 0 <= id < 65536 ->
  fill_header [s0; s1; s2; s3] ip_len udp_len id [d0; d1; d2; d3] (x ++ body)
  = Ret tt (header (ip_len / 256) (ip_len mod 256) (id / 256) (id mod 256) 0 0 (udp_len / 256) (udp_len mod 256) 0 0 ++ body).
Proof.
  intros Hx Hi Hu Hd. do 28 (destruct x as [|? x]; [done|]). destruct x; [|done]. clear Hx. cbn [app].
  unfold header. destruct (htons_bytes ip_len Hi) as (<- & <- & _), (htons_bytes udp_len Hu) as (<- & <- & _),
    (htons_bytes id Hd) as (<- & <- & _).
  unfold fill_header, IP_VHL, IP_TOS, IP_LEN, IP_ID, IP_OFF, IP_TTL, IP_P, IP_SUM, IP_SRC, IP_DST, UH_SPORT, UH_DPORT,
    UH_ULEN, UH_SUM. rewrite !(wrapu_id 16) by done.
  do 13 store. rewrite put_le16_ok; [done|done|cbn [length]; lia].
Qed.

Definition byte (z : Z) : Prop := 0 <= z < 256.

Lemma header_bytes lh ll ih il c1 c2 uh ul u1 u2 :
  bytes_ok [s0; s1; s2; s3] -> bytes_ok [d0; d1; d2; d3] ->
  byte lh -> byte ll -> byte ih -> byte il -> byte c1 -> byte c2 -> byte uh -> byte ul -> byte u1 -> byte u2 ->
  bytes_ok (header lh ll ih il c1 c2 uh ul u1 u2).
Proof.
  unfold bytes_ok, header, byte. rewrite !Forall_cons. intuition lia.
Qed.

(** The sums over the parts of a packet. *)
Lemma slice_header lh ll ih il c1 c2 uh ul u1 u2 body :
  let b := header lh ll ih il c1 c2 uh ul u1 u2 ++ body in
  words_sum (slice b 0 20) = (256 * 69 + (256 * lh + ll) + (256 * ih + il) + (256 * 64 + 17)
    + (256 * s0 + s1 + (256 * s2 + s3)) + (256 * d0 + d1 + (256 * d2 + d3))) + (256 * c1 + c2) /\
  words_sum (slice b 12 8) = 256 * s0 + s1 + (256 * s2 + s3) + (256 * d0 + d1 + (256 * d2 + d3)) /\
  forall n, 0 <= n -> words_sum (slice b 20 (8 + n))
    = 67 + 68 + (256 * uh + ul) + words_sum (take (Z.to_nat n) body) + (256 * u1 + u2).
Proof.
  intros b. split; [cbv -[Z.mul Z.add]; lia|]. split; [cbv -[Z.mul Z.add]; lia|]. intros n Hn.
  unfold slice. replace (Z.to_nat (8 + n)) with (8 + Z.to_nat n)%nat by lia. subst b. unfold header.
  change (Z.to_nat 20) with 20%nat. cbn [app drop take Nat.add words_sum]. lia.
Qed.

Lemma fill_sums_ok lh ll ih il uh ul msg tl udp_len :
  bytes_ok [s0; s1; s2; s3] -> bytes_ok [d0; d1; d2; d3] ->
  byte lh -> byte ll -> byte ih -> byte il -> byte uh -> byte ul -> bytes_ok (msg ++ tl) ->
  udp_len = 8 + Z.of_nat (length msg) -> udp_len < 60000 ->
  256 * uh + ul = udp_len -> 256 * lh + ll = 20 + udp_len ->
  exists c1 c2 u1 u2,
    fill_sums udp_len (header lh ll ih il 0 0 uh ul 0 0 ++ msg ++ tl)
      = Ret tt (header lh ll ih il c1 c2 uh ul u1 u2 ++ msg ++ tl) /\
    bytes_ok (header lh ll ih il c1 c2 uh ul u1 u2) /\
    forall tl, sound_ip (header lh ll ih il c1 c2 uh ul u1 u2 ++ msg ++ tl) (20 + udp_len).
Proof.
  intros Hs Hd Hlh Hll Hih Hil Huh Hul Hmsg Eu Hlt Eul Elen. unfold byte in *.
  assert (forall tl c1 c2 u1 u2 n, n = Z.of_nat (length msg) ->
    words_sum (slice (header lh ll ih il c1 c2 uh ul u1 u2 ++ msg ++ tl) 20 (8 + n))
    = 67 + 68 + (256 * uh + ul) + words_sum msg + (256 * u1 + u2)) as Hpay.
  { intros tl' c1 c2 u1 u2 n ->. destruct (slice_header lh ll ih il c1 c2 uh ul u1 u2 (msg ++ tl')) as (_ & _ & H).
    rewrite H by lia. by rewrite Nat2Z.id, take_app_length. }
  assert (forall c1 c2 u1 u2, byte c1 -> byte c2 -> byte u1 -> byte u2 ->
    bytes_ok (header lh ll ih il c1 c2 uh ul u1 u2 ++ msg ++ tl)) as Hb.
  { intros. apply Forall_app. split; [by apply header_bytes|done]. }
  set (b0 := header lh ll ih il 0 0 uh ul 0 0 ++ msg ++ tl).
  assert (bytes_ok b0) as Hb0 by (apply Hb; unfold byte; lia).
  assert (forall c1 c2 u1 u2, Z.of_nat (length (header lh ll ih il c1 c2 uh ul u1 u2 ++ msg ++ tl)) = 28 + Z.of_nat (length msg + length tl)) as Hlen.
  { intros. rewrite !length_app. unfold header. cbn [length]. lia. }
  assert (bytes_ok msg) as Hm by (by apply Forall_app in Hmsg as [? _]).
  pose proof (words_sum_nonneg _ Hm) as Pm. pose proof (words_sum_nonneg _ Hs) as Ps. pose proof (words_sum_nonneg _ Hd) as Pd.
  cbn [words_sum] in Ps, Pd.
  destruct (slice_header lh ll ih il 0 0 uh ul 0 0 (msg ++ tl)) as (W0 & W1 & _). fold b0 in W0, W1.
  set (w0 := words_sum (slice b0 0 20)) in *. set (r0 := ones_rep w0).
  assert (0 <= r0 <= 65535) as Hr0 by (apply ones_rep_range; lia).
  destruct (neg_bytes r0 Hr0) as (Bc1 & Bc2 & Ec). set (v0 := u16 (Z.lnot (htons16 r0))) in *.
  set (b1 := header lh ll ih il (v0 mod 256) (v0 / 256) uh ul 0 0 ++ msg ++ tl).
  assert (bytes_ok b1) as Hb1 by (apply Hb; unfold byte; lia).
  destruct (slice_header lh ll ih il (v0 mod 256) (v0 / 256) uh ul 0 0 (msg ++ tl)) as (_ & W1' & _). fold b1 in W1'.
  pose proof (Hpay tl (v0 mod 256) (v0 / 256) 0 0 _ eq_refl) as W2. fold b1 in W2. rewrite <- Eu in W2.
  set (w1 := words_sum (slice b1 12 8)) in *. set (w2 := words_sum (slice b1 20 udp_len)) in *.
  set (r1 := ones_rep (17 + udp_len + w1)). assert (0 <= r1 <= 65535) as Hr1 by (apply ones_rep_range; lia).
  set (r2 := ones_rep (r1 + w2)). assert (0 <= r2 <= 65535) as Hr2 by (apply ones_rep_range; lia).
  assert (r2 mod 65535 = (17 + udp_len + w1 + w2) mod 65535) as Er2.
  { subst r2. rewrite ones_rep_mod, <- Zplus_mod_idemp_l. subst r1. by rewrite ones_rep_mod, Zplus_mod_idemp_l. }
  set (v := if negb (r2 =? 0xffff) then u16 (Z.lnot (htons16 r2)) else 0xffff).
  assert (byte (v mod 256) /\ byte (v / 256) /\ (256 * (v mod 256) + v / 256 + r2) mod 65535 = 0) as (Bu1 & Bu2 & Ev).
  { subst v. destruct (Z.eqb_spec r2 0xffff) as [->|]; cbn [negb]; [by vm_compute|].
    destruct (neg_bytes r2 Hr2) as (H1 & H2 & ->). split; [done|]. split; [done|].
    by replace (65535 - r2 + r2) with 65535 by lia. }
  exists (v0 mod 256), (v0 / 256), (v mod 256), (v / 256). split; [|split].
  - unfold fill_sums.
    rewrite (bind_ret _ _ _ _ _ (ip4sum_is_ones_sum b0 0 0 20 Hb0 ltac:(lia) ltac:(lia) ltac:(lia) ltac:(subst b0; rewrite Hlen; lia))).
    rewrite Z.add_0_l. fold w0 r0 v0.
    rewrite (bind_ret _ _ _ tt b1).
    2: { rewrite put_le16_ok by (subst b0; rewrite ?Hlen; unfold IP_SUM; lia). reflexivity. }
    rewrite (wrapu_id 16 (17 + udp_len)), (wrapu_id 16 udp_len) by (unfold in_u; lia).
    unfold IP_SRC, UH_SPORT.
    rewrite (bind_ret _ _ _ _ _ (ip4sum_is_ones_sum b1 (17 + udp_len) 12 8 Hb1 ltac:(lia) ltac:(lia) ltac:(lia) ltac:(subst b1; rewrite Hlen; lia))).
    fold w1 r1.
    rewrite (bind_ret _ _ _ _ _ (ip4sum_is_ones_sum b1 r1 20 udp_len Hb1 Hr1 ltac:(lia) ltac:(lia) ltac:(subst b1; rewrite Hlen; lia))).
    fold w2 r2 v. rewrite put_le16_ok by (subst b1; rewrite ?Hlen; unfold UH_SUM; lia). reflexivity.
  - apply header_bytes; done.
  - intros tl'. set (b := header _ _ _ _ _ _ _ _ _ _ ++ _).
    destruct (slice_header lh ll ih il (v0 mod 256) (v0 / 256) uh ul (v mod 256) (v / 256) (msg ++ tl')) as (S0 & S1 & _). fold b in S0, S1.
    pose proof (Hpay tl' (v0 mod 256) (v0 / 256) (v mod 256) (v / 256) _ eq_refl) as S2. fold b in S2. rewrite <- Eu in S2.
    unfold sound_ip. change (header_len b) with 20. cbv zeta. change (default 0 (aget b IP_P)) with 17.
    change (default 0 (aget b IP_VHL)) with 69. change (default 0 (aget b IP_LEN)) with lh.
    change (default 0 (aget b (IP_LEN + 1))) with ll. replace (20 + udp_len - 20) with udp_len by lia.
    unfold IP_SRC. split; [done|]. split; [lia|]. split; [done|]. split; [|split; [done|split; [|done]]].
    + assert (words_sum (slice b 0 20) = w0 + (65535 - r0)) as -> by lia.
      rewrite <- Zplus_mod_idemp_l, <- (ones_rep_mod w0). fold r0. rewrite Zplus_mod_idemp_l.
      by replace (r0 + (65535 - r0)) with 65535 by lia.
    + intros _. split; [lia|]. right. rewrite S1, S2.
      replace (_ + _ + _) with (17 + udp_len + w1 + w2 + (256 * (v mod 256) + v / 256)) by lia.
      rewrite <- Zplus_mod_idemp_l, <- Er2, Zplus_mod_idemp_l. by rewrite Z.add_comm.
Qed.
End header.

(** ** The options *)

Definition opt : Type := Z * list Z.
Definition opt_bytes (o : opt) : list Z := o.1 :: Z.of_nat (length o.2) :: o.2.

(** An option that the loop can handle: [END] ends the list, and of a list of
    name servers the first is read without a look at its length. *)
Definition opt_ok (o : opt) : Prop := o.1 <> DHCP_OPTION_END /\ (o.1 = DHCP_OPTION_DNS_SERVER -> (4 <= length o.2)%nat).

(** What is sent on of an option. *)
Definition relayed (o : opt) : list Z :=
  if copied_option o.1 then opt_bytes o
  else if o.1 =? DHCP_OPTION_DNS_SERVER then [DHCP_OPTION_DNS_SERVER; 4] ++ take 4 o.2
  else [].

Lemma opt_bytes_length o : length (opt_bytes o) = (2 + length o.2)%nat.
Proof. done. Qed.

Lemma relayed_length o : opt_ok o -> (length (relayed o) <= length (opt_bytes o))%nat.
Proof.
  intros [_ H]. unfold relayed. destruct (copied_option o.1); [done|].
  destruct (Z.eqb_spec o.1 DHCP_OPTION_DNS_SERVER) as [E|]; [|cbn; lia].
  specialize (H E). rewrite length_app, length_take, opt_bytes_length. cbn [length]. lia.
Qed.

Lemma relayed_all_length opts : Forall opt_ok opts -> (length (opts ≫= relayed) <= length (opts ≫= opt_bytes))%nat.
Proof.
  induction 1 as [|o opts Ho _ IH]; [done|]. rewrite !bind_cons, !length_app. pose proof (relayed_length o Ho). lia.
Qed.

(** The state while the packet is made: the message and the packet. *)
Definition making (i o : buf) (s : tun4) : relay := Relay i (with_pkt o s).

Lemma on_inm_ok {A} (m : M buf A) i i' o s a : m i = Ret a i' -> on_inm m (making i o s) = Ret a (making i' o s).
Proof. intros E. unfold on_inm, zoom. cbn. by rewrite E. Qed.

Lemma on_out_ok {A} (m : M buf A) i o o' s a : m o = Ret a o' -> on_out m (making i o s) = Ret a (making i o' s).
Proof. intros E. unfold on_out, on_r4, on_pkt, zoom. cbn. by rewrite E. Qed.

Lemma option_step_ok o pre post out_pre out_post op0 mt s n :
  opt_ok o -> Z.of_nat (length pre) < n -> post <> [] -> (length (relayed o) <= length out_post)%nat ->
  exists mt',
    option_step n (Z.of_nat (length pre), Z.of_nat (length out_pre), op0, mt)
      (making (pre ++ opt_bytes o ++ post) (out_pre ++ out_post) s)
    = Ret (inl (Z.of_nat (length (pre ++ opt_bytes o)), Z.of_nat (length (out_pre ++ relayed o)), o.1, mt'))
        (making (pre ++ opt_bytes o ++ post) (out_pre ++ relayed o ++ drop (length (relayed o)) out_post) s).
Proof.
  intros [Hend Hdns] Hn Hpost Hl. destruct o as [op v]. cbn [fst snd] in *. set (im := pre ++ _ ++ post).
  unfold option_step. rewrite (proj2 (Z.ltb_lt _ _) Hn).
  rewrite (bind_ret _ _ _ _ _ (on_inm_ok _ im im _ s _ (byte_at_app pre op (Z.of_nat (length v) :: v ++ post) _ eq_refl))).
  rewrite (proj2 (Z.eqb_neq _ _) Hend).
  assert (byte_at (Z.of_nat (length pre) + 1) im = Ret (Z.of_nat (length v)) im) as E1.
  { subst im. change (pre ++ opt_bytes (op, v) ++ post) with (pre ++ [op] ++ (Z.of_nat (length v) :: v ++ post)).
    rewrite app_assoc. apply byte_at_app. rewrite length_app. cbn [length]. lia. }
  assert (Z.of_nat (length pre) + (Z.of_nat (length v) + 2) = Z.of_nat (length (pre ++ opt_bytes (op, v)))) as El.
  { rewrite length_app, opt_bytes_length. cbn [snd]. lia. }
  unfold relayed in *. cbn [fst snd] in *. destruct (copied_option op).
  - assert (exists x, byte_at (Z.of_nat (length pre) + 2) im = Ret x im) as [x E2].
    { destruct (aget_some im (Z.of_nat (length pre) + 2)) as [x E]; [|exists x; by apply byte_at_ok].
      subst im. rewrite !length_app, opt_bytes_length. destruct post; [done|]. cbn [length]. lia. }
    exists (if op =? DHCP_OPTION_MSG_TYPE then x else mt).
    rewrite (bind_ret _ _ _ (if op =? DHCP_OPTION_MSG_TYPE then x else mt) (making im (out_pre ++ out_post) s)).
    2: { destruct (op =? DHCP_OPTION_MSG_TYPE); [by apply on_inm_ok|done]. }
    rewrite (bind_ret _ _ _ _ _ (on_inm_ok _ im im _ s _ E1)).
    rewrite (bind_ret _ _ _ _ _ (on_inm_ok _ im im _ s _ (bytes_from_app pre (opt_bytes (op, v)) post _
      (Z.of_nat (length v) + 2) eq_refl ltac:(rewrite opt_bytes_length; cbn [snd]; lia)))).
    rewrite (bind_ret _ _ _ _ _ (on_out_ok _ im _ _ s _ (memcpy_to_app out_pre out_post (opt_bytes (op, v)) _ eq_refl Hl))).
    rewrite El. replace (Z.of_nat (length out_pre) + _) with (Z.of_nat (length (out_pre ++ opt_bytes (op, v)))); [done|].
    rewrite length_app, opt_bytes_length. cbn [snd]. lia.
  - destruct (Z.eqb_spec op DHCP_OPTION_DNS_SERVER) as [->|Hne].
    + specialize (Hdns eq_refl). rewrite length_app, length_take in Hl. cbn [length] in Hl.
      do 2 (destruct out_post as [|? out_post]; [cbn in Hl; lia|]). cbn [length] in Hl. exists mt.
      rewrite (bind_ret _ _ _ _ _ (on_out_ok _ im _ _ s _ (put_byte_app out_pre z (z0 :: out_post) _ DHCP_OPTION_DNS_SERVER eq_refl))).
      change (out_pre ++ DHCP_OPTION_DNS_SERVER :: z0 :: out_post) with (out_pre ++ [DHCP_OPTION_DNS_SERVER] ++ z0 :: out_post).
      rewrite app_assoc. assert (Z.of_nat (length out_pre) + 1 = Z.of_nat (length (out_pre ++ [DHCP_OPTION_DNS_SERVER]))) as E2
        by (rewrite length_app; cbn [length]; lia).
      rewrite (bind_ret _ _ _ _ _ (on_out_ok _ im _ _ s _ (put_byte_app (out_pre ++ [DHCP_OPTION_DNS_SERVER]) z0 out_post _ 4 E2))).
      assert (bytes_from (Z.of_nat (length pre) + 2) 4 im = Ret (take 4 v) im) as E3.
      { rewrite bytes_from_ok; [|lia|lia|subst im; rewrite !length_app, opt_bytes_length; cbn [snd]; lia]. f_equal.
        subst im. change (pre ++ opt_bytes (DHCP_OPTION_DNS_SERVER, v) ++ post)
          with (pre ++ [DHCP_OPTION_DNS_SERVER; Z.of_nat (length v)] ++ v ++ post).
        rewrite app_assoc. unfold slice. rewrite drop_app_length' by (rewrite length_app; cbn [length]; lia).
        by rewrite take_app_le by (change (Z.to_nat 4) with 4%nat; lia). }
      rewrite (bind_ret _ _ _ _ _ (on_inm_ok _ im im _ s _ E3)).
      change ((out_pre ++ [DHCP_OPTION_DNS_SERVER]) ++ 4 :: out_post) with ((out_pre ++ [DHCP_OPTION_DNS_SERVER]) ++ [4] ++ out_post).
      rewrite (app_assoc (out_pre ++ _) [4]).
      rewrite (bind_ret _ _ _ _ _ (on_out_ok _ im _ _ s _ (memcpy_to_app ((out_pre ++ [DHCP_OPTION_DNS_SERVER]) ++ [4]) out_post (take 4 v)
        (Z.of_nat (length out_pre) + 2) ltac:(rewrite !length_app; cbn [length]; lia) ltac:(rewrite length_take; lia)))).
      rewrite (bind_ret _ _ _ _ _ (on_inm_ok _ im im _ s _ E1)), El. unfold ret. rewrite <- !app_assoc.
      replace (Z.of_nat (length out_pre) + 2 + 4) with (Z.of_nat (length (out_pre ++ [DHCP_OPTION_DNS_SERVER; 4] ++ take 4 v))).
      2: { rewrite !length_app, length_take. cbn [length]. lia. }
      cbn [app length drop]. by rewrite length_take.
    + rewrite (bind_ret _ _ _ _ _ (on_inm_ok _ im im _ s _ E1)), El. exists mt. by rewrite !app_nil_r.
Qed.

Lemma options_loop opts : forall pre post out_pre out_post op0 mt s n fuel,
  Forall opt_ok opts -> Z.of_nat (length (pre ++ opts ≫= opt_bytes)) < n ->
  (length (opts ≫= relayed) <= length out_post)%nat -> (length opts < fuel)%nat ->
  exists mt',
    loop fuel (option_step n) (Z.of_nat (length pre), Z.of_nat (length out_pre), op0, mt)
      (making (pre ++ (opts ≫= opt_bytes) ++ DHCP_OPTION_END :: post) (out_pre ++ out_post) s)
    = Ret (Z.of_nat (length (pre ++ opts ≫= opt_bytes)), Z.of_nat (length (out_pre ++ opts ≫= relayed)), DHCP_OPTION_END, mt')
        (making (pre ++ (opts ≫= opt_bytes) ++ DHCP_OPTION_END :: post)
           (out_pre ++ (opts ≫= relayed) ++ drop (length (opts ≫= relayed)) out_post) s).
Proof.
  induction opts as [|o opts IH]; intros pre post out_pre out_post op0 mt s n fuel Hok Hn Hl Hf;
    (destruct fuel as [|fuel]; [cbn in Hf; lia|]).
  - exists mt. cbn [mbind list_bind app]. rewrite !app_nil_r in *. apply loop_exit. unfold option_step.
    rewrite (proj2 (Z.ltb_lt _ _) Hn).
    rewrite (bind_ret _ _ _ _ _ (on_inm_ok _ _ _ _ s _ (byte_at_app pre DHCP_OPTION_END post _ eq_refl))). done.
  - apply Forall_cons in Hok as [Ho Hok]. rewrite !bind_cons in *. rewrite !length_app in *. cbn [length] in Hf.
    rewrite <- (app_assoc (opt_bytes o)).
    destruct (option_step_ok o pre ((opts ≫= opt_bytes) ++ DHCP_OPTION_END :: post) out_pre out_post op0 mt s n) as [mt1 E];
      [done|lia|intros [_ [=]]%app_eq_nil|lia|].
    rewrite (loop_next _ _ _ _ _ _ E).
    destruct (IH (pre ++ opt_bytes o) post (out_pre ++ relayed o) (drop (length (relayed o)) out_post) o.1 mt1 s n fuel) as [mt' E'];
      [done|rewrite !length_app; lia|rewrite length_drop; lia|lia|].
    exists mt'. rewrite <- !app_assoc in E'. rewrite E'. rewrite drop_drop, !length_app, !Nat2Z.inj_add, <- !app_assoc. done.
Qed.

(** ** The packet *)

(** A sound packet that may be fragmented is queued as it is. *)
Lemma write_sound outfd n s :
  bytes_ok (pkt s) -> 28 <= n <= Z.of_nat (length (pkt s)) -> n < 65000 -> header_len (pkt s) <= n ->
  Z.testbit (default 0 (aget (pkt s) 7)) 6 = false -> passes_ip (pkt s) n ->
  write_to_serial outfd n s = on_tq (send_packet slip_send outfd (take (Z.to_nat n) (pkt s))) s.
Proof.
  intros Hb Hn H65 Hhl H7 Hs. pose proof (proj2 (verdict_passes _ _) Hs) as Hv.
  assert (check_ip n (pkt s) = Ret 0 (pkt s)) as Echk by (rewrite check_ip_decides, Hv by (done || lia); done).
  unfold write_to_serial. rewrite (bind_ret _ _ _ _ _ (on_pkt_read _ s _ Echk)). cbn [Z.ltb Z.compare].
  rewrite (bind_ret _ _ _ _ _ (on_pkt_read _ s _ (needs_id_tests (pkt s) Hb ltac:(lia)))).
  by rewrite H7, andb_false_r.
Qed.

Section reply.
Context (giaddr : list Z) (slipfd : Z).

(** The parts of a reply: the start of the message, its flags and addresses,
    and the options. *)
Record reply : Type := Reply {
  r_htype : Z; r_hlen : Z; r_hops : Z; r_xid : list Z; r_flags : list Z; r_ciaddr : list Z; r_yiaddr : list Z;
  r_siaddr : list Z; r_giaddr : list Z; r_chaddr : list Z; r_names : list Z; r_cookie : list Z; r_opts : list opt;
  r_pad : list Z
}.

Definition reply_base (r : reply) : list Z :=
  [BOOTREPLY; r_htype r; r_hlen r; r_hops r] ++ r_xid r ++ r_flags r ++ r_ciaddr r ++ r_yiaddr r ++ r_siaddr r
    ++ r_giaddr r ++ r_chaddr r.

(** The message as it comes from the server. *)
Definition reply_bytes (r : reply) : list Z :=
  reply_base r ++ r_names r ++ r_cookie r ++ (r_opts r ≫= opt_bytes) ++ DHCP_OPTION_END :: r_pad r.

Record reply_ok (r : reply) : Prop := {
  ok_xid : length (r_xid r) = 6%nat; ok_flags : length (r_flags r) = 2%nat; ok_ci : length (r_ciaddr r) = 4%nat;
  ok_yi : length (r_yiaddr r) = 4%nat; ok_si : length (r_siaddr r) = 4%nat; ok_gi : length (r_giaddr r) = 4%nat;
  ok_ch : length (r_chaddr r) = 16%nat; ok_names : length (r_names r) = 192%nat; ok_cookie : length (r_cookie r) = 4%nat;
  ok_opts : Forall opt_ok (r_opts r); ok_len : (length (reply_bytes r) <= 548)%nat; ok_bytes : bytes_ok (reply_bytes r)
}.

(** What the node gets of it. *)
Definition client_message (r : reply) : list Z :=
  ([BOOTREPLY; r_htype r; r_hlen r; u8 (r_hops r + 1)] ++ r_xid r ++ r_flags r ++ r_ciaddr r ++ r_yiaddr r ++ r_siaddr r
    ++ [0; 0; 0; 0] ++ r_chaddr r) ++ r_cookie r ++ (r_opts r ≫= relayed) ++ [DHCP_OPTION_END].

Lemma reply_base_length r : reply_ok r -> length (reply_base r) = 44%nat.
Proof. intros []. unfold reply_base. rewrite !length_app. cbn [length]. lia. Qed.

Lemma client_message_length r :
  reply_ok r -> length (client_message r) = (49 + length (r_opts r ≫= relayed))%nat.
Proof. intros []. unfold client_message. rewrite !length_app. cbn [length]. lia. Qed.

Lemma reply_relayed_length r : reply_ok r -> (length (r_opts r ≫= relayed) <= length (r_opts r ≫= opt_bytes) <= 307)%nat.
Proof.
  intros Hr. pose proof (relayed_all_length _ (ok_opts r Hr)). pose proof (ok_len r Hr) as Hl.
  unfold reply_bytes in Hl. rewrite !length_app, (reply_base_length r Hr), (ok_names r Hr), (ok_cookie r Hr) in Hl.
  cbn [length] in Hl. lia.
Qed.

Lemma relayed_bytes opts : bytes_ok (opts ≫= opt_bytes) -> bytes_ok (opts ≫= relayed).
Proof.
  induction opts as [|[op v] opts IH]; [done|]. rewrite !bind_cons. unfold bytes_ok in *. rewrite !Forall_app.
  intros [H1 H2]. split; [|by apply IH]. unfold relayed. cbn [fst snd]. destruct (copied_option op); [done|].
  destruct (op =? DHCP_OPTION_DNS_SERVER); [|done]. unfold opt_bytes in H1. cbn [fst snd] in H1. rewrite !Forall_cons in H1.
  rewrite Forall_app, !Forall_cons. split; [unfold DHCP_OPTION_DNS_SERVER; repeat split; done || lia|apply Forall_take; tauto].
Qed.

Lemma client_message_bytes r : reply_ok r -> bytes_ok (client_message r).
Proof.
  intros Hr. pose proof (ok_bytes r Hr) as Hb. unfold reply_bytes, reply_base, client_message, bytes_ok in *.
  rewrite !Forall_app, !Forall_cons in *. destruct Hb as ((H1 & H2 & H3 & H4 & H5 & H6 & H7 & H8) & H9 & H10 & H11 & _).
  pose proof (wrapu_range 8 (r_hops r + 1) ltac:(lia)) as Hw. unfold in_u in Hw. change (2 ^ 8) with 256 in Hw.
  pose proof (relayed_bytes _ H11) as H12. unfold bytes_ok in H12. intuition lia.
Qed.

(** The start of the message. *)
Definition client_base (r : reply) : list Z :=
  [BOOTREPLY; r_htype r; r_hlen r; u8 (r_hops r + 1)] ++ r_xid r ++ r_flags r ++ r_ciaddr r ++ r_yiaddr r ++ r_siaddr r
    ++ [0; 0; 0; 0] ++ r_chaddr r.

Lemma copy_base_ok r i_tl x m0 s :
  reply_ok r -> length x = 28%nat -> length m0 = 356%nat ->
  copy_base (making (reply_bytes r ++ i_tl) (x ++ m0) s)
    = Ret (r_yiaddr r) (making (reply_bytes r ++ i_tl) (x ++ client_base r ++ r_cookie r ++ drop 48 m0) s).
Proof.
  intros Hr Hx Hm. pose proof (reply_base_length r Hr) as Hb. destruct Hr. set (i := reply_bytes r ++ i_tl).
  assert (exists j, i = reply_base r ++ r_names r ++ r_cookie r ++ j) as [j Ei].
  { exists ((r_opts r ≫= opt_bytes) ++ DHCP_OPTION_END :: r_pad r ++ i_tl). subst i. unfold reply_bytes. by rewrite <- !app_assoc. }
  assert (bytes_from YIADDR 4 i = Ret (r_yiaddr r) i) as E1.
  { rewrite Ei. unfold reply_base. rewrite <- !app_assoc. 
    rewrite (app_assoc (r_flags r)), (app_assoc (r_xid r)), (app_assoc [BOOTREPLY; _; _; _]).
    apply bytes_from_app; [rewrite !length_app; cbn [length]; unfold YIADDR; lia|lia]. }
  assert (bytes_from 0 DHCP_BASE_LEN i = Ret (reply_base r) i) as E2.
  { rewrite Ei. apply bytes_from_prefix. by rewrite Hb. }
  assert (bytes_from OPTIONS 4 i = Ret (r_cookie r) i) as E7.
  { rewrite Ei, app_assoc. apply bytes_from_app; [rewrite length_app, Hb, ok_names0; done|lia]. }
  clearbody i. unfold copy_base.
  rewrite (bind_ret _ _ _ _ _ (on_inm_ok _ i i _ s _ E1)), (bind_ret _ _ _ _ _ (on_inm_ok _ i i _ s _ E2)).
  rewrite (bind_ret _ _ _ _ _ (on_out_ok _ i _ _ s _ (memcpy_to_app x m0 (reply_base r) IP_HDR ltac:(by rewrite Hx) ltac:(lia)))).
  rewrite Hb. set (tl := drop 44 m0). set (mid := r_xid r ++ r_flags r ++ r_ciaddr r ++ r_yiaddr r ++ r_siaddr r).
  assert (x ++ reply_base r ++ tl = (x ++ [BOOTREPLY; r_htype r; r_hlen r]) ++ r_hops r :: mid ++ r_giaddr r ++ r_chaddr r ++ tl) as ->.
  { unfold reply_base. subst mid. rewrite <- !app_assoc. done. }
  assert (IP_HDR + HOPS = Z.of_nat (length (x ++ [BOOTREPLY; r_htype r; r_hlen r]))) as Eh by (rewrite length_app, Hx; done).
  rewrite (bind_ret _ _ _ _ _ (on_out_ok _ i _ _ s _ (byte_at_app _ (r_hops r) _ _ Eh))).
  rewrite (bind_ret _ _ _ _ _ (on_out_ok _ i _ _ s _ (put_byte_app _ (r_hops r) _ _ (u8 (r_hops r + 1)) Eh))).
  set (base1 := [BOOTREPLY; r_htype r; r_hlen r; u8 (r_hops r + 1)] ++ mid).
  assert ((x ++ [BOOTREPLY; r_htype r; r_hlen r]) ++ u8 (r_hops r + 1) :: mid ++ r_giaddr r ++ r_chaddr r ++ tl
    = (x ++ base1) ++ r_giaddr r ++ r_chaddr r ++ tl) as -> by (subst base1; rewrite <- !app_assoc; done).
  assert (length base1 = 24%nat) as Hb1 by (subst base1 mid; rewrite !length_app; cbn [length]; lia).
  unfold memset_to. rewrite (bind_ret _ _ _ _ _ (on_out_ok _ i _ _ s _ (memcpy_to_app (x ++ base1) (r_giaddr r ++ r_chaddr r ++ tl) (replicate 4 0) (IP_HDR + GIADDR)
    ltac:(rewrite length_app, Hx, Hb1; done) ltac:(rewrite length_app; cbn [length replicate]; lia)))).
  rewrite length_replicate, drop_app_length' by lia.
  rewrite (bind_ret _ _ _ _ _ (on_inm_ok _ i i _ s _ E7)).
  assert ((x ++ base1) ++ replicate 4 0 ++ r_chaddr r ++ tl = (x ++ client_base r) ++ tl) as ->.
  { unfold client_base. subst base1 mid. by rewrite <- !app_assoc. }
  assert (length (client_base r) = 44%nat) as Hcb by (unfold client_base; rewrite !length_app; cbn [length]; lia).
  rewrite (bind_ret _ _ _ _ _ (on_out_ok _ i _ _ s _ (memcpy_to_app (x ++ client_base r) tl (r_cookie r) (IP_HDR + LIGHT_OPTIONS)
    ltac:(rewrite length_app, Hx, Hcb; done) ltac:(subst tl; rewrite length_drop; lia)))).
  subst tl. rewrite drop_drop, ok_cookie0, <- app_assoc. done.
Qed.

Lemma client_base_length r : reply_ok r -> length (client_base r) = 44%nat.
Proof. intros []. unfold client_base. rewrite !length_app. cbn [length]. lia. Qed.

Lemma end_options_ok A B P0 z Q s :
  end_options (Z.of_nat (length A)) (Z.of_nat (length P0)) DHCP_OPTION_END (making (A ++ DHCP_OPTION_END :: B) (P0 ++ z :: Q) s)
  = Ret (Z.of_nat (length P0) + 1) (making (A ++ 0 :: B) (P0 ++ DHCP_OPTION_END :: Q) s).
Proof.
  unfold end_options. rewrite Z.eqb_refl.
  rewrite (bind_ret _ _ _ _ _ (on_out_ok _ _ _ _ s _ (put_byte_app P0 z Q _ DHCP_OPTION_END eq_refl))).
  rewrite (bind_ret _ _ _ _ _ (on_inm_ok _ _ _ _ s _ (byte_at_app A DHCP_OPTION_END B _ eq_refl))).
  by rewrite (bind_ret _ _ _ _ _ (on_inm_ok _ _ _ _ s _ (put_byte_app A DHCP_OPTION_END B _ _ eq_refl))).
Qed.

Lemma c_true_land_bit v k : 0 <= k -> c_true (Z.land v (2 ^ k)) = Z.testbit v k.
Proof.
  intros Hk. unfold c_true. destruct (Z.testbit v k) eqn:E.
  - apply negb_true_iff, Z.eqb_neq. intros H. apply (f_equal (fun x => Z.testbit x k)) in H.
    by rewrite Z.land_spec, E, Z.pow2_bits_true, Z.bits_0 in H by done.
  - apply negb_false_iff, Z.eqb_eq, Z.bits_inj'. intros i Hi. rewrite Z.land_spec, Z.bits_0, Z.pow2_bits_eqb by lia.
    destruct (Z.eqb_spec k i) as [<-|]; [by rewrite E|by rewrite andb_false_r].
Qed.

(** The address the packet goes to. *)
Definition reply_dst (r : reply) : list Z :=
  if Z.testbit (default 0 (head (r_flags r))) 7 then [255; 255; 255; 255] else r_yiaddr r.

(** The headers the packet gets: of UDP from the port of the server to the
    port of the client, with the addresses and a number. *)
Definition reply_header (r : reply) (id : Z) (h : list Z) : Prop :=
  length h = 28%nat /\ slice h 12 4 = giaddr /\ slice h 16 4 = reply_dst r /\ slice h 20 4 = [0; 67; 0; 68] /\
  default 0 (aget h IP_P) = 17 /\ 256 * default 0 (aget h 4) + default 0 (aget h 5) = id.

Lemma send_reply_ok r i x msg tl s :
  length giaddr = 4%nat -> bytes_ok giaddr -> length (r_yiaddr r) = 4%nat -> bytes_ok (r_yiaddr r) ->
  (exists f0 f1, r_flags r = [f0; f1] /\ 0 <= f0 < 256 /\ le16 FLAGS i = Ret (f0 + 256 * f1) i) ->
  length x = 28%nat -> bytes_ok (msg ++ tl) -> Z.of_nat (length msg) < 1000 -> 0 <= ip_id s < 65536 ->
  exists h, reply_header r (ip_id s) h /\ sound_ip (h ++ msg) (Z.of_nat (length (h ++ msg))) /\
    send_reply giaddr slipfd (28 + Z.of_nat (length msg)) (r_yiaddr r) (making i (x ++ msg ++ tl) s)
    = match on_tq (send_packet slip_send slipfd (h ++ msg)) (with_pkt (h ++ msg ++ tl) (with_ip_id (u16 (ip_id s + 1)) s)) with
      | Ret a t => Ret a (Relay i t)
      | Err f => Err f
      end.
Proof.
  intros Hgl Hgb Hyl Hyb (f0 & f1 & Ef & Hf0 & Eflags) Hx Hb Hlen Hid.
  set (L := Z.of_nat (length msg)) in *. unfold send_reply.
  assert (8 + DHCP_BASE_LEN + (28 + L - (IP_HDR + LIGHT_OPTIONS)) = 8 + L) as -> by (unfold DHCP_BASE_LEN, IP_HDR, LIGHT_OPTIONS, DHCP_BASE_LEN; lia).
  assert (20 + 8 + DHCP_BASE_LEN + (28 + L - (IP_HDR + LIGHT_OPTIONS)) = 28 + L) as -> by (unfold DHCP_BASE_LEN, IP_HDR, LIGHT_OPTIONS, DHCP_BASE_LEN; lia).
  set (c := u16 (ip_id s + 1)). set (s1 := with_ip_id c s).
  rewrite (bind_ret _ _ _ (ip_id s) (making i (x ++ msg ++ tl) s)) by done.
  rewrite (bind_ret _ _ _ tt (making i (x ++ msg ++ tl) s1)) by done.
  rewrite (bind_ret _ _ _ _ _ (on_inm_ok _ i i _ s1 _ Eflags)).
  assert ((if c_true (Z.land (f0 + 256 * f1) (htons16 BOOTP_BROADCAST)) then [255; 255; 255; 255] else r_yiaddr r) = reply_dst r) as ->.
  { unfold reply_dst. rewrite Ef. cbn [head default]. change (htons16 BOOTP_BROADCAST) with (2 ^ 7).
    rewrite c_true_land_bit by lia. assert (Z.testbit (f0 + 256 * f1) 7 = Z.testbit f0 7) as ->; [|done].
    rewrite <- (Z.mod_pow2_bits_low (f0 + 256 * f1) 8) by lia. change (2 ^ 8) with 256. f_equal.
    symmetry. apply (Z.mod_unique_pos _ _ f1); lia. }
  assert (length (reply_dst r) = 4%nat /\ bytes_ok (reply_dst r)) as [Hdl Hdb].
  { unfold reply_dst. destruct (Z.testbit _ _); [|done]. split; [done|]. unfold bytes_ok. rewrite !Forall_cons. repeat split; done || lia. }
  unfold reply_header. set (dst := reply_dst r) in *. clearbody dst.
  assert (forall l : list Z, length l = 4%nat -> exists a b c d, l = [a; b; c; d]) as Hfour.
  { intros l Hl. do 4 (destruct l as [|? l]; [done|]). destruct l; [|done]. eauto. }
  destruct (Hfour _ Hgl) as (s0 & s1' & s2 & s3 & Eg), (Hfour _ Hdl) as (d0 & d1 & d2 & d3 & ->). rewrite Eg in *.
  assert (0 <= L) by (subst L; lia).
  rewrite (bind_ret _ _ _ _ _ (on_out_ok _ i _ _ s1 _ (fill_header_ok s0 s1' s2 s3 d0 d1 d2 d3 x (28 + L) (8 + L) (ip_id s) (msg ++ tl)
    Hx ltac:(lia) ltac:(lia) Hid))).
  assert (forall v, 0 <= v < 65536 -> byte (v / 256) /\ byte (v mod 256) /\ 256 * (v / 256) + v mod 256 = v) as Hbytes.
  { intros v Hv. pose proof (Z.div_mod v 256 ltac:(lia)). unfold byte. pose proof (Z.mod_pos_bound v 256 ltac:(lia)).
    split; [split; [apply Z.div_pos; lia|apply Z.div_lt_upper_bound; lia]|lia]. }
  destruct (Hbytes (28 + L) ltac:(lia)) as (I1 & I2 & EI), (Hbytes (8 + L) ltac:(lia)) as (U1 & U2 & EU),
    (Hbytes (ip_id s) Hid) as (D1 & D2 & ED).
  destruct (fill_sums_ok s0 s1' s2 s3 d0 d1 d2 d3 ((28 + L) / 256) ((28 + L) mod 256) (ip_id s / 256) (ip_id s mod 256)
    ((8 + L) / 256) ((8 + L) mod 256) msg tl (8 + L)) as (c1 & c2 & u1 & u2 & E & Hh & Hsound); try done; [lia|lia|].
  rewrite (bind_ret _ _ _ _ _ (on_out_ok _ i _ _ s1 _ E)). set (h := header _ _ _ _ _ _ _ _ _ _ _ _ c1 c2 _ _ u1 u2) in *.
  assert (length h = 28%nat) as Hhl by done.
  assert (20 + (8 + L) = 28 + L) as E28 by lia. rewrite E28 in Hsound.
  assert (Z.of_nat (length (h ++ msg)) = 28 + L) as Epk by (rewrite length_app, Hhl; subst L; lia).
  exists h. split; [split; [done|split; [done|split; [done|split; [done|split; [done|exact ED]]]]]|].
  split; [rewrite Epk; pose proof (Hsound []) as H0; by rewrite app_nil_r in H0|].
  unfold on_r4, zoom. cbn [r4 making with_r4]. rewrite write_sound.
  - change (pkt (with_pkt (h ++ msg ++ tl) s1)) with (h ++ msg ++ tl).
    assert (take (Z.to_nat (28 + L)) (h ++ msg ++ tl) = h ++ msg) as ->.
    { rewrite app_assoc. apply take_app_length'. lia. }
    by destruct (on_tq _ _).
  - apply Forall_app. by split.
  - change (pkt (with_pkt (h ++ msg ++ tl) s1)) with (h ++ msg ++ tl). rewrite !length_app, Hhl. subst L. lia.
  - lia.
  - change (header_len _) with 20. lia.
  - done.
  - apply sound_passes; [change (header_len _) with 20; lia|intros _; change (header_len _) with 20; lia|apply Hsound].
Qed.

Lemma opts_count opts : (length opts <= length (opts ≫= opt_bytes))%nat.
Proof. induction opts as [|o opts IH]; [done|]. rewrite bind_cons, length_app, opt_bytes_length. cbn [length]. lia. Qed.

Lemma flags_read r A :
  reply_ok r -> exists f0 f1, r_flags r = [f0; f1] /\ 0 <= f0 < 256 /\
    le16 FLAGS (reply_base r ++ A) = Ret (f0 + 256 * f1) (reply_base r ++ A).
Proof.
  intros Hr. pose proof (ok_bytes r Hr) as Hb. destruct Hr. destruct (r_flags r) as [|f0 [|f1 [|]]] eqn:E; try done.
  exists f0, f1. split; [done|]. unfold reply_base. rewrite E.
  unfold reply_bytes, reply_base, bytes_ok in Hb. rewrite E, !Forall_app, !Forall_cons in Hb. split; [apply Hb|].
  set (B := r_ciaddr r ++ r_yiaddr r ++ r_siaddr r ++ r_giaddr r ++ r_chaddr r).
  set (C := [BOOTREPLY; r_htype r; r_hlen r; r_hops r] ++ r_xid r).
  assert (([BOOTREPLY; r_htype r; r_hlen r; r_hops r] ++ r_xid r ++ [f0; f1] ++ B) ++ A = C ++ f0 :: f1 :: B ++ A) as ->
    by (subst C; by rewrite <- !app_assoc).
  assert (length C = 10%nat) as Hc by (subst C; rewrite length_app; cbn [length]; lia).
  unfold le16. rewrite (bind_ret _ _ _ _ _ (byte_at_app C f0 (f1 :: B ++ A) FLAGS ltac:(by rewrite Hc))).
  change (C ++ f0 :: f1 :: B ++ A) with (C ++ [f0] ++ f1 :: B ++ A). rewrite app_assoc.
  by rewrite (bind_ret _ _ _ _ _ (byte_at_app (C ++ [f0]) f1 (B ++ A) (FLAGS + 1) ltac:(rewrite length_app, Hc; done))).
Qed.

(** C39 A reply of the server reaches the node, when nothing else is queued, as
    one frame: a sound UDP packet to the address in the reply, or to all if
    the reply asks for it, with one hop more, without the address of the
    relay, without the names, and with the options the node wants. *)
Theorem dhcp_reply_relayed r stk out op0 s :
  reply_ok r -> length giaddr = 4%nat -> bytes_ok giaddr -> length out = Z.to_nat (IP_HDR + LIGHT_MSG) -> bytes_ok out ->
  0 <= ip_id s < 65536 -> queue_wf (tq s) -> slip_end (tq s) = 0 ->
  exists h q, reply_header r (ip_id s) h /\ sound_ip (h ++ client_message r) (Z.of_nat (length (h ++ client_message r))) /\
    relay_dhcp_to_client giaddr stk out op0 slipfd (Some (reply_bytes r)) s
      = Ret tt (with_tq q (with_ip_id (u16 (ip_id s + 1)) s)) /\
    queue_wf q /\ pending q = stuff (h ++ client_message r) ++ [SLIP_END].
Proof.
  intros Hr Hgl Hgb Hol Hob Hid Hq Hz. pose proof (reply_relayed_length r Hr) as Hrel.
  pose proof (client_message_length r Hr) as Hml. pose proof (ok_len r Hr) as Hlen. change (Z.to_nat (IP_HDR + LIGHT_MSG)) with 384%nat in Hol.
  set (x := take 28 out). set (m0 := drop 28 out). assert (out = x ++ m0) as Eo by (subst x m0; by rewrite take_drop).
  assert (length x = 28%nat) as Hx by (subst x; rewrite length_take; lia).
  assert (length m0 = 356%nat) as Hm0 by (subst m0; rewrite length_drop; lia).
  assert (bytes_ok m0) as Hm0b by (subst m0; by apply Forall_drop). rewrite Eo. clearbody x m0. clear Eo Hol Hob out.
  unfold relay_dhcp_to_client. rewrite (take_ge (reply_bytes r)) by (unfold DHCP_MSG, OPTIONS, OPTIONS_LEN, DHCP_BASE_LEN, DHCP_HOLE_LEN; lia).
  set (i_tl := drop _ _). clearbody i_tl. fold (making (reply_bytes r ++ i_tl) (x ++ m0) s).
  unfold relay_dhcp_to_client_body.
  assert (exists j, reply_bytes r ++ i_tl = BOOTREPLY :: j) as [j Ej] by (eexists; done).
  assert (byte_at OP (reply_bytes r ++ i_tl) = Ret BOOTREPLY (reply_bytes r ++ i_tl)) as Eop by (by rewrite Ej).
  rewrite (bind_ret _ _ _ _ _ (on_inm_ok _ _ _ _ s _ Eop)). cbn [negb Z.eqb Pos.eqb BOOTREPLY].
  rewrite (bind_ret _ _ _ _ _ (copy_base_ok r i_tl x m0 s Hr Hx Hm0)). clear j Ej Eop.
  set (pre := reply_base r ++ r_names r ++ r_cookie r). set (enc := r_opts r ≫= opt_bytes) in *.
  set (rel := r_opts r ≫= relayed) in *. set (post := r_pad r ++ i_tl).
  assert (reply_bytes r ++ i_tl = pre ++ enc ++ DHCP_OPTION_END :: post) as ->.
  { unfold reply_bytes. subst pre enc post. by rewrite <- !app_assoc. }
  assert (length pre = 240%nat) as Hpre.
  { subst pre. rewrite !length_app, (reply_base_length r Hr), (ok_names r Hr), (ok_cookie r Hr). done. }
  set (opre := x ++ client_base r ++ r_cookie r).
  assert (x ++ client_base r ++ r_cookie r ++ drop 48 m0 = opre ++ drop 48 m0) as -> by (subst opre; by rewrite <- !app_assoc).
  assert (length opre = 76%nat) as Hopre.
  { subst opre. rewrite !length_app, Hx, (client_base_length r Hr), (ok_cookie r Hr). done. }
  assert (length (reply_bytes r) = 241 + length enc + length (r_pad r))%nat as Hrb.
  { unfold reply_bytes. fold enc. rewrite !length_app. cbn [length]. rewrite (reply_base_length r Hr), (ok_names r Hr), (ok_cookie r Hr). lia. }
  pose proof (opts_count (r_opts r)) as Hcount. fold enc in Hcount.
  destruct (options_loop (r_opts r) pre post opre (drop 48 m0) op0 0 s (Z.of_nat (length (reply_bytes r)))
    (S (Z.to_nat (Z.of_nat (length (reply_bytes r)))))) as [mt E].
  { apply Hr. } { rewrite length_app. fold enc. lia. } { fold rel. rewrite length_drop. lia. } { lia. }
  fold enc rel in E. change (OPTIONS + 4) with (Z.of_nat 240). change (IP_HDR + LIGHT_OPTIONS + 4) with (Z.of_nat 76).
  rewrite Hpre, Hopre in E. rewrite (bind_ret _ _ _ _ _ E). clear E. rewrite drop_drop.
  set (Q := drop (48 + length rel) m0). assert (length Q = (308 - length rel)%nat) as HQ by (subst Q; rewrite length_drop; lia).
  assert (bytes_ok Q) as HQb by (by apply Forall_drop). clearbody Q. destruct Q as [|z Q]; [cbn in HQ; lia|].
  rewrite (app_assoc pre), (app_assoc opre), (bind_ret _ _ _ _ _ (end_options_ok (pre ++ enc) post (opre ++ rel) z Q s)).
  assert ((opre ++ rel) ++ DHCP_OPTION_END :: Q = x ++ client_message r ++ Q) as ->.
  { subst opre. unfold client_message. fold (client_base r). fold rel. by rewrite <- !app_assoc. }
  replace (Z.of_nat (length (opre ++ rel)) + 1) with (28 + Z.of_nat (length (client_message r))) by (rewrite length_app; lia).
  assert (bytes_ok (client_message r ++ Q)) as Hcmb.
  { apply Forall_app. split; [by apply client_message_bytes|]. by apply Forall_cons in HQb as [_ ?]. }
  assert (bytes_ok (r_yiaddr r)) as Hyb.
  { pose proof (ok_bytes r Hr) as Hb. unfold reply_bytes, reply_base, bytes_ok in Hb. rewrite !Forall_app in Hb. apply Hb. }
  destruct (send_reply_ok r ((pre ++ enc) ++ 0 :: post) x (client_message r) Q s Hgl Hgb (ok_yi r Hr) Hyb) as (h & Hh & Hs & ->);
    try done; [|lia|].
  { subst pre. rewrite <- !app_assoc. by apply flags_read. }
  pose proof (slip_packet_queued slipfd (h ++ client_message r) (tq s) Hq) as Hsend. rewrite Hz, decide_True in Hsend.
  2: { pose proof (stuff_length (h ++ client_message r)) as Hst. destruct Hh as (Hhl & _). rewrite length_app in Hst. unfold SLIP_BUF. lia. }
  destruct Hsend as (q & Eq & Hq' & Hp & _). exists h, q. split; [done|]. split; [done|].
  rewrite (proj2 (pending_nil _ Hq) Hz) in Hp. split; [|by split].
  unfold on_tq, zoom. cbn [tq with_pkt with_ip_id]. by rewrite Eq.
Qed.
End reply.

(** ** Replies that are too much *)

Lemma on_out_err {A} (m : M buf A) i o s f : m o = Err f -> on_out m (making i o s) = Err f.
Proof. intros E. unfold on_out, on_r4, on_pkt, zoom. cbn. by rewrite E. Qed.

Lemma put_byte_end out p v : Z.of_nat (length out) <= p -> put_byte p v out = Err OutOfBounds.
Proof.
  intros H. pose proof (put_byte_fits p v out ltac:(lia)) as F. destruct (put_byte p v out); cbn [fits] in F; [lia|].
  by destruct F as [-> _].
Qed.

(** A list of no name servers takes two bytes in the message and six in the
    packet. *)
Lemma dns_step pre post opre opost op0 mt s n :
  Z.of_nat (length pre) < n -> (4 <= length post)%nat ->
  option_step n (Z.of_nat (length pre), Z.of_nat (length opre), op0, mt)
    (making (pre ++ [DHCP_OPTION_DNS_SERVER; 0] ++ post) (opre ++ opost) s)
  = if decide (6 <= length opost)%nat then
      Ret (inl (Z.of_nat (length (pre ++ [DHCP_OPTION_DNS_SERVER; 0])),
                Z.of_nat (length (opre ++ [DHCP_OPTION_DNS_SERVER; 4] ++ take 4 post)), DHCP_OPTION_DNS_SERVER, mt))
        (making (pre ++ [DHCP_OPTION_DNS_SERVER; 0] ++ post)
           ((opre ++ [DHCP_OPTION_DNS_SERVER; 4] ++ take 4 post) ++ drop 6 opost) s)
    else Err OutOfBounds.
Proof.
  intros Hn Hp. set (i := pre ++ _ ++ post). unfold option_step. rewrite (proj2 (Z.ltb_lt _ _) Hn).
  rewrite (bind_ret _ _ _ _ _ (on_inm_ok _ i i _ s _ (byte_at_app pre DHCP_OPTION_DNS_SERVER (0 :: post) _ eq_refl))).
  change DHCP_OPTION_DNS_SERVER with 6 in *. change (6 =? DHCP_OPTION_END) with false. change (copied_option 6) with false.
  change (6 =? 6) with true. cbn iota.
  destruct opost as [|z opost].
  { rewrite decide_False by (cbn; lia). rewrite app_nil_r. by apply bind_err, on_out_err, put_byte_end. }
  rewrite (bind_ret _ _ _ _ _ (on_out_ok _ i _ _ s _ (put_byte_app opre z opost _ 6 eq_refl))).
  assert (Z.of_nat (length opre) + 1 = Z.of_nat (length (opre ++ [6]))) as E2 by (rewrite length_app; cbn [length]; lia).
  change (opre ++ 6 :: opost) with (opre ++ [6] ++ opost). rewrite app_assoc. destruct opost as [|z0 opost].
  { rewrite decide_False by (cbn; lia). rewrite app_nil_r. apply bind_err, on_out_err, put_byte_end. lia. }
  rewrite (bind_ret _ _ _ _ _ (on_out_ok _ i _ _ s _ (put_byte_app (opre ++ [6]) z0 opost _ 4 E2))).
  assert (bytes_from (Z.of_nat (length pre) + 2) 4 i = Ret (take 4 post) i) as E3.
  { rewrite bytes_from_ok; [|lia|lia|subst i; rewrite !length_app; cbn [length]; lia]. f_equal.
    subst i. rewrite app_assoc. unfold slice. by rewrite drop_app_length' by (rewrite length_app; cbn [length]; lia). }
  rewrite (bind_ret _ _ _ _ _ (on_inm_ok _ i i _ s _ E3)).
  assert (length (take 4 post) = 4%nat) as Ht by (rewrite length_take; lia).
  change ((opre ++ [6]) ++ 4 :: opost) with ((opre ++ [6]) ++ [4] ++ opost). rewrite (app_assoc (opre ++ _) [4]).
  cbn [length]. case_decide as Hd.
  - rewrite (bind_ret _ _ _ _ _ (on_out_ok _ i _ _ s _ (memcpy_to_app ((opre ++ [6]) ++ [4]) opost (take 4 post)
      (Z.of_nat (length opre) + 2) ltac:(rewrite !length_app; cbn [length]; lia) ltac:(lia)))).
    assert (byte_at (Z.of_nat (length pre) + 1) i = Ret 0 i) as E1.
    { subst i. change (pre ++ [6; 0] ++ post) with (pre ++ [6] ++ 0 :: post).
      rewrite app_assoc. apply byte_at_app. rewrite length_app. cbn [length]. lia. }
    rewrite (bind_ret _ _ _ _ _ (on_inm_ok _ i i _ s _ E1)). unfold ret. rewrite Ht. cbn [drop]. rewrite <- !app_assoc.
    replace (Z.of_nat (length pre) + (0 + 2)) with (Z.of_nat (length (pre ++ [6; 0]))) by (rewrite length_app; cbn [length]; lia).
    replace (Z.of_nat (length opre) + 2 + 4) with (Z.of_nat (length (opre ++ [6; 4] ++ take 4 post))); [done|].
    rewrite !length_app, Ht. cbn [length]. lia.
  - apply bind_err, on_out_err, memcpy_to_out. rewrite !length_app, Ht. cbn [length]. lia.
Qed.

Lemma dns_overflow k : forall pre post opre opost op0 mt s n fuel,
  (length opost < 6 * k)%nat -> Z.of_nat (length pre + 2 * k) <= n -> (4 <= length post)%nat -> (k <= fuel)%nat ->
  loop fuel (option_step n) (Z.of_nat (length pre), Z.of_nat (length opre), op0, mt)
    (making (pre ++ (replicate k (DHCP_OPTION_DNS_SERVER, []) ≫= opt_bytes) ++ post) (opre ++ opost) s) = Err OutOfBounds.
Proof.
  induction k as [|k IH]; intros pre post opre opost op0 mt s n fuel Ho Hn Hp Hf; [lia|].
  destruct fuel as [|fuel]; [lia|]. cbn [replicate]. rewrite bind_cons.
  change (opt_bytes (DHCP_OPTION_DNS_SERVER, [])) with [DHCP_OPTION_DNS_SERVER; 0].
  set (tl := (replicate k (DHCP_OPTION_DNS_SERVER, []) ≫= opt_bytes) ++ post). rewrite <- (app_assoc [_; _]). fold tl.
  assert (4 <= length tl)%nat as Htl by (subst tl; rewrite length_app; lia).
  pose proof (dns_step pre tl opre opost op0 mt s n ltac:(lia) Htl) as E. case_decide as Hd; [|by apply loop_err].
  rewrite (loop_next _ _ _ _ _ _ E), (app_assoc pre). subst tl.
  apply IH; rewrite ?length_drop, ?length_app; cbn [length]; lia.
Qed.

(** A reply of 345 bytes with 52 empty lists of name servers is written
    beyond the packet on the stack. *)
Theorem dhcp_reply_overflows giaddr slipfd base stk out op0 s :
  length base = 240%nat -> head base = Some BOOTREPLY -> length stk = Z.to_nat DHCP_MSG ->
  length out = Z.to_nat (IP_HDR + LIGHT_MSG) ->
  relay_dhcp_to_client giaddr stk out op0 slipfd
    (Some (base ++ (replicate 52 (DHCP_OPTION_DNS_SERVER, []) ≫= opt_bytes) ++ [DHCP_OPTION_END])) s = Err OutOfBounds.
Proof.
  intros Hb Hop Hstk Hout. change (Z.to_nat DHCP_MSG) with 548%nat in Hstk. change (Z.to_nat (IP_HDR + LIGHT_MSG)) with 384%nat in Hout.
  set (dns := replicate 52 (DHCP_OPTION_DNS_SERVER, []) ≫= opt_bytes). assert (length dns = 104%nat) as Hdns by done.
  set (d := base ++ dns ++ [DHCP_OPTION_END]). assert (length d = 345%nat) as Hd by (subst d; rewrite !length_app, Hb; done).
  unfold relay_dhcp_to_client. rewrite (take_ge d) by (rewrite Hd; vm_compute; lia). rewrite Hd.
  set (tl := drop 345 _). assert (length tl = 203%nat) as Htl.
  { subst tl. rewrite length_drop, length_app, length_take, length_replicate. change (Z.to_nat OPTIONS) with 236%nat.
    change (Z.to_nat OPTIONS_LEN) with 312%nat. lia. }
  clearbody tl. fold (making (d ++ tl) out s). subst d. rewrite <- !app_assoc. set (post := [DHCP_OPTION_END] ++ tl).
  assert (length post = 204%nat) as Hpost by (subst post; rewrite length_app, Htl; done).
  set (im := base ++ dns ++ post). assert (Z.of_nat (length im) = 548) as Him by (subst im; rewrite !length_app; lia).
  assert (byte_at OP im = Ret BOOTREPLY im) as Eop by (destruct base as [|b base]; [done|injection Hop as ->; done]).
  unfold relay_dhcp_to_client_body. rewrite (bind_ret _ _ _ _ _ (on_inm_ok _ im im _ s _ Eop)). cbn [negb Z.eqb Pos.eqb BOOTREPLY].
  assert (exists yi o, copy_base (making im out s) = Ret yi (making im o s) /\ length o = 384%nat) as (yi & o & E & Ho).
  { unfold copy_base.
    rewrite (bind_ret _ _ _ _ _ (on_inm_ok _ im im _ s _ (bytes_from_ok im YIADDR 4 ltac:(done) ltac:(done) ltac:(rewrite Him; done)))).
    rewrite (bind_ret _ _ _ _ _ (on_inm_ok _ im im _ s _ (bytes_from_ok im 0 DHCP_BASE_LEN ltac:(done) ltac:(done) ltac:(rewrite Him; done)))).
    assert (forall p k, 0 <= p -> 0 <= k -> p + k <= 548 -> length (slice im p k) = Z.to_nat k) as Hsl.
    { intros p k H1 H2 H3. unfold slice. rewrite length_take, length_drop. lia. }
    assert (forall p bs o, 0 <= p -> p + Z.of_nat (length bs) <= 384 -> length o = 384%nat ->
      exists o', memcpy_to p bs o = Ret tt o' /\ length o' = 384%nat) as Hcp.
    { intros p bs o H1 H2 H3. rewrite memcpy_to_ok by lia. eexists. split; [done|].
      rewrite !length_app, length_take, length_drop. lia. }
    destruct (Hcp IP_HDR (slice im 0 DHCP_BASE_LEN) out) as (o1 & E1 & L1); [done|rewrite Hsl; done|done|].
    rewrite (bind_ret _ _ _ _ _ (on_out_ok _ im _ _ s _ E1)).
    rewrite (bind_ret _ _ _ _ _ (on_out_ok _ im _ _ s _ (byte_at_default o1 (IP_HDR + HOPS) ltac:(rewrite L1; done)))).
    rewrite (bind_ret _ _ _ _ _ (on_out_ok _ im _ _ s _ (put_byte_ok o1 (IP_HDR + HOPS) _ ltac:(rewrite L1; done)))).
    set (o2 := <[_ := _]> o1). assert (length o2 = 384%nat) as L2 by (subst o2; by rewrite length_insert). clearbody o2.
    destruct (Hcp (IP_HDR + GIADDR) (replicate 4 0) o2) as (o3 & E3 & L3); [done|done|done|]. unfold memset_to.
    rewrite (bind_ret _ _ _ _ _ (on_out_ok _ im _ _ s _ E3)).
    rewrite (bind_ret _ _ _ _ _ (on_inm_ok _ im im _ s _ (bytes_from_ok im OPTIONS 4 ltac:(done) ltac:(done) ltac:(rewrite Him; done)))).
    destruct (Hcp (IP_HDR + LIGHT_OPTIONS) (slice im OPTIONS 4) o3) as (o4 & E4 & L4); [done|rewrite Hsl; done|done|].
    rewrite (bind_ret _ _ _ _ _ (on_out_ok _ im _ _ s _ E4)). eauto. }
  rewrite (bind_ret _ _ _ _ _ E). rewrite <- (take_drop 76 o).
  pose proof (dns_overflow 52 base post (take 76 o) (drop 76 o) op0 0 s 345 (S (Z.to_nat 345))) as Hov.
  assert (length (take 76 o) = 76%nat) as Ht by (rewrite length_take; lia).
  rewrite Hb, Ht in Hov. subst im dns. change (OPTIONS + 4) with (Z.of_nat 240).
  change (IP_HDR + LIGHT_OPTIONS + 4) with (Z.of_nat 76). change (Z.of_nat 345) with 345.
  rewrite (bind_err _ _ _ _ (Hov ltac:(rewrite length_drop; lia) ltac:(lia) ltac:(lia) ltac:(lia))). done.
Qed.

(** ** Witnesses *)

Definition demo_reply : reply :=
  Reply 1 6 0 [1; 2; 3; 4; 0; 0] [128; 0] [0; 0; 0; 0] [10; 0; 0; 9] [0; 0; 0; 0] [10; 0; 0; 1] (replicate 16 7)
    (replicate 192 0) [99; 130; 83; 99] [(53, [5]); (12, [65; 66]); (6, [10; 0; 0; 1; 10; 0; 0; 2])] [0; 0].

Lemma demo_reply_ok : reply_ok demo_reply.
Proof.
  split; try done.
  - repeat (apply Forall_cons; split; [split; [done|intros ?; try done; cbn; lia]|]). done.
  - vm_compute. lia.
  - apply (bool_decide_unpack _). vm_compute. exact I.
Qed.

Definition demo_relay : tun4 := Tun4 [] 513 (Queue (replicate 2000 0) 0 0 (Host [] [])).

Lemma demo_relay_queue : queue_wf (tq demo_relay).
Proof. unfold queue_wf. repeat split; vm_compute; done. Qed.

Lemma dhcp_reply_relayed_witness : exists h q,
  reply_header [10; 0; 0; 1] demo_reply 513 h /\
  relay_dhcp_to_client [10; 0; 0; 1] [] (replicate 384 0) 0 4 (Some (reply_bytes demo_reply)) demo_relay
    = Ret tt (with_tq q (with_ip_id 514 demo_relay)) /\
  pending q = stuff (h ++ client_message demo_reply) ++ [SLIP_END].
Proof.
  destruct (dhcp_reply_relayed [10; 0; 0; 1] 4 demo_reply [] (replicate 384 0) 0 demo_relay demo_reply_ok) as
    (h & q & H1 & _ & H2 & _ & H3); [done| |done| |vm_compute; done|apply demo_relay_queue|done|].
  - apply (bool_decide_unpack _). vm_compute. exact I.
  - apply (bool_decide_unpack _). vm_compute. exact I.
  - exists h, q. split; [exact H1|]. split; [exact H2|exact H3].
Defined.

Lemma dhcp_reply_overflows_witness :
  relay_dhcp_to_client [10; 0; 0; 1] (replicate 548 0) (replicate 384 0) 0 4
    (Some ((BOOTREPLY :: replicate 239 0) ++ (replicate 52 (DHCP_OPTION_DNS_SERVER, []) ≫= opt_bytes) ++ [DHCP_OPTION_END]))
    demo_relay = Err OutOfBounds.
Proof. apply dhcp_reply_overflows; done. Defined.
