(* ===== verification/Tunslip4.v ===== *)
(** * The IPv4 tunnel (dist/tools/tunslip/tunslip.c): receiving, and the loop

    The receiver of [Receive] with what tunslip.c makes of a frame: a packet
    for the tun device, a DHCP request, the announcement of an address, a text,
    or nothing. *)

From S2P Require Import Prelude Framing Slip Chksum Tunslip Receive Dhcp.

Definition DEBUG_LINE_MARKER : Z := 13.
Definition STDERR : Z := 2.
Definition ROUTE_DELETE : Z := 5.
Definition ROUTE_ADD : Z := 6.

(** [if (ipa.s_addr != 0)] *)
Definition addr_set (a : list Z) : bool := negb (forallb (fun x => x =? 0) a).

(** The tunnel, and the address that was announced last. *)
Record node : Type := Node { t4 : tun4; ipa : list Z }.

Definition with_t4 (t : tun4) (s : node) : node := Node t (ipa s).
Definition with_ipa (a : list Z) (s : node) : node := Node (t4 s) a.

Section tunslip.
(** The descriptors, [None] for a relay that is off; the addresses of the
    command line; what the local variables of the relay hold before. *)
Context (slipfd tunfd : Z) (dhsock : option Z) (giaddr netaddr circuit_addr : list Z).
Context (m0 stk out : buf) (op0 : Z).

Definition on_t4 {A} (m : M tun4 A) : M (rx node) A := on_rest (zoom t4 with_t4 m).
Definition on_queue {A} (m : M queue A) : M (rx node) A := on_t4 (on_tq m).
Definition on_host {A} (m : M host A) : M (rx node) A := on_queue (on_sys m).

Definition relay_dhcp_to_server (sock len : Z) : M (rx node) unit :=
  let! r := on_inbuf (request_of giaddr netaddr circuit_addr m0 len) in
  match r with
  | None => ret tt
  | Some bs =>
      let! r := on_host (write sock bs) in
      match r with
      | Took n => if (n =? length bs)%nat then ret tt else fail Exited
      | _ => fail Exited
      end
  end.

(** A UDP broadcast from the port of DHCP clients to the port of servers. *)
Definition is_dhcp_request : M buf bool :=
  let! p := byte_at IP_P in
  let! dst := bytes_from IP_DST 4 in
  let! sport := le16 UH_SPORT in
  let! dport := le16 UH_DPORT in
  ret ((p =? 17) && forallb (fun x => x =? 255) dst && (sport =? htons16 BOOTPC) && (dport =? htons16 BOOTPS)).

(** A new address of the node. *)
Definition new_address (a : list Z) : M (rx node) unit :=
  let! old := on_rest (gets ipa) in
  if decide (old = a) then ret tt
  else
    do! when (addr_set old) (on_host (emit (Ran ROUTE_DELETE old)));
    do! on_rest (modify (with_ipa a));
    when (addr_set a) (on_host (emit (Ran ROUTE_ADD a))).

Definition on_packet : M (rx node) unit :=
  let! s := gets id in
  let! ecode := on_inbuf (check_ip (inbufptr s)) in
  if (ecode <? 0) && (inbufptr s =? 8) && bool_decide (take 4 (inbuf s) = [61; 73; 80; 65]) then
    do! modify (with_inbufptr 0);
    new_address (take 4 (drop 4 (inbuf s)))
  else if ecode <? 0 then
    let! b0 := unwrap OutOfBounds (aget (inbuf s) 0) in
    do! (if b0 =? DEBUG_LINE_MARKER then on_host (emit (Wrote STDERR (tail (received s))))
         else when (is_sensible_string (received s)) (on_host (emit (Wrote STDERR (received s)))));
    modify (with_inbufptr 0)
  else
    do! match dhsock with
        | Some sock =>
            let! dhcp := on_inbuf is_dhcp_request in
            when dhcp (do! relay_dhcp_to_server sock (inbufptr s); modify (with_inbufptr 0))
        | None => ret tt
        end;
    let! s := gets id in
    let! r := on_host (write tunfd (received s)) in
    match r with
    | Took n => if Z.of_nat n =? inbufptr s then modify (with_inbufptr 0) else fail Exited
    | _ => fail Exited
    end.

Definition serial_to_tun : nat -> M (rx node) unit := Receive.serial_to_tun on_packet.

(** An iteration of [main]: whether the alarm went off, what arrived on the
    line when it is readable, whether it can be written, what the tun device
    has when it is readable, and the reply of the server. *)
Definition main_iter (got_sigalarm : bool) (arrived : option (list Z)) (writable : bool)
    (packet : option (option (list Z))) (reply : option (option (list Z))) : M (rx node) unit :=
  do! when got_sigalarm (on_queue (send_all slip_send slipfd [63; 73; 80; 65; SLIP_END]));
  let! empty := on_queue slip_empty in
  do! match arrived with
      | Some bs =>
          do! modify (fun s => with_input (input s ++ bs) s);
          let! s := gets id in
          serial_to_tun (Datatypes.S (length (input s)))
      | None => ret tt
      end;
  do! when (negb empty && writable) (on_queue (slip_flushbuf slipfd));
  let! e := on_queue slip_empty in
  do! match packet with
      | Some p => when (e && empty) (do! on_t4 (tun_to_serial slipfd p); on_queue (slip_flushbuf slipfd))
      | None => ret tt
      end;
  let! e := on_queue slip_empty in
  match dhsock, reply with
  | Some _, Some d =>
      when (e && empty)
        (do! on_t4 (relay_dhcp_to_client giaddr stk out op0 slipfd d); on_queue (slip_flushbuf slipfd))
  | _, _ => ret tt
  end.
End tunslip.
