(* ===== verification/Tunslip4Props.v ===== *)
(** * Properties of the receiver of the IPv4 tunnel *)

From S2P Require Import Prelude Framing Slip Chksum Tunslip Receive Dhcp DhcpProps Tunslip4.

(** ** A packet at the front of a buffer *)

Lemma aget_app_l (p r : buf) i : 0 <= i < Z.of_nat (length p) -> aget (p ++ r) i = aget p i.
Proof. intros Hi. unfold aget. rewrite (proj2 (Z.leb_le _ _)) by lia. apply lookup_app_l. lia. Qed.

Lemma slice_app_l (p r : buf) a k : 0 <= a -> 0 <= k -> a + k <= Z.of_nat (length p) -> slice (p ++ r) a k = slice p a k.
Proof.
  intros Ha Hk Hp. unfold slice. rewrite drop_app_le by lia. apply take_app_le. rewrite length_drop. lia.
Qed.

(** What is behind the packet does not matter. *)
Lemma verdict_app p r :
  28 <= Z.of_nat (length p) -> header_len p <= Z.of_nat (length p) ->
  header_len (p ++ r) = header_len p /\ verdict (p ++ r) (Z.of_nat (length p)) = verdict p (Z.of_nat (length p)).
Proof.
  intros H28 Hhl. pose proof (header_len_range p) as Hr.
  assert (header_len (p ++ r) = header_len p) as Eh by (unfold header_len; by rewrite aget_app_l by lia).
  split; [done|]. unfold verdict, header_len in *. change (aget p 0) with (aget p IP_VHL) in *.
  unfold IP_VHL, IP_LEN, IP_P, UH_SUM, IP_SRC in *. rewrite !aget_app_l by lia.
  set (hl := 4 * _) in *. rewrite !slice_app_l by lia. done.
Qed.

Lemma verdict_cases b n : verdict b n = 0 \/ verdict b n < 0.
Proof. unfold verdict. repeat (case_match; try (by left); try (right; lia)). Qed.

Definition dhcp_request (b : buf) : bool :=
  let at_ := fun i => default 0 (aget b i) in
  (at_ IP_P =? 17) && forallb (fun x => x =? 255) (slice b IP_DST 4)
    && (at_ UH_SPORT + 256 * at_ (UH_SPORT + 1) =? htons16 BOOTPC) && (at_ UH_DPORT + 256 * at_ (UH_DPORT + 1) =? htons16 BOOTPS).

Lemma is_dhcp_request_ok p r :
  28 <= Z.of_nat (length p) -> is_dhcp_request (p ++ r) = Ret (dhcp_request p) (p ++ r).
Proof.
  intros H. assert (28 <= Z.of_nat (length (p ++ r))) by (rewrite length_app; lia).
  unfold is_dhcp_request, dhcp_request, IP_P, IP_DST, UH_SPORT, UH_DPORT.
  rewrite (bind_ret _ _ _ _ _ (byte_at_default (p ++ r) 9 ltac:(lia))).
  rewrite (bind_ret _ _ _ _ _ (bytes_from_ok (p ++ r) 16 4 ltac:(lia) ltac:(lia) ltac:(lia))).
  rewrite (bind_ret _ _ _ _ _ (le16_ok (p ++ r) 20 ltac:(lia) ltac:(lia))), (bind_ret _ _ _ _ _ (le16_ok (p ++ r) 22 ltac:(lia) ltac:(lia))).
  by rewrite !aget_app_l, slice_app_l by lia.
Qed.

Section props.
Context (slipfd tunfd : Z) (dhsock : option Z) (giaddr netaddr circuit_addr : list Z) (m0 : buf).
Abbreviation handle := (on_packet tunfd dhsock giaddr netaddr circuit_addr m0).
Abbreviation more := (read_more handle).
Abbreviation serial := (serial_to_tun tunfd dhsock giaddr netaddr circuit_addr m0).

(** ** The input is kept *)

Definition keeps {A} (m : M (rx node) A) : Prop := forall s a s', m s = Ret a s' -> input s' = input s.

Lemma keeps_bind {A B} (m : M (rx node) A) (k : A -> M (rx node) B) : keeps m -> (forall a, keeps (k a)) -> keeps (bind m k).
Proof. intros Hm Hk s b s' (a & s1 & E1%Hm & E2%Hk)%bind_inv. congruence. Qed.

Lemma keeps_ret {A} (a : A) : keeps (ret a).
Proof. by intros s b s' [= _ <-]. Qed.

Lemma keeps_fail {A} f : keeps (@fail _ A f).
Proof. done. Qed.

Lemma keeps_gets {A} (f : rx node -> A) : keeps (gets f).
Proof. by intros s a s' [= _ <-]. Qed.

Lemma keeps_ptr v : keeps (modify (with_inbufptr v)).
Proof. by intros s a s' [= _ <-]. Qed.

Lemma keeps_rest {A} (m : M node A) : keeps (on_rest m).
Proof. intros s a s'. unfold on_rest, zoom. destruct (m _); [|done]. by intros [= _ <-]. Qed.

Lemma keeps_inbuf {A} (m : M buf A) : keeps (on_inbuf m).
Proof. intros s a s'. unfold on_inbuf, zoom. destruct (m _); [|done]. by intros [= _ <-]. Qed.

Lemma keeps_when b m : keeps m -> keeps (when b m).
Proof. destruct b; [done|]. intros _. apply keeps_ret. Qed.

Lemma keeps_unwrap {A} f (o : option A) : keeps (unwrap f o).
Proof. destruct o; [apply keeps_ret|apply keeps_fail]. Qed.

Create HintDb keeps.
Hint Resolve keeps_bind keeps_ret keeps_fail keeps_gets keeps_ptr keeps_rest keeps_inbuf keeps_when keeps_unwrap : keeps.

Lemma handle_keeps : keeps handle.
Proof.
  unfold on_packet, new_address, relay_dhcp_to_server, on_host, on_queue, on_t4.
  repeat first [apply keeps_bind; [|intros ?]|apply keeps_when|case_match|solve [auto with keeps]].
Qed.

(** The tool comes back from the line only when an escape character is the
    last that waits there; otherwise it has ended, by [exit] when the line had
    nothing more. *)
Theorem tunslip_idle_exits fuel s s' :
  serial fuel s = Ret tt s' -> last (input s) = Some SLIP_ESC /\ input s' = [SLIP_ESC].
Proof.
  intros H. split; [|by apply (rx_serial_returns handle) in H].
  apply (rx_serial_last handle) in H; [done|]. intros t t' E. by apply handle_keeps in E.
Qed.

(** ** Frames *)

Definition host_of (s : rx node) : host := sys (tq (t4 (rest s))).
Definition with_host (h : host) (s : rx node) : rx node :=
  with_rest (with_t4 (with_tq (with_sys h (tq (t4 (rest s)))) (t4 (rest s))) (rest s)) s.

Lemma on_host_ok {A} (m : M host A) s a h : m (host_of s) = Ret a h -> on_host m s = Ret a (with_host h s).
Proof. intros E. unfold on_host, on_queue, on_t4, on_tq, on_rest, on_sys, zoom. unfold host_of in E. by rewrite E. Qed.

Lemma on_inbuf_ok {A} (m : M buf A) (s : rx node) a b : m (inbuf s) = Ret a b -> on_inbuf m s = Ret a (with_inbuf b s).
Proof. intros E. unfold on_inbuf, zoom. by rewrite E. Qed.

Lemma on_inbuf_read {A} (m : M buf A) (s : rx node) a : m (inbuf s) = Ret a (inbuf s) -> on_inbuf m s = Ret a s.
Proof. intros E. rewrite (on_inbuf_ok m s a _ E). by destruct s. Qed.

(** A packet that was received is at the front of the buffer. *)
Lemma has_front p (s : rx node) : has p s -> exists r, inbuf s = p ++ r /\ Z.of_nat (length (p ++ r)) = INBUF.
Proof.
  intros (Hl & Hp & Hr). unfold received in Hr. rewrite Hp, Nat2Z.id in Hr.
  exists (drop (length p) (inbuf s)). rewrite <- Hr at 1 3. rewrite take_drop. split; [done|]. rewrite Hl. done.
Qed.

(** The verdict on what was received. *)
Lemma check_received p (s : rx node) r :
  inbuf s = p ++ r -> bytes_ok (p ++ r) -> 28 <= Z.of_nat (length p) < INBUF -> header_len p <= Z.of_nat (length p) ->
  on_inbuf (check_ip (Z.of_nat (length p))) s = Ret (verdict p (Z.of_nat (length p))) s.
Proof.
  intros Ei Hb Hn Hhl. destruct (verdict_app p r ltac:(lia) Hhl) as [Eh Ev]. unfold INBUF in *.
  apply on_inbuf_read. rewrite Ei, check_ip_decides, Ev by (rewrite ?Eh, ?length_app; done || lia). done.
Qed.

Lemma write_received p (s : rx node) es :
  has p s -> host_of s = Host [] es ->
  (let! s := gets id in
   let! r := on_host (write tunfd (received s)) in
   match r with
   | Took n => if Z.of_nat n =? inbufptr s then modify (with_inbufptr 0) else fail Exited
   | _ => fail Exited
   end) s = Ret tt (with_inbufptr 0 (with_host (Host [] (es ++ [Wrote tunfd p])) s)).
Proof.
  intros (_ & Hp & Hr) Hes. rewrite (bind_ret _ _ _ _ _ (gets_ok _ _)). unfold id. rewrite Hr.
  rewrite (bind_ret _ _ _ _ _ (on_host_ok _ s (Took (length p)) (Host [] (es ++ [Wrote tunfd p])) ltac:(by rewrite Hes, write_all))).
  by rewrite Hp, Z.eqb_refl.
Qed.

(** A frame on the line is handed to [handle] at the front of the buffer. *)
Lemma frame_received p s tl fuel :
  has [] s -> p <> [] -> Z.of_nat (length p) < INBUF -> bytes_ok p -> bytes_ok (inbuf s) -> input s = stuff p ++ SLIP_END :: tl ->
  exists s1 r, has p s1 /\ input s1 = tl /\ rest s1 = rest s /\ inbuf s1 = p ++ r /\ length (p ++ r) = 2000%nat /\
    bytes_ok (p ++ r) /\ more (S (length p + fuel)) s = match handle s1 with Ret _ s2 => more fuel s2 | Err f => Err f end.
Proof.
  intros Hs Hne Hn Hb Hbi Hi.
  destruct (read_more_frame handle p tl s fuel Hs Hne Hn Hi) as (s1 & H1 & Hi1 & Ht1 & Hd & E).
  destruct (has_front p s1 H1) as (r & Er & Hl). exists s1, r. split; [done|]. split; [done|]. split; [done|].
  split; [done|]. split; [unfold INBUF in Hl; lia|]. split; [|done]. apply Forall_app. split; [done|].
  assert (r = drop (length p) (inbuf s)) as ->; [|by apply Forall_drop].
  rewrite <- Hd, Er. by rewrite drop_app_length.
Qed.

(** C38 A packet of 28 to 1999 bytes that is on the line and passes [check_ip]
    ([check_ip_accepts] says which do), and is no DHCP request for the relay, is written to the tun device as it was before it was stuffed, and the
    receiver is ready for the next one. *)
Theorem tunslip_delivers p s tl es fuel :
  bytes_ok p -> bytes_ok (inbuf s) -> 28 <= Z.of_nat (length p) < INBUF -> header_len p <= Z.of_nat (length p) ->
  passes_ip p (Z.of_nat (length p)) -> dhsock = None \/ dhcp_request p = false ->
  has [] s -> host_of s = Host [] es -> input s = stuff p ++ SLIP_END :: tl ->
  exists s', more (S (length p + fuel)) s = more fuel s' /\ has [] s' /\ input s' = tl /\ bytes_ok (inbuf s') /\
    ip_id (t4 (rest s')) = ip_id (t4 (rest s)) /\ host_of s' = Host [] (es ++ [Wrote tunfd p]).
Proof.
  intros Hb Hbi Hn Hhl Hsound Hdh Hs Hes Hi.
  destruct (frame_received p s tl fuel Hs) as (s1 & r & H1 & Hi1 & Ht1 & Er & Hl & Hbr & ->); try done; [intros ->; cbn in Hn; lia|lia|].
  pose proof H1 as (_ & Hp1 & _). unfold on_packet at 1. rewrite (bind_ret _ _ _ _ _ (gets_ok _ _)). unfold id. rewrite Hp1.
  rewrite (bind_ret _ _ _ _ _ (check_received p s1 r Er Hbr Hn Hhl)), (proj2 (verdict_passes _ _) Hsound). cbn [Z.ltb Z.compare andb].
  assert (Z.of_nat (length (inbuf s1)) = INBUF) as Hl1 by (rewrite Er, Hl; done).
  rewrite (bind_ret _ _ _ tt s1).
  2: { destruct Hdh as [->|Hreq]; [done|]. destruct dhsock as [sock|]; [|done].
       rewrite (bind_ret _ _ _ (dhcp_request p) s1); [by rewrite Hreq|]. apply on_inbuf_read. rewrite Er.
       apply is_dhcp_request_ok. lia. }
  assert (host_of s1 = Host [] es) as Hes1 by (unfold host_of in *; by rewrite Ht1).
  pose proof (write_received p s1 es H1 Hes1) as Ew. unfold id in Ew. rewrite Ew. eexists. split; [done|]. split; [|split; [done|split; [|split; [|done]]]].
  - split; [apply H1|done].
  - cbn. by rewrite Er.
  - cbn. by rewrite Ht1.
Qed.

(** A packet that does not pass [check_ip] is not written to the tun device. *)
Theorem tunslip_drops p s tl es fuel :
  bytes_ok p -> bytes_ok (inbuf s) -> 28 <= Z.of_nat (length p) < INBUF -> header_len p <= Z.of_nat (length p) ->
  ~ passes_ip p (Z.of_nat (length p)) -> tunfd <> STDERR ->
  has [] s -> host_of s = Host [] es -> input s = stuff p ++ SLIP_END :: tl ->
  exists s' es', more (S (length p + fuel)) s = more fuel s' /\ has [] s' /\ input s' = tl /\ bytes_ok (inbuf s') /\
    host_of s' = Host [] (es ++ es') /\ written tunfd es' = [].
Proof.
  intros Hb Hbi Hn Hhl Hsound Htun Hs Hes Hi.
  destruct (frame_received p s tl fuel Hs) as (s1 & r & H1 & Hi1 & Ht1 & Er & Hl & Hbr & ->); try done; [intros ->; cbn in Hn; lia|lia|].
  pose proof H1 as (Hl1 & Hp1 & _). unfold on_packet at 1. rewrite (bind_ret _ _ _ _ _ (gets_ok _ _)). unfold id. rewrite Hp1.
  rewrite (bind_ret _ _ _ _ _ (check_received p s1 r Er Hbr Hn Hhl)).
  assert ((verdict p (Z.of_nat (length p)) <? 0) = true) as ->.
  { apply Z.ltb_lt. destruct (verdict_cases p (Z.of_nat (length p))) as [?%verdict_passes|]; done. }
  rewrite (proj2 (Z.eqb_neq (Z.of_nat (length p)) 8)) by lia. cbn [andb]. destruct (aget_some (inbuf s1) 0) as [b0 E0]; [rewrite Hl1; unfold INBUF; lia|].
  rewrite E0. cbn [unwrap]. rewrite (bind_ret (ret _) _ _ _ _ eq_refl).
  assert (host_of s1 = Host [] es) as Hes1 by (unfold host_of in *; by rewrite Ht1).
  assert (exists es', (if b0 =? DEBUG_LINE_MARKER then on_host (emit (Wrote STDERR (tail (received s1))))
         else when (is_sensible_string (received s1)) (on_host (emit (Wrote STDERR (received s1))))) s1
    = Ret tt (with_host (Host [] (es ++ es')) s1) /\ written tunfd es' = []) as (es' & E & Hw).
  { assert (forall bs, on_host (emit (Wrote STDERR bs)) s1 = Ret tt (with_host (Host [] (es ++ [Wrote STDERR bs])) s1)) as He.
    { intros bs. apply on_host_ok. by rewrite Hes1. }
    destruct (b0 =? DEBUG_LINE_MARKER).
    { eexists. split; [apply He|]. by apply written_other. }
    destruct (is_sensible_string _); cbn [when]; [eexists; split; [apply He|]; by apply written_other|].
    exists []. split; [|done]. rewrite app_nil_r, <- Hes1. unfold ret. by destruct s1 as [? ? ? [[? ? []] ?]]. }
  rewrite (bind_ret _ _ _ _ _ E), modify_ok. eexists _, es'. split; [done|]. split; [|split; [done|split; [|done]]].
  - split; [apply H1|done].
  - cbn. by rewrite Er.
Qed.

(** A request of a DHCP client that is on the line goes to the server with the
    options of the relay, and not to the tun device; [write] is still called
    for the tun device, for no bytes. *)
Theorem tunslip_relays sock hdr ht hl hops xs fl addrs gi ch opts s tl es fuel :
  length giaddr = 4%nat -> length netaddr = 4%nat -> length circuit_addr = 4%nat -> length m0 = Z.to_nat DHCP_MSG ->
  length hdr = 28%nat -> length xs = 6%nat -> length fl = 2%nat -> length addrs = 12%nat ->
  length gi = 4%nat -> length ch = 16%nat -> (length opts <= 285)%nat ->
  let p := hdr ++ [BOOTREQUEST; ht; hl; hops] ++ xs ++ fl ++ addrs ++ gi ++ ch ++ opts ++ [DHCP_OPTION_END] in
  bytes_ok p -> bytes_ok (inbuf s) -> header_len p <= Z.of_nat (length p) ->
  passes_ip p (Z.of_nat (length p)) -> dhsock = Some sock -> dhcp_request p = true ->
  has [] s -> host_of s = Host [] es -> input s = stuff p ++ SLIP_END :: tl ->
  exists s', more (S (length p + fuel)) s = more fuel s' /\ has [] s' /\ input s' = tl /\
    host_of s' = Host [] (es ++ [Wrote sock ([BOOTREQUEST; ht; hl; u8 (hops + 1)] ++ xs ++ [128; 0] ++ addrs ++ giaddr ++ ch
        ++ replicate 192 0 ++ opts ++ agent_options giaddr netaddr circuit_addr ++ [DHCP_OPTION_END]); Wrote tunfd []]).
Proof.
  intros Hgi Hnet Hci Hm Hh Hx Hf Ha Hg Hc Ho p Hb Hbi Hhl Hsound Edh Hreq Hs Hes Hi. set (msg := _ ++ xs ++ [128; 0] ++ _).
  assert (length p = 73 + length opts)%nat as Hpl by (subst p; rewrite !length_app; cbn [length]; lia).
  destruct (frame_received p s tl fuel Hs) as (s1 & r & H1 & Hi1 & Ht1 & Er & Hl & Hbr & ->); try done;
    [intros E; rewrite E in Hpl; cbn in Hpl; lia|unfold INBUF; lia|].
  pose proof H1 as (Hl1 & Hp1 & _). unfold on_packet at 1. rewrite (bind_ret _ _ _ _ _ (gets_ok _ _)). unfold id. rewrite Hp1.
  rewrite (bind_ret _ _ _ _ _ (check_received p s1 r Er Hbr ltac:(unfold INBUF; lia) Hhl)), (proj2 (verdict_passes _ _) Hsound).
  cbn [Z.ltb Z.compare andb]. rewrite Edh.
  assert (on_inbuf is_dhcp_request s1 = Ret true s1) as Ereq.
  { apply on_inbuf_read. rewrite Er, is_dhcp_request_ok by lia. by rewrite Hreq. }
  set (b' := hdr ++ [BOOTREQUEST; ht; hl; hops] ++ xs ++ [128; 0] ++ addrs ++ gi ++ ch ++ opts ++ [DHCP_OPTION_END] ++ r).
  assert (request_of giaddr netaddr circuit_addr m0 (Z.of_nat (length p)) (inbuf s1) = Ret (Some msg) b') as Erel.
  { rewrite Er, Hpl, Nat2Z.inj_add. subst p. rewrite <- !app_assoc. by apply dhcp_request_relayed. }
  assert (length b' = length (p ++ r)) as Hbl by (subst b' p; rewrite !length_app; cbn [length]; lia).
  assert (host_of s1 = Host [] es) as Hes1 by (unfold host_of in *; by rewrite Ht1).
  set (s2 := with_host (Host [] (es ++ [Wrote sock msg])) (with_inbuf b' s1)).
  assert (relay_dhcp_to_server giaddr netaddr circuit_addr m0 sock (Z.of_nat (length p)) s1 = Ret tt s2) as Esend.
  { unfold relay_dhcp_to_server. rewrite (bind_ret _ _ _ _ _ (on_inbuf_ok _ s1 _ _ Erel)).
    rewrite (bind_ret _ _ _ _ _ (on_host_ok _ (with_inbuf b' s1) (Took (length msg)) (Host [] (es ++ [Wrote sock msg]))
      ltac:(change (host_of (with_inbuf b' s1)) with (host_of s1); by rewrite Hes1, write_all))).
    by rewrite Nat.eqb_refl. }
  clearbody msg b'. rewrite (bind_ret _ _ _ tt (with_inbufptr 0 s2)).
  2: { rewrite (bind_ret _ _ _ _ _ Ereq). cbn [when]. by rewrite (bind_ret _ _ _ _ _ Esend). }
  assert (has [] (with_inbufptr 0 s2)) as H2.
  { split; [|done]. change (inbuf (with_inbufptr 0 s2)) with b'. rewrite Hbl, Hl. done. }
  pose proof (write_received [] (with_inbufptr 0 s2) (es ++ [Wrote sock msg]) H2 eq_refl) as Ew. unfold id in Ew. rewrite Ew.
  eexists. split; [done|]. split; [|split; [done|]].
  - split; [apply H2|done].
  - cbn. by rewrite <- app_assoc.
Qed.

(** The announcement of an address: the route of the old one is deleted and
    one for the new is added; nothing is done when it is the old one. *)
Theorem address_announced a s tl es fuel :
  length a = 4%nat -> bytes_ok a -> bytes_ok (inbuf s) ->
  has [] s -> host_of s = Host [] es -> input s = stuff ([61; 73; 80; 65] ++ a) ++ SLIP_END :: tl ->
  let old := ipa (rest s) in
  exists s', more (S (8 + fuel)) s = more fuel s' /\ has [] s' /\ input s' = tl /\ ipa (rest s') = a /\
    host_of s' = Host [] (es ++ if decide (old = a) then []
                                else (if addr_set old then [Ran ROUTE_DELETE old] else [])
                                     ++ (if addr_set a then [Ran ROUTE_ADD a] else [])).
Proof.
  intros Ha Hba Hbi Hs Hes Hi old. set (p := [61; 73; 80; 65] ++ a).
  assert (length p = 8%nat) as Hpl by (subst p; rewrite length_app, Ha; done).
  assert (bytes_ok p) as Hb.
  { apply Forall_app. split; [|done]. unfold bytes_ok. rewrite !Forall_cons. repeat split; done || lia. }
  destruct (frame_received p s tl fuel Hs) as (s1 & r & H1 & Hi1 & Ht1 & Er & Hl & Hbr & E); try done; [unfold INBUF; lia|].
  rewrite Hpl in E. rewrite E. clear E.
  pose proof H1 as (Hl1 & Hp1 & _). unfold on_packet at 1. rewrite (bind_ret _ _ _ _ _ (gets_ok _ _)). unfold id. rewrite Hp1, Hpl.
  rewrite (bind_ret _ _ _ (-1) s1).
  2: { apply on_inbuf_read. rewrite Er. unfold check_ip.
       by rewrite (bind_ret _ _ _ _ _ (byte_at_ok (p ++ r) IP_VHL 61 eq_refl)). }
  assert (take 4 (inbuf s1) = [61; 73; 80; 65] /\ take 4 (drop 4 (inbuf s1)) = a) as [-> ->].
  { rewrite Er. subst p. split; [done|]. rewrite <- app_assoc, drop_app_length' by done. by rewrite take_app_length'. }
  rewrite bool_decide_eq_true_2 by done. change ((-1 <? 0) && (Z.of_nat 8 =? 8) && true) with true. cbn iota.
  rewrite (bind_ret _ _ _ _ _ (modify_ok _ _)). unfold new_address.
  rewrite (bind_ret _ _ _ (ipa (rest s1)) (with_inbufptr 0 s1)) by (by destruct s1). rewrite Ht1. fold old.
  assert (host_of s1 = Host [] es) as Hes1 by (unfold host_of in *; by rewrite Ht1).
  assert (forall s0 : rx node, inbufptr s0 = 0 -> length (inbuf s0) = Z.to_nat INBUF -> has [] s0) as Hhas by (intros s0 H2 H3; split; [done|split; [done|unfold received; by rewrite H2]]).
  case_decide as Hd.
  - eexists. split; [done|]. split; [by apply Hhas|]. split; [done|]. rewrite app_nil_r. split; [cbn; by rewrite Ht1|done].
  - set (e1 := if addr_set old then [Ran ROUTE_DELETE old] else []). set (e2 := if addr_set a then _ else _).
    assert (forall b c (s0 : rx node) es, host_of s0 = Host [] es ->
      exists s', when b (on_host (emit c)) s0 = Ret tt s' /\ host_of s' = Host [] (es ++ if b then [c] else []) /\
        inbufptr s' = inbufptr s0 /\ inbuf s' = inbuf s0 /\ input s' = input s0 /\ ipa (rest s') = ipa (rest s0)) as Hemit.
    { intros b c s0 es0 H. destruct b; cbn [when].
      - eexists. split; [apply on_host_ok; by rewrite H|]. done.
      - exists s0. by rewrite app_nil_r. }
    destruct (Hemit (addr_set old) (Ran ROUTE_DELETE old) (with_inbufptr 0 s1) es Hes1) as (s2 & E2 & Hh2 & Hp2 & Hb2 & Hi2 & _).
    rewrite (bind_ret _ _ _ _ _ E2).
    rewrite (bind_ret _ _ _ tt (with_rest (with_ipa a (rest s2)) s2)) by done.
    destruct (Hemit (addr_set a) (Ran ROUTE_ADD a) (with_rest (with_ipa a (rest s2)) s2) (es ++ e1) Hh2) as (s3 & E3 & Hh3 & Hp3 & Hb3 & Hi3 & Ha3).
    rewrite E3. exists s3. split; [done|]. split; [apply Hhas; [exact (eq_trans Hp3 Hp2)|]|].
    { rewrite Hb3. change (inbuf (with_rest _ s2)) with (inbuf s2). rewrite Hb2. done. }
    split; [rewrite Hi3; change (input (with_rest _ s2)) with (input s2); by rewrite Hi2|]. split; [done|].
    by rewrite Hh3, <- app_assoc.
Qed.
End props.

(** ** Witnesses *)

Definition demo_node (bs : list Z) : rx node :=
  Rx (replicate (Z.to_nat INBUF) 0) 0 bs
    (Node (Tun4 [] 513 (Queue (replicate (Z.to_nat SLIP_BUF) 0) 0 0 (Host [] []))) [0; 0; 0; 0]).

Lemma demo_node_bytes bs : bytes_ok (inbuf (demo_node bs)).
Proof. apply (bool_decide_unpack _). vm_compute. exact I. Qed.

Definition demo_ip : list Z := take 30 demo_packet.

Lemma demo_ip_sound : passes_ip demo_ip 30.
Proof. apply verdict_passes. by vm_compute. Qed.

Lemma demo_ip_bytes : bytes_ok demo_ip.
Proof. apply (bool_decide_unpack _). vm_compute. exact I. Qed.

Lemma tunslip_delivers_witness : exists s',
  read_more (on_packet 5 None [] [] [] []) 33 (demo_node (stuff demo_ip ++ [SLIP_END; 9]))
    = read_more (on_packet 5 None [] [] [] []) 2 s' /\
  has [] s' /\ input s' = [9] /\ host_of s' = Host [] [Wrote 5 demo_ip].
Proof.
  destruct (tunslip_delivers 5 None [] [] [] [] demo_ip (demo_node (stuff demo_ip ++ [SLIP_END; 9])) [9] [] 2)
    as (s' & H1 & H2 & H3 & _ & _ & H4); [apply demo_ip_bytes|apply demo_node_bytes|by vm_compute|by vm_compute|apply demo_ip_sound
      |by left|by vm_compute|done|done|].
  exists s'. split; [exact H1|]. split; [exact H2|]. split; [exact H3|exact H4].
Defined.

Lemma tunslip_drops_witness : exists s' es',
  read_more (on_packet 5 None [] [] [] []) 33 (demo_node (stuff (69 :: replicate 29 0) ++ [SLIP_END; 9]))
    = read_more (on_packet 5 None [] [] [] []) 2 s' /\
  host_of s' = Host [] ([] ++ es') /\ written 5 es' = [].
Proof.
  destruct (tunslip_drops 5 None [] [] [] [] (69 :: replicate 29 0) (demo_node (stuff (69 :: replicate 29 0) ++ [SLIP_END; 9])) [9] [] 2)
    as (s' & es' & H1 & _ & _ & _ & H2 & H3).
  - apply (bool_decide_unpack _). vm_compute. exact I.
  - apply demo_node_bytes.
  - by vm_compute.
  - by vm_compute.
  - intros H%verdict_passes. by vm_compute in H.
  - done.
  - by vm_compute.
  - done.
  - done.
  - exists s', es'. split; [exact H1|]. split; [exact H2|exact H3].
Defined.

Lemma tunslip_idle_exits_witness :
  last (input (demo_node [1; SLIP_ESC])) = Some SLIP_ESC.
Proof.
  assert (exists s', serial_to_tun 5 None [] [] [] [] 3 (demo_node [1; SLIP_ESC]) = Ret tt s') as [s' E]
    by (eexists; vm_compute; reflexivity).
  exact (proj1 (tunslip_idle_exits 5 None [] [] [] [] 3 (demo_node [1; SLIP_ESC]) s' E)).
Defined.

Lemma address_announced_witness : exists s',
  read_more (on_packet 5 None [] [] [] []) 11 (demo_node (stuff [61; 73; 80; 65; 10; 0; 0; 9] ++ [SLIP_END]))
    = read_more (on_packet 5 None [] [] [] []) 2 s' /\
  ipa (rest s') = [10; 0; 0; 9] /\ host_of s' = Host [] [Ran ROUTE_ADD [10; 0; 0; 9]].
Proof.
  destruct (address_announced 5 None [] [] [] [] [10; 0; 0; 9] (demo_node (stuff [61; 73; 80; 65; 10; 0; 0; 9] ++ [SLIP_END])) [] [] 2)
    as (s' & H1 & _ & _ & H2 & H3).
  - done.
  - apply (bool_decide_unpack _). vm_compute. exact I.
  - apply demo_node_bytes.
  - by vm_compute.
  - done.
  - done.
  - exists s'. split; [exact H1|]. split; [exact H2|exact H3].
Defined.

(** A request without a UDP checksum. *)
Definition demo_udp : list Z :=
  [69; 0; 0; 77; 0; 0; 0; 0; 64; 17; 122; 161; 0; 0; 0; 0; 255; 255; 255; 255; 0; 68; 0; 67; 0; 57; 0; 0].
Definition demo_request : list Z :=
  demo_udp ++ [BOOTREQUEST; 1; 6; 0] ++ replicate 6 1 ++ [0; 0] ++ replicate 12 2 ++ replicate 4 3 ++ replicate 16 4
    ++ [99; 130; 83; 99] ++ [DHCP_OPTION_END].

Lemma tunslip_relays_witness : exists s',
  read_more (on_packet 5 (Some 6) [10; 0; 0; 1] [10; 0; 0; 0] [10; 0; 0; 1] (replicate 548 9)) 80
      (demo_node (stuff demo_request ++ [SLIP_END]))
    = read_more (on_packet 5 (Some 6) [10; 0; 0; 1] [10; 0; 0; 0] [10; 0; 0; 1] (replicate 548 9)) 2 s' /\
  exists msg, host_of s' = Host [] [Wrote 6 msg; Wrote 5 []].
Proof.
  destruct (tunslip_relays 5 (Some 6) [10; 0; 0; 1] [10; 0; 0; 0] [10; 0; 0; 1] (replicate 548 9) 6
    demo_udp 1 6 0 (replicate 6 1) [0; 0] (replicate 12 2) (replicate 4 3) (replicate 16 4) [99; 130; 83; 99]
    (demo_node (stuff demo_request ++ [SLIP_END])) [] [] 2 eq_refl eq_refl eq_refl eq_refl eq_refl eq_refl eq_refl eq_refl eq_refl
    eq_refl) as (s' & H1 & _ & _ & H2).
  - vm_compute. lia.
  - apply (bool_decide_unpack _). vm_compute. exact I.
  - apply demo_node_bytes.
  - by vm_compute.
  - apply verdict_passes. by vm_compute.
  - reflexivity.
  - by vm_compute.
  - by vm_compute.
  - reflexivity.
  - reflexivity.
  - exists s'. split; [exact H1|]. eexists. exact H2.
Defined.
