(* ===== verification/Malloc.v ===== *)
(** * The heap (cpu/msp430-sancus/malloc.c)

    A free list kept in the free memory itself.  Memory is a map from
    addresses to bytes; a word is read and written at even addresses only,
    as the processor does. *)

From S2P Require Import Prelude.

(** ** Memory *)

Abbreviation bytes := (gmap Z Z).

Definition word (m : bytes) (a : Z) : option Z :=
  match m !! a, m !! (a + 1) with
  | Some lo, Some hi => Some (lo + 256 * hi)
  | _, _ => None
  end.
Definition put_word (a v : Z) (m : bytes) : bytes :=
  <[a := u16 v mod 256]> (<[a + 1 := u16 v / 256]> m).

(** The variables of the allocator, over the memory.  [__malloc_heap_start]
    and [__malloc_heap_end] are set by the linker and the start-up code, the
    stack pointer is a register; they do not change here. *)
Record heap_t : Type := Heap { memory : bytes; __brkval : Z; __flp : Z }.
Record region : Type := Region {
  __malloc_heap_start : Z; __malloc_heap_end : Z; stack_pointer : Z
}.

Definition __malloc_margin : Z := 32.
Definition sizeof_size_t : Z := 2.
Definition sizeof_freelist : Z := 4.

Definition with_memory (m : bytes) (h : heap_t) : heap_t := Heap m (__brkval h) (__flp h).
Definition with_brkval (v : Z) (h : heap_t) : heap_t := Heap (memory h) v (__flp h).
Definition with_flp (v : Z) (h : heap_t) : heap_t := Heap (memory h) (__brkval h) v.

Definition load_word (a : Z) : M heap_t Z :=
  fun h => if Z.even a then
             match word (memory h) a with Some v => Ret v h | None => Err BadAddr end
           else Err BadAddr.
Definition store_word (a v : Z) : M heap_t unit :=
  fun h => if Z.even a then
             match word (memory h) a with
             | Some _ => Ret tt (with_memory (put_word a v (memory h)) h)
             | None => Err BadAddr
             end
           else Err BadAddr.

(** The fields of [struct __freelist] at the address [fp], and the address
    of the second one, which is what [malloc] returns. *)
Definition sz (fp : Z) : M heap_t Z := if fp =? 0 then fail NullDeref else load_word fp.
Definition nx_addr (fp : Z) : Z := u16 (fp + sizeof_size_t).
Definition nx (fp : Z) : M heap_t Z := if fp =? 0 then fail NullDeref else load_word (nx_addr fp).
Definition set_sz (fp v : Z) : M heap_t unit := if fp =? 0 then fail NullDeref else store_word fp v.
Definition set_nx (fp v : Z) : M heap_t unit := if fp =? 0 then fail NullDeref else store_word (nx_addr fp) v.

(** [if (prev) prev->nx = v; else __flp = v;] *)
Definition link (prev v : Z) : M heap_t unit :=
  if prev =? 0 then modify (with_flp v) else set_nx prev v.

(** ** malloc *)

(** The loop over the free list, on [(s, fp1, fp2, sfp1, sfp2)]. *)
Definition find_step (len : Z) (st : Z * Z * Z * Z * Z)
    : M heap_t (Z * Z * Z * Z * Z + (Z + Z * Z * Z)) :=
  let '(s, fp1, fp2, sfp1, sfp2) := st in
  if fp1 =? 0 then ret (inr (inr (s, sfp1, sfp2)))
  else
    let! z := sz fp1 in
    let! n := nx fp1 in
    if z <? len then ret (inl (s, n, fp1, sfp1, sfp2))
    else if z =? len then
      do! link fp2 n;
      ret (inr (inl (nx_addr fp1)))
    else if (s =? 0) || (z <? s) then ret (inl (z, n, fp1, fp1, fp2))
    else ret (inl (s, n, fp1, sfp1, sfp2)).

(** Steps 1 and 2 of the search: [inl p] when a chunk of exactly [len] bytes
    was taken, [inr (s, sfp1, sfp2)] when the whole list was seen, with the
    smallest chunk that is larger, its address and its predecessor, or [s] 0. *)
Definition find_chunk (fuel : nat) (len : Z) : M heap_t (Z + Z * Z * Z) :=
  let! flp := gets __flp in
  loop fuel (find_step len) (0, flp, 0, 0, 0).

(** Taking the chunk found, whole or its upper part. *)
Definition take_chunk (len s sfp1 sfp2 : Z) : M heap_t Z :=
  if u16 (s - len) <? sizeof_freelist then
    let! n := nx sfp1 in
    do! link sfp2 n;
    ret (nx_addr sfp1)
  else
    let s := u16 (s - len) in
    let cp := u16 (sfp1 + s) in
    do! set_sz cp len;
    do! set_sz sfp1 (u16 (s - sizeof_size_t));
    ret (nx_addr cp).

(** Step 3: new memory at [__brkval]. *)
Definition heap_limit (r : region) : Z :=
  if __malloc_heap_end r =? 0 then u16 (stack_pointer r - __malloc_margin) else __malloc_heap_end r.

Definition extend (r : region) (len : Z) : M heap_t Z :=
  do! (let! b := gets __brkval in
       when (b =? 0) (modify (with_brkval (__malloc_heap_start r))));
  let cp := heap_limit r in
  let! b := gets __brkval in
  if cp <=? b then ret 0
  else
    let avail := u16 (cp - b) in
    if (len <=? avail) && (u16 (len + sizeof_size_t) <=? avail) then
      do! modify (with_brkval (u16 (b + u16 (len + sizeof_size_t))));
      do! set_sz b len;
      ret (nx_addr b)
    else ret 0.

Definition malloc (fuel : nat) (r : region) (len : Z) : M heap_t Z :=
  let len := if len <? sizeof_freelist - sizeof_size_t then sizeof_freelist - sizeof_size_t else len in
  let! found := find_chunk fuel len in
  match found with
  | inl p => ret p
  | inr (s, sfp1, sfp2) => if s =? 0 then extend r len else take_chunk len s sfp1 sfp2
  end.

(** ** free *)

(** The search for the place of the new chunk, on [(fp1, fp2)]. *)
Definition free_step (fpnew : Z) (st : Z * Z) : M heap_t (Z * Z + (unit + Z)) :=
  let '(fp1, fp2) := st in
  if fp1 =? 0 then ret (inr (inr fp2))
  else if fp1 <? fpnew then let! n := nx fp1 in ret (inl (n, fp1))
  else
    do! set_nx fpnew fp1;
    let! z := sz fpnew in
    do! when (u16 (nx_addr fpnew + z) =? fp1)
          (let! z1 := sz fp1 in
           do! set_sz fpnew (u16 (z + u16 (z1 + sizeof_size_t)));
           let! n := nx fp1 in
           set_nx fpnew n);
    if fp2 =? 0 then
      do! modify (with_flp fpnew);
      ret (inr (inl tt))
    else ret (inr (inr fp2)).

(** [inl tt] when the new chunk became the head of the list, else [inr fp2]
    with the free chunk below it. *)
Definition free_insert (fuel : nat) (fpnew : Z) : M heap_t (unit + Z) :=
  let! flp := gets __flp in
  loop fuel (free_step fpnew) (flp, 0).

(** The last loop: giving the topmost chunk back. *)
Definition top_step (st : Z * Z) : M heap_t (Z * Z + Z * Z) :=
  let '(fp1, fp2) := st in
  let! n := nx fp1 in
  if n =? 0 then ret (inr (fp1, fp2)) else ret (inl (n, fp1)).

Definition lower_brkval (fuel : nat) : M heap_t unit :=
  let! flp := gets __flp in
  let! '(fp1, fp2) := loop fuel top_step (flp, 0) in
  let! z := sz fp1 in
  let! b := gets __brkval in
  when (u16 (nx_addr fp1 + z) =? b)
    (do! link fp2 0;
     modify (with_brkval (u16 (nx_addr fp1 - sizeof_size_t)))).

Definition free (fuel : nat) (p : Z) : M heap_t unit :=
  if p =? 0 then ret tt
  else
    let fpnew := u16 (p - sizeof_size_t) in
    do! set_nx fpnew 0;
    let! flp := gets __flp in
    if flp =? 0 then
      let! z := sz fpnew in
      let! b := gets __brkval in
      if u16 (p + z) =? b then modify (with_brkval fpnew) else modify (with_flp fpnew)
    else
      let! r := free_insert fuel fpnew in
      match r with
      | inl _ => ret tt
      | inr fp2 =>
          do! set_nx fp2 fpnew;
          let! z2 := sz fp2 in
          do! when (u16 (nx_addr fp2 + z2) =? fpnew)
                (let! z := sz fpnew in
                 do! set_sz fp2 (u16 (z2 + u16 (z + sizeof_size_t)));
                 let! n := nx fpnew in
                 set_nx fp2 n);
          lower_brkval fuel
      end.

(** ** realloc and calloc *)

Definition load_byte (a : Z) : M heap_t Z :=
  fun h => match memory h !! a with Some v => Ret v h | None => Err BadAddr end.
Definition store_byte (a v : Z) : M heap_t unit :=
  fun h => match memory h !! a with
           | Some _ => Ret tt (with_memory (<[a := v mod 256]> (memory h)) h)
           | None => Err BadAddr
           end.

(** [memcpy] and [memset] of the C library, byte by byte. *)
Fixpoint memcpy (n : nat) (dst src : Z) : M heap_t unit :=
  match n with
  | O => ret tt
  | Datatypes.S n =>
      let! v := load_byte src in
      do! store_byte dst v;
      memcpy n (u16 (dst + 1)) (u16 (src + 1))
  end.
Fixpoint memset (n : nat) (dst v : Z) : M heap_t unit :=
  match n with
  | O => ret tt
  | Datatypes.S n => do! store_byte dst v; memset n (u16 (dst + 1)) v
  end.

(** The walk of a growing [realloc], on [(fp3, ofp3, s)]: the chunk above is
    used when it is free and large enough, else [s] is the size of the
    largest free chunk. *)
Definition grow_step (ptr len fp1 z : Z) (st : Z * Z * Z) : M heap_t (Z * Z * Z + (unit + Z)) :=
  let '(fp3, ofp3, s) := st in
  let incr := u16 (len - z) in
  let fp2 := u16 (ptr + z) in
  if fp3 =? 0 then ret (inr (inr s))
  else
    let! z3 := sz fp3 in
    let! n := nx fp3 in
    if (fp3 =? fp2) && (incr <=? u16 (z3 + sizeof_size_t)) then
      do! (if sizeof_freelist <? u16 (u16 (z3 + sizeof_size_t) - incr) then
             let cp := u16 (ptr + len) in
             do! set_nx cp n;
             do! set_sz cp (u16 (z3 - incr));
             do! set_sz fp1 len;
             link ofp3 cp
           else
             do! set_sz fp1 (u16 (z + u16 (z3 + sizeof_size_t)));
             link ofp3 n);
      ret (inr (inl tt))
    else ret (inl (n, fp3, if s <? z3 then z3 else s)).

Definition grow_in_place (fuel : nat) (ptr len fp1 z : Z) : M heap_t (unit + Z) :=
  let! flp := gets __flp in
  loop fuel (grow_step ptr len fp1 z) (flp, 0, 0).

Definition realloc (fuel : nat) (r : region) (ptr len : Z) : M heap_t Z :=
  if ptr =? 0 then malloc fuel r len
  else
    let fp1 := u16 (ptr - sizeof_size_t) in
    let cp := u16 (ptr + len) in
    if cp <? fp1 then ret 0
    else
      let! z := sz fp1 in
      if len <=? z then
        if (z <=? sizeof_freelist) || (u16 (z - sizeof_freelist) <? len) then ret ptr
        else
          do! set_sz cp (u16 (u16 (z - len) - sizeof_size_t));
          do! set_sz fp1 len;
          do! free fuel (nx_addr cp);
          ret ptr
      else
        let! g := grow_in_place fuel ptr len fp1 z in
        match g with
        | inl _ => ret ptr
        | inr s =>
            let! b := gets __brkval in
            if (b =? u16 (ptr + z)) && (s <? len) then
              if cp <? heap_limit r then
                do! modify (with_brkval cp);
                do! set_sz fp1 len;
                ret ptr
              else ret 0
            else
              let! memp := malloc fuel r len in
              if memp =? 0 then ret 0
              else
                let! z := sz fp1 in
                do! memcpy (Z.to_nat z) memp ptr;
                do! free fuel ptr;
                ret memp
        end.

Definition calloc (fuel : nat) (r : region) (nele size : Z) : M heap_t Z :=
  let! p := malloc fuel r (u16 (nele * size)) in
  if p =? 0 then ret 0
  else do! memset (Z.to_nat (u16 (nele * size))) p 0; ret p.

(** ** sbrk (msp430-main.c) moves the same break *)

Definition sbrk (r : region) (incr : Z) : M heap_t Z :=
  let heap_top :=
    if __malloc_heap_end r =? 0 then u16 (stack_pointer r - __malloc_margin) else __malloc_heap_end r in
  let! old_break := gets __brkval in
  if s16 (heap_top - old_break) <? incr then ret 0xFFFF
  else do! modify (with_brkval (u16 (old_break + incr))); ret old_break.
