(* ===== verification/MallocProps.v ===== *)
(** * Properties of the heap (Malloc.v)

    The memory below the break is tiled by chunks; the free list runs
    through the free ones in the order of their addresses, no two of them
    are neighbours and the topmost chunk is in use.  [malloc] and [free]
    keep this and do to the sequence of chunks what they promise. *)

From stdpp Require Import sorting.
From S2P Require Import Prelude Malloc.

(** ** Words *)

Definition evenz (a : Z) : Prop := a mod 2 = 0.

Ltac zlia := unfold evenz in *; Z.div_mod_to_equations; lia.

Lemma even_iff a : Z.even a = true <-> evenz a.
Proof.
  unfold evenz. rewrite Z.even_spec. split.
  - intros [q ->]. zlia.
  - intros H. exists (a / 2). zlia.
Qed.

Lemma even_2 a : evenz a -> evenz (a + 2).
Proof. zlia. Qed.

Lemma word_put_eq a v m : word (put_word a v m) a = Some (u16 v).
Proof.
  unfold word, put_word. rewrite lookup_insert_eq, lookup_insert_ne by lia.
  rewrite lookup_insert_eq. f_equal. zlia.
Qed.

Lemma word_put_ne a b v m : evenz a -> evenz b -> a <> b -> word (put_word a v m) b = word m b.
Proof.
  intros Ha Hb Hne. unfold word, put_word. rewrite !lookup_insert_ne by zlia. done.
Qed.

Lemma put_word_byte a v m x : x < a \/ a + 2 <= x -> put_word a v m !! x = m !! x.
Proof. intros Hx. unfold put_word. by rewrite !lookup_insert_ne by lia. Qed.

(** The bytes between two addresses exist. *)
Definition alive (m : bytes) (b e : Z) : Prop := forall a, b <= a < e -> is_Some (m !! a).

Lemma alive_put a v m b e : alive m b e -> alive (put_word a v m) b e.
Proof. intros H x Hx. unfold put_word. apply lookup_insert_is_Some'. right. apply lookup_insert_is_Some'. right. by apply H. Qed.

Lemma alive_word m b e a : alive m b e -> b <= a -> a + 2 <= e -> is_Some (word m a).
Proof.
  intros H H1 H2. unfold word. destruct (H a ltac:(lia)) as [x ->], (H (a + 1) ltac:(lia)) as [y ->]. eauto.
Qed.

(** ** Chunks *)

Record chunk : Type := Chunk { addr : Z; size : Z; is_free : bool }.

Definition ending (c : chunk) : Z := addr c + 2 + size c.

Fixpoint tiles (b : Z) (cs : list chunk) (e : Z) : Prop :=
  match cs with
  | [] => b = e
  | c :: r => addr c = b /\ evenz (size c) /\ 2 <= size c /\ tiles (ending c) r e
  end.

Definition below (c d : chunk) : Prop := ending c <= addr d.
Definition ok (b e : Z) (c : chunk) : Prop :=
  b <= addr c /\ evenz (addr c) /\ evenz (size c) /\ 2 <= size c /\ ending c <= e.

Lemma tiles_app b cs1 cs2 e : tiles b (cs1 ++ cs2) e <-> exists x, tiles b cs1 x /\ tiles x cs2 e.
Proof.
  revert b. induction cs1 as [|c r IH]; intros b; cbn.
  - split; [eauto|]. by intros (? & -> & ?).
  - rewrite IH. naive_solver.
Qed.

Lemma tiles_fun b cs e e' : tiles b cs e -> tiles b cs e' -> e' = e.
Proof. revert b. induction cs as [|c r IH]; cbn; [congruence|]. intros b (_ & _ & _ & H) (_ & _ & _ & H'). by eapply IH. Qed.

Lemma tiles_bounds b cs e : evenz b -> tiles b cs e -> b <= e /\ evenz e /\ Forall (ok b e) cs.
Proof.
  revert b. induction cs as [|c r IH]; intros b Hb; cbn.
  { intros <-. split; [lia|]. by split. }
  intros (<- & He & Hs & H). destruct (IH (ending c)) as (H1 & H2 & H3); [unfold ending; zlia|done|].
  unfold ending in *. split; [lia|]. split; [done|]. constructor.
  - unfold ok, ending. repeat split; done || lia.
  - eapply Forall_impl; [exact H3|]. unfold ok, ending. intros d Hd. repeat split; try apply Hd. lia.
Qed.

Lemma tiles_sorted b cs e : evenz b -> tiles b cs e -> StronglySorted below cs.
Proof.
  revert b. induction cs as [|c r IH]; intros b Hb; cbn; [by constructor|].
  intros (<- & He & Hs & H). assert (evenz (ending c)) as Hc by (unfold ending; zlia).
  constructor; [by eapply IH|].
  destruct (tiles_bounds _ _ _ Hc H) as (_ & _ & Hok). eapply Forall_impl; [exact Hok|].
  intros d Hd. apply Hd.
Qed.

Abbreviation frees := (filter (fun c => is_free c = true)).

Lemma frees_split cs pre c suf :
  frees cs = pre ++ c :: suf ->
  exists cs1 cs2, cs = cs1 ++ c :: cs2 /\ frees cs1 = pre /\ frees cs2 = suf /\ is_free c = true.
Proof.
  revert pre. induction cs as [|d r IH]; intros pre E; [by destruct pre|].
  rewrite filter_cons in E. destruct (decide (is_free d = true)) as [Hd|Hd].
  - destruct pre as [|d' pre]; injection E as -> E; [by exists [], r|].
    destruct (IH _ E) as (cs1 & cs2 & -> & H1 & H2 & H3). exists (d' :: cs1), cs2.
    split; [done|]. rewrite filter_cons_True by done. by rewrite H1.
  - destruct (IH _ E) as (cs1 & cs2 & -> & H1 & H2 & H3). exists (d :: cs1), cs2.
    split; [done|]. by rewrite filter_cons_False.
Qed.

(** ** The free list *)

(** From the pointer [p] through the chunks [fs] to the pointer [q]. *)
Fixpoint flist (m : bytes) (p : Z) (fs : list chunk) (q : Z) : Prop :=
  match fs with
  | [] => p = q
  | c :: r => p = addr c /\ exists n, word m (addr c + 2) = Some n /\ flist m n r q
  end.

Lemma flist_app m p fs gs q : flist m p (fs ++ gs) q <-> exists x, flist m p fs x /\ flist m x gs q.
Proof.
  revert p. induction fs as [|c r IH]; intros p; cbn.
  - split; [eauto|]. by intros (? & -> & ?).
  - split.
    + intros (-> & n & Hn & (x & H1 & H2)%IH). eauto 8.
    + intros (x & (-> & n & Hn & H1) & H2). split; [done|]. exists n. split; [done|]. apply IH. eauto.
Qed.

Lemma flist_ext m m' p fs q :
  (forall c, c ∈ fs -> word m' (addr c + 2) = word m (addr c + 2)) -> flist m p fs q -> flist m' p fs q.
Proof.
  revert p. induction fs as [|c r IH]; intros p Hw; cbn; [done|].
  intros (-> & n & Hn & H). split; [done|]. exists n. split; [by rewrite Hw by set_solver|].
  apply IH; [|done]. intros d Hd. apply Hw. set_solver.
Qed.

(** ** Accesses *)

Section access.
Context (b e : Z) (Hb : 0 < b) (He : e < 2 ^ 16).
Implicit Types (h : heap_t) (c d : chunk).

Lemma nx_addr_ok c : ok b e c -> nx_addr (addr c) = addr c + 2.
Proof. intros (H1 & H2 & H3 & H4 & H5). unfold ending in *. unfold nx_addr, sizeof_size_t. apply wrapu_id. unfold in_u. lia. Qed.

Lemma load_word_ok h a v : evenz a -> word (memory h) a = Some v -> load_word a h = Ret v h.
Proof. intros Ha Hv. unfold load_word. by rewrite (proj2 (even_iff a) Ha), Hv. Qed.

Lemma store_word_ok h a v :
  evenz a -> is_Some (word (memory h) a) -> store_word a v h = Ret tt (with_memory (put_word a v (memory h)) h).
Proof. intros Ha [w Hw]. unfold store_word. by rewrite (proj2 (even_iff a) Ha), Hw. Qed.

Lemma sz_ok h c : ok b e c -> word (memory h) (addr c) = Some (size c) -> sz (addr c) h = Ret (size c) h.
Proof.
  intros (H1 & H2 & _) Hw. unfold sz. rewrite (proj2 (Z.eqb_neq _ _)) by lia. by apply load_word_ok.
Qed.

Lemma nx_ok h c n : ok b e c -> word (memory h) (addr c + 2) = Some n -> nx (addr c) h = Ret n h.
Proof.
  intros Hc Hw. unfold nx. rewrite nx_addr_ok by done. destruct Hc as (H1 & H2 & _).
  rewrite (proj2 (Z.eqb_neq _ _)) by lia. apply load_word_ok; [zlia|done].
Qed.

Lemma set_sz_ok h c v :
  ok b e c -> alive (memory h) b e -> set_sz (addr c) v h = Ret tt (with_memory (put_word (addr c) v (memory h)) h).
Proof.
  intros (H1 & H2 & H3 & H4 & H5) Ha. unfold set_sz, ending in *. rewrite (proj2 (Z.eqb_neq _ _)) by lia.
  apply store_word_ok; [done|]. eapply alive_word; [done|lia..].
Qed.

Lemma set_nx_ok h c v :
  ok b e c -> alive (memory h) b e ->
  set_nx (addr c) v h = Ret tt (with_memory (put_word (addr c + 2) v (memory h)) h).
Proof.
  intros Hc Ha. unfold set_nx. rewrite nx_addr_ok by done. destruct Hc as (H1 & H2 & H3 & H4 & H5).
  unfold ending in *. rewrite (proj2 (Z.eqb_neq _ _)) by lia.
  apply store_word_ok; [zlia|]. eapply alive_word; [done|lia..].
Qed.

(** ** Redirecting the pointer behind a prefix of the list *)

Definition last_addr (pre : list chunk) : Z := match last pre with Some d => addr d | None => 0 end.

Definition linked (pre : list chunk) (v : Z) (h : heap_t) : heap_t :=
  match last pre with
  | Some d => with_memory (put_word (addr d + 2) v (memory h)) h
  | None => with_flp v h
  end.

Lemma link_ok h pre v :
  Forall (ok b e) pre -> alive (memory h) b e -> link (last_addr pre) v h = Ret tt (linked pre v h).
Proof.
  intros Hp Ha. unfold link, last_addr, linked. destruct (last pre) as [d|] eqn:Hd; [|done].
  apply last_Some_elem_of in Hd. rewrite Forall_forall in Hp. pose proof (Hp d Hd) as Hok.
  rewrite (proj2 (Z.eqb_neq _ _)); [by apply set_nx_ok|]. destruct Hok. lia.
Qed.

Lemma linked_flist h pre q v :
  0 <= v < 2 ^ 16 -> Forall (ok b e) pre -> StronglySorted below pre ->
  flist (memory h) (__flp h) pre q ->
  flist (memory (linked pre v h)) (__flp (linked pre v h)) pre v.
Proof.
  intros Hv Hok Hs Hf. unfold linked. destruct (last pre) as [d|] eqn:Hd.
  - apply last_Some in Hd as [pre' ->]. cbn [memory __flp with_memory].
    apply flist_app in Hf as (x & H1 & -> & n & _ & _).
    apply flist_app. exists (addr d). split.
    + eapply flist_ext; [|exact H1]. intros c Hc. apply StronglySorted_app in Hs as (Hcd & _ & _).
      specialize (Hcd c d Hc ltac:(set_solver)). rewrite Forall_forall in Hok.
      pose proof (Hok c ltac:(set_solver)) as (? & ? & ? & ? & ?). pose proof (Hok d ltac:(set_solver)) as (? & ? & ? & ? & ?).
      unfold below, ending in *. apply word_put_ne; zlia.
    + split; [done|]. exists v. rewrite word_put_eq, wrapu_id by done. by split.
  - apply last_None in Hd as ->. done.
Qed.
(** ** The search *)

Definition free_ok (h : heap_t) (fs : list chunk) : Prop :=
  flist (memory h) (__flp h) fs 0 /\ Forall (ok b e) fs /\ StronglySorted below fs /\
  Forall (fun c => word (memory h) (addr c) = Some (size c)) fs /\ alive (memory h) b e.

(** Of the chunks [pre] none has [len] bytes; [s], [a1], [a2] describe the
    first of the smallest larger ones, or [s] is 0 and all are smaller. *)
Definition best_of (len : Z) (pre : list chunk) (s a1 a2 : Z) : Prop :=
  Forall (fun x => size x <> len) pre /\
  ((s = 0 /\ Forall (fun x => size x < len) pre) \/
   exists p1 c p2, pre = p1 ++ c :: p2 /\ s = size c /\ a1 = addr c /\ a2 = last_addr p1 /\ len < size c /\
     Forall (fun x => size x < len \/ size c < size x) p1 /\
     Forall (fun x => size x < len \/ size c <= size x) p2).

Lemma best_smaller len pre s a1 a2 c :
  size c < len -> best_of len pre s a1 a2 -> best_of len (pre ++ [c]) s a1 a2.
Proof.
  intros Hc [H1 H2]. split; [apply Forall_app; split; [done|]; constructor; [lia|done]|].
  destruct H2 as [[-> H2]|(p1 & d & p2 & -> & -> & -> & -> & Hd & H3 & H4)].
  - left. split; [done|]. apply Forall_app. split; [done|]. by repeat constructor.
  - right. exists p1, d, (p2 ++ [c]). rewrite <- app_assoc. do 6 (split; [done|]).
    apply Forall_app. split; [done|]. constructor; [by left|done].
Qed.

Lemma best_larger len pre s a1 a2 c :
  len < size c -> 0 < len -> best_of len pre s a1 a2 ->
  if (s =? 0) || (size c <? s) then best_of len (pre ++ [c]) (size c) (addr c) (last_addr pre)
  else best_of len (pre ++ [c]) s a1 a2.
Proof.
  intros Hc Hl [H1 H2].
  assert (Forall (fun x => size x <> len) (pre ++ [c])) as H1'.
  { apply Forall_app. split; [done|]. constructor; [lia|done]. }
  destruct H2 as [[-> H2]|(p1 & d & p2 & -> & -> & -> & -> & Hd & H3 & H4)].
  - cbn [Z.eqb orb]. split; [done|]. right. exists pre, c, []. do 5 (split; [done|]). split; [|done].
    eapply Forall_impl; [exact H2|]. cbn. intros. by left.
  - rewrite (proj2 (Z.eqb_neq _ _)) by lia. cbn [orb]. destruct (Z.ltb_spec (size c) (size d)).
    + split; [done|]. right. exists (p1 ++ d :: p2), c, []. do 5 (split; [done|]). split; [|done].
      apply Forall_app. split; [|constructor; [right; lia|]].
      * eapply Forall_impl; [exact H3|]. cbn. intros x Hx. lia.
      * eapply Forall_impl; [exact H4|]. cbn. intros x Hx. lia.
    + split; [done|]. right. exists p1, d, (p2 ++ [c]). rewrite <- app_assoc. do 6 (split; [done|]).
      apply Forall_app. split; [done|]. constructor; [right; lia|done].
Qed.

Definition find_post (len : Z) (fs : list chunk) (h : heap_t) (r : Z + Z * Z * Z) (h' : heap_t) : Prop :=
  match r with
  | inl p => exists pre c suf n, fs = pre ++ c :: suf /\ size c = len /\
      Forall (fun x => size x <> len) pre /\ p = addr c + 2 /\
      word (memory h) (addr c + 2) = Some n /\ h' = linked pre n h
  | inr (s, a1, a2) => h' = h /\ best_of len fs s a1 a2
  end.

Lemma find_loop h fs len : free_ok h fs -> 0 < len -> forall n suf pre fp1 s a1 a2,
  fs = pre ++ suf -> flist (memory h) fp1 suf 0 -> best_of len pre s a1 a2 -> (length suf < n)%nat ->
  exists r h', loop n (find_step len) (s, fp1, last_addr pre, a1, a2) h = Ret r h' /\ find_post len fs h r h'.
Proof.
  intros (_ & Hok & _ & Hsz & Hal) Hl n. pose proof Hok as Hok'. rewrite Forall_forall in Hok', Hsz.
  induction n as [|n IH]; intros suf pre fp1 s a1 a2 Efs Hfl Hbest Hn; [lia|].
  destruct suf as [|c suf].
  { cbn in Hfl. subst fp1. rewrite app_nil_r in Efs. subst fs. exists (inr (s, a1, a2)), h.
    split; [by apply loop_exit|by split]. }
  destruct Hfl as (-> & nn & Hnn & Hfl). assert (c ∈ fs) as Hin by (subst fs; set_solver).
  pose proof (Hok' c Hin) as Hc. assert (addr c =? 0 = false) as Ez by (apply Z.eqb_neq; destruct Hc; lia).
  assert (forall s' a1' a2', best_of len (pre ++ [c]) s' a1' a2' ->
    exists r h', loop n (find_step len) (s', nn, addr c, a1', a2') h = Ret r h' /\ find_post len fs h r h') as Hnext.
  { intros s' a1' a2' Hb'. specialize (IH suf (pre ++ [c]) nn s' a1' a2').
    unfold last_addr at 1 in IH. rewrite last_snoc in IH.
    apply IH; [by rewrite <- app_assoc|done|done|cbn in Hn; lia]. }
  assert (find_step len (s, addr c, last_addr pre, a1, a2) h =
    (if size c <? len then ret (inl (s, nn, addr c, a1, a2))
     else if size c =? len then do! link (last_addr pre) nn; ret (inr (inl (nx_addr (addr c))))
     else if (s =? 0) || (size c <? s) then ret (inl (size c, nn, addr c, addr c, last_addr pre))
     else ret (inl (s, nn, addr c, a1, a2))) h) as Hstep.
  { unfold find_step. rewrite Ez.
    by rewrite (bind_ret _ _ _ _ _ (sz_ok h c Hc (Hsz c Hin))), (bind_ret _ _ _ _ _ (nx_ok h c nn Hc Hnn)). }
  destruct (Z.ltb_spec (size c) len) as [Hlt|Hge].
  { rewrite (loop_next _ _ _ _ _ _ Hstep). apply Hnext. by apply best_smaller. }
  destruct (Z.eqb_spec (size c) len) as [He'|Hne].
  - assert (Forall (ok b e) pre) as Hpre by (subst fs; by apply Forall_app in Hok as [? _]).
    rewrite (bind_ret _ _ _ _ _ (link_ok h pre nn Hpre Hal)) in Hstep.
    exists (inl (nx_addr (addr c))), (linked pre nn h). split; [exact (loop_exit _ _ _ _ _ _ Hstep)|].
    exists pre, c, suf, nn. rewrite nx_addr_ok by done. by destruct Hbest.
  - pose proof (best_larger len pre s a1 a2 c ltac:(lia) Hl Hbest) as Hb2.
    destruct ((s =? 0) || (size c <? s)); rewrite (loop_next _ _ _ _ _ _ Hstep); by apply Hnext.
Qed.

Lemma find_chunk_ok h fs len fuel :
  free_ok h fs -> 0 < len -> (length fs < fuel)%nat ->
  exists r h', find_chunk fuel len h = Ret r h' /\ find_post len fs h r h'.
Proof.
  intros Hf Hl Hlen. unfold find_chunk. rewrite (bind_ret _ _ _ _ _ (gets_ok _ _)).
  apply (find_loop h fs len Hf Hl fuel fs []); [done|apply Hf| |done].
  split; [done|]. by left.
Qed.
End access.

(** ** Writes *)

(** [m'] differs from [m] only in words at addresses that satisfy [P]. *)
Record changes (P : Z -> Prop) (m m' : bytes) : Prop := {
  ch_word : forall x, evenz x -> ~ P x -> word m' x = word m x;
  ch_byte : forall x, (forall w, P w -> x < w \/ w + 2 <= x) -> m' !! x = m !! x;
  ch_alive : forall b e, alive m b e -> alive m' b e
}.

Lemma changes_refl P m : changes P m m.
Proof. by split. Qed.

Lemma changes_put a v m : evenz a -> changes (fun w => w = a) m (put_word a v m).
Proof.
  intros Ha. split.
  - intros x Hx Hne. apply word_put_ne; [done..|]. intros ->. by apply Hne.
  - intros x Hx. apply put_word_byte. by apply Hx.
  - intros b e. apply alive_put.
Qed.

Lemma changes_trans P P' m m' m'' : changes P m m' -> changes P' m' m'' -> changes (fun w => P w \/ P' w) m m''.
Proof.
  intros [A1 B1 C1] [A2 B2 C2]. split.
  - intros x Hx Hn. rewrite A2, A1; naive_solver.
  - intros x Hx. rewrite B2, B1; [done| |]; intros w Hw; apply Hx; [by left|by right].
  - intros b e H. by apply C2, C1.
Qed.

Lemma changes_weaken (P P' : Z -> Prop) m m' : changes P m m' -> (forall w, P w -> P' w) -> changes P' m m'.
Proof.
  intros [A B C] H. split; [|intros x Hx; apply B; auto|done].
  intros x Hx Hn. apply A; [done|]. intros Hp. by apply Hn, H.
Qed.

Lemma linked_changes b e pre v h :
  Forall (ok b e) pre ->
  changes (fun w => exists d, d ∈ pre /\ w = addr d + 2) (memory h) (memory (linked pre v h)) /\
  __brkval (linked pre v h) = __brkval h.
Proof.
  intros Hok. unfold linked. destruct (last pre) as [d|] eqn:Hd; [|by split; [apply changes_refl|]].
  apply last_Some_elem_of in Hd. rewrite Forall_forall in Hok. destruct (Hok d Hd) as (_ & He & _). split; [|done].
  eapply changes_weaken; [apply changes_put; zlia|]. intros w ->. eauto.
Qed.

Lemma linked_flp_some pre d v h : last pre = Some d -> __flp (linked pre v h) = __flp h.
Proof. intros H. unfold linked. by rewrite H. Qed.

(** ** The invariant *)

(** No two free chunks are neighbours; [p] and [q] say whether the chunks
    before and after are free. *)
Fixpoint separated (p : bool) (cs : list chunk) (q : bool) : Prop :=
  match cs with
  | [] => p && q = false
  | c :: r => p && is_free c = false /\ separated (is_free c) r q
  end.

Lemma separated_app p l c r q :
  separated p (l ++ c :: r) q <-> separated p l (is_free c) /\ separated (is_free c) r q.
Proof. revert p. induction l as [|d l IH]; intros p; cbn; [done|]. rewrite IH. naive_solver. Qed.

Lemma separated_weaken p l q : separated p l true -> separated p l q.
Proof.
  revert p. induction l as [|d l IH]; intros p; cbn; [by destruct p, q|]. naive_solver.
Qed.

Lemma separated_false l q p : separated p l q -> separated false l q.
Proof. destruct l as [|d l]; [by destruct q|]. cbn. naive_solver. Qed.

Record heap_shape (base lim : Z) (cs : list chunk) (h : heap_t) : Prop := {
  hr_base : evenz base /\ 0 < base;
  hr_tiles : tiles base cs (__brkval h);
  hr_lim : __brkval h <= lim < 2 ^ 16;
  hr_sizes : Forall (fun c => word (memory h) (addr c) = Some (size c)) cs;
  hr_alive : alive (memory h) base lim
}.

Record heap_rep (base lim : Z) (cs : list chunk) (h : heap_t) : Prop := {
  hr_shape :> heap_shape base lim cs h;
  hr_free : flist (memory h) (__flp h) (frees cs) 0;
  hr_sep : separated false cs true
}.

Lemma rep_ok base lim cs h : heap_shape base lim cs h -> Forall (ok base lim) cs /\ StronglySorted below cs.
Proof.
  intros [[H1 H2] Ht [Hl _] _ _]. destruct (tiles_bounds _ _ _ H1 Ht) as (_ & _ & Hok).
  split; [|by eapply tiles_sorted]. eapply Forall_impl; [exact Hok|]. unfold ok. intros c Hc. intuition lia.
Qed.

Lemma sorted_filter (cs : list chunk) : StronglySorted below cs -> StronglySorted below (frees cs).
Proof.
  induction 1 as [|c r Hs IH Hc]; [by constructor|]. rewrite filter_cons. destruct (decide _); [|done].
  constructor; [done|]. rewrite Forall_forall in Hc |- *. intros x [_ Hx]%list_elem_of_filter. by apply Hc.
Qed.

Lemma rep_free_ok base lim cs h :
  heap_shape base lim cs h -> flist (memory h) (__flp h) (frees cs) 0 -> free_ok base lim h (frees cs).
Proof.
  intros Hr Hf. destruct (rep_ok _ _ _ _ Hr) as [Hok Hs]. destruct Hr as [_ _ _ Hsz Ha].
  split; [done|]. split; [|split; [by apply sorted_filter|split; [|done]]];
    rewrite Forall_forall in *; intros c [_ Hc]%list_elem_of_filter; auto.
Qed.

Lemma sorted_sep cs c d :
  StronglySorted below cs -> c ∈ cs -> d ∈ cs -> c = d \/ ending c <= addr d \/ ending d <= addr c.
Proof.
  induction 1 as [|x r Hs IH Hx]; [set_solver|]. rewrite Forall_forall in Hx.
  intros [->|Hc]%elem_of_cons [->|Hd]%elem_of_cons; [by left| | |by apply IH].
  - right; left. by apply Hx.
  - right; right. by apply Hx.
Qed.

Lemma sorted_others cs1 c cs2 d :
  StronglySorted below (cs1 ++ c :: cs2) -> d ∈ cs1 \/ d ∈ cs2 -> ending d <= addr c \/ ending c <= addr d.
Proof.
  intros Hs Hd. apply StronglySorted_app in Hs as (H1 & _ & [_ H2]%StronglySorted_inv).
  rewrite Forall_forall in H2. destruct Hd as [Hd|Hd]; [left|right; by apply H2].
  apply (H1 d c Hd). set_solver.
Qed.

(** The bytes of the chunks in use. *)
Definition payload_kept (cs : list chunk) (m m' : bytes) : Prop :=
  forall c, c ∈ cs -> is_free c = false -> forall a, addr c <= a < ending c -> m' !! a = m !! a.

(** Words inside free chunks, or above all chunks. *)
Definition unused (cs : list chunk) (e w : Z) : Prop :=
  e <= w \/ exists d, d ∈ cs /\ is_free d = true /\ addr d <= w /\ w + 2 <= ending d.

Lemma changes_payload base lim cs h P m' :
  heap_shape base lim cs h -> changes P (memory h) m' -> (forall w, P w -> unused cs (__brkval h) w) ->
  payload_kept cs (memory h) m'.
Proof.
  intros Hr Hc Hp c Hin Hu a Ha. apply (ch_byte _ _ _ Hc). intros w Hw.
  destruct (rep_ok _ _ _ _ Hr) as [Hok Hs].
  destruct (Hp w Hw) as [Hge|(d & Hd & Hfd & H1 & H2)].
  - destruct Hr as [[H3 _] Ht _ _ _]. destruct (tiles_bounds _ _ _ H3 Ht) as (_ & _ & Hok').
    rewrite Forall_forall in Hok'. destruct (Hok' c Hin) as (_ & _ & _ & _ & He). lia.
  - destruct (sorted_sep _ _ _ Hs Hin Hd) as [->|[?|?]]; [congruence|lia..].
Qed.

Lemma frees_in (cs : list chunk) x : x ∈ frees cs -> x ∈ cs /\ is_free x = true.
Proof. by intros [? ?]%list_elem_of_filter. Qed.

(** ** Changing one part of the heap

    The chunks [c :: Y] end at [y]; the writes stay between [addr c] and [y]. *)
Section part.
Context (base lim : Z) (cs1 : list chunk) (c : chunk) (Y cs2 : list chunk) (h : heap_t).
Context (P : Z -> Prop) (m' : bytes) (y : Z).
Context (Hr : heap_shape base lim (cs1 ++ (c :: Y) ++ cs2) h) (HY : tiles (addr c) (c :: Y) y).
Context (Hch : changes P (memory h) m') (HP : forall w, P w -> addr c <= w /\ w + 2 <= y).

Lemma part_tiles : tiles base cs1 (addr c) /\ tiles y cs2 (__brkval h).
Proof.
  pose proof (hr_tiles _ _ _ _ Hr) as Ht. apply tiles_app in Ht as (x & H1 & H2).
  apply tiles_app in H2 as (z & H2 & H3). assert (x = addr c) as -> by (symmetry; apply H2).
  by rewrite (tiles_fun _ _ _ _ H2 HY).
Qed.

Lemma part_even : evenz (addr c) /\ evenz y.
Proof.
  destruct part_tiles as [H1 H2]. destruct (hr_base _ _ _ _ Hr) as [Hb _].
  destruct (tiles_bounds _ _ _ Hb H1) as (_ & Hx & _). by destruct (tiles_bounds _ _ _ Hx HY) as (_ & Hy & _).
Qed.

(** The heads of the other chunks are as they were. *)
Lemma part_words d : d ∈ cs1 \/ d ∈ cs2 ->
  word m' (addr d) = word (memory h) (addr d) /\ word m' (addr d + 2) = word (memory h) (addr d + 2).
Proof.
  destruct part_tiles as [H1 H2]. destruct part_even as [_ Hy]. destruct (hr_base _ _ _ _ Hr) as [Hb _].
  destruct (tiles_bounds _ _ _ Hb H1) as (_ & _ & O1). destruct (tiles_bounds _ _ _ Hy H2) as (_ & _ & O2).
  rewrite Forall_forall in O1, O2. intros [Hd|Hd]; [destruct (O1 d Hd) as (D1 & D2 & D3 & D4 & D5)|
    destruct (O2 d Hd) as (D1 & D2 & D3 & D4 & D5)]; unfold ending in *;
    split; apply (ch_word _ _ _ Hch); try (by apply even_2); try done; intros Hw%HP; lia.
Qed.

Lemma part_lists :
  (forall p q, flist (memory h) p (frees cs1) q -> flist m' p (frees cs1) q) /\
  (forall p q, flist (memory h) p (frees cs2) q -> flist m' p (frees cs2) q).
Proof. split; intros p q; apply flist_ext; intros d [Hd _]%frees_in; apply part_words; auto. Qed.

(** The part may be divided anew. *)
Lemma regroup X :
  tiles (addr c) X y -> Forall (fun d => word m' (addr d) = Some (size d)) X ->
  heap_shape base lim (cs1 ++ X ++ cs2) (with_memory m' h).
Proof.
  intros HX Hsz. destruct part_tiles as [H1 H2]. split.
  - apply Hr.
  - apply tiles_app. exists (addr c). split; [done|]. apply tiles_app. by exists y.
  - apply Hr.
  - pose proof (hr_sizes _ _ _ _ Hr) as Hz. rewrite Forall_forall in Hz, Hsz. apply Forall_forall. cbn [memory with_memory].
    intros d [Hd|[Hd|Hd]%elem_of_app]%elem_of_app; [|by apply Hsz|].
    + destruct (part_words d (or_introl Hd)) as [-> _]. apply Hz. set_solver.
    + destruct (part_words d (or_intror Hd)) as [-> _]. apply Hz. set_solver.
  - apply (ch_alive _ _ _ Hch), Hr.
Qed.
End part.

(** ** The free list in two parts *)

Definition listed (base lim : Z) (cs : list chunk) (h : heap_t) : Prop :=
  heap_shape base lim cs h /\ flist (memory h) (__flp h) (frees cs) 0.

(** ** Taking a chunk off the free list *)

Definition whole (c : chunk) : chunk := Chunk (addr c) (size c) false.

Lemma flist_range base lim m p fs :
  Forall (ok base lim) fs -> 0 < base -> lim < 2 ^ 16 -> flist m p fs 0 -> 0 <= p < 2 ^ 16.
Proof.
  intros Hok Hb Hl Hf. destruct fs as [|c r]; cbn in Hf; [lia|]. destruct Hf as [-> _].
  apply Forall_inv in Hok as (? & ? & ? & ? & ?). unfold ending in *. lia.
Qed.

(** A word at the start of one chunk is not the second word of another. *)
Lemma starts_apart base lim cs c d : Forall (ok base lim) cs -> StronglySorted below cs ->
  c ∈ cs -> d ∈ cs -> addr c <> addr d + 2.
Proof.
  intros Hok Hs Hc Hd. rewrite Forall_forall in Hok.
  destruct (Hok c Hc) as (? & ? & ? & ? & ?), (Hok d Hd) as (? & ? & ? & ? & ?).
  unfold ending in *. destruct (sorted_sep _ _ _ Hs Hc Hd) as [->|[?|?]]; unfold ending in *; lia.
Qed.

Lemma seconds_apart cs c d : StronglySorted below cs ->
  c ∈ cs -> d ∈ cs -> 2 <= size c -> 2 <= size d -> addr c + 2 = addr d + 2 -> c = d.
Proof.
  intros Hs Hc Hd H1 H2 E. destruct (sorted_sep _ _ _ Hs Hc Hd) as [?|[?|?]]; unfold ending in *; [done|lia..].
Qed.

Lemma frees_mid cs1 c cs2 :
  frees (cs1 ++ c :: cs2) = frees cs1 ++ (if is_free c then [c] else []) ++ frees cs2.
Proof. rewrite filter_app, filter_cons. by destruct (is_free c). Qed.

Lemma linked_below_in (cs1 cs2 : list chunk) d : d ∈ frees cs1 -> d ∈ cs1 ++ cs2.
Proof. intros [Hd _]%frees_in. set_solver. Qed.

(** Redirecting the end of the free list below some chunk. *)
Section redirect.
Context (base lim : Z) (cs1 cs2 : list chunk) (h : heap_t) (Hr : heap_shape base lim (cs1 ++ cs2) h).

Lemma linked_writes v :
  changes (fun w => exists d, d ∈ frees cs1 /\ w = addr d + 2) (memory h) (memory (linked (frees cs1) v h)) /\
  __brkval (linked (frees cs1) v h) = __brkval h.
Proof.
  apply (linked_changes base lim). destruct (rep_ok _ _ _ _ Hr) as [Hok _]. rewrite Forall_forall in Hok |- *.
  intros d Hd. by apply Hok, linked_below_in.
Qed.

Lemma shape_linked v : heap_shape base lim (cs1 ++ cs2) (linked (frees cs1) v h).
Proof.
  destruct (rep_ok _ _ _ _ Hr) as [Hok Hs]. destruct (linked_writes v) as [Hch Hbrk].
  destruct Hr as [Hb Ht Hl Hsz Ha]. split; [done|by rewrite Hbrk..| |by apply (ch_alive _ _ _ Hch)].
  rewrite Forall_forall in Hsz |- *. intros x Hx. rewrite (ch_word _ _ _ Hch); [by apply Hsz| |].
  - rewrite Forall_forall in Hok. apply (Hok x Hx).
  - intros (d & Hd & E). exact (starts_apart base lim _ x d Hok Hs Hx (linked_below_in _ _ d Hd) E).
Qed.

Lemma linked_below q v :
  0 <= v < 2 ^ 16 -> flist (memory h) (__flp h) (frees cs1) q ->
  flist (memory (linked (frees cs1) v h)) (__flp (linked (frees cs1) v h)) (frees cs1) v.
Proof.
  intros Hv Hf. destruct (rep_ok _ _ _ _ Hr) as [Hok Hs]. destruct Hr as [[_ Hb] _ [_ Hl] _ _].
  apply StronglySorted_app in Hs as (_ & Hs & _). eapply (linked_flist base lim); try done.
  - rewrite Forall_forall in Hok |- *. intros d Hd. by apply Hok, linked_below_in.
  - by apply sorted_filter.
Qed.

Lemma linked_above v p q :
  flist (memory h) p (frees cs2) q -> flist (memory (linked (frees cs1) v h)) p (frees cs2) q.
Proof.
  destruct (rep_ok _ _ _ _ Hr) as [Hok Hs]. destruct (linked_writes v) as [Hch _]. rewrite Forall_forall in Hok.
  apply flist_ext. intros d [Hd _]%frees_in. destruct (Hok d ltac:(set_solver)) as (_ & He & _).
  apply (ch_word _ _ _ Hch); [by apply even_2|]. intros (d' & [Hd' _]%frees_in & E).
  destruct (Hok d' ltac:(set_solver)) as (_ & _ & _ & Hsz & _).
  apply StronglySorted_app in Hs as (Hlt & _ & _). specialize (Hlt d' d Hd' Hd). unfold below, ending in Hlt. lia.
Qed.

Lemma relink q v :
  flist (memory h) (__flp h) (frees cs1) q -> flist (memory h) v (frees cs2) 0 ->
  listed base lim (cs1 ++ cs2) (linked (frees cs1) v h).
Proof.
  intros H1 H2. split; [apply shape_linked|]. rewrite filter_app. apply flist_app. exists v.
  split; [|by apply linked_above]. eapply linked_below; [|done]. destruct (rep_ok _ _ _ _ Hr) as [Hok _].
  eapply flist_range; [|apply Hr|apply Hr|done]. rewrite Forall_forall in Hok |- *. intros d [Hd _]%frees_in.
  apply Hok. set_solver.
Qed.
End redirect.

Lemma shape_flag base lim cs1 c cs2 h f :
  heap_shape base lim (cs1 ++ c :: cs2) h -> heap_shape base lim (cs1 ++ Chunk (addr c) (size c) f :: cs2) h.
Proof.
  intros [Hb Ht Hl Hsz Ha]. split; [done| |done| |done].
  - apply tiles_app in Ht as (y & H1 & H2). apply tiles_app. by exists y.
  - apply Forall_app in Hsz as [H1 [H2 H3]%Forall_cons]. apply Forall_app. split; [done|]. by constructor.
Qed.

Lemma take_whole_ok base lim cs1 c cs2 h n :
  heap_rep base lim (cs1 ++ c :: cs2) h -> is_free c = true ->
  word (memory h) (addr c + 2) = Some n ->
  let h' := linked (frees cs1) n h in
  heap_rep base lim (cs1 ++ whole c :: cs2) h' /\
  payload_kept (cs1 ++ c :: cs2) (memory h) (memory h').
Proof.
  intros Hr Hfree Hn h'. destruct (rep_ok _ _ _ _ Hr) as [Hok Hs].
  pose proof (hr_free _ _ _ _ Hr) as Hf. rewrite frees_mid, Hfree in Hf. cbn [app] in Hf.
  pose proof (hr_base _ _ _ _ Hr) as [Hb1 Hb2]. pose proof (hr_lim _ _ _ _ Hr) as [Hl1 Hl2].
  apply flist_app in Hf as (x & Hpre & -> & n' & Hn' & Hsuf). replace n' with n in * by congruence.
  pose proof (shape_flag _ _ _ _ _ _ false (hr_shape _ _ _ _ Hr)) as Hr'.
  destruct (relink _ _ _ _ _ Hr' (addr c) n Hpre ltac:(by rewrite filter_cons_False)) as [Hs1 Hs2]. split.
  - split; [done|done|].
    + pose proof (hr_sep _ _ _ _ Hr) as Hsep. apply separated_app in Hsep as [H1 H2]. rewrite Hfree in H1, H2.
      apply separated_app. split; [by apply separated_weaken|by eapply separated_false].
  - eapply changes_payload; [exact Hr|by apply (linked_writes _ _ _ _ _ Hr)|]. intros w (d & Hd & ->). right.
    exists d. pose proof (linked_below_in cs1 (c :: cs2) d Hd) as Hin. apply frees_in in Hd as [_ Hfd].
    split; [done|]. split; [done|]. rewrite Forall_forall in Hok. destruct (Hok d Hin) as (_ & _ & _ & ? & _).
    unfold ending. lia.
Qed.

(** ** Splitting and extending *)

(** The lower part of a chunk stays free, the upper [len] bytes are used. *)
Definition lower_part (c : chunk) (len : Z) : chunk := Chunk (addr c) (size c - len - 2) true.
Definition upper_part (c : chunk) (len : Z) : chunk := Chunk (addr c + (size c - len)) len false.

Lemma chunk_ok base lim cs1 c cs2 h : heap_shape base lim (cs1 ++ c :: cs2) h -> ok base lim c.
Proof. intros Hr. destruct (rep_ok _ _ _ _ Hr) as [Hok _]. rewrite Forall_forall in Hok. apply Hok. set_solver. Qed.

(** [c] cut into a chunk with [n] bytes and one with the rest, behind [w]. *)
Lemma two_tiles base lim c n f g :
  ok base lim c -> evenz n -> 2 <= n -> n + 4 <= size c ->
  tiles (addr c) [Chunk (addr c) n f; Chunk (addr c + 2 + n) (size c - n - 2) g] (ending c) /\
  evenz (addr c + 2 + n).
Proof.
  intros (C1 & C2 & C3 & C4 & C5) He Hn Hs. unfold ending in *. cbn. unfold ending. cbn.
  split; [|zlia]. split; [done|]. split; [done|]. split; [lia|]. split; [done|]. split; [zlia|]. lia.
Qed.

Lemma split_ok base lim cs1 c cs2 h len :
  heap_rep base lim (cs1 ++ c :: cs2) h -> is_free c = true ->
  evenz len -> 2 <= len -> len + 4 <= size c ->
  let m' := put_word (addr c) (size c - len - 2) (put_word (addr c + (size c - len)) len (memory h)) in
  heap_rep base lim (cs1 ++ lower_part c len :: upper_part c len :: cs2) (with_memory m' h) /\
  payload_kept (cs1 ++ c :: cs2) (memory h) m'.
Proof.
  intros Hr Hfree Hel Hl Hsz m'. pose proof (chunk_ok _ _ _ _ _ _ Hr) as Hc. pose proof Hc as (C1 & C2 & C3 & C4 & C5).
  pose proof (hr_lim _ _ _ _ Hr) as [Hl1 Hl2]. pose proof (hr_base _ _ _ _ Hr) as [Hb1 Hb2].
  assert (evenz (size c - len - 2)) as He2 by (clear -C3 Hel; zlia).
  destruct (two_tiles base lim c (size c - len - 2) true false Hc He2 ltac:(lia) ltac:(lia)) as [HX Hx].
  replace (addr c + 2 + (size c - len - 2)) with (addr c + (size c - len)) in HX, Hx by lia.
  replace (size c - (size c - len - 2) - 2) with len in HX by lia. fold (lower_part c len) (upper_part c len) in HX.
  set (x := addr c + (size c - len)) in *. unfold ending in C5.
  assert (changes (fun w => w = x \/ w = addr c) (memory h) m') as Hch.
  { exact (changes_trans _ _ _ _ _ (changes_put x len (memory h) Hx) (changes_put (addr c) _ _ C2)). }
  assert (forall w, w = x \/ w = addr c -> addr c <= w /\ w + 2 <= ending c) as HP.
  { unfold ending, x. intros w [->| ->]; lia. }
  assert (tiles (addr c) [c] (ending c)) as HY by done.
  destruct (part_lists base lim cs1 c [] cs2 h _ m' (ending c) Hr HY Hch HP) as [Hf1 Hf2].
  split; [split|].
  - apply (regroup base lim cs1 c [] cs2 h _ m' (ending c) Hr HY Hch HP [_; _] HX).
    constructor; [|constructor; [|done]]; cbn; unfold m'.
    + rewrite word_put_eq, wrapu_id; [done|]. unfold in_u. lia.
    + fold x. rewrite word_put_ne by (done || unfold x; lia). rewrite word_put_eq, wrapu_id; [done|]. unfold in_u. lia.
  - pose proof (hr_free _ _ _ _ Hr) as Hf. rewrite frees_mid, Hfree in Hf.
    rewrite filter_app, filter_cons_True, filter_cons_False by done.
    apply flist_app in Hf as (p & H1 & -> & n & Hn & H2).
    apply flist_app. exists (addr c). split; [by apply Hf1|]. split; [done|]. exists n. split; [|by apply Hf2].
    rewrite (ch_word _ _ _ Hch); [done|by apply even_2|]. cbn. unfold x. intros [E|E]; lia.
  - pose proof (hr_sep _ _ _ _ Hr) as Hsep. apply separated_app in Hsep as [H1 H2]. rewrite Hfree in H1, H2.
    apply separated_app. split; [done|]. cbn. split; [done|]. by eapply separated_false.
  - eapply changes_payload; [exact Hr|exact Hch|]. intros w Hw. right. exists c. split; [set_solver|]. split; [done|].
    by apply HP.
Qed.

Lemma unused_top base lim cs h w d :
  heap_shape base lim cs h -> d ∈ cs -> __brkval h <= w -> ending d <= w.
Proof.
  intros [[H3 _] Ht _ _ _] Hd Hw. destruct (tiles_bounds _ _ _ H3 Ht) as (_ & _ & Hok').
  rewrite Forall_forall in Hok'. destruct (Hok' d Hd) as (_ & _ & _ & _ & He). lia.
Qed.

(** Writes above the break. *)
Lemma above_kept base lim cs h P m' :
  heap_rep base lim cs h -> changes P (memory h) m' -> (forall w, P w -> __brkval h <= w) ->
  heap_rep base lim cs (with_memory m' h) /\ payload_kept cs (memory h) m'.
Proof.
  intros Hr Hch HP. destruct (rep_ok _ _ _ _ Hr) as [Hok _]. rewrite Forall_forall in Hok.
  assert (forall d, d ∈ cs -> word m' (addr d) = word (memory h) (addr d) /\
                              word m' (addr d + 2) = word (memory h) (addr d + 2)) as Hsame.
  { intros d Hd. destruct (Hok d Hd) as (D1 & D2 & D3 & D4 & D5).
    pose proof (fun w Hw => unused_top _ _ _ _ w d Hr Hd Hw) as Htop. unfold ending in *.
    split; apply (ch_word _ _ _ Hch); try (by apply even_2); try done; intros Hw%HP%Htop; lia. }
  split; [split|eapply changes_payload; [exact Hr|exact Hch|]; intros w Hw%HP; by left].
  - destruct Hr as [[Hb Ht Hl Hsz Ha] _ _]. split; [done..| |by apply (ch_alive _ _ _ Hch)].
    rewrite Forall_forall in Hsz |- *. intros d Hd. destruct (Hsame d Hd) as [H _]. cbn. rewrite H. by apply Hsz.
  - eapply flist_ext; [|apply (hr_free _ _ _ _ Hr)]. intros d [Hd _]%frees_in. by apply Hsame.
  - apply Hr.
Qed.

Lemma append_ok base lim cs h len :
  heap_rep base lim cs h -> evenz len -> 2 <= len -> __brkval h + 2 + len <= lim ->
  let b := __brkval h in
  let h' := with_memory (put_word b len (memory h)) (with_brkval (b + 2 + len) h) in
  heap_rep base lim (cs ++ [Chunk b len false]) h' /\ payload_kept cs (memory h) (memory h').
Proof.
  intros Hr Hel Hl Hroom b h'.
  pose proof (hr_lim _ _ _ _ Hr) as [Hl1 Hl2]. pose proof (hr_base _ _ _ _ Hr) as [Hb1 Hb2].
  destruct (tiles_bounds _ _ _ Hb1 (hr_tiles _ _ _ _ Hr)) as (Hb3 & Hb & _). fold b in Hb, Hb3.
  destruct (above_kept _ _ _ _ _ _ Hr (changes_put b len (memory h) Hb)) as [[[Kb Kt Kl Ksz Ka] Kf Ks] Hp];
    [by intros w ->|].
  split; [split; [split| |]|done].
  - done.
  - apply tiles_app. exists b. split; [done|]. repeat split; cbn; done || unfold ending; cbn; lia.
  - cbn. lia.
  - apply Forall_app. split; [done|]. constructor; [|done]. cbn. rewrite word_put_eq, wrapu_id; [done|].
    unfold in_u. lia.
  - done.
  - rewrite filter_app, filter_cons_False by done. by rewrite app_nil_r.
  - apply separated_app. split; [by apply separated_weaken|done].
Qed.

(** ** What [malloc] does to the chunks *)

(** [c] is the first of the smallest free chunks with room for [len]. *)
Definition best_fit (len : Z) (cs1 : list chunk) (c : chunk) (cs2 : list chunk) : Prop :=
  is_free c = true /\ len <= size c /\
  (forall d, d ∈ cs1 -> is_free d = true -> len <= size d -> size c < size d) /\
  (forall d, d ∈ cs2 -> is_free d = true -> len <= size d -> size c <= size d).

(** Best fit: the smallest chunk that is large enough, whole when what is
    left of it could not be a free chunk; else new memory below [lim]; else
    nothing. *)
Inductive allocates (lim brk len : Z) : list chunk -> Z -> list chunk -> Prop :=
  | alloc_whole cs1 c cs2 :
      best_fit len cs1 c cs2 -> size c < len + 4 ->
      allocates lim brk len (cs1 ++ c :: cs2) (addr c + 2) (cs1 ++ whole c :: cs2)
  | alloc_split cs1 c cs2 :
      best_fit len cs1 c cs2 -> len + 4 <= size c ->
      allocates lim brk len (cs1 ++ c :: cs2) (addr (upper_part c len) + 2)
        (cs1 ++ lower_part c len :: upper_part c len :: cs2)
  | alloc_append cs :
      (forall d, d ∈ cs -> is_free d = true -> size d < len) -> brk + 2 + len <= lim ->
      allocates lim brk len cs (brk + 2) (cs ++ [Chunk brk len false])
  | alloc_fail cs :
      (forall d, d ∈ cs -> is_free d = true -> size d < len) -> lim < brk + 2 + len ->
      allocates lim brk len cs 0 cs.

(** The size used for a request of [len] bytes. *)
Definition request (len : Z) : Z := if len <? 2 then 2 else len.

Lemma extend_eq h r len :
  2 <= __brkval h <= heap_limit r -> heap_limit r < 2 ^ 16 -> 2 <= len < 2 ^ 16 ->
  extend r len h =
  (if __brkval h + 2 + len <=? heap_limit r then
     do! set_sz (__brkval h) len; ret (nx_addr (__brkval h))
   else ret 0) (if __brkval h + 2 + len <=? heap_limit r then with_brkval (__brkval h + 2 + len) h else h).
Proof.
  intros Hb Hl Hlen. unfold extend. rewrite (bind_ret _ _ _ tt h).
  2: { by rewrite (bind_ret _ _ _ _ _ (gets_ok _ _)), (proj2 (Z.eqb_neq _ 0)) by lia. }
  rewrite (bind_ret _ _ _ _ _ (gets_ok _ _)). set (b := __brkval h) in *. set (lim := heap_limit r) in *.
  assert (forall x, 0 <= x < 2 ^ 16 -> u16 x = x) as Hu by (intros x Hx; by apply wrapu_id).
  destruct (Z.leb_spec lim b); [by rewrite (proj2 (Z.leb_gt _ _)) by lia|]. rewrite (Hu (lim - b)) by lia.
  destruct (Z.leb_spec len (lim - b)); cbn [andb]; [|by rewrite (proj2 (Z.leb_gt _ _)) by lia].
  unfold sizeof_size_t. rewrite (Hu (len + 2)) by lia.
  destruct (Z.leb_spec (len + 2) (lim - b)), (Z.leb_spec (b + 2 + len) lim); try lia; [|done].
  rewrite (Hu (b + (len + 2))) by lia. replace (b + (len + 2)) with (b + 2 + len) by lia.
  by rewrite (bind_ret _ _ _ _ _ (modify_ok _ _)).
Qed.

Lemma extend_ok base cs h r len :
  heap_rep base (heap_limit r) cs h -> evenz len -> 2 <= len < 2 ^ 16 ->
  (forall d, d ∈ cs -> is_free d = true -> size d < len) ->
  exists p cs' h', extend r len h = Ret p h' /\ allocates (heap_limit r) (__brkval h) len cs p cs' /\
    heap_rep base (heap_limit r) cs' h' /\ payload_kept cs (memory h) (memory h').
Proof.
  intros Hr Hel Hl Hno. pose proof (hr_lim _ _ _ _ Hr) as [Hl1 Hl2]. pose proof (hr_base _ _ _ _ Hr) as [Hb1 Hb2].
  destruct (tiles_bounds _ _ _ Hb1 (hr_tiles _ _ _ _ Hr)) as (Hb3 & Hbe & _).
  assert (2 <= __brkval h) as Hb4 by (clear -Hb2 Hb3 Hbe; zlia). rewrite extend_eq by lia. set (b := __brkval h) in *. set (lim := heap_limit r) in *.
  destruct (Z.leb_spec (b + 2 + len) lim) as [Hroom|Hlt].
  2: { exists 0, cs, h. split; [done|]. split; [by apply alloc_fail|]. split; [done|]. by intros ? ? ? ? ?. }
  assert (ok base lim (Chunk b len false)) as Hc by (unfold ok, ending; cbn; repeat split; done || lia).
  pose proof (set_sz_ok base lim Hb2 (with_brkval (b + 2 + len) h) (Chunk b len false) len Hc
    (hr_alive _ _ _ _ Hr)) as Hset.
  cbn [addr memory with_brkval] in Hset. rewrite (bind_ret _ _ _ _ _ Hset).
  destruct (append_ok base lim cs h len Hr Hel ltac:(lia) ltac:(fold b; lia)) as [Hr' Hp].
  eexists _, _, _. split; [reflexivity|]. split; [|by split].
  pose proof (nx_addr_ok base lim Hb2 Hl2 (Chunk b len false) Hc) as Hnx. cbn [addr] in Hnx. rewrite Hnx.
  apply alloc_append; [done|lia].
Qed.

Lemma take_chunk_ok base lim cs1 c cs2 h len :
  heap_rep base lim (cs1 ++ c :: cs2) h -> evenz len -> 2 <= len -> len < size c -> best_fit len cs1 c cs2 ->
  exists p cs' h', take_chunk len (size c) (addr c) (last_addr (frees cs1)) h = Ret p h' /\
    (forall brk, allocates lim brk len (cs1 ++ c :: cs2) p cs') /\ heap_rep base lim cs' h' /\
    payload_kept (cs1 ++ c :: cs2) (memory h) (memory h').
Proof.
  intros Hr Hel Hl Hlt Hbest. assert (is_free c = true) as Hfree by apply Hbest.
  pose proof (hr_lim _ _ _ _ Hr) as [Hl1 Hl2]. pose proof (hr_base _ _ _ _ Hr) as [Hb1 Hb2].
  destruct (rep_ok _ _ _ _ Hr) as [Hok _]. destruct (rep_free_ok _ _ _ _ Hr (hr_free _ _ _ _ Hr)) as (Hf & Hokf & _ & _ & Ha).
  assert (ok base lim c) as Hc by (rewrite Forall_forall in Hok; apply Hok; set_solver).
  pose proof Hc as (Hc1 & Hc2 & Hc3 & Hc4 & Hc5). unfold ending in Hc5.
  unfold take_chunk, sizeof_freelist, sizeof_size_t.
  assert (forall x, 0 <= x < 2 ^ 16 -> u16 x = x) as Hu by (intros x Hx; by apply wrapu_id).
  rewrite (Hu (size c - len)) by lia. destruct (Z.ltb_spec (size c - len) 4) as [Hsmall|Hbig].
  - rewrite frees_mid, Hfree in Hf, Hokf. cbn [app] in Hf, Hokf. apply Forall_app in Hokf as [Hokp _].
    apply flist_app in Hf as (x & _ & -> & n & Hn & _).
    rewrite (bind_ret _ _ _ _ _ (nx_ok base lim Hb2 Hl2 h c n Hc Hn)).
    rewrite (bind_ret _ _ _ _ _ (link_ok base lim Hb2 Hl2 h _ n Hokp Ha)).
    destruct (take_whole_ok base lim cs1 c cs2 h n Hr Hfree Hn) as [Hr' Hp].
    eexists _, _, _. split; [reflexivity|]. split; [|by split]. intros brk.
    rewrite (nx_addr_ok base lim Hb2 Hl2 c Hc). apply alloc_whole; [done|lia].
  - rewrite (Hu (addr c + (size c - len))), (Hu (size c - len - 2)) by lia.
    assert (ok base lim (upper_part c len)) as Hup.
    { unfold ok, ending, upper_part. cbn. split; [lia|]. split; [zlia|]. split; [done|]. lia. }
    pose proof (set_sz_ok base lim Hb2 h (upper_part c len) len Hup Ha) as Hset. cbn [addr upper_part] in Hset.
    rewrite (bind_ret _ _ _ _ _ Hset). clear Hset.
    set (m1 := put_word (addr c + (size c - len)) len (memory h)).
    rewrite (bind_ret _ _ _ _ _ (set_sz_ok base lim Hb2 (with_memory m1 h) c (size c - len - 2) Hc
      (alive_put _ _ _ _ _ Ha))).
    destruct (split_ok base lim cs1 c cs2 h len Hr Hfree Hel Hl ltac:(lia)) as [Hr' Hp].
    eexists _, _, _. split; [reflexivity|]. split; [|by split]. intros brk.
    change (addr c + (size c - len)) with (addr (upper_part c len)).
    rewrite (nx_addr_ok base lim Hb2 Hl2 _ Hup). apply alloc_split; [done|lia].
Qed.

(** From the search over the free list to the whole heap. *)
Lemma best_of_fit len cs s a1 a2 : s <> 0 -> best_of len (frees cs) s a1 a2 ->
  exists cs1 c cs2, cs = cs1 ++ c :: cs2 /\ s = size c /\ a1 = addr c /\ a2 = last_addr (frees cs1) /\
    len < size c /\ best_fit len cs1 c cs2.
Proof.
  intros Hs [H1 [[-> _]|(p1 & c & p2 & Ep & -> & -> & -> & Hlt & H2 & H3)]]; [done|].
  destruct (frees_split _ _ _ _ Ep) as (cs1 & cs2 & -> & <- & <- & Hc). exists cs1, c, cs2.
  do 5 (split; [done|]). split; [done|]. split; [lia|]. rewrite Forall_forall in H2, H3.
  split; intros d Hd Hfd Hld.
  - specialize (H2 d ltac:(by apply list_elem_of_filter)). lia.
  - specialize (H3 d ltac:(by apply list_elem_of_filter)). lia.
Qed.

Lemma exact_fit len cs pre c suf :
  frees cs = pre ++ c :: suf -> size c = len -> Forall (fun x => size x <> len) pre ->
  exists cs1 cs2, cs = cs1 ++ c :: cs2 /\ pre = frees cs1 /\ best_fit len cs1 c cs2.
Proof.
  intros Ep Hc Hne. destruct (frees_split _ _ _ _ Ep) as (cs1 & cs2 & -> & <- & <- & Hf). exists cs1, cs2.
  do 2 (split; [done|]). split; [done|]. split; [lia|]. rewrite Forall_forall in Hne. split; intros d Hd Hfd Hld.
  - specialize (Hne d ltac:(by apply list_elem_of_filter)). lia.
  - lia.
Qed.

Lemma malloc_ok base cs h r len fuel :
  heap_rep base (heap_limit r) cs h -> evenz len -> 0 <= len < 2 ^ 16 -> (length cs < fuel)%nat ->
  exists p cs' h', malloc fuel r len h = Ret p h' /\
    allocates (heap_limit r) (__brkval h) (request len) cs p cs' /\
    heap_rep base (heap_limit r) cs' h' /\ payload_kept cs (memory h) (memory h').
Proof.
  intros Hr Hel Hl Hfuel. unfold malloc. change (sizeof_freelist - sizeof_size_t) with 2. fold (request len).
  assert (evenz (request len) /\ 2 <= request len < 2 ^ 16) as [Hrel Hrl].
  { unfold request. destruct (Z.ltb_spec len 2); split; done || lia. }
  generalize dependent (request len). clear len Hel Hl. intros len Hel Hl.
  pose proof (hr_lim _ _ _ _ Hr) as [_ Hl2]. pose proof (hr_base _ _ _ _ Hr) as [_ Hb2].
  assert (length (frees cs) < fuel)%nat as Hfuel' by (pose proof (length_filter (fun c => is_free c = true) cs); lia).
  destruct (find_chunk_ok _ _ Hb2 Hl2 h _ len fuel (rep_free_ok _ _ _ _ Hr (hr_free _ _ _ _ Hr)) ltac:(lia) Hfuel') as (found & h1 & E & Hpost).
  rewrite (bind_ret _ _ _ _ _ E). destruct found as [p|[[s a1] a2]].
  - destruct Hpost as (pre & c & suf & n & Ep & Hc & Hne & -> & Hn & ->).
    destruct (exact_fit _ _ _ _ _ Ep Hc Hne) as (cs1 & cs2 & -> & -> & Hbest).
    destruct (take_whole_ok _ _ _ _ _ _ _ Hr (proj1 Hbest) Hn) as [Hr' Hp].
    eexists _, _, _. split; [reflexivity|]. split; [|by split]. apply alloc_whole; [done|lia].
  - destruct Hpost as [-> Hbest]. destruct (Z.eqb_spec s 0) as [->|Hs].
    + apply extend_ok; [done..|]. intros d Hd Hfd. destruct Hbest as [_ [[_ H]|(p1 & c & p2 & _ & H & _ & _ & H' & _)]].
      * rewrite Forall_forall in H. apply H. by apply list_elem_of_filter.
      * lia.
    + destruct (best_of_fit _ _ _ _ _ Hs Hbest) as (cs1 & c & cs2 & -> & -> & -> & -> & Hlt & Hbf).
      destruct (take_chunk_ok _ _ _ _ _ _ len Hr Hel ltac:(lia) Hlt Hbf) as (p & cs' & h' & E' & Hall & Hr' & Hp).
      eauto 10.
Qed.
