(* ===== verification/MallocFree.v ===== *)
(** * Releasing memory (Malloc.v, [free])

    [free] marks the chunk, merges it with the free chunks beside it, and
    gives the topmost chunk back when it has become free. *)

From stdpp Require Import sorting.
From S2P Require Import Prelude Malloc MallocProps.

(** ** What [free] does to the chunks *)

Definition released (c : chunk) : chunk := Chunk (addr c) (size c) true.

(** Two neighbouring free chunks are one. *)
Definition merge (c d : chunk) : chunk := Chunk (addr c) (size c + size d + 2) true.

Definition glue (c : chunk) (r : list chunk) : list chunk :=
  match r with
  | d :: r' => if is_free c && is_free d then merge c d :: r' else c :: r
  | [] => [c]
  end.
Definition coalesce (cs : list chunk) : list chunk := foldr glue [] cs.

(** Free chunks at the top are given back. *)
Definition keep_below (c : chunk) (r : list chunk) : list chunk :=
  match r with [] => if is_free c then [] else [c] | _ => c :: r end.
Definition trim (cs : list chunk) : list chunk := foldr keep_below [] cs.

(** ** A chunk on its way to the free list *)

(** The list below [c] still leads to [q]; from [c] on it is complete. *)
Record releasing (base lim q : Z) (cs1 : list chunk) (c : chunk) (cs2 : list chunk) (h : heap_t) : Prop := {
  rl_shape :> heap_shape base lim (cs1 ++ c :: cs2) h;
  rl_is_free : is_free c = true;
  rl_below : flist (memory h) (__flp h) (frees cs1) q;
  rl_above : flist (memory h) (addr c) (c :: frees cs2) 0
}.

Lemma evenz_add a b : evenz a -> evenz b -> evenz (a + b).
Proof. unfold evenz. intros Ha Hb. rewrite Z.add_mod, Ha, Hb by lia. done. Qed.

Lemma in_chunk base lim c w : ok base lim c -> w = addr c + 2 -> addr c <= w /\ w + 2 <= ending c.
Proof. intros (_ & _ & _ & ? & _) ->. unfold ending. lia. Qed.

(** [fpnew->nx = v], for the first free chunk above. *)
Lemma start_ok base lim cs1 c cs2 h v :
  heap_shape base lim (cs1 ++ c :: cs2) h -> is_free c = true ->
  flist (memory h) (__flp h) (frees cs1) v -> flist (memory h) v (frees cs2) 0 -> 0 <= v < 2 ^ 16 ->
  releasing base lim v cs1 c cs2 (with_memory (put_word (addr c + 2) v (memory h)) h).
Proof.
  intros Hr Hc H1 H2 Hv. pose proof (chunk_ok _ _ _ _ _ _ Hr) as Hok. pose proof Hok as (_ & He & Hse & Hsz & _).
  pose proof (changes_put (addr c + 2) v (memory h) (even_2 _ He)) as Hch.
  pose proof (fun w => in_chunk base lim c w Hok) as HP. assert (tiles (addr c) [c] (ending c)) as HY by done.
  destruct (part_lists base lim cs1 c [] cs2 h _ _ _ Hr HY Hch HP) as [Hf1 Hf2].
  split; [|done|by apply Hf1|].
  - apply (regroup base lim cs1 c [] cs2 h _ _ _ Hr HY Hch HP [c] HY). constructor; [|done].
    rewrite word_put_ne; [|by apply even_2|done|lia].
    pose proof (hr_sizes _ _ _ _ Hr) as Hz. rewrite Forall_forall in Hz. apply Hz. set_solver.
  - split; [done|]. exists v. cbn [memory with_memory]. rewrite word_put_eq, wrapu_id by done. split; [done|].
    by apply Hf2.
Qed.

(** Assimilating the upper neighbour. *)
Lemma merge_ok base lim q cs1 c d cs2 h n :
  releasing base lim q cs1 c (d :: cs2) h -> is_free d = true -> word (memory h) (addr d + 2) = Some n ->
  let m' := put_word (addr c + 2) n (put_word (addr c) (size c + size d + 2) (memory h)) in
  releasing base lim q cs1 (merge c d) cs2 (with_memory m' h) /\
  changes (fun w => w = addr c \/ w = addr c + 2) (memory h) m'.
Proof.
  intros [Hr Hc H1 H2] Hd Hn m'. destruct (rep_ok _ _ _ _ Hr) as [Hok _]. rewrite Forall_forall in Hok.
  destruct (Hok c ltac:(set_solver)) as (C1 & C2 & C3 & C4 & C5), (Hok d ltac:(set_solver)) as (D1 & D2 & D3 & D4 & D5).
  pose proof (hr_base _ _ _ _ Hr) as [Hb1 Hb2]. pose proof (hr_lim _ _ _ _ Hr) as [Hl1 Hl2].
  assert (changes (fun w => w = addr c \/ w = addr c + 2) (memory h) m') as Hch.
  { exact (changes_trans _ _ _ _ _ (changes_put _ _ _ C2) (changes_put _ _ _ (even_2 _ C2))). }
  split; [|done].
  pose proof (hr_tiles _ _ _ _ Hr) as Ht. apply tiles_app in Ht as (y & T1 & <- & _ & _ & T4 & _).
  assert (tiles (addr c) [c; d] (ending d)) as HY by done. unfold ending in *.
  assert (forall w, w = addr c \/ w = addr c + 2 -> addr c <= w /\ w + 2 <= addr d + 2 + size d) as HP.
  { intros w [->| ->]; lia. }
  destruct (part_lists base lim cs1 c [d] cs2 h _ m' _ Hr HY Hch HP) as [Hf1 Hf2].
  rewrite filter_cons_True in H2 by done. destruct H2 as (_ & n' & _ & -> & n'' & Hn'' & H2).
  replace n'' with n in * by congruence.
  assert (0 <= n < 2 ^ 16) as Hnr.
  { eapply (flist_range base lim); [|done|done|exact H2]. apply Forall_forall. intros x [Hx _]%frees_in.
    apply Hok. set_solver. }
  split; [|done|by apply Hf1|].
  - apply (regroup base lim cs1 c [d] cs2 h _ m' _ Hr HY Hch HP [merge c d]).
    + cbn. unfold ending. cbn. split; [done|]. split; [by repeat apply evenz_add|]. lia.
    + constructor; [|done]. cbn. unfold m'. rewrite word_put_ne; [|by apply even_2|done|lia].
      rewrite word_put_eq, wrapu_id; [done|]. unfold in_u. lia.
  - split; [done|]. exists n. cbn. unfold m'. rewrite word_put_eq, wrapu_id by done. split; [done|]. by apply Hf2.
Qed.

(** ** Lists of chunks *)

Lemma tiles_gap b l e : tiles b l e -> b = e <-> l = [].
Proof.
  intros Ht. split; [|by intros ->]. intros ->. destruct l as [|c r]; [done|exfalso].
  assert (forall b l e, tiles b l e -> b <= e) as Hle.
  { clear. intros b l. revert b. induction l as [|c r IH]; cbn; [lia|].
    intros b e (<- & _ & ? & H%IH). unfold ending in H. lia. }
  destruct Ht as (<- & _ & ? & H%Hle). unfold ending in H. lia.
Qed.

(** Neighbours, by their addresses. *)
Lemma adjacent base lim l1 a l2 d l3 h :
  heap_shape base lim (l1 ++ a :: l2 ++ d :: l3) h -> ending a = addr d <-> l2 = [].
Proof.
  intros Hr. pose proof (hr_tiles _ _ _ _ Hr) as Ht. apply tiles_app in Ht as (y & _ & _ & _ & _ & Ht).
  apply tiles_app in Ht as (z & Ht & <- & _). by apply tiles_gap.
Qed.

Lemma topmost base lim l1 a l2 h : heap_shape base lim (l1 ++ a :: l2) h -> ending a = __brkval h <-> l2 = [].
Proof.
  intros Hr. pose proof (hr_tiles _ _ _ _ Hr) as Ht. apply tiles_app in Ht as (y & _ & _ & _ & _ & Ht).
  by apply tiles_gap.
Qed.

(** Only the chunk given back is merged: the others are not neighbours. *)
Lemma glue_kept p l x r : separated p l (is_free x) -> foldr glue (x :: r) l = l ++ x :: r.
Proof.
  revert p. induction l as [|c l IH]; intros p; [done|]. cbn. intros [_ H]. rewrite (IH _ H).
  destruct l as [|d l]; cbn in *; [by rewrite H|]. destruct H as [-> _]. done.
Qed.

Lemma coalesce_kept p l : separated p l true -> coalesce l = l.
Proof.
  destruct (decide (l = [])) as [->|Hne]; [done|]. destruct (exists_last Hne) as (l' & x & ->).
  intros H. unfold coalesce. rewrite foldr_app. cbn. apply separated_app in H as [H _]. by apply (glue_kept p).
Qed.

Lemma separated_last l q : separated false l false -> (forall y, last l = Some y -> is_free y = false) -> separated false l q.
Proof.
  destruct (decide (l = [])) as [->|Hne]; [done|]. destruct (exists_last Hne) as (l' & x & ->).
  intros H Hl. apply separated_app in H as [H _]. apply separated_app. split; [done|]. cbn.
  by rewrite (Hl x) by apply last_snoc.
Qed.

Lemma trim_snoc l z : trim (l ++ [z]) = if is_free z then trim l else l ++ [z].
Proof.
  unfold trim. rewrite foldr_app. cbn. destruct (is_free z); [done|].
  induction l as [|c l IH]; [done|]. cbn. rewrite IH. by destruct l.
Qed.

Lemma separated_true_last l z p : separated p (l ++ [z]) true -> is_free z = false.
Proof. intros [_ H]%separated_app. cbn in H. by rewrite andb_true_r in H. Qed.

Lemma trim_kept p l : separated p l true -> trim l = l.
Proof.
  destruct (decide (l = [])) as [->|Hne]; [done|]. destruct (exists_last Hne) as (l' & x & ->).
  intros H. by rewrite trim_snoc, (separated_true_last _ _ _ H).
Qed.

(** ** The list is complete again *)

Lemma link_in base lim q cs1 c cs2 h :
  releasing base lim q cs1 c cs2 h -> listed base lim (cs1 ++ c :: cs2) (linked (frees cs1) (addr c) h).
Proof.
  intros [Hr Hc H1 H2]. apply (relink _ _ _ _ _ Hr q); [done|]. by rewrite filter_cons_True.
Qed.

Lemma relist base lim cs1 c cs2 h :
  listed base lim (cs1 ++ c :: cs2) h -> is_free c = true -> releasing base lim (addr c) cs1 c cs2 h.
Proof.
  intros [Hr Hf] Hc. rewrite frees_mid, Hc in Hf. apply flist_app in Hf as (x & H1 & H2).
  assert (x = addr c) as -> by apply H2. by split.
Qed.

Lemma listed_of base lim cs1 c cs2 h :
  releasing base lim (addr c) cs1 c cs2 h -> listed base lim (cs1 ++ c :: cs2) h.
Proof.
  intros [Hr Hc H1 H2]. split; [done|]. rewrite frees_mid, Hc. apply flist_app. by exists (addr c).
Qed.

Lemma drop_ok base lim l c q h :
  heap_shape base lim (l ++ [c]) h -> flist (memory h) (__flp h) (frees l) q ->
  listed base lim l (with_brkval (addr c) (linked (frees l) 0 h)).
Proof.
  intros Hr Hf. pose proof (shape_linked _ _ _ _ _ Hr 0) as [Hb Ht [Hl1 Hl2] Hsz Ha].
  pose proof (chunk_ok _ _ _ _ _ _ Hr) as (? & ? & ? & ? & Hle). unfold ending in Hle. split.
  - split; [done| |cbn; lia| |done].
    + apply tiles_app in Ht as (y & Ht & <- & _). done.
    + by apply Forall_app in Hsz as [? _].
  - eapply (linked_below _ _ l [c]); [exact Hr|lia|exact Hf].
Qed.

(** ** The steps of [free] *)

Lemma changes_seq P m m' m'' : changes P m m' -> changes P m' m'' -> changes P m m''.
Proof. intros H1 H2. eapply changes_weaken; [by eapply changes_trans|]. by intros w [?|?]. Qed.

Lemma u16_sum a c base lim : ok base lim c -> 0 < base -> lim < 2 ^ 16 -> a = addr c + 2 -> u16 (a + size c) = ending c.
Proof. intros (? & ? & ? & ? & Hle) Hb Hl ->. unfold ending in *. apply wrapu_id. unfold in_u. lia. Qed.

(** Merging with the chunk [d] above, if it is the neighbour. *)
Lemma merge_step base lim q cs1 c d cs2 h n :
  releasing base lim q cs1 c (d :: cs2) h -> is_free d = true -> word (memory h) (addr d + 2) = Some n ->
  exists h', (do! set_sz (addr c) (u16 (size c + u16 (size d + sizeof_size_t)));
              let! n := nx (addr d) in set_nx (addr c) n) h = Ret tt h' /\
    releasing base lim q cs1 (merge c d) cs2 h' /\ h' = with_memory (memory h') h /\
    changes (fun w => w = addr c \/ w = addr c + 2) (memory h) (memory h').
Proof.
  intros Hrl Hd Hn. pose proof (rl_shape _ _ _ _ _ _ _ Hrl) as Hr.
  pose proof (hr_lim _ _ _ _ Hr) as [_ Hl2]. pose proof (hr_base _ _ _ _ Hr) as [_ Hb2].
  pose proof (chunk_ok _ _ _ _ _ _ Hr) as Hc. assert (ok base lim d) as Hdok.
  { destruct (rep_ok _ _ _ _ Hr) as [Ho _]. rewrite Forall_forall in Ho. apply Ho. set_solver. }
  pose proof Hc as (C1 & C2 & C3 & C4 & C5). pose proof Hdok as (D1 & D2 & D3 & D4 & D5).
  destruct (merge_ok _ _ _ _ _ _ _ _ _ Hrl Hd Hn) as [Hrl' Hch].
  assert (ending c = addr d) as Hadj by by apply (adjacent base lim cs1 c [] d cs2 h).
  assert (u16 (size c + u16 (size d + sizeof_size_t)) = size c + size d + 2) as ->.
  { unfold ending, sizeof_size_t in *. rewrite (wrapu_id _ (size d + 2)) by (unfold in_u; lia).
    rewrite wrapu_id by (unfold in_u; lia). lia. }
  eexists. split; [|split; [exact Hrl'|by split]].
  rewrite (bind_ret _ _ _ _ _ (set_sz_ok base lim Hb2 h c (size c + size d + 2) Hc (hr_alive _ _ _ _ Hr))).
  set (m1 := put_word (addr c) (size c + size d + 2) (memory h)).
  assert (word m1 (addr d + 2) = Some n) as Hn1.
  { unfold m1. rewrite word_put_ne; [done|done|by apply even_2|]. unfold ending in *. lia. }
  rewrite (bind_ret _ _ _ _ _ (nx_ok base lim Hb2 Hl2 (with_memory m1 h) d n Hdok Hn1)).
  by rewrite (set_nx_ok base lim Hb2 Hl2 (with_memory m1 h) c n Hc (alive_put _ _ _ _ _ (hr_alive _ _ _ _ Hr))).
Qed.

Lemma frees_head cs2 d suf :
  frees cs2 = d :: suf ->
  exists l r, cs2 = l ++ d :: r /\ frees l = [] /\ frees r = suf /\ is_free d = true.
Proof. intros E. destruct (frees_split _ [] d suf E) as (l & r & -> & Hl & Hr & Hd). eauto 6. Qed.

Lemma frees_none l x : frees l = [] -> x ∈ l -> is_free x = false.
Proof.
  intros Hl Hx. destruct (is_free x) eqn:Hf; [|done].
  assert (x ∈ frees l) as Hin by by apply list_elem_of_filter. rewrite Hl in Hin. set_solver.
Qed.

Lemma glue_apart c l d r : frees l = [] -> l <> [] -> glue c (l ++ d :: r) = c :: l ++ d :: r.
Proof.
  intros Hl Hne. destruct l as [|x l]; [done|]. cbn. rewrite (frees_none _ x Hl) by set_solver.
  by rewrite andb_false_r.
Qed.

(** The branch of the search that has found [d], the first free chunk above. *)
Lemma above_ok {A} base lim cs1 c d suf cs2 h (k : M heap_t A) :
  heap_shape base lim (cs1 ++ c :: cs2) h -> is_free c = true -> frees cs2 = d :: suf ->
  flist (memory h) (__flp h) (frees cs1) (addr d) -> flist (memory h) (addr d) (frees cs2) 0 ->
  exists c1 cs2' h',
    (do! set_nx (addr c) (addr d);
     let! z := sz (addr c) in
     do! when (u16 (nx_addr (addr c) + z) =? addr d)
           (let! z1 := sz (addr d) in
            do! set_sz (addr c) (u16 (z + u16 (z1 + sizeof_size_t)));
            let! n := nx (addr d) in set_nx (addr c) n);
     k) h = k h' /\
    glue c cs2 = c1 :: cs2' /\ releasing base lim (addr d) cs1 c1 cs2' h' /\ h' = with_memory (memory h') h /\
    changes (fun w => w = addr c \/ w = addr c + 2) (memory h) (memory h').
Proof.
  intros Hr Hc Hfr H1 H2. destruct (frees_head _ _ _ Hfr) as (l & r & -> & Hl & Hsuf & Hd).
  pose proof (hr_lim _ _ _ _ Hr) as [Hl1 Hl2]. pose proof (hr_base _ _ _ _ Hr) as [_ Hb2].
  pose proof (chunk_ok _ _ _ _ _ _ Hr) as Hcok. pose proof Hcok as (_ & Hce & _ & Hcs & _).
  assert (ok base lim d) as Hdok.
  { destruct (rep_ok _ _ _ _ Hr) as [Ho _]. rewrite Forall_forall in Ho. apply Ho. set_solver. }
  assert (0 <= addr d < 2 ^ 16) as Hda by (destruct Hdok as (? & ? & ? & ? & ?); unfold ending in *; lia).
  pose proof (start_ok _ _ _ _ _ _ _ Hr Hc H1 H2 Hda) as Hrl.
  rewrite (bind_ret _ _ _ _ _ (set_nx_ok base lim Hb2 Hl2 h c (addr d) Hcok (hr_alive _ _ _ _ Hr))).
  pose proof (changes_put (addr c + 2) (addr d) (memory h) (even_2 _ Hce)) as Hch.
  set (h1 := with_memory (put_word (addr c + 2) (addr d) (memory h)) h) in *.
  pose proof (hr_sizes _ _ _ _ (rl_shape _ _ _ _ _ _ _ Hrl)) as Hz. rewrite Forall_forall in Hz.
  rewrite (bind_ret _ _ _ _ _ (sz_ok base lim Hb2 h1 c Hcok (Hz c ltac:(set_solver)))).
  rewrite (nx_addr_ok base lim Hb2 Hl2 c Hcok), (u16_sum _ c base lim Hcok Hb2 Hl2 eq_refl).
  pose proof (adjacent _ _ _ _ _ _ _ _ Hr) as Hadj. destruct (Z.eqb_spec (ending c) (addr d)) as [E|E].
  - apply Hadj in E as ->. cbn [app] in *. rewrite filter_cons_True in H2 by done.
    pose proof (rl_above _ _ _ _ _ _ _ Hrl) as (_ & n0 & _ & Hab). rewrite filter_cons_True in Hab by done.
    destruct Hab as (-> & n & Hn & _).
    destruct (merge_step base lim _ cs1 c d r h1 n Hrl Hd Hn) as (h2 & E & Hrl2 & Hm & Hch2).
    exists (merge c d), r, h2. split; [|split; [|split; [done|split]]].
    + rewrite (bind_ret _ _ _ tt h2); [done|]. unfold when.
      by rewrite (bind_ret _ _ _ _ _ (sz_ok base lim Hb2 h1 d Hdok (Hz d ltac:(set_solver)))).
    + cbn. by rewrite Hc, Hd.
    + rewrite Hm. by destruct h.
    + eapply changes_seq; [|exact Hch2]. eapply changes_weaken; [exact Hch|]. intros w ->. by right.
  - exists c, (l ++ d :: r), h1. split; [by rewrite (bind_ret _ _ _ tt h1)|]. split; [|split; [done|split; [by destruct h|]]].
    + apply glue_apart; [done|]. intros ->. by apply E, Hadj.
    + eapply changes_weaken; [exact Hch|]. intros w ->. by right.
Qed.

(** The walk past the free chunks below [c]. *)
Lemma walk_below base lim cs1 c cs2 h v :
  heap_shape base lim (cs1 ++ c :: cs2) h -> forall suf pre p n,
  frees cs1 = pre ++ suf -> flist (memory h) p suf v -> (length suf <= n)%nat ->
  loop n (free_step (addr c)) (p, last_addr pre) h =
  loop (n - length suf) (free_step (addr c)) (v, last_addr (frees cs1)) h.
Proof.
  intros Hr. pose proof (hr_lim _ _ _ _ Hr) as [_ Hl2]. pose proof (hr_base _ _ _ _ Hr) as [_ Hb2].
  destruct (rep_ok _ _ _ _ Hr) as [Hok Hs]. rewrite Forall_forall in Hok.
  induction suf as [|d suf IH]; intros pre p n E Hf Hn; cbn in Hf, Hn.
  { subst p. rewrite app_nil_r in E. by rewrite E, Nat.sub_0_r. }
  destruct Hf as (-> & m & Hm & Hf). destruct n as [|n]; [lia|].
  assert (d ∈ cs1) as Hin by (apply frees_in; rewrite E; set_solver).
  pose proof (Hok d ltac:(set_solver)) as Hd. destruct (sorted_others _ _ _ d Hs ltac:(by left)) as [Hlt|Hlt].
  2: { destruct Hd as (_ & _ & _ & ? & _). apply StronglySorted_app in Hs as (Hbel & _ & _).
       specialize (Hbel d c Hin ltac:(set_solver)). destruct (Hok c ltac:(set_solver)) as (_ & _ & _ & ? & _).
       unfold below, ending in *. lia. }
  assert (free_step (addr c) (addr d, last_addr pre) h = Ret (inl (m, addr d)) h) as Hstep.
  { unfold free_step. pose proof Hd as (? & _ & _ & ? & _). unfold ending in Hlt.
    rewrite (proj2 (Z.eqb_neq _ _)), (proj2 (Z.ltb_lt _ _)) by lia.
    by rewrite (bind_ret _ _ _ _ _ (nx_ok base lim Hb2 Hl2 h d m Hd Hm)). }
  rewrite (loop_next _ _ _ _ _ _ Hstep). cbn [length Nat.sub].
  specialize (IH (pre ++ [d]) m n). unfold last_addr at 1 in IH. rewrite last_snoc in IH. rewrite IH; [done| |done|lia].
  by rewrite <- app_assoc.
Qed.

Lemma last_addr_zero base lim cs1 cs2 h :
  heap_shape base lim (cs1 ++ cs2) h -> last_addr (frees cs1) = 0 <-> frees cs1 = [].
Proof.
  intros Hr. split; [|by intros ->]. intros Hz. unfold last_addr in Hz.
  destruct (last (frees cs1)) as [d|] eqn:Hd; [|by apply last_None].
  apply last_Some_elem_of, frees_in in Hd as [Hd _]. pose proof (hr_base _ _ _ _ Hr) as [_ Hb].
  destruct (rep_ok _ _ _ _ Hr) as [Hok _]. rewrite Forall_forall in Hok.
  destruct (Hok d ltac:(set_solver)) as (? & _). lia.
Qed.

Lemma glue_used c cs2 : frees cs2 = [] -> glue c cs2 = c :: cs2.
Proof.
  intros Hf. destruct cs2 as [|x r]; [done|]. cbn. rewrite (frees_none _ x Hf) by set_solver. by rewrite andb_false_r.
Qed.

(** The whole search: the list from the new chunk on is complete, and [__flp]
    already points to it when nothing is free below. *)
Lemma search_ok base lim cs1 c cs2 h v fuel :
  heap_shape base lim (cs1 ++ c :: cs2) h -> is_free c = true -> word (memory h) (addr c + 2) = Some 0 ->
  flist (memory h) (__flp h) (frees cs1) v -> flist (memory h) v (frees cs2) 0 ->
  (frees cs1 <> [] \/ frees cs2 <> []) -> (length cs1 < fuel)%nat ->
  exists c1 cs2' h',
    free_insert fuel (addr c) h =
      (if last_addr (frees cs1) =? 0 then Ret (inl tt) (linked (frees cs1) (addr c) h')
       else Ret (inr (last_addr (frees cs1))) h') /\
    glue c cs2 = c1 :: cs2' /\ releasing base lim v cs1 c1 cs2' h' /\ h' = with_memory (memory h') h /\
    changes (fun w => w = addr c \/ w = addr c + 2) (memory h) (memory h').
Proof.
  intros Hr Hc Hw H1 H2 Hne Hfuel. unfold free_insert. rewrite (bind_ret _ _ _ _ _ (gets_ok _ _)).
  assert (length (frees cs1) < fuel)%nat as Hn by (pose proof (length_filter (fun c => is_free c = true) cs1); lia).
  pose proof (walk_below base lim cs1 c cs2 h v Hr (frees cs1) [] (__flp h) fuel eq_refl H1 ltac:(lia)) as Hwalk.
  change (last_addr []) with 0 in Hwalk. rewrite Hwalk. clear Hwalk.
  destruct (fuel - length (frees cs1))%nat as [|n] eqn:En; [lia|]. pose proof (last_addr_zero _ _ _ _ _ Hr) as Hz.
  destruct (frees cs2) as [|d suf] eqn:Hfr; cbn in H2.
  - subst v. exists c, cs2, h. rewrite (proj2 (Z.eqb_neq _ 0)) by (rewrite Hz; by destruct Hne).
    split; [by apply loop_exit|]. split; [by apply glue_used|].
    split; [|split; [by destruct h|apply changes_refl]]. split; [done..|]. split; [done|]. exists 0. by rewrite Hfr.
  - destruct H2 as (-> & n2 & Hn2 & H2).
    destruct (frees_head _ _ _ Hfr) as (l & r & -> & _ & _ & _).
    assert (addr c <= addr d /\ addr d <> 0) as [Hle Hd0].
    { destruct (rep_ok _ _ _ _ Hr) as [Hok Hs]. pose proof (hr_base _ _ _ _ Hr) as [_ Hb].
      rewrite Forall_forall in Hok. destruct (Hok d ltac:(set_solver)) as (? & _).
      destruct (Hok c ltac:(set_solver)) as (_ & _ & _ & ? & _). split; [|lia].
      apply StronglySorted_app in Hs as (_ & _ & [_ Hs]%StronglySorted_inv). rewrite Forall_forall in Hs.
      specialize (Hs d ltac:(set_solver)). unfold below, ending in Hs. lia. }
    destruct (above_ok (A := Z * Z + (unit + Z)) base lim cs1 c d suf (l ++ d :: r) h
      (if last_addr (frees cs1) =? 0 then do! modify (with_flp (addr c)); ret (inr (inl tt))
       else ret (inr (inr (last_addr (frees cs1))))) Hr Hc Hfr H1 ltac:(rewrite Hfr; cbn; eauto))
      as (c1 & cs2' & h' & Eh & Hg & Hrl & Hm & Hch).
    exists c1, cs2', h'. split; [|by split].
    assert (free_step (addr c) (addr d, last_addr (frees cs1)) h =
      (if last_addr (frees cs1) =? 0 then Ret (inr (inl tt)) (with_flp (addr c) h')
       else Ret (inr (inr (last_addr (frees cs1)))) h')) as Hstep.
    { unfold free_step. rewrite (proj2 (Z.eqb_neq _ 0) Hd0), (proj2 (Z.ltb_ge _ _) Hle). rewrite Eh.
      by destruct (last_addr (frees cs1) =? 0). }
    destruct (Z.eqb_spec (last_addr (frees cs1)) 0) as [E|E].
    + apply Hz in E. rewrite E in *. by rewrite (loop_exit _ _ _ _ _ _ Hstep).
    + by rewrite (loop_exit _ _ _ _ _ _ Hstep).
Qed.

(** The heads of the free chunks of [cs]. *)
Definition heads (cs : list chunk) (w : Z) : Prop := exists d, d ∈ frees cs /\ (w = addr d \/ w = addr d + 2).

Lemma glue_below cs1 c r :
  separated false cs1 false -> is_free c = true ->
  (exists l y, cs1 = l ++ [y] /\ is_free y = true /\ foldr glue (c :: r) cs1 = l ++ merge y c :: r /\
               separated false l true) \/
  ((forall y, last cs1 = Some y -> is_free y = false) /\ foldr glue (c :: r) cs1 = cs1 ++ c :: r /\
   separated false cs1 true).
Proof.
  intros Hs Hc. assert (forall l, separated false l true -> foldr glue (c :: r) l = l ++ c :: r) as Hkeep.
  { intros l Hl. apply (glue_kept false). by rewrite Hc. }
  destruct (last cs1) as [y|] eqn:Hy; [destruct (is_free y) eqn:Hf|].
  - left. apply last_Some in Hy as [l ->]. exists l, y. apply separated_app in Hs as [Hs _]. rewrite Hf in Hs.
    do 2 (split; [done|]). rewrite foldr_app. cbn. rewrite Hf, Hc. split; [|done]. by apply (glue_kept false).
  - right. assert (separated false cs1 true) as Ht.
    { apply separated_last; [done|]. intros z Hz. congruence. }
    split; [by intros z [= <-]|]. by split; [apply Hkeep|].
  - right. apply last_None in Hy as ->. split; [done|]. by split.
Qed.

Lemma merge_below {A} base lim q cs1 c cs2 h (k : M heap_t A) :
  releasing base lim q cs1 c cs2 h -> separated false cs1 false -> frees cs1 <> [] ->
  exists h',
    (do! set_nx (last_addr (frees cs1)) (addr c);
     let! z2 := sz (last_addr (frees cs1)) in
     do! when (u16 (nx_addr (last_addr (frees cs1)) + z2) =? addr c)
           (let! z := sz (addr c) in
            do! set_sz (last_addr (frees cs1)) (u16 (z2 + u16 (z + sizeof_size_t)));
            let! n := nx (addr c) in set_nx (last_addr (frees cs1)) n);
     k) h = k h' /\
    listed base lim (foldr glue (c :: cs2) cs1) h' /\ __brkval h' = __brkval h /\
    changes (heads cs1) (memory h) (memory h').
Proof.
  intros Hrl Hsep Hne. pose proof (rl_shape _ _ _ _ _ _ _ Hrl) as Hr. pose proof (rl_is_free _ _ _ _ _ _ _ Hrl) as Hc.
  pose proof (hr_lim _ _ _ _ Hr) as [_ Hl2]. pose proof (hr_base _ _ _ _ Hr) as [_ Hb2].
  destruct (exists_last Hne) as (pre & y & Ey). assert (last_addr (frees cs1) = addr y) as Ea.
  { unfold last_addr. by rewrite Ey, last_snoc. }
  assert (is_free y = true /\ y ∈ cs1) as [Hfy Hiny].
  { split; apply (frees_in cs1 y); rewrite Ey; set_solver. }
  destruct (linked_writes _ _ _ _ _ Hr (addr c)) as [Hch Hbrk].
  pose proof (link_in _ _ _ _ _ _ _ Hrl) as Hlisted. set (h1 := linked (frees cs1) (addr c) h) in *.
  assert (changes (heads cs1) (memory h) (memory h1)) as Hch1.
  { eapply changes_weaken; [exact Hch|]. intros w (d & Hd & ->). exists d. auto. }
  destruct (rep_ok _ _ _ _ Hr) as [Hok _]. rewrite Forall_forall in Hok.
  pose proof (Hok y ltac:(set_solver)) as Hy. pose proof (Hok c ltac:(set_solver)) as Hcok.
  assert (set_nx (addr y) (addr c) h = Ret tt h1) as Hset.
  { unfold h1, linked. rewrite Ey, last_snoc. by apply (set_nx_ok base lim Hb2 Hl2 h y), Hr. }
  pose proof (hr_sizes _ _ _ _ (proj1 Hlisted)) as Hz. rewrite Forall_forall in Hz.
  rewrite Ea, (bind_ret _ _ _ _ _ Hset).
  rewrite (bind_ret _ _ _ _ _ (sz_ok base lim Hb2 h1 y Hy (Hz y ltac:(set_solver)))).
  rewrite (nx_addr_ok base lim Hb2 Hl2 y Hy), (u16_sum _ y base lim Hy Hb2 Hl2 eq_refl).
  destruct (glue_below cs1 c cs2 Hsep Hc) as [(l & y' & -> & Hfy' & Hglue & _)|(Hlast & Hglue & _)]; rewrite Hglue.
  - rewrite filter_app, filter_cons_True, filter_nil in Ey by done. apply app_inj_tail in Ey as [_ ->].
    rewrite <- app_assoc in Hlisted, Hr. cbn [app] in Hlisted, Hr.
    rewrite (proj2 (Z.eqb_eq _ _)) by by apply (adjacent base lim l y [] c cs2 h).
    pose proof (relist _ _ _ _ _ _ Hlisted Hfy) as Hrl1.
    pose proof (rl_above _ _ _ _ _ _ _ Hrl1) as (_ & n0 & _ & Hab). rewrite filter_cons_True in Hab by done.
    destruct Hab as (-> & n & Hn & _).
    destruct (merge_step base lim _ l y c cs2 h1 n Hrl1 Hc Hn) as (h2 & E & Hrl2 & Hm & Hch2).
    exists h2. split; [|split; [|split]].
    + rewrite (bind_ret _ _ _ tt h2); [done|]. unfold when.
      by rewrite (bind_ret _ _ _ _ _ (sz_ok base lim Hb2 h1 c Hcok (Hz c ltac:(set_solver)))).
    + exact (listed_of _ _ _ (merge y c) _ _ Hrl2).
    + rewrite Hm. exact Hbrk.
    + eapply changes_seq; [exact Hch1|]. eapply changes_weaken; [exact Hch2|]. intros w Hw. exists y.
      split; [|done]. apply list_elem_of_filter. split; [done|set_solver].
  - exists h1. rewrite (proj2 (Z.eqb_neq _ _)); [by rewrite (bind_ret _ _ _ tt h1)|].
    destruct (list_elem_of_split _ _ Hiny) as (l & l2 & ->). rewrite <- app_assoc in Hr. cbn [app] in Hr.
    intros ->%(adjacent base lim l y l2 c cs2 h Hr). rewrite last_snoc in Hlast. by rewrite (Hlast y eq_refl) in Hfy.
Qed.

(** ** Giving the topmost chunk back *)

Lemma walk_top base lim cs h z pre0 :
  listed base lim cs h -> frees cs = pre0 ++ [z] -> forall suf pre p n,
  pre0 ++ [z] = pre ++ suf -> suf <> [] -> flist (memory h) p suf 0 -> (length suf <= n)%nat ->
  loop n top_step (p, last_addr pre) h = Ret (addr z, last_addr pre0) h.
Proof.
  intros [Hr _] Ez. pose proof (hr_lim _ _ _ _ Hr) as [_ Hl2]. pose proof (hr_base _ _ _ _ Hr) as [_ Hb2].
  destruct (rep_ok _ _ _ _ Hr) as [Hok _]. rewrite Forall_forall in Hok.
  induction suf as [|d suf IH]; intros pre p n E Hne Hf Hn; [done|]. cbn in Hf, Hn.
  destruct Hf as (-> & m & Hm & Hf). destruct n as [|n]; [lia|].
  assert (d ∈ cs) as Hin by (apply frees_in; rewrite Ez, E; set_solver).
  pose proof (nx_ok base lim Hb2 Hl2 h d m (Hok d Hin) Hm) as Hnx. destruct suf as [|x suf].
  - cbn in Hf. subst m. apply app_inj_tail in E as [-> ->].
    apply loop_exit. unfold top_step. by rewrite (bind_ret _ _ _ _ _ Hnx).
  - destruct Hf as (-> & Hf). assert (addr x <> 0) as Hx.
    { assert (x ∈ cs) as Hx by (apply frees_in; rewrite Ez, E; set_solver). destruct (Hok x Hx). lia. }
    rewrite (loop_next _ _ _ _ (addr x, addr d) h).
    + specialize (IH (pre ++ [d]) (addr x) n). unfold last_addr at 1 in IH. rewrite last_snoc in IH.
      apply IH; [by rewrite <- app_assoc|done|by split|cbn in *; lia].
    + unfold top_step. by rewrite (bind_ret _ _ _ _ _ Hnx), (proj2 (Z.eqb_neq _ _)) by done.
Qed.

Lemma lower_ok base lim cs h fuel :
  listed base lim cs h -> frees cs <> [] -> (length cs < fuel)%nat ->
  (exists l z, cs = l ++ [z] /\ is_free z = true /\
     lower_brkval fuel h = Ret tt (with_brkval (addr z) (linked (frees l) 0 h))) \/
  ((forall z, last cs = Some z -> is_free z = false) /\ lower_brkval fuel h = Ret tt h).
Proof.
  intros Hlist Hne Hfuel. pose proof Hlist as [Hr Hf]. destruct (exists_last Hne) as (pre & z & Ez).
  pose proof (hr_lim _ _ _ _ Hr) as [_ Hl2]. pose proof (hr_base _ _ _ _ Hr) as [_ Hb2].
  destruct (rep_ok _ _ _ _ Hr) as [Hok _]. assert (z ∈ cs /\ is_free z = true) as [Hin Hfz].
  { apply frees_in. rewrite Ez. set_solver. }
  pose proof (length_filter (fun c => is_free c = true) cs) as Hlen.
  pose proof Hok as Hok'. rewrite Forall_forall in Hok'. pose proof (Hok' z Hin) as Hz.
  pose proof (hr_sizes _ _ _ _ Hr) as Hsz. rewrite Forall_forall in Hsz.
  pose proof (walk_top base lim cs h z pre Hlist Ez (frees cs) [] (__flp h) fuel (eq_sym Ez) Hne Hf ltac:(lia)) as Hw.
  change (last_addr []) with 0 in Hw.
  assert (lower_brkval fuel h =
    (when (ending z =? __brkval h)
       (do! link (last_addr pre) 0; modify (with_brkval (u16 (nx_addr (addr z) - sizeof_size_t))))) h) as ->.
  { unfold lower_brkval. rewrite (bind_ret _ _ _ _ _ (gets_ok _ _)), (bind_ret _ _ _ _ _ Hw).
    rewrite (bind_ret _ _ _ _ _ (sz_ok base lim Hb2 h z Hz (Hsz z Hin))), (bind_ret _ _ _ _ _ (gets_ok _ _)).
    by rewrite (nx_addr_ok base lim Hb2 Hl2 z Hz), (u16_sum _ z base lim Hz Hb2 Hl2 eq_refl). }
  destruct (list_elem_of_split _ _ Hin) as (l & l2 & ->). pose proof (topmost _ _ _ _ _ _ Hr) as Htop.
  destruct (Z.eqb_spec (ending z) (__brkval h)) as [E|E].
  - apply Htop in E as ->. left. exists l, z. do 2 (split; [done|]).
    rewrite filter_app, filter_cons_True, filter_nil in Ez by done. apply app_inj_tail in Ez as [<- _].
    assert (Forall (ok base lim) (frees l)) as Hokl.
    { apply Forall_forall. intros d [Hd _]%frees_in. apply Hok'. set_solver. }
    unfold when. rewrite (bind_ret _ _ _ _ _ (link_ok base lim Hb2 Hl2 h _ 0 Hokl (hr_alive _ _ _ _ Hr))).
    rewrite modify_ok, (nx_addr_ok base lim Hb2 Hl2 z Hz). unfold sizeof_size_t.
    replace (addr z + 2 - 2) with (addr z) by lia. rewrite wrapu_id; [done|].
    destruct Hz as (? & ? & ? & ? & ?). unfold in_u, ending in *. lia.
  - right. split; [|done]. intros x Hx. destruct (is_free x) eqn:Hfx; [exfalso|done].
    assert (l2 <> []) as Hl by (intros ->; by apply E, Htop). destruct (exists_last Hl) as (l3 & x' & ->).
    rewrite app_comm_cons, app_assoc, last_snoc in Hx. injection Hx as ->.
    rewrite filter_app, filter_cons_True, filter_app, filter_cons_True, filter_nil in Ez by done.
    rewrite app_comm_cons, app_assoc in Ez. apply app_inj_tail in Ez as [_ <-].
    destruct (rep_ok _ _ _ _ Hr) as [_ Hs]. apply StronglySorted_app in Hs as (_ & _ & [_ Hs]%StronglySorted_inv).
    rewrite Forall_forall in Hs. specialize (Hs x ltac:(set_solver)). destruct Hz as (_ & _ & _ & ? & _).
    unfold below, ending in Hs. lia.
Qed.

(** ** [free] *)

Lemma glue_above c cs2 :
  is_free c = true -> separated false cs2 true ->
  exists c1 r, glue c cs2 = c1 :: r /\ is_free c1 = true /\ addr c1 = addr c /\
    ((cs2 = [] /\ r = []) \/ separated true r true).
Proof.
  intros Hc Hs. destruct cs2 as [|d r]; [exists c, []; auto 6|]. destruct Hs as [_ Hs]. cbn. rewrite Hc. cbn.
  destruct (is_free d) eqn:Hd; [by exists (merge c d), r; auto|].
  exists c, (d :: r). do 3 (split; [done|]). right. cbn. by rewrite Hd.
Qed.

Lemma glue_result cs1 c r :
  separated false cs1 false -> is_free c = true ->
  exists l x, foldr glue (c :: r) cs1 = l ++ x :: r /\ is_free x = true /\ separated false l true /\
    (forall d, d ∈ l -> d ∈ cs1).
Proof.
  intros Hs Hc. destruct (glue_below cs1 c r Hs Hc) as [(l & y & -> & _ & -> & Hl)|(_ & -> & Hl)].
  - exists l, (merge y c). do 3 (split; [done|]). set_solver.
  - by exists cs1, c.
Qed.

Lemma glue_length1 c r : (length (glue c r) <= S (length r))%nat.
Proof. destruct r as [|d r]; cbn; [done|]. destruct (is_free c && is_free d); cbn; lia. Qed.

Lemma glue_length c r cs : (length (foldr glue (c :: r) cs) <= length cs + S (length r))%nat.
Proof. induction cs as [|d cs IH]; cbn [foldr length]; [done|]. pose proof (glue_length1 d (foldr glue (c :: r) cs)). lia. Qed.

(** What [trim] leaves of the merged sequence. *)
Lemma trim_result l x r :
  is_free x = true -> separated false l true -> (r = [] \/ separated true r true) ->
  (r = [] /\ trim (l ++ x :: r) = l) \/
  (separated true r true /\ trim (l ++ x :: r) = l ++ x :: r /\ separated false (l ++ x :: r) true).
Proof.
  intros Hx Hl [->|Hr].
  - left. split; [done|]. by rewrite trim_snoc, Hx, (trim_kept false).
  - right. assert (separated false (l ++ x :: r) true) as Hs.
    { apply separated_app. rewrite Hx. split; [by apply separated_weaken|done]. }
    split; [done|]. split; [by apply (trim_kept false)|done].
Qed.

Lemma in_heads cs1 c cs2 w : w = addr c \/ w = addr c + 2 -> heads (cs1 ++ released c :: cs2) w.
Proof. intros Hw. exists (released c). split; [|done]. apply list_elem_of_filter. split; [done|set_solver]. Qed.

Lemma heads_below cs1 cs2 w : heads cs1 w -> heads (cs1 ++ cs2) w.
Proof.
  intros (d & [Hd Hf]%frees_in & Hw). exists d. split; [|done]. apply list_elem_of_filter. split; [done|set_solver].
Qed.

Section release.
Context (base lim : Z) (cs1 : list chunk) (c : chunk) (cs2 : list chunk) (h : heap_t) (fuel : nat).
Context (Hr : heap_rep base lim (cs1 ++ c :: cs2) h) (Hused : is_free c = false).
Context (Hfuel : (length (cs1 ++ c :: cs2) < fuel)%nat).

Definition after_free : list chunk := trim (coalesce (cs1 ++ released c :: cs2)).
Definition start : heap_t := with_memory (put_word (addr c + 2) 0 (memory h)) h.
Definition inside : Z -> Prop := heads (cs1 ++ released c :: cs2).

Lemma released_sep : separated false cs1 false /\ separated false cs2 true.
Proof.
  pose proof (hr_sep _ _ _ _ Hr) as Hs. apply separated_app in Hs. by rewrite Hused in Hs.
Qed.

Lemma start_shape : heap_shape base lim (cs1 ++ released c :: cs2) start /\ changes inside (memory h) (memory start).
Proof.
  pose proof (shape_flag _ _ _ _ _ _ true (hr_shape _ _ _ _ Hr)) as Hs. fold (released c) in Hs.
  pose proof (chunk_ok _ _ _ _ _ _ Hs) as Hok. pose proof Hok as (_ & He & _ & Hsz & _). cbn in He, Hsz.
  pose proof (changes_put (addr c + 2) 0 (memory h) (even_2 _ He)) as Hch.
  split; [|eapply changes_weaken; [exact Hch|]; intros w ->; apply in_heads; by right].
  assert (tiles (addr c) [released c] (ending (released c))) as HY by by destruct Hok as (_ & _ & ? & ? & _).
  apply (regroup base lim cs1 (released c) [] cs2 h _ _ _ Hs HY Hch (fun w => in_chunk base lim (released c) w Hok) [released c] HY).
  constructor; [|done]. cbn. rewrite word_put_ne; [|by apply even_2|done|lia].
  pose proof (hr_sizes _ _ _ _ Hr) as Hz. rewrite Forall_forall in Hz. apply Hz. set_solver.
Qed.

(** The list as it was, in the memory with the new [nx] field. *)
Lemma start_list : exists v, flist (memory start) (__flp start) (frees cs1) v /\ flist (memory start) v (frees cs2) 0.
Proof.
  pose proof (hr_free _ _ _ _ Hr) as Hf. rewrite frees_mid, Hused in Hf. apply flist_app in Hf as (v & H1 & H2).
  pose proof (chunk_ok _ _ _ _ _ _ (hr_shape _ _ _ _ Hr)) as Hok. pose proof Hok as (_ & He & _).
  destruct (part_lists base lim cs1 c [] cs2 h _ _ _ (hr_shape _ _ _ _ Hr) ltac:(by destruct Hok as (_ & _ & ? & ? & _))
    (changes_put (addr c + 2) 0 (memory h) (even_2 _ He)) (fun w => in_chunk base lim c w Hok)) as [Hf1 Hf2].
  exists v. split; [by apply Hf1|by apply Hf2].
Qed.

Lemma start_word : word (memory start) (addr c + 2) = Some 0.
Proof. unfold start. cbn. by rewrite word_put_eq. Qed.

Lemma finish_payload h' : changes inside (memory h) (memory h') -> payload_kept (cs1 ++ cs2) (memory h) (memory h').
Proof.
  intros Hch d Hd Hu. pose proof (shape_flag _ _ _ _ _ _ true (hr_shape _ _ _ _ Hr)) as Hs. fold (released c) in Hs.
  refine (changes_payload base lim (cs1 ++ released c :: cs2) h inside (memory h') Hs Hch _ d _ Hu); [|set_solver].
  intros w (x & [Hx Hfx]%frees_in & Hw). right. exists x. do 2 (split; [done|]).
  destruct (rep_ok _ _ _ _ Hs) as [Hok _]. rewrite Forall_forall in Hok.
  destruct (Hok x Hx) as (_ & _ & _ & ? & _). unfold ending. destruct Hw as [->| ->]; lia.
Qed.

(** The list is complete with the merged chunk: what is left is to lower the
    break, when the chunk is the topmost one. *)
Lemma finish_keep c1 r h' :
  glue (released c) cs2 = c1 :: r -> r <> [] \/ cs2 <> [] -> listed base lim (foldr glue (c1 :: r) cs1) h' ->
  heap_rep base lim after_free h'.
Proof.
  intros Hg Hne [H1 H2]. destruct released_sep as [Hs1 Hs2].
  destruct (glue_above (released c) cs2 eq_refl Hs2) as (c1' & r' & Hg' & Hc1 & _ & Hr').
  rewrite Hg in Hg'. injection Hg' as <- <-.
  destruct (glue_result cs1 c1 r Hs1 Hc1) as (l & x & E & Hx & Hl & _).
  assert (after_free = trim (l ++ x :: r)) as ->.
  { unfold after_free, coalesce. rewrite foldr_app. cbn [foldr]. fold (coalesce cs2). by rewrite (coalesce_kept false), Hg, E. }
  rewrite E in H1, H2. assert (r = [] \/ separated true r true) as Hr2 by (destruct Hr' as [[_ ?]|?]; auto).
  destruct (trim_result l x r Hx Hl Hr2) as [[-> _]|(_ & -> & Hs)]; [exfalso|by split].
  destruct Hne as [?|?]; [done|]. by destruct Hr' as [[-> _]|Hr'].
Qed.

Lemma finish_drop c1 r l z h' :
  glue (released c) cs2 = c1 :: r -> foldr glue (c1 :: r) cs1 = l ++ [z] -> is_free z = true ->
  listed base lim (l ++ [z]) h' ->
  let h2 := with_brkval (addr z) (linked (frees l) 0 h') in
  heap_rep base lim after_free h2 /\ changes inside (memory h') (memory h2).
Proof.
  intros Hg E Hz [H1 H2] h2. destruct released_sep as [Hs1 Hs2].
  destruct (glue_above (released c) cs2 eq_refl Hs2) as (c1' & r' & Hg' & Hc1 & _ & Hr').
  rewrite Hg in Hg'. injection Hg' as <- <-.
  destruct (glue_result cs1 c1 r Hs1 Hc1) as (l' & x & E' & Hx & Hl & Hin). rewrite E in E'.
  assert (r = []) as ->.
  { destruct Hr' as [[_ ?]|Hr']; [done|]. destruct (decide (r = [])) as [?|Hne]; [done|exfalso].
    destruct (exists_last Hne) as (r' & y & ->). rewrite app_comm_cons, app_assoc in E'.
    apply app_inj_tail in E' as [_ ->]. by rewrite (separated_true_last _ _ _ Hr') in Hz. }
  apply app_inj_tail in E' as [<- <-].
  assert (after_free = l) as ->.
  { unfold after_free, coalesce. rewrite foldr_app. cbn [foldr]. fold (coalesce cs2).
    by rewrite (coalesce_kept false), Hg, E, trim_snoc, Hz, (trim_kept false). }
  rewrite frees_mid, Hz in H2. apply flist_app in H2 as (q & H2 & _).
  destruct (drop_ok _ _ _ _ _ _ H1 H2) as [H3 H4]. split; [by split|].
  destruct (linked_writes _ _ _ _ _ H1 0) as [Hch _]. eapply changes_weaken; [exact Hch|].
  intros w (d & [Hd Hf]%frees_in & ->). apply heads_below. exists d. split; [|by right].
  apply list_elem_of_filter. split; [done|by apply Hin].
Qed.

(** [fpnew->nx = 0], and the test of the free list. *)
Lemma free_start :
  free fuel (addr c + 2) h =
  (if __flp start =? 0 then
     let! z := sz (addr c) in
     let! b := gets __brkval in
     if u16 (addr c + 2 + z) =? b then modify (with_brkval (addr c)) else modify (with_flp (addr c))
   else
     let! r := free_insert fuel (addr c) in
     match r with
     | inl _ => ret tt
     | inr fp2 =>
         do! set_nx fp2 (addr c);
         let! z2 := sz fp2 in
         do! when (u16 (nx_addr fp2 + z2) =? addr c)
               (let! z := sz (addr c) in
                do! set_sz fp2 (u16 (z2 + u16 (z + sizeof_size_t)));
                let! n := nx (addr c) in
                set_nx fp2 n);
         lower_brkval fuel
     end) start.
Proof.
  pose proof (hr_lim _ _ _ _ Hr) as [_ Hl2]. pose proof (hr_base _ _ _ _ Hr) as [_ Hb2].
  pose proof (chunk_ok _ _ _ _ _ _ (hr_shape _ _ _ _ Hr)) as Hc. pose proof Hc as (C1 & C2 & C3 & C4 & C5).
  unfold ending in C5. unfold free. rewrite (proj2 (Z.eqb_neq _ 0)) by lia.
  replace (u16 (addr c + 2 - sizeof_size_t)) with (addr c).
  - pose proof (set_nx_ok base lim Hb2 Hl2 h c 0 Hc (hr_alive _ _ _ _ (hr_shape _ _ _ _ Hr))) as Hset.
    fold start in Hset. by rewrite (bind_ret _ _ _ _ _ Hset), (bind_ret _ _ _ _ _ (gets_ok _ _)).
  - unfold sizeof_size_t. replace (addr c + 2 - 2) with (addr c) by lia. rewrite wrapu_id; [done|]. unfold in_u. lia.
Qed.

(** Nothing was free. *)
Lemma release_first :
  frees cs1 = [] -> frees cs2 = [] ->
  exists h', free fuel (addr c + 2) h = Ret tt h' /\ heap_rep base lim after_free h' /\
    changes inside (memory h) (memory h').
Proof.
  intros F1 F2. destruct start_shape as [Hs Hch]. destruct start_list as (v & L1 & L2).
  pose proof (hr_lim _ _ _ _ Hr) as [_ Hl2]. pose proof (hr_base _ _ _ _ Hr) as [_ Hb2].
  pose proof (chunk_ok _ _ _ _ _ _ Hs) as Hc. pose proof Hc as (C1 & C2 & C3 & C4 & C5). cbn in C1, C2, C3, C4.
  rewrite F1 in L1. rewrite F2 in L2. cbn in L1, L2.
  assert (__flp start = 0) as Hflp by (transitivity v; [exact L1|exact L2]). clear L1 L2.
  pose proof (glue_used (released c) cs2 F2) as Hg. destruct released_sep as [Hs1 Hs2].
  assert (foldr glue (released c :: cs2) cs1 = cs1 ++ released c :: cs2) as Hall.
  { destruct (glue_below cs1 (released c) cs2 Hs1 eq_refl) as [(l & y & -> & Hy & _)|(_ & H & _)]; [exfalso|done].
    by rewrite frees_mid, Hy in F1; destruct (frees l). }
  assert (releasing base lim 0 cs1 (released c) cs2 start) as Hrl.
  { split; [done|done|by rewrite F1|]. split; [done|]. exists 0. split; [apply start_word|]. by rewrite F2. }
  pose proof (link_in _ _ _ _ _ _ _ Hrl) as Hlink. rewrite F1 in Hlink. cbn in Hlink.
  rewrite free_start, Hflp, Z.eqb_refl.
  pose proof (hr_sizes _ _ _ _ Hs) as Hz. rewrite Forall_forall in Hz.
  assert (sz (addr c) start = Ret (size c) start) as Hsz.
  { apply (sz_ok base lim Hb2 start (released c) Hc). apply (Hz (released c)). set_solver. }
  rewrite (bind_ret _ _ _ _ _ Hsz).
  rewrite (bind_ret _ _ _ _ _ (gets_ok _ _)).
  pose proof (u16_sum _ (released c) base lim Hc Hb2 Hl2 eq_refl) as Hend. cbn [addr size released] in Hend.
  rewrite Hend. clear Hend.
  pose proof (topmost _ _ _ _ _ _ Hs) as Htop. destruct (Z.eqb_spec (ending (released c)) (__brkval start)) as [E|E].
  - apply Htop in E. eexists. split; [reflexivity|].
    assert (listed base lim (cs1 ++ [released c]) (linked [] (addr c) start)) as Hlist by by rewrite E in Hlink.
    destruct (finish_drop (released c) cs2 cs1 (released c) _ Hg ltac:(by rewrite Hall, E) eq_refl Hlist) as [Hrep _].
    rewrite F1 in Hrep. cbn in Hrep.
    assert (with_brkval (addr c) start = with_brkval (addr c) (with_flp 0 (with_flp (addr c) start))) as ->; [|done].
    unfold with_brkval, with_flp. cbn. f_equal. exact Hflp.
  - eexists. split; [reflexivity|]. split; [|done].
    apply (finish_keep (released c) cs2); [done| |by rewrite Hall]. right. intros Hcs2. by apply E, Htop.
Qed.

Lemma flp_some : frees cs1 <> [] \/ frees cs2 <> [] -> __flp start <> 0.
Proof.
  intros Hne. destruct start_list as (v & L1 & L2). pose proof (hr_base _ _ _ _ Hr) as [_ Hb2].
  destruct (rep_ok _ _ _ _ (hr_shape _ _ _ _ Hr)) as [Hok _]. rewrite Forall_forall in Hok.
  assert (flist (memory start) (__flp start) (frees cs1 ++ frees cs2) 0) as Hl by (apply flist_app; eauto).
  destruct (frees cs1 ++ frees cs2) as [|d fs] eqn:E; [apply app_nil in E as [E1 E2]; destruct Hne; congruence|].
  destruct Hl as [-> _]. assert (d ∈ cs1 ++ c :: cs2) as Hd.
  { assert (d ∈ frees cs1 ++ frees cs2) as [[H _]%frees_in|[H _]%frees_in]%elem_of_app by (rewrite E; set_solver); set_solver. }
  destruct (Hok d Hd). lia.
Qed.

(** Something was free: search, merge, lower the break. *)
Lemma release_more :
  frees cs1 <> [] \/ frees cs2 <> [] ->
  exists h', free fuel (addr c + 2) h = Ret tt h' /\ heap_rep base lim after_free h' /\
    changes inside (memory h) (memory h').
Proof.
  intros Hne. destruct start_shape as [Hs Hch]. destruct start_list as (v & L1 & L2).
  destruct released_sep as [Hs1 Hs2].
  pose proof Hfuel as Hlen0. rewrite length_app in Hlen0. cbn in Hlen0.
  rewrite free_start, (proj2 (Z.eqb_neq _ 0)) by by apply flp_some.
  destruct (search_ok base lim cs1 (released c) cs2 start v fuel Hs eq_refl start_word L1 L2 Hne ltac:(lia))
    as (c1 & r & h1 & Es & Hg & Hrl & Hm & Hch1). cbn [addr released] in Es.
  destruct (glue_above (released c) cs2 eq_refl Hs2) as (c1' & r' & Hg' & Hc1 & Ha & Hr').
  rewrite Hg in Hg'. injection Hg' as <- <-. cbn in Ha.
  assert (changes inside (memory h) (memory h1)) as Hch2.
  { eapply changes_seq; [exact Hch|]. eapply changes_weaken; [exact Hch1|]. intros w Hw. by apply in_heads. }
  pose proof (last_addr_zero _ _ _ _ _ Hs) as Hz. destruct (Z.eqb_spec (last_addr (frees cs1)) 0) as [E|E].
  - apply Hz in E. rewrite (bind_ret _ _ _ _ _ Es). eexists. split; [reflexivity|].
    pose proof (link_in _ _ _ _ _ _ _ Hrl) as Hlink. rewrite Ha, E in Hlink. rewrite E. split; [|exact Hch2].
    apply (finish_keep c1 r); [done| |].
    + right. intros Hcs2. rewrite Hcs2 in Hne. by destruct Hne.
    + destruct (glue_below cs1 c1 r Hs1 Hc1) as [(l & y & Hl & Hy & _)|(_ & -> & _)]; [exfalso|done].
      rewrite Hl, frees_mid, Hy in E. by destruct (frees l).
  - rewrite (bind_ret _ _ _ _ _ Es). rewrite Hz in E. rewrite <- Ha.
    destruct (merge_below base lim v cs1 c1 r h1 (lower_brkval fuel) Hrl Hs1 E) as (h2 & -> & Hlist & _ & Hch3).
    assert (changes inside (memory h) (memory h2)) as Hch4.
    { eapply changes_seq; [exact Hch2|]. eapply changes_weaken; [exact Hch3|]. intros w Hw. by apply heads_below. }
    destruct (glue_result cs1 c1 r Hs1 Hc1) as (l & x & El & Hx & Hl & _).
    assert (frees (foldr glue (c1 :: r) cs1) <> []) as Hfne.
    { rewrite El, frees_mid, Hx. by destruct (frees l). }
    assert (length (foldr glue (c1 :: r) cs1) < fuel)%nat as Hlen.
    { pose proof (glue_length c1 r cs1). pose proof (glue_length1 (released c) cs2) as Hle.
      rewrite Hg in Hle. cbn in Hle. lia. }
    destruct (lower_ok base lim _ h2 fuel Hlist Hfne Hlen) as [(l' & z & El' & Hfz & ->)|[Hlast ->]].
    + rewrite El' in Hlist. destruct (finish_drop c1 r l' z h2 Hg El' Hfz Hlist) as [Hrep Hch5].
      eexists. split; [reflexivity|]. split; [done|]. by eapply changes_seq.
    + exists h2. split; [done|]. split; [|done]. apply (finish_keep c1 r); [done| |done].
      left. intros ->. rewrite El in Hlast. by rewrite (Hlast x (last_snoc _ _)) in Hx.
Qed.
End release.

Lemma release_ok base lim cs1 c cs2 h fuel :
  heap_rep base lim (cs1 ++ c :: cs2) h -> is_free c = false -> (length (cs1 ++ c :: cs2) < fuel)%nat ->
  exists h', free fuel (addr c + 2) h = Ret tt h' /\
    heap_rep base lim (trim (coalesce (cs1 ++ released c :: cs2))) h' /\
    payload_kept (cs1 ++ cs2) (memory h) (memory h').
Proof.
  intros Hr Hu Hfuel.
  assert (exists h', free fuel (addr c + 2) h = Ret tt h' /\ heap_rep base lim (after_free cs1 c cs2) h' /\
    changes (inside cs1 c cs2) (memory h) (memory h')) as (h' & E & Hrep & Hch).
  { destruct (frees cs1) as [|d l] eqn:E1; [destruct (frees cs2) as [|d l] eqn:E2|].
    - by apply release_first.
    - apply release_more; try done. rewrite E2. by right.
    - apply release_more; try done. rewrite E1. by left. }
  exists h'. do 2 (split; [done|]). by eapply finish_payload.
Qed.
