(* ===== verification/MallocSpec.v ===== *)
(** * What the heap promises (Malloc.v)

    [malloc] and [free] as their callers see them: best fit, fresh blocks,
    release and re-use, and what an odd size does. *)

From stdpp Require Import sorting.
From S2P Require Import Prelude Malloc MallocProps MallocFree.

Abbreviation in_use := (filter (fun c => is_free c = false)).

(** A chunk taken by [malloc]: the others in use stay, and marking it free
    again gives the sequence there was. *)
Lemma allocates_used lim brk len cs p cs' :
  allocates lim brk len cs p cs' -> p <> 0 ->
  exists cs1 c cs2, cs' = cs1 ++ c :: cs2 /\ is_free c = false /\ p = addr c + 2 /\
    len <= size c < len + 4 /\ in_use cs ≡ₚ in_use (cs1 ++ cs2) /\
    (0 < len -> separated false cs true -> trim (coalesce (cs1 ++ released c :: cs2)) = cs) /\
    (forall d, d ∈ cs -> is_free d = false -> d ∈ cs1 ++ cs2).
Proof.
  intros Ha Hp. destruct Ha as [cs1 c cs2 Hb Hs|cs1 c cs2 Hb Hs|cs Hno Hroom|]; [| | |done].
  - destruct Hb as (Hc & Hle & _). exists cs1, (whole c), cs2. do 3 (split; [done|]). cbn. split; [lia|].
    split; [rewrite !filter_app, filter_cons_False by by rewrite Hc|split].
    + done.
    + intros _ Hsep. assert (released (whole c) = c) as -> by by destruct c; cbn in *; subst.
      by rewrite (coalesce_kept false), (trim_kept false).
    + intros d Hd Hu. assert (d <> c) by congruence. set_solver.
  - destruct Hb as (Hc & Hle & _). exists (cs1 ++ [lower_part c len]), (upper_part c len), cs2.
    rewrite <- !app_assoc. do 3 (split; [done|]). cbn [size upper_part app]. split; [lia|].
    split; [rewrite !filter_app, !filter_cons_False; [done|done|by rewrite Hc]|split].
    + intros Hl Hsep. assert (coalesce (cs1 ++ lower_part c len :: released (upper_part c len) :: cs2) = cs1 ++ c :: cs2) as ->;
        [|by apply (trim_kept false)].
      pose proof Hsep as [H1 H2]%separated_app. rewrite Hc in H1, H2. unfold coalesce. rewrite foldr_app. cbn [foldr].
      fold (coalesce cs2). rewrite (coalesce_kept true) by done.
      assert (glue (released (upper_part c len)) cs2 = released (upper_part c len) :: cs2) as ->.
      { destruct cs2 as [|d r]; [done|]. cbn. by destruct H2 as [Hd _]; cbn in Hd; rewrite Hd. }
      cbn. replace (merge _ _) with c; [by apply (glue_kept false); rewrite Hc|].
      unfold merge. destruct c as [a s f]; cbn in *. subst f. f_equal. lia.
    + intros d Hd Hu. assert (d <> c) by congruence. set_solver.
  - exists cs, (Chunk brk len false), []. do 3 (split; [done|]). cbn. split; [lia|]. rewrite !app_nil_r.
    split; [done|]. split; [|done]. intros _ Hsep. unfold released. cbn. unfold coalesce. rewrite foldr_app. cbn.
    rewrite (glue_kept false); [|by apply separated_weaken]. by rewrite trim_snoc, (trim_kept false).
Qed.

Lemma allocates_length lim brk len cs p cs' : allocates lim brk len cs p cs' -> (length cs' <= S (length cs))%nat.
Proof. intros Ha. destruct Ha; rewrite ?length_app; cbn; rewrite ?length_app; cbn; lia. Qed.

Lemma allocates_zero lim brk len cs p cs' :
  allocates lim brk len cs p cs' -> p = 0 -> 0 < brk -> (forall c, c ∈ cs -> 0 < addr c) ->
  cs' = cs /\ (forall d, d ∈ cs -> is_free d = true -> size d < len) /\ lim < brk + 2 + len.
Proof.
  intros Ha Hp Hb Hpos. destruct Ha as [cs1 c cs2 Hbest Hs|cs1 c cs2 Hbest Hs|cs Hno Hroom|cs Hno Hroom];
    [..|done]; [| |lia]; specialize (Hpos c ltac:(set_solver)); cbn in Hp; lia.
Qed.

Lemma malloc_zero_same base lim cs h len cs' :
  heap_rep base lim cs h -> allocates lim (__brkval h) len cs 0 cs' ->
  cs' = cs /\ (forall d, d ∈ cs -> is_free d = true -> size d < len) /\ lim < __brkval h + 2 + len.
Proof.
  intros Hr Ha. pose proof (hr_base _ _ _ _ Hr) as [Hb1 Hb2].
  destruct (tiles_bounds _ _ _ Hb1 (hr_tiles _ _ _ _ Hr)) as (Hbb & _ & Hok). rewrite Forall_forall in Hok.
  apply (allocates_zero _ _ _ _ _ _ Ha eq_refl); [lia|]. intros c Hc. destruct (Hok c Hc). lia.
Qed.

(** C20 [malloc] of an even length is best fit: it takes the smallest free chunk
    that is large enough (the lowest of several), the upper part of it when the
    rest can be a chunk, else new memory below the limit, else it returns 0;
    the heap, all of whose chunks have even sizes, stays well formed and no
    byte of a chunk in use changes.  (The code does not round an odd length
    up; what it leads to is [malloc_odd_misaligns].) *)
Theorem malloc_best_fit base cs h r len fuel :
  heap_rep base (heap_limit r) cs h -> evenz len -> 0 <= len < 2 ^ 16 -> (length cs < fuel)%nat ->
  exists p cs' h', malloc fuel r len h = Ret p h' /\
    allocates (heap_limit r) (__brkval h) (request len) cs p cs' /\
    heap_rep base (heap_limit r) cs' h' /\ payload_kept cs (memory h) (memory h').
Proof. apply malloc_ok. Qed.

(** a block that [malloc] returns has the size asked for (at least, and
    less than four bytes more), it is a chunk of its own beside the chunks
    that were in use, which all stay and keep their contents; 0 is returned
    only when no free chunk and no room below the limit is large enough, and
    then nothing changes. *)
Theorem malloc_fresh base cs h r len fuel :
  heap_rep base (heap_limit r) cs h -> evenz len -> 0 <= len < 2 ^ 16 -> (length cs < fuel)%nat ->
  exists p cs' h', malloc fuel r len h = Ret p h' /\ heap_rep base (heap_limit r) cs' h' /\
    payload_kept cs (memory h) (memory h') /\
    ((p = 0 /\ cs' = cs /\ (forall d, d ∈ cs -> is_free d = true -> size d < request len) /\
      heap_limit r < __brkval h + 2 + request len) \/
     (exists c, p = addr c + 2 /\ request len <= size c < request len + 4 /\ in_use cs' ≡ₚ c :: in_use cs)).
Proof.
  intros Hr He Hl Hf. destruct (malloc_ok base cs h r len fuel Hr He Hl Hf) as (p & cs' & h' & E & Ha & Hr' & Hp).
  exists p, cs', h'. do 3 (split; [done|]). destruct (decide (p = 0)) as [->|Hne].
  - left. by destruct (malloc_zero_same _ _ _ _ _ _ Hr Ha) as (-> & Hno & Hroom).
  - right. destruct (allocates_used _ _ _ _ _ _ Ha Hne) as (cs1 & c & cs2 & -> & Hc & -> & Hs & Hperm & _).
    exists c. do 2 (split; [done|]). rewrite Hperm, !filter_app, filter_cons_True by done. by rewrite <- Permutation_middle.
Qed.

(** C21 [free] marks the chunk free, merges it with the free chunks beside it
    and gives the topmost chunk back to the break: no two free chunks stay
    neighbours, the free list is the free chunks in the order of their
    addresses, and no byte of another chunk in use changes. *)
Theorem free_merges base lim cs1 c cs2 h fuel :
  heap_rep base lim (cs1 ++ c :: cs2) h -> is_free c = false -> (length (cs1 ++ c :: cs2) < fuel)%nat ->
  exists h', free fuel (addr c + 2) h = Ret tt h' /\
    heap_rep base lim (trim (coalesce (cs1 ++ released c :: cs2))) h' /\
    payload_kept (cs1 ++ cs2) (memory h) (memory h').
Proof. apply release_ok. Qed.

(** C22 [free] undoes a [malloc] of an even length that did not return 0: the
    heap, well formed with even sizes, has the same chunks, the same free ones
    and the same break as before, and the chunks in use their contents.  (For
    an odd length the heap need not stay aligned: [malloc_odd_misaligns].) *)
Theorem malloc_free_roundtrip base cs h r len fuel p h1 :
  heap_rep base (heap_limit r) cs h -> evenz len -> 0 <= len < 2 ^ 16 -> (S (length cs) < fuel)%nat ->
  malloc fuel r len h = Ret p h1 -> p <> 0 ->
  exists h2, free fuel p h1 = Ret tt h2 /\ heap_rep base (heap_limit r) cs h2 /\
    __brkval h2 = __brkval h /\ __flp h2 = __flp h /\ payload_kept cs (memory h) (memory h2).
Proof.
  intros Hr He Hl Hf E Hp.
  destruct (malloc_ok base cs h r len fuel Hr He Hl ltac:(lia)) as (p' & cs' & h1' & E' & Ha & Hr1 & Hk1).
  rewrite E in E'. injection E' as <- <-.
  destruct (allocates_used _ _ _ _ _ _ Ha Hp) as (cs1 & c & cs2 & -> & Hc & -> & Hs & Hperm & Hback & Hin).
  assert (length (cs1 ++ c :: cs2) <= S (length cs))%nat as Hlen by by eapply allocates_length.
  destruct (release_ok _ _ _ _ _ _ fuel Hr1 Hc ltac:(lia)) as (h2 & E2 & Hr2 & Hk2).
  rewrite Hback in Hr2 by (apply Hr || (unfold request; destruct (Z.ltb_spec len 2); lia)).
  exists h2. do 2 (split; [done|]). split; [|split].
  - pose proof (hr_tiles _ _ _ _ Hr) as T1. pose proof (hr_tiles _ _ _ _ Hr2) as T2. by eapply tiles_fun.
  - pose proof (hr_free _ _ _ _ Hr) as T1. pose proof (hr_free _ _ _ _ Hr2) as T2.
    destruct (frees cs) as [|d fs]; cbn in T1, T2; [congruence|]. destruct T1 as [-> _], T2 as [-> _]. done.
  - intros d Hd Hu a Hra. rewrite (Hk2 d) by (done || by apply Hin). by apply (Hk1 d).
Qed.

(** ** Odd sizes *)

Lemma find_none base lim h fs len fuel :
  0 < base -> lim < 2 ^ 16 -> free_ok base lim h fs -> 0 < len -> (length fs < fuel)%nat ->
  Forall (fun d => size d < len) fs -> exists a1 a2, find_chunk fuel len h = Ret (inr (0, a1, a2)) h.
Proof.
  intros Hb Hl Hf Hlen Hfuel Hno. rewrite Forall_forall in Hno.
  destruct (find_chunk_ok base lim Hb Hl h fs len fuel Hf Hlen Hfuel) as ([p|[[s a1] a2]] & h' & E & Hpost).
  - destruct Hpost as (pre & c & suf & n & -> & Hc & _). specialize (Hno c ltac:(set_solver)). lia.
  - destruct Hpost as (-> & _ & [[-> _]|(p1 & c & p2 & -> & _ & _ & _ & Hc & _)]); [eauto|].
    specialize (Hno c ltac:(set_solver)). lia.
Qed.

(** With nothing to re-use, [malloc] is [extend]. *)
Lemma malloc_extends base lim h fs r len fuel :
  0 < base -> lim < 2 ^ 16 -> free_ok base lim h fs -> (length fs < fuel)%nat ->
  Forall (fun d => size d < request len) fs -> malloc fuel r len h = extend r (request len) h.
Proof.
  intros Hb Hl Hf Hfuel Hno. unfold malloc. change (sizeof_freelist - sizeof_size_t) with 2. fold (request len).
  assert (0 < request len) as Hlen by (unfold request; destruct (Z.ltb_spec len 2); lia).
  destruct (find_none _ _ _ _ _ _ Hb Hl Hf Hlen Hfuel Hno) as (a1 & a2 & E). by rewrite (bind_ret _ _ _ _ _ E).
Qed.

(** [malloc] does not round a size up to the word size: a block of an odd
    number of bytes at the end of the heap leaves the break at an odd address,
    and the next block taken there has its header, a word, at that address,
    which the processor cannot access. *)
Theorem malloc_odd_misaligns base cs h r len fuel :
  heap_rep base (heap_limit r) cs h -> 3 <= len -> Z.odd len = true -> (length cs < fuel)%nat ->
  (forall d, d ∈ cs -> is_free d = true -> size d < len) -> __brkval h + 2 + len < heap_limit r ->
  exists h1, malloc fuel r len h = Ret (__brkval h + 2) h1 /\ Z.odd (__brkval h1) = true /\
    forall len2, (forall d, d ∈ cs -> is_free d = true -> size d < request len2) -> len2 < 2 ^ 16 ->
      __brkval h1 + 2 + request len2 <= heap_limit r -> malloc fuel r len2 h1 = Err BadAddr.
Proof.
  intros Hr Hlen Hodd Hfuel Hno Hroom. set (b := __brkval h) in *.
  pose proof (hr_lim _ _ _ _ Hr) as [Hl1 Hl2]. pose proof (hr_base _ _ _ _ Hr) as [Hb1 Hb2].
  destruct (tiles_bounds _ _ _ Hb1 (hr_tiles _ _ _ _ Hr)) as (Hb3 & Hbe & _). fold b in Hbe, Hb3, Hl1.
  assert (2 <= b) as Hb4 by (clear -Hb2 Hb3 Hbe; zlia).
  pose proof (length_filter (fun c => is_free c = true) cs) as Hflen.
  assert (request len = len) as Hreq by (unfold request; destruct (Z.ltb_spec len 2); lia).
  assert (forall l, (forall d, d ∈ cs -> is_free d = true -> size d < l) -> Forall (fun d => size d < l) (frees cs)) as Hall.
  { intros l Hl. apply Forall_forall. intros d [Hd Hf]%frees_in. by apply Hl. }
  pose proof (rep_free_ok _ _ _ _ Hr (hr_free _ _ _ _ Hr)) as Hf.
  set (h1 := with_memory (put_word b len (memory h)) (with_brkval (b + 2 + len) h)).
  assert (Z.odd (b + 2 + len) = true) as Hodd1.
  { rewrite Z.odd_add, Hodd. assert (Z.odd (b + 2) = false) as ->; [|done].
    rewrite <- Z.negb_even. by rewrite (proj2 (even_iff (b + 2)) (even_2 _ Hbe)). }
  exists h1. split; [|split; [done|]].
  - rewrite (malloc_extends base (heap_limit r) h (frees cs)); [|done..|lia|by rewrite Hreq; apply Hall].
    rewrite Hreq, extend_eq by (fold b; lia). fold b. rewrite (proj2 (Z.leb_le _ _)) by lia.
    assert (set_sz b len (with_brkval (b + 2 + len) h) = Ret tt h1) as Hset.
    { unfold set_sz. rewrite (proj2 (Z.eqb_neq _ 0)) by lia. apply store_word_ok; [done|].
      eapply alive_word; [apply (hr_alive _ _ _ _ Hr)|lia..]. }
    rewrite (bind_ret _ _ _ _ _ Hset). unfold ret, nx_addr, sizeof_size_t. f_equal. apply wrapu_id. unfold in_u. lia.
  - intros len2 Hno2 Hlen2 Hroom2. cbn [__brkval h1 with_memory with_brkval] in Hroom2.
    assert (2 <= request len2 < 2 ^ 16) as Hr2 by (unfold request; destruct (Z.ltb_spec len2 2); lia).
    destruct (above_kept _ _ _ _ _ _ Hr (changes_put b len (memory h) Hbe)) as [Hr1 _]; [by intros w ->; fold b|].
    pose proof (rep_free_ok _ _ _ _ Hr1 (hr_free _ _ _ _ Hr1)) as Hf1.
    rewrite (malloc_extends base (heap_limit r) h1 (frees cs)); [|done|done|exact Hf1|lia|by apply Hall].
    rewrite extend_eq by (cbn; lia). cbn [__brkval h1 with_memory with_brkval].
    rewrite (proj2 (Z.leb_le _ _)) by lia. apply bind_err. unfold set_sz. rewrite (proj2 (Z.eqb_neq _ 0)) by lia.
    unfold store_word. by rewrite <- Z.negb_odd, Hodd1.
Qed.

(** ** A concrete heap *)

Definition blank (b e : Z) : bytes := foldr (fun a m => <[a := 0]> m) ∅ (seqZ b (e - b)).

Lemma alive_blank b e : alive (blank b e) b e.
Proof.
  intros a Ha. unfold blank. assert (a ∈ seqZ b (e - b)) as Hin by (apply elem_of_seqZ; lia). clear Ha.
  induction (seqZ b (e - b)) as [|x l IH]; [by apply not_elem_of_nil in Hin|]. cbn.
  apply lookup_insert_is_Some'. apply elem_of_cons in Hin as [->|Hin]; [by left|right; by apply IH].
Qed.

(** Six free bytes, four in use, and 50 more below the limit. *)
Definition demo_chunks : list chunk := [Chunk 512 6 true; Chunk 520 4 false].
Definition demo_heap : heap_t :=
  Heap (put_word 520 4 (put_word 514 0 (put_word 512 6 (blank 512 576)))) 526 512.
Definition demo_region : region := Region 512 576 1000.

Lemma demo_heap_rep : heap_rep 512 (heap_limit demo_region) demo_chunks demo_heap.
Proof.
  split; [split| |done].
  - done.
  - done.
  - done.
  - by repeat constructor.
  - do 3 apply alive_put. apply alive_blank.
  - split; [done|]. by exists 0.
Qed.

Definition heap_after {A} (r : outcome heap_t A) : heap_t :=
  match r with Ret _ h => h | Err _ => demo_heap end.

Lemma malloc_best_fit_witness : exists p cs' h', malloc 3 demo_region 20 demo_heap = Ret p h' /\
  allocates (heap_limit demo_region) 526 (request 20) demo_chunks p cs' /\
  heap_rep 512 (heap_limit demo_region) cs' h' /\ payload_kept demo_chunks (memory demo_heap) (memory h').
Proof. apply (malloc_best_fit 512); [exact demo_heap_rep|reflexivity|lia|cbn; lia]. Defined.

Lemma malloc_fresh_witness : exists p cs' h', malloc 3 demo_region 4 demo_heap = Ret p h' /\
  heap_rep 512 (heap_limit demo_region) cs' h' /\ payload_kept demo_chunks (memory demo_heap) (memory h') /\
  ((p = 0 /\ cs' = demo_chunks /\ (forall d, d ∈ demo_chunks -> is_free d = true -> size d < request 4) /\
    heap_limit demo_region < __brkval demo_heap + 2 + request 4) \/
   (exists c, p = addr c + 2 /\ request 4 <= size c < request 4 + 4 /\ in_use cs' ≡ₚ c :: in_use demo_chunks)).
Proof. apply (malloc_fresh 512); [exact demo_heap_rep|reflexivity|lia|cbn; lia]. Defined.

Lemma free_merges_witness : exists h', free 3 522 demo_heap = Ret tt h' /\
  heap_rep 512 (heap_limit demo_region) [] h' /\ payload_kept [Chunk 512 6 true] (memory demo_heap) (memory h').
Proof.
  apply (free_merges 512 (heap_limit demo_region) [Chunk 512 6 true] (Chunk 520 4 false) [] demo_heap 3);
    [exact demo_heap_rep|reflexivity|cbn; lia].
Defined.

Lemma malloc_free_roundtrip_witness :
  exists h2, free 4 528 (heap_after (malloc 4 demo_region 20 demo_heap)) = Ret tt h2 /\
    heap_rep 512 (heap_limit demo_region) demo_chunks h2 /\ __brkval h2 = 526 /\ __flp h2 = 512 /\
    payload_kept demo_chunks (memory demo_heap) (memory h2).
Proof.
  apply (malloc_free_roundtrip 512 demo_chunks demo_heap demo_region 20 4);
    [exact demo_heap_rep|reflexivity|lia|cbn; lia|vm_compute; reflexivity|lia].
Defined.

Lemma malloc_odd_misaligns_witness : exists h1, malloc 3 demo_region 7 demo_heap = Ret 528 h1 /\
  Z.odd (__brkval h1) = true /\
  forall len2, (forall d, d ∈ demo_chunks -> is_free d = true -> size d < request len2) -> len2 < 2 ^ 16 ->
    __brkval h1 + 2 + request len2 <= heap_limit demo_region -> malloc 3 demo_region len2 h1 = Err BadAddr.
Proof.
  apply (malloc_odd_misaligns 512 demo_chunks demo_heap demo_region 7 3);
    [exact demo_heap_rep|lia|reflexivity|cbn; lia| |cbn; lia].
  intros d Hd Hf. apply elem_of_cons in Hd as [->|Hd]; [cbn; lia|].
  apply elem_of_cons in Hd as [->|Hd]; [done|by apply not_elem_of_nil in Hd].
Defined.
