(* ===== verification/MallocRealloc.v ===== *)
(** * Changing the size of a block (Malloc.v, [realloc]) *)

From stdpp Require Import sorting.
From S2P Require Import Prelude Malloc MallocProps MallocFree MallocSpec.

(** ** Cutting a chunk in use *)

Definition first_part (c : chunk) (len : Z) : chunk := Chunk (addr c) len false.
Definition rest_part (c : chunk) (len : Z) : chunk := Chunk (addr c + 2 + len) (size c - len - 2) false.

(** [realloc] keeps the chunk when what it would release is too small. *)
Definition too_small (c : chunk) (len : Z) : bool := (size c <=? 4) || (size c - 4 <? len).

Lemma cut_ok base lim cs1 c cs2 h len :
  heap_rep base lim (cs1 ++ c :: cs2) h -> is_free c = false ->
  evenz len -> 2 <= len -> len + 4 <= size c ->
  let m' := put_word (addr c) len (put_word (addr c + 2 + len) (size c - len - 2) (memory h)) in
  heap_rep base lim (cs1 ++ first_part c len :: rest_part c len :: cs2) (with_memory m' h) /\
  changes (fun w => w = addr c + 2 + len \/ w = addr c) (memory h) m'.
Proof.
  intros Hr Hused Hel Hl Hsz m'. pose proof (chunk_ok _ _ _ _ _ _ (hr_shape _ _ _ _ Hr)) as Hc.
  pose proof Hc as (C1 & C2 & C3 & C4 & C5). unfold ending in C5.
  pose proof (hr_lim _ _ _ _ Hr) as [Hl1 Hl2]. pose proof (hr_base _ _ _ _ Hr) as [Hb1 Hb2].
  destruct (two_tiles base lim c len false false Hc Hel Hl Hsz) as [HX Hx].
  assert (changes (fun w => w = addr c + 2 + len \/ w = addr c) (memory h) m') as Hch.
  { exact (changes_trans _ _ _ _ _ (changes_put _ _ (memory h) Hx) (changes_put (addr c) _ _ C2)). }
  assert (forall w, w = addr c + 2 + len \/ w = addr c -> addr c <= w /\ w + 2 <= ending c) as HP.
  { unfold ending. intros w [->| ->]; lia. }
  assert (tiles (addr c) [c] (ending c)) as HY by done.
  destruct (part_lists base lim cs1 c [] cs2 h _ m' _ (hr_shape _ _ _ _ Hr) HY Hch HP) as [Hf1 Hf2].
  split; [|done]. split.
  - apply (regroup base lim cs1 c [] cs2 h _ m' _ (hr_shape _ _ _ _ Hr) HY Hch HP [_; _] HX).
    constructor; [|constructor; [|done]]; cbn; unfold m'.
    + rewrite word_put_eq, wrapu_id; [done|]. unfold in_u. lia.
    + rewrite word_put_ne by (done || lia). rewrite word_put_eq, wrapu_id; [done|]. unfold in_u. lia.
  - pose proof (hr_free _ _ _ _ Hr) as Hf. rewrite frees_mid, Hused in Hf. apply flist_app in Hf as (p & H1 & H2).
    rewrite filter_app, !filter_cons_False by done. apply flist_app. exists p. split; [by apply Hf1|by apply Hf2].
  - pose proof (hr_sep _ _ _ _ Hr) as Hsep. apply separated_app in Hsep as [H1 H2]. rewrite Hused in H1, H2.
    by apply separated_app.
Qed.

(** a shrinking [realloc] returns the same block: the bytes that stay and
    the other chunks in use are unchanged, and what is cut off is released as
    by [free], unless it could not be a chunk, when the block keeps its size. *)
Theorem realloc_shrinks base cs1 c cs2 h r len fuel :
  heap_rep base (heap_limit r) (cs1 ++ c :: cs2) h -> is_free c = false -> evenz len -> 2 <= len <= size c ->
  (S (length (cs1 ++ c :: cs2)) < fuel)%nat ->
  exists h', realloc fuel r (addr c + 2) len h = Ret (addr c + 2) h' /\
    heap_rep base (heap_limit r)
      (if too_small c len then cs1 ++ c :: cs2
       else trim (coalesce (cs1 ++ first_part c len :: released (rest_part c len) :: cs2))) h' /\
    payload_kept (cs1 ++ cs2) (memory h) (memory h') /\
    (forall a, addr c + 2 <= a < addr c + 2 + len -> memory h' !! a = memory h !! a).
Proof.
  intros Hr Hused Hel Hl Hfuel. pose proof (chunk_ok _ _ _ _ _ _ (hr_shape _ _ _ _ Hr)) as Hc.
  pose proof Hc as (C1 & C2 & C3 & C4 & C5). unfold ending in C5.
  pose proof (hr_lim _ _ _ _ Hr) as [Hl1 Hl2]. pose proof (hr_base _ _ _ _ Hr) as [Hb1 Hb2].
  pose proof (hr_sizes _ _ _ _ Hr) as Hz. rewrite Forall_forall in Hz.
  assert (forall x, 0 <= x < 2 ^ 16 -> u16 x = x) as Hu by (intros x Hx; by apply wrapu_id).
  assert (realloc fuel r (addr c + 2) len h =
    (if too_small c len then ret (addr c + 2)
     else do! set_sz (addr c + 2 + len) (size c - len - 2); do! set_sz (addr c) len;
          do! free fuel (nx_addr (addr c + 2 + len)); ret (addr c + 2)) h) as ->.
  { unfold realloc, sizeof_size_t, sizeof_freelist. rewrite (proj2 (Z.eqb_neq _ 0)) by lia.
    rewrite (Hu (addr c + 2 + len)), (Hu (addr c + 2 - 2)) by lia. replace (addr c + 2 - 2) with (addr c) by lia.
    rewrite (proj2 (Z.ltb_ge _ _)) by lia.
    rewrite (bind_ret _ _ _ _ _ (sz_ok base _ Hb2 h c Hc (Hz c ltac:(set_solver)))).
    rewrite (proj2 (Z.leb_le len _)) by lia. unfold too_small.
    destruct (Z.leb_spec (size c) 4); [done|]. cbn [orb].
    rewrite (Hu (size c - 4)) by lia. destruct (Z.ltb_spec (size c - 4) len); [done|].
    by rewrite (Hu (size c - len)), (Hu (size c - len - 2)) by lia. }
  destruct (too_small c len) eqn:Ets; [exists h; do 2 (split; [done|]); by split|].
  unfold too_small in Ets. apply orb_false_iff in Ets as [E1%Z.leb_gt E2%Z.ltb_ge].
  destruct (cut_ok _ _ _ _ _ _ len Hr Hused Hel ltac:(lia) ltac:(lia)) as [Hr1 Hch].
  assert (ok base (heap_limit r) (rest_part c len)) as Hrest.
  { destruct (rep_ok _ _ _ _ (hr_shape _ _ _ _ Hr1)) as [Hok _]. rewrite Forall_forall in Hok. apply Hok. set_solver. }
  pose proof (set_sz_ok base _ Hb2 h (rest_part c len) (size c - len - 2) Hrest (hr_alive _ _ _ _ (hr_shape _ _ _ _ Hr))) as Hset.
  cbn [addr rest_part] in Hset. rewrite (bind_ret _ _ _ _ _ Hset). clear Hset.
  set (m1 := put_word (addr c + 2 + len) (size c - len - 2) (memory h)) in *.
  rewrite (bind_ret _ _ _ _ _ (set_sz_ok base _ Hb2 (with_memory m1 h) c len Hc
    (alive_put _ _ _ _ _ (hr_alive _ _ _ _ (hr_shape _ _ _ _ Hr))))).
  set (h1 := with_memory (put_word (addr c) len m1) h) in *.
  pose proof (nx_addr_ok base _ Hb2 Hl2 _ Hrest) as Hnx. cbn [addr rest_part] in Hnx. rewrite Hnx. clear Hnx.
  change (cs1 ++ first_part c len :: rest_part c len :: cs2)
    with (cs1 ++ [first_part c len] ++ rest_part c len :: cs2) in Hr1. rewrite app_assoc in Hr1.
  destruct (release_ok _ _ _ _ _ _ fuel Hr1 eq_refl) as (h' & Ef & Hr' & Hk).
  { rewrite length_app in Hfuel. rewrite !length_app. cbn in Hfuel |- *. lia. }
  cbn [addr rest_part] in Ef. exists h'. split; [|split; [|split]].
  - by rewrite (bind_ret _ _ _ _ _ Ef).
  - by rewrite <- app_assoc in Hr'.
  - intros d Hd Hud a Ha. rewrite (Hk d) by (done || set_solver).
    refine (changes_payload base _ (cs1 ++ Chunk (addr c) (size c) true :: cs2) h _ _ (shape_flag _ _ _ _ _ _ true Hr) Hch _ d _ Hud a Ha);
      [|set_solver].
    intros w Hw. right. exists (Chunk (addr c) (size c) true). split; [set_solver|]. split; [done|]. unfold ending. cbn.
    destruct Hw as [->| ->]; lia.
  - intros a Ha. rewrite (Hk (first_part c len)); [|set_solver|done|unfold ending; cbn; lia].
    apply (ch_byte _ _ _ Hch). intros w [->| ->]; lia.
Qed.

(** Two chunks in use. *)
Definition used_heap : heap_t := Heap (put_word 522 4 (put_word 512 8 (blank 512 576))) 528 0.

Lemma used_heap_rep : heap_rep 512 (heap_limit demo_region) [Chunk 512 8 false; Chunk 522 4 false] used_heap.
Proof. split; [split|done|done]; [done|done|done|by repeat constructor|]. do 2 apply alive_put. apply alive_blank. Qed.

Lemma realloc_shrinks_witness : exists h', realloc 4 demo_region 514 4 used_heap = Ret 514 h' /\
  heap_rep 512 (heap_limit demo_region) [Chunk 512 4 false; Chunk 518 2 true; Chunk 522 4 false] h' /\
  payload_kept [Chunk 522 4 false] (memory used_heap) (memory h') /\
  (forall a, 514 <= a < 518 -> memory h' !! a = memory used_heap !! a).
Proof.
  apply (realloc_shrinks 512 [] (Chunk 512 8 false) [Chunk 522 4 false] used_heap demo_region 4 4);
    [exact used_heap_rep|reflexivity|reflexivity|cbn; lia|cbn; lia].
Defined.

(** [realloc] accepts the size 0, which leaves a chunk too small to be in
    the free list: releasing it overwrites the header of the chunk above.  Four
    calls on an empty heap of 64 bytes leave a free chunk of 516 bytes, and the
    next [malloc] writes outside the heap. *)
Theorem realloc_zero_corrupts :
  heap_rep 512 (heap_limit demo_region) [] (Heap (blank 512 576) 512 0) /\
  exists h', (let! p := malloc 10 demo_region 10 in
              let! q := malloc 10 demo_region 4 in
              let! p := realloc 10 demo_region p 0 in
              do! free 10 p; ret (p, q)) (Heap (blank 512 576) 512 0) = Ret (514, 526) h' /\
    __flp h' = 512 /\ sz 512 h' = Ret 516 h' /\ __brkval h' = 530 /\ malloc 10 demo_region 6 h' = Err BadAddr.
Proof.
  split.
  - split; [split|done|done]; [done..|]. apply alive_blank.
  - eexists. split; [vm_compute; reflexivity|]. do 3 (split; [vm_compute; reflexivity|]). vm_compute. reflexivity.
Qed.
