(* ===== verification/MallocGrow.v ===== *)
(** * Growing a block (Malloc.v, [realloc])

    Three ways: into the free chunk above, into the unused memory above the
    topmost chunk, and by moving the contents to a new block. *)

From stdpp Require Import sorting.
From S2P Require Import Prelude Malloc MallocProps MallocFree MallocSpec.

(** ** The walk over the free list *)

(** [realloc] can use the free chunk [d]. *)
Definition usable (c : chunk) (len : Z) (d : chunk) : bool :=
  (addr d =? ending c) && (len - size c <=? size d + 2).

Section walk.
Context (base lim : Z) (cs : list chunk) (h : heap_t) (Hr : heap_rep base lim cs h).
Context (c : chunk) (len : Z) (Hc : ok base lim c) (Hlen : size c < len < 2 ^ 16).

Abbreviation step := (grow_step (addr c + 2) len (addr c) (size c)).

(** What one step does at the free chunk [d]. *)
Lemma grow_step_eq d o s n :
  d ∈ frees cs -> word (memory h) (addr d + 2) = Some n ->
  step (addr d, o, s) h =
  (if usable c len d then
     do! (if 4 <? size d + 2 - (len - size c) then
            do! set_nx (addr c + 2 + len) n;
            do! set_sz (addr c + 2 + len) (size d - (len - size c));
            do! set_sz (addr c) len;
            link o (addr c + 2 + len)
          else
            do! set_sz (addr c) (size c + (size d + 2));
            link o n);
     ret (inr (inl tt))
   else ret (inl (n, addr d, if s <? size d then size d else s))) h.
Proof.
  intros [Hd Hfd]%frees_in Hn. destruct (rep_ok _ _ _ _ (hr_shape _ _ _ _ Hr)) as [Hok Hs].
  pose proof (hr_lim _ _ _ _ Hr) as [Hl1 Hl2]. pose proof (hr_base _ _ _ _ Hr) as [Hb1 Hb2].
  pose proof (hr_sizes _ _ _ _ Hr) as Hz. rewrite Forall_forall in Hok, Hz. pose proof (Hok d Hd) as Hdok.
  pose proof Hc as (C1 & C2 & C3 & C4 & C5). pose proof Hdok as (D1 & D2 & D3 & D4 & D5). unfold ending in C5, D5.
  assert (forall x, 0 <= x < 2 ^ 16 -> u16 x = x) as Hu by (intros x Hx; by apply wrapu_id).
  unfold grow_step. rewrite (proj2 (Z.eqb_neq _ 0)) by lia.
  rewrite (bind_ret _ _ _ _ _ (sz_ok base lim Hb2 h d Hdok (Hz d Hd))), (bind_ret _ _ _ _ _ (nx_ok base lim Hb2 Hl2 h d n Hdok Hn)).
  rewrite (u16_sum _ c base lim Hc Hb2 Hl2 eq_refl). unfold sizeof_size_t, sizeof_freelist.
  rewrite (Hu (len - size c)), (Hu (size d + 2)) by lia. fold (usable c len d).
  destruct (usable c len d) eqn:Eu; [|done].
  unfold usable in Eu. apply andb_prop in Eu as [Ea%Z.eqb_eq Ei%Z.leb_le].
  rewrite (Hu (size d + 2 - (len - size c))) by lia. unfold ending in Ea.
  destruct (Z.ltb_spec 4 (size d + 2 - (len - size c))).
  - by rewrite (Hu (addr c + 2 + len)), (Hu (size d - (len - size c))) by lia.
  - by rewrite (Hu (size c + (size d + 2))) by lia.
Qed.

Lemma grow_walk mid : forall pre p q s n,
  (forall d, d ∈ mid -> d ∈ frees cs /\ usable c len d = false) -> flist (memory h) p mid q -> (length mid <= n)%nat ->
  exists s', loop n step (p, last_addr pre, s) h = loop (n - length mid) step (q, last_addr (pre ++ mid), s') h /\
    (s' = s \/ exists d, d ∈ mid /\ s' = size d).
Proof.
  induction mid as [|d mid IH]; intros pre p q s n Hmid Hf Hn; cbn in Hf, Hn.
  { subst p. exists s. rewrite app_nil_r, Nat.sub_0_r. auto. }
  destruct Hf as (-> & m & Hm & Hf). destruct n as [|n]; [lia|].
  destruct (Hmid d ltac:(set_solver)) as [Hd Hu]. pose proof (grow_step_eq d (last_addr pre) s m Hd Hm) as Hstep.
  rewrite Hu in Hstep. rewrite (loop_next _ _ _ _ _ _ Hstep). cbn [length Nat.sub].
  destruct (IH (pre ++ [d]) m q (if s <? size d then size d else s) n) as (s' & E & Hs);
    [intros x Hx; apply Hmid; set_solver|done|lia|].
  exists s'. unfold last_addr at 1 in E. rewrite last_snoc, <- app_assoc in E. split; [exact E|].
  destruct Hs as [->|(x & Hx & ->)]; [|right; exists x; set_solver].
  destruct (s <? size d); [right; exists d; set_solver|by left].
Qed.
End walk.

(** ** Into the chunk above *)

(** The block [p] holds what [c] held, it has at least [len] bytes, and the
    other chunks in use are as they were. *)
Definition grown (base lim : Z) (cs1 : list chunk) (c : chunk) (cs2 : list chunk) (len : Z) (h : heap_t)
    (p : Z) (h' : heap_t) : Prop :=
  exists cs' c', heap_rep base lim cs' h' /\ payload_kept (cs1 ++ cs2) (memory h) (memory h') /\
    p = addr c' + 2 /\ len <= size c' /\ in_use cs' ≡ₚ c' :: in_use (cs1 ++ cs2) /\
    forall i, 0 <= i < size c -> memory h' !! (p + i) = memory h !! (addr c + 2 + i).

(** The chunks [c] in use and [d] free become [c' :: X], with new words in the
    header of [c] and in [d] only. *)
Lemma redo base lim cs1 c d r h P m1 c' X v :
  heap_rep base lim (cs1 ++ c :: d :: r) h -> is_free c = false -> is_free d = true -> changes P (memory h) m1 ->
  (forall w, P w -> w = addr c \/ (addr d <= w /\ w + 2 <= ending d)) ->
  tiles (addr c) (c' :: X) (ending d) -> Forall (fun x => word m1 (addr x) = Some (size x)) (c' :: X) ->
  is_free c' = false -> flist m1 v (frees (X ++ r)) 0 -> separated false (X ++ r) true ->
  let h' := linked (frees cs1) v (with_memory m1 h) in
  heap_rep base lim (cs1 ++ c' :: X ++ r) h' /\ payload_kept (cs1 ++ r) (memory h) (memory h') /\
  (forall a, addr c + 2 <= a < ending c -> memory h' !! a = memory h !! a).
Proof.
  intros Hr Hc Hd Hch HP HX Hsz Hc' Hf Hsep h'. pose proof (hr_shape _ _ _ _ Hr) as Hs.
  destruct (rep_ok _ _ _ _ Hs) as [Hok Hsort]. rewrite Forall_forall in Hok.
  destruct (Hok c ltac:(set_solver)) as (_ & _ & C3 & C4 & _), (Hok d ltac:(set_solver)) as (_ & _ & D3 & D4 & _).
  assert (addr d = ending c) as Had by (symmetry; by apply (adjacent base lim cs1 c [] d r h)).
  assert (tiles (addr c) [c; d] (ending d)) as HY by done.
  assert (forall w, P w -> addr c <= w /\ w + 2 <= ending d) as HP'.
  { intros w [->|Hw]%HP; unfold ending in *; lia. }
  destruct (part_lists base lim cs1 c [d] r h P m1 _ Hs HY Hch HP') as [Hf1 _].
  pose proof (regroup base lim cs1 c [d] r h P m1 _ Hs HY Hch HP' (c' :: X) HX Hsz) as Hs1. cbn [app] in Hs1.
  pose proof (hr_free _ _ _ _ Hr) as Hl. rewrite filter_app in Hl. apply flist_app in Hl as (q & Hq & _).
  destruct (relink _ _ _ _ _ Hs1 q v (Hf1 _ _ Hq) ltac:(by rewrite filter_cons_False by by rewrite Hc')) as [Hs2 Hf2].
  destruct (linked_writes _ _ _ _ _ Hs1 v) as [Hch2 _]. fold h' in Hs2, Hf2, Hch2. cbn [memory with_memory] in Hch2.
  pose proof (changes_trans _ _ _ _ _ Hch Hch2) as Hch3. cbn beta in Hch3.
  assert (forall w, (P w \/ exists d0, d0 ∈ frees cs1 /\ w = addr d0 + 2) ->
    w = addr c \/ exists x, x ∈ d :: cs1 /\ is_free x = true /\ addr x <= w /\ w + 2 <= ending x) as HP3.
  { intros w [[?|?]%HP|(x & [Hx Hfx]%frees_in & ->)]; [by left|right; exists d; set_solver|].
    right. exists x. split; [set_solver|]. split; [done|]. destruct (Hok x ltac:(set_solver)) as (_ & _ & _ & ? & _).
    unfold ending. lia. }
  split; [split; [done|done|]|split].
  - pose proof (hr_sep _ _ _ _ Hr) as Hsp. apply separated_app in Hsp as [H1 _]. rewrite Hc in H1.
    apply separated_app. by rewrite Hc'.
  - intros x Hx Hu. refine (changes_payload base lim _ h _ _ (shape_flag _ _ _ _ _ _ true Hs) Hch3 _ x _ Hu); [|set_solver].
    intros w [->|(y & Hy & Hfy & Hw)]%HP3; right.
    + exists (Chunk (addr c) (size c) true). split; [set_solver|]. split; [done|]. unfold ending. cbn. lia.
    + exists y. split; [set_solver|]. done.
  - intros a Ha. apply (ch_byte _ _ _ Hch3). intros w [->|(y & Hy & Hfy & Hw)]%HP3; [lia|].
    assert (ending y <= addr c \/ ending c <= addr y); [|lia].
    apply (sorted_others cs1 c (d :: r)); [done|set_solver].
Qed.

Section above.
Context (base lim : Z) (cs1 : list chunk) (c d : chunk) (r : list chunk) (h : heap_t) (len n : Z).
Context (Hr : heap_rep base lim (cs1 ++ c :: d :: r) h) (Hc : is_free c = false) (Hd : is_free d = true).
Context (Hel : evenz len) (Hlen : size c < len < 2 ^ 16) (Hfit : len - size c <= size d + 2).
Context (Hn : word (memory h) (addr d + 2) = Some n).

Lemma above_chunks : ok base lim c /\ ok base lim d /\ addr d = ending c /\ Forall (ok base lim) (frees cs1) /\
  0 < base /\ lim < 2 ^ 16 /\ alive (memory h) base lim.
Proof.
  pose proof (hr_shape _ _ _ _ Hr) as Hs. destruct (rep_ok _ _ _ _ Hs) as [Hok _]. rewrite Forall_forall in Hok.
  split; [apply Hok; set_solver|]. split; [apply Hok; set_solver|].
  split; [symmetry; by apply (adjacent base lim cs1 c [] d r h)|].
  split; [|by split; [apply Hs|split; [apply Hs|apply Hs]]].
  apply Forall_forall. intros x [Hx _]%frees_in. apply Hok. set_solver.
Qed.

Lemma above_rest : flist (memory h) n (frees r) 0 /\ 0 <= n < 2 ^ 16 /\ separated true r true.
Proof.
  destruct (rep_ok _ _ _ _ (hr_shape _ _ _ _ Hr)) as [Hok _]. rewrite Forall_forall in Hok.
  pose proof (hr_free _ _ _ _ Hr) as Hl.
  rewrite filter_app, filter_cons_False, filter_cons_True in Hl by (done || by rewrite Hc).
  apply flist_app in Hl as (q & _ & -> & n' & Hn' & Hl). replace n' with n in * by congruence. split; [done|]. split.
  - eapply (flist_range base lim); [|apply Hr|apply Hr|exact Hl]. apply Forall_forall. intros x [Hx _]%frees_in.
    apply Hok. set_solver.
  - pose proof (hr_sep _ _ _ _ Hr) as Hsp. apply separated_app in Hsp as [_ [_ H2]]. by rewrite Hd in H2.
Qed.

Lemma above_list P m1 : changes P (memory h) m1 -> (forall w, P w -> w < ending d) -> flist m1 n (frees r) 0.
Proof.
  intros Hch HP. destruct above_rest as [Hl _]. destruct (rep_ok _ _ _ _ (hr_shape _ _ _ _ Hr)) as [Hok Hsort].
  rewrite Forall_forall in Hok. eapply flist_ext; [|exact Hl]. intros x [Hx _]%frees_in.
  pose proof (Hok x ltac:(set_solver)) as (_ & Hxe & _). apply (ch_word _ _ _ Hch); [by apply even_2|].
  apply StronglySorted_app in Hsort as (_ & _ & [Hsort _]%StronglySorted_inv).
  apply StronglySorted_inv in Hsort as [_ Hb]. rewrite Forall_forall in Hb. specialize (Hb x Hx).
  unfold below in Hb. intros Hw%HP. lia.
Qed.

(** From the new chunks to the contract. *)
Lemma grown_of c' X h' :
  is_free c' = false -> addr c' = addr c -> len <= size c' -> in_use X = [] ->
  heap_rep base lim (cs1 ++ c' :: X ++ r) h' /\ payload_kept (cs1 ++ r) (memory h) (memory h') /\
    (forall a, addr c + 2 <= a < ending c -> memory h' !! a = memory h !! a) ->
  grown base lim cs1 c (d :: r) len h (addr c + 2) h'.
Proof.
  intros Hc' Ha Hsz HX (Hrep & Hpay & Hcont). exists (cs1 ++ c' :: X ++ r), c'. split; [done|].
  split; [|split; [by rewrite Ha|split; [done|split]]].
  - intros x Hx Hu. apply Hpay; [|done]. assert (x <> d) by congruence. set_solver.
  - rewrite !filter_app, filter_cons_True, filter_cons_False, filter_app, HX by (done || by rewrite Hd).
    by rewrite <- Permutation_middle.
  - intros i Hi. apply Hcont. unfold ending. lia.
Qed.

(** A part of [d] stays free. *)
Lemma grow_split :
  4 < size d + 2 - (len - size c) ->
  exists h', (do! set_nx (addr c + 2 + len) n;
              do! set_sz (addr c + 2 + len) (size d - (len - size c));
              do! set_sz (addr c) len;
              link (last_addr (frees cs1)) (addr c + 2 + len)) h = Ret tt h' /\
    grown base lim cs1 c (d :: r) len h (addr c + 2) h'.
Proof.
  intros Hbig. destruct above_chunks as (Hcok & Hdok & Had & Hpre & Hb2 & Hl2 & Hal).
  destruct above_rest as (_ & Hnr & Hsp). pose proof Hcok as (C1 & C2 & C3 & C4 & C5).
  pose proof Hdok as (D1 & D2 & D3 & D4 & D5). unfold ending in *.
  set (cp := addr c + 2 + len). set (d' := Chunk cp (size d - (len - size c)) true).
  assert (evenz cp) as Hcp by (unfold cp; clear -C2 Hel; zlia).
  assert (evenz (size d - (len - size c))) as Hd'e by (clear -D3 C3 Hel; zlia).
  assert (ok base lim d') as Hd' by (unfold ok, ending; cbn; unfold cp; repeat split; done || lia).
  pose proof (set_nx_ok base lim Hb2 Hl2 h d' n Hd' Hal) as H1. cbn [addr d'] in H1.
  set (m_a := put_word (cp + 2) n (memory h)) in *.
  pose proof (alive_put (cp + 2) n (memory h) base lim Hal) as Hal_a. fold m_a in Hal_a.
  pose proof (set_sz_ok base lim Hb2 (with_memory m_a h) d' (size d - (len - size c)) Hd' Hal_a) as H2.
  cbn [addr d' memory with_memory] in H2. set (m_b := put_word cp (size d - (len - size c)) m_a) in *.
  pose proof (alive_put cp (size d - (len - size c)) m_a base lim Hal_a) as Hal_b. fold m_b in Hal_b.
  pose proof (set_sz_ok base lim Hb2 (with_memory m_b h) c len Hcok Hal_b) as H3. set (m1 := put_word (addr c) len m_b).
  pose proof (link_ok base lim Hb2 Hl2 (with_memory m1 h) _ cp Hpre (alive_put _ _ _ _ _ Hal_b)) as H4.
  exists (linked (frees cs1) cp (with_memory m1 h)).
  split; [by rewrite (bind_ret _ _ _ _ _ H1), (bind_ret _ _ _ _ _ H2), (bind_ret _ _ _ _ _ H3)|].
  pose proof (changes_trans _ _ _ _ _ (changes_trans _ _ _ _ _ (changes_put (cp + 2) n (memory h) (even_2 _ Hcp))
    (changes_put cp (size d - (len - size c)) m_a Hcp)) (changes_put (addr c) len m_b C2)) as Hch. cbn beta in Hch.
  apply (grown_of (Chunk (addr c) len false) [d']); [done|done|cbn; lia|done|].
  apply (redo base lim cs1 c d r h _ m1 _ [d'] cp Hr Hc Hd Hch); [| | |done| |done].
  - unfold ending, cp. intros w [[->| ->]| ->]; [right; lia|right; lia|by left].
  - cbn. unfold ending. cbn. unfold cp. split; [done|]. split; [done|]. split; [lia|]. split; [done|]. split; [done|]. lia.
  - constructor; [|constructor; [|done]]; cbn; unfold m1.
    + rewrite word_put_eq, wrapu_id; [done|]. unfold in_u. lia.
    + unfold m_b. rewrite word_put_ne by (done || unfold cp; lia). rewrite word_put_eq, wrapu_id; [done|].
      unfold in_u. lia.
  - cbn [app]. rewrite filter_cons_True by done. split; [done|]. exists n. split.
    + cbn. unfold m1, m_b. rewrite !word_put_ne; try done; try (by apply even_2); try (unfold cp; lia).
      unfold m_a. by rewrite word_put_eq, wrapu_id.
    + apply (above_list _ m1 Hch). unfold ending, cp. intros w [[->| ->]| ->]; lia.
Qed.

(** All of [d] is used. *)
Lemma grow_whole :
  exists h', (do! set_sz (addr c) (size c + (size d + 2)); link (last_addr (frees cs1)) n) h = Ret tt h' /\
    grown base lim cs1 c (d :: r) len h (addr c + 2) h'.
Proof.
  destruct above_chunks as (Hcok & Hdok & Had & Hpre & Hb2 & Hl2 & Hal).
  destruct above_rest as (_ & Hnr & Hsp). pose proof Hcok as (C1 & C2 & C3 & C4 & C5).
  pose proof Hdok as (D1 & D2 & D3 & D4 & D5). unfold ending in *. set (m1 := put_word (addr c) (size c + (size d + 2)) (memory h)).
  exists (linked (frees cs1) n (with_memory m1 h)). split.
  { rewrite (bind_ret _ _ _ _ _ (set_sz_ok base lim Hb2 h c _ Hcok Hal)).
    by apply (link_ok base lim Hb2 Hl2 (with_memory m1 h) _ n Hpre), alive_put. }
  pose proof (changes_put (addr c) (size c + (size d + 2)) (memory h) C2) as Hch. fold m1 in Hch.
  apply (grown_of (Chunk (addr c) (size c + (size d + 2)) false) []); [done|done|cbn; lia|done|].
  apply (redo base lim cs1 c d r h _ m1 _ [] n Hr Hc Hd Hch); [| | |done| |].
  - intros w ->. by left.
  - cbn. unfold ending. cbn. split; [done|]. split; [clear -C3 D3; zlia|]. lia.
  - constructor; [|done]. cbn. unfold m1. rewrite word_put_eq, wrapu_id; [done|]. unfold in_u. lia.
  - apply (above_list _ m1 Hch). unfold ending. intros w ->. lia.
  - by eapply separated_false.
Qed.
End above.

(** ** Above the topmost chunk *)

Lemma grow_top base lim cs1 c h len :
  heap_rep base lim (cs1 ++ [c]) h -> is_free c = false -> evenz len -> size c < len ->
  addr c + 2 + len <= lim ->
  grown base lim cs1 c [] len h (addr c + 2)
    (with_memory (put_word (addr c) len (memory h)) (with_brkval (addr c + 2 + len) h)).
Proof.
  intros Hr Hc Hel Hlen Hroom. pose proof (hr_shape _ _ _ _ Hr) as Hs.
  pose proof (chunk_ok _ _ _ _ _ _ Hs) as (C1 & C2 & C3 & C4 & C5). unfold ending in C5.
  pose proof (hr_lim _ _ _ _ Hr) as [Hl1 Hl2]. pose proof (hr_base _ _ _ _ Hr) as [Hb1 Hb2].
  pose proof (changes_put (addr c) len (memory h) C2) as Hch.
  assert (forall w, w = addr c -> addr c <= w /\ w + 2 <= ending c) as HP by (unfold ending; intros w ->; lia).
  assert (tiles (addr c) [c] (ending c)) as HY by done.
  destruct (part_tiles base lim cs1 c [] [] h _ Hs HY) as [Ht _].
  destruct (part_lists base lim cs1 c [] [] h _ _ _ Hs HY Hch HP) as [Hf1 _].
  set (c' := Chunk (addr c) len false). exists (cs1 ++ [c']), c'.
  split; [split; [split|..]|split; [|split; [done|split; [done|split]]]].
  - done.
  - apply tiles_app. exists (addr c). split; [done|]. cbn. split; [done|]. split; [done|]. split; [lia|done].
  - cbn. lia.
  - pose proof (hr_sizes _ _ _ _ Hr) as Hz. apply Forall_app in Hz as [Hz _]. apply Forall_app. split.
    + rewrite Forall_forall in Hz |- *. intros d Hd.
      destruct (part_words base lim cs1 c [] [] h _ _ _ Hs HY Hch HP d (or_introl Hd)) as [H _]. cbn. rewrite H. by apply Hz.
    + constructor; [|done]. cbn. rewrite word_put_eq, wrapu_id; [done|]. unfold in_u. lia.
  - apply (ch_alive _ _ _ Hch), Hr.
  - pose proof (hr_free _ _ _ _ Hr) as Hf. rewrite filter_app, filter_cons_False, app_nil_r in Hf by by rewrite Hc.
    rewrite filter_app, filter_cons_False, app_nil_r by done. by apply Hf1.
  - pose proof (hr_sep _ _ _ _ Hr) as Hsp. apply separated_app in Hsp as [H1 _]. rewrite Hc in H1.
    by apply separated_app.
  - intros x Hx Hu a Ha. refine (changes_payload base lim _ h _ _ (shape_flag _ _ _ _ _ _ true Hs) Hch _ x _ Hu a Ha); [|set_solver].
    intros w ->. right. exists (Chunk (addr c) (size c) true). split; [set_solver|]. split; [done|]. unfold ending. cbn. lia.
  - rewrite filter_app, filter_cons_True, app_nil_r by done. by rewrite Permutation_app_comm.
  - intros i Hi. cbn. apply put_word_byte. lia.
Qed.

(** ** Moving *)

Definition bytes_ok (m : bytes) : Prop := forall a v, m !! a = Some v -> 0 <= v < 256.

Lemma heap_memcpy_ok n : forall dst src h,
  0 <= dst -> dst + Z.of_nat n < 2 ^ 16 -> 0 <= src -> src + Z.of_nat n < 2 ^ 16 ->
  (dst + Z.of_nat n <= src \/ src + Z.of_nat n <= dst) ->
  alive (memory h) dst (dst + Z.of_nat n) ->
  (forall a, src <= a < src + Z.of_nat n -> exists v, memory h !! a = Some v /\ 0 <= v < 256) ->
  exists m', memcpy n dst src h = Ret tt (with_memory m' h) /\
    (forall a, a < dst \/ dst + Z.of_nat n <= a -> m' !! a = memory h !! a) /\
    (forall i, 0 <= i < Z.of_nat n -> m' !! (dst + i) = memory h !! (src + i)) /\
    (forall b e, alive (memory h) b e -> alive m' b e).
Proof.
  induction n as [|n IH]; intros dst src h Hd1 Hd2 Hs1 Hs2 Hsep Had Hsrc.
  { exists (memory h). split; [by destruct h|]. split; [done|]. split; [lia|done]. }
  destruct (Hsrc src ltac:(lia)) as (v & Hv & Hvr). destruct (Had dst ltac:(lia)) as [w Hw].
  cbn [memcpy]. rewrite (bind_ret _ _ _ v h); [|by unfold load_byte; rewrite Hv].
  set (h1 := with_memory (<[dst := v]> (memory h)) h).
  rewrite (bind_ret _ _ _ tt h1); [|by unfold store_byte; rewrite Hw, Z.mod_small].
  rewrite !wrapu_id by (unfold in_u; lia).
  destruct (IH (dst + 1) (src + 1) h1) as (m' & E & Hout & Hin & Hal); [lia..| | |].
  - intros a Ha. cbn. apply lookup_insert_is_Some'. right. apply Had. lia.
  - intros a Ha. cbn. rewrite lookup_insert_ne by lia. apply Hsrc. lia.
  - exists m'. split; [done|]. cbn [memory h1 with_memory] in *. split; [|split].
    + intros a Ha. rewrite Hout by lia. apply lookup_insert_ne. lia.
    + intros i Hi. destruct (decide (i = 0)) as [->|Hi0].
      * rewrite !Z.add_0_r, Hout by lia. by rewrite lookup_insert_eq.
      * replace (dst + i) with (dst + 1 + (i - 1)) by lia. rewrite Hin by lia. rewrite lookup_insert_ne by lia. f_equal. lia.
    + intros b e Hbe. apply Hal. intros a Ha. apply lookup_insert_is_Some'. right. by apply Hbe.
Qed.

(** A chunk in use may be written freely behind its header. *)
Lemma write_payload base lim b1 c b2 h m' :
  heap_rep base lim (b1 ++ c :: b2) h -> is_free c = false ->
  (forall a, a < addr c + 2 \/ ending c <= a -> m' !! a = memory h !! a) ->
  (forall b e, alive (memory h) b e -> alive m' b e) ->
  heap_rep base lim (b1 ++ c :: b2) (with_memory m' h).
Proof.
  intros Hr Hc Hout Hal. pose proof (hr_shape _ _ _ _ Hr) as Hs.
  pose proof (chunk_ok _ _ _ _ _ _ Hs) as (C1 & C2 & C3 & C4 & C5).
  set (P := fun w => addr c + 2 <= w /\ w + 2 <= ending c).
  assert (changes P (memory h) m') as Hch.
  { split; [| |done].
    - intros x Hx Hn. unfold word. unfold P, ending in *. rewrite !Hout; [done| |]; zlia.
    - intros x Hx. apply Hout. set (w := addr c + 2 + 2 * ((x - addr c - 2) / 2)).
      specialize (Hx w). unfold P, w, ending in *. zlia. }
  assert (forall w, P w -> addr c <= w /\ w + 2 <= ending c) as HP by (unfold P; lia).
  assert (tiles (addr c) [c] (ending c)) as HY by done.
  destruct (part_lists base lim b1 c [] b2 h _ _ _ Hs HY Hch HP) as [Hf1 Hf2].
  split; [|cbn|apply Hr].
  - apply (regroup base lim b1 c [] b2 h _ _ _ Hs HY Hch HP [c] HY). constructor; [|done].
    rewrite (ch_word _ _ _ Hch); [|done|unfold P; lia].
    pose proof (hr_sizes _ _ _ _ Hr) as Hz. rewrite Forall_forall in Hz. apply Hz. set_solver.
  - pose proof (hr_free _ _ _ _ Hr) as Hf. rewrite frees_mid, Hc in Hf. apply flist_app in Hf as (q & H1 & H2).
    rewrite frees_mid, Hc. apply flist_app. exists q. split; [by apply Hf1|by apply Hf2].
Qed.

Lemma in_use_glue c r : in_use (glue c r) = in_use (c :: r).
Proof.
  destruct r as [|d r]; [done|]. cbn [glue]. destruct (is_free c) eqn:Hc, (is_free d) eqn:Hd; cbn [andb]; try done.
  rewrite !filter_cons_False; [done|by rewrite Hd|by rewrite Hc|done].
Qed.

Lemma in_use_coalesce cs : in_use (coalesce cs) = in_use cs.
Proof.
  induction cs as [|c cs IH]; [done|]. change (coalesce (c :: cs)) with (glue c (coalesce cs)).
  by rewrite in_use_glue, !filter_cons, IH.
Qed.

Lemma in_use_trim cs : in_use (trim cs) = in_use cs.
Proof.
  induction cs as [|c cs IH]; [done|]. change (trim (c :: cs)) with (keep_below c (trim cs)).
  rewrite (filter_cons _ c cs), <- IH. destruct (trim cs) as [|d r]; cbn [keep_below]; [|by rewrite filter_cons].
  destruct (is_free c) eqn:Hc; [by rewrite decide_False|]. by rewrite filter_cons, decide_True.
Qed.

(** Copying [c] to the new block [c'] and releasing it. *)
Lemma move_ok base lim l1 c l2 c' h fuel :
  heap_rep base lim (l1 ++ c :: l2) h -> is_free c = false -> is_free c' = false -> c' ∈ l1 ++ l2 ->
  size c <= size c' -> (length (l1 ++ c :: l2) < fuel)%nat ->
  (forall a v, addr c + 2 <= a < ending c -> memory h !! a = Some v -> 0 <= v < 256) ->
  exists h', (let! z := sz (addr c) in
              do! memcpy (Z.to_nat z) (addr c' + 2) (addr c + 2);
              do! free fuel (addr c + 2);
              ret (addr c' + 2)) h = Ret (addr c' + 2) h' /\
    (exists cs', heap_rep base lim cs' h' /\ in_use cs' = in_use (l1 ++ l2)) /\
    (forall d, d ∈ l1 ++ l2 -> is_free d = false -> d <> c' -> forall a, addr d <= a < ending d ->
       memory h' !! a = memory h !! a) /\
    (forall i, 0 <= i < size c -> memory h' !! (addr c' + 2 + i) = memory h !! (addr c + 2 + i)).
Proof.
  intros Hr Hc Hc' Hin Hsz Hfuel Hbytes. pose proof (hr_shape _ _ _ _ Hr) as Hs.
  destruct (rep_ok _ _ _ _ Hs) as [Hok Hsort]. rewrite Forall_forall in Hok.
  pose proof (Hok c ltac:(set_solver)) as Hcok. pose proof (Hok c' ltac:(set_solver)) as Hcok'.
  pose proof Hcok as (C1 & C2 & C3 & C4 & C5). pose proof Hcok' as (D1 & D2 & D3 & D4 & D5).
  pose proof (hr_lim _ _ _ _ Hr) as [Hl1 Hl2]. pose proof (hr_base _ _ _ _ Hr) as [Hb1 Hb2].
  pose proof (hr_sizes _ _ _ _ Hr) as Hz. rewrite Forall_forall in Hz. pose proof (hr_alive _ _ _ _ Hr) as Hal.
  rewrite (bind_ret _ _ _ _ _ (sz_ok base lim Hb2 h c Hcok (Hz c ltac:(set_solver)))).
  assert (ending c' <= addr c \/ ending c <= addr c') as Hapart by (apply (sorted_others l1 c l2); [done|set_solver]).
  unfold ending in *.
  destruct (heap_memcpy_ok (Z.to_nat (size c)) (addr c' + 2) (addr c + 2) h) as (m1 & Em & Hout & Hcopy & Hal1);
    rewrite ?Z2Nat.id by lia; [lia..| | |].
  { intros a Ha. apply Hal. lia. }
  { intros a Ha. destruct (Hal a ltac:(lia)) as [v Hv]. exists v. split; [done|]. apply (Hbytes a v); [lia|done]. }
  rewrite Z2Nat.id in Hout, Hcopy by lia. rewrite (bind_ret _ _ _ _ _ Em).
  assert (heap_rep base lim (l1 ++ c :: l2) (with_memory m1 h)) as Hr1.
  { assert (c' ∈ l1 ++ c :: l2) as Hin' by set_solver. destruct (list_elem_of_split _ _ Hin') as (b1 & b2 & E).
    rewrite E in Hr |- *. apply write_payload; [done|done| |done]. intros a Ha. unfold ending in Ha. apply Hout. lia. }
  destruct (release_ok _ _ _ _ _ _ fuel Hr1 Hc Hfuel) as (h' & Ef & Hr' & Hk).
  exists h'. split; [by rewrite (bind_ret _ _ _ _ _ Ef)|]. split; [|split].
  - eexists. split; [exact Hr'|]. rewrite in_use_trim, in_use_coalesce, !filter_app, filter_cons_False; [done|done].
  - intros d Hd Hu Hne a Ha. rewrite (Hk d Hd Hu a Ha). cbn. apply Hout.
    destruct (sorted_sep _ c' d Hsort ltac:(set_solver) ltac:(set_solver)) as [?|Hsep]; [congruence|].
    unfold ending in *. lia.
  - intros i Hi. rewrite (Hk c' Hin Hc') by (unfold ending; lia). cbn. by apply Hcopy.
Qed.

(** ** realloc *)

Lemma usable_next base lim cs1 c cs2 h len d :
  heap_shape base lim (cs1 ++ c :: cs2) h -> d ∈ frees (cs1 ++ c :: cs2) -> usable c len d = true ->
  exists l, cs2 = d :: l.
Proof.
  intros Hs [Hd Hf]%frees_in [Ha%Z.eqb_eq _]%andb_prop.
  destruct (rep_ok _ _ _ _ Hs) as [Hok Hsort]. rewrite Forall_forall in Hok.
  destruct (Hok d Hd) as (_ & _ & _ & ? & _), (Hok c ltac:(set_solver)) as (_ & _ & _ & ? & _).
  apply elem_of_app in Hd as [Hd|[->|Hd]%elem_of_cons]; [exfalso|exfalso; unfold ending in *; lia|].
  - apply StronglySorted_app in Hsort as (Hb & _ & _). specialize (Hb d c Hd ltac:(set_solver)).
    unfold below, ending in *. lia.
  - destruct (list_elem_of_split _ _ Hd) as (l & l' & ->).
    apply eq_sym, (adjacent base lim cs1 c l d l' h Hs) in Ha as ->. by exists l'.
Qed.

Lemma grow_found base lim cs1 c d l h len fuel :
  heap_rep base lim (cs1 ++ c :: d :: l) h -> is_free c = false -> is_free d = true -> usable c len d = true ->
  evenz len -> size c < len < 2 ^ 16 -> (length (cs1 ++ c :: d :: l) < fuel)%nat ->
  exists h', grow_in_place fuel (addr c + 2) len (addr c) (size c) h = Ret (inl tt) h' /\
    grown base lim cs1 c (d :: l) len h (addr c + 2) h'.
Proof.
  intros Hr Hc Hfd Hu Hel Hlen Hfuel. pose proof (chunk_ok _ _ _ _ _ _ (hr_shape _ _ _ _ Hr)) as Hcok.
  pose proof (length_filter (fun c => is_free c = true) (cs1 ++ c :: d :: l)) as Hfl.
  rewrite filter_app, length_app, filter_cons_False, filter_cons_True in Hfl by (done || by rewrite Hc). cbn in Hfl.
  pose proof (hr_free _ _ _ _ Hr) as Hf. rewrite filter_app, filter_cons_False, filter_cons_True in Hf by (done || by rewrite Hc).
  apply flist_app in Hf as (q & Hf1 & -> & n & Hn & _).
  unfold grow_in_place. rewrite (bind_ret _ _ _ _ _ (gets_ok _ _)).
  destruct (grow_walk base lim _ h Hr c len Hcok Hlen (frees cs1) [] (__flp h) (addr d) 0 fuel) as (s' & Es & _);
    [|done|lia|].
  { intros x Hx. split; [rewrite filter_app; set_solver|].
    destruct (usable c len x) eqn:Eu; [exfalso|done]. apply andb_prop in Eu as [Ea%Z.eqb_eq _].
    destruct (rep_ok _ _ _ _ (hr_shape _ _ _ _ Hr)) as [Hok Hsort]. apply frees_in in Hx as [Hx _].
    rewrite Forall_forall in Hok. destruct (Hok x ltac:(set_solver)) as (_ & _ & _ & ? & _).
    destruct Hcok as (_ & _ & _ & ? & _).
    apply StronglySorted_app in Hsort as (Hb & _ & _). specialize (Hb x c Hx ltac:(set_solver)).
    unfold below, ending in *. lia. }
  change (last_addr []) with 0 in Es. rewrite Es. cbn [app].
  destruct (fuel - length (frees cs1))%nat as [|k] eqn:Ek; [lia|].
  pose proof (grow_step_eq base lim _ h Hr c len Hcok Hlen d (last_addr (frees cs1)) s' n) as Hstep. rewrite Hu in Hstep.
  pose proof Hu as [_ Hfit%Z.leb_le]%andb_prop.
  assert (exists h', (if 4 <? size d + 2 - (len - size c)
          then do! set_nx (addr c + 2 + len) n; do! set_sz (addr c + 2 + len) (size d - (len - size c));
               do! set_sz (addr c) len; link (last_addr (frees cs1)) (addr c + 2 + len)
          else do! set_sz (addr c) (size c + (size d + 2)); link (last_addr (frees cs1)) n) h = Ret tt h' /\
    grown base lim cs1 c (d :: l) len h (addr c + 2) h') as (h' & Eh & Hg).
  { destruct (Z.ltb_spec 4 (size d + 2 - (len - size c))); [by apply grow_split|by apply grow_whole]. }
  rewrite (bind_ret _ _ _ _ _ Eh) in Hstep. exists h'. split; [|done].
  apply loop_exit, Hstep; [|done]. apply list_elem_of_filter. split; [done|set_solver].
Qed.

Lemma grow_none base lim cs1 c cs2 h len fuel :
  heap_rep base lim (cs1 ++ c :: cs2) h -> size c < len < 2 ^ 16 -> (length (cs1 ++ c :: cs2) < fuel)%nat ->
  (forall d, d ∈ frees (cs1 ++ c :: cs2) -> usable c len d = false) ->
  exists s, grow_in_place fuel (addr c + 2) len (addr c) (size c) h = Ret (inr s) h /\
    (s = 0 \/ exists d, d ∈ cs1 ++ c :: cs2 /\ s = size d).
Proof.
  intros Hr Hlen Hfuel Hno. pose proof (chunk_ok _ _ _ _ _ _ (hr_shape _ _ _ _ Hr)) as Hcok.
  pose proof (length_filter (fun c => is_free c = true) (cs1 ++ c :: cs2)) as Hfl.
  unfold grow_in_place. rewrite (bind_ret _ _ _ _ _ (gets_ok _ _)).
  destruct (grow_walk base lim _ h Hr c len Hcok Hlen (frees (cs1 ++ c :: cs2)) [] (__flp h) 0 0 fuel) as (s' & Es & Hs');
    [auto|apply Hr|lia|].
  change (last_addr []) with 0 in Es. rewrite Es.
  destruct (fuel - length (frees (cs1 ++ c :: cs2)))%nat as [|k] eqn:Ek; [lia|].
  exists s'. split; [by apply loop_exit|]. destruct Hs' as [->|(d & [Hd _]%frees_in & ->)]; eauto.
Qed.

(** The walk: it grows the block into the chunk above, or changes nothing. *)
Lemma grow_in_place_ok base lim cs1 c cs2 h len fuel :
  heap_rep base lim (cs1 ++ c :: cs2) h -> is_free c = false -> evenz len -> size c < len < 2 ^ 16 ->
  (length (cs1 ++ c :: cs2) < fuel)%nat ->
  exists res h', grow_in_place fuel (addr c + 2) len (addr c) (size c) h = Ret res h' /\
    match res with
    | inl _ => grown base lim cs1 c cs2 len h (addr c + 2) h'
    | inr _ => h' = h
    end.
Proof.
  intros Hr Hc Hel Hlen Hfuel.
  destruct (decide (Exists (fun d => usable c len d = true) (frees (cs1 ++ c :: cs2)))) as [Hex|Hno].
  - apply Exists_exists in Hex as (d & Hd & Hu).
    destruct (usable_next _ _ _ _ _ _ _ _ (hr_shape _ _ _ _ Hr) Hd Hu) as (l & ->). apply frees_in in Hd as [_ Hfd].
    destruct (grow_found base lim cs1 c d l h len fuel) as (h' & E & Hg); try done. by exists (inl tt), h'.
  - destruct (grow_none base lim cs1 c cs2 h len fuel Hr Hlen Hfuel) as (s & E & _); [|by exists (inr s), h].
    intros d Hd. destruct (usable c len d) eqn:Eu; [exfalso|done]. apply Hno, Exists_exists. eauto.
Qed.

Lemma in_use_mid l1 c l2 : is_free c = false -> in_use (l1 ++ c :: l2) ≡ₚ c :: in_use (l1 ++ l2).
Proof. intros Hc. rewrite !filter_app, filter_cons_True by done. by rewrite Permutation_middle. Qed.

(** The last way: a new block, a copy, and the old block released. *)
Lemma realloc_moves base cs1 c cs2 h r len fuel :
  heap_rep base (heap_limit r) (cs1 ++ c :: cs2) h -> is_free c = false -> evenz len ->
  size c < len < 2 ^ 16 -> (S (length (cs1 ++ c :: cs2)) < fuel)%nat ->
  (forall a v, addr c + 2 <= a < ending c -> memory h !! a = Some v -> 0 <= v < 256) ->
  exists p h', (let! memp := malloc fuel r len in
                if memp =? 0 then ret 0
                else
                  let! z := sz (addr c) in
                  do! memcpy (Z.to_nat z) memp (addr c + 2);
                  do! free fuel (addr c + 2);
                  ret memp) h = Ret p h' /\
    ((p = 0 /\ heap_rep base (heap_limit r) (cs1 ++ c :: cs2) h' /\
      payload_kept (cs1 ++ c :: cs2) (memory h) (memory h')) \/
     grown base (heap_limit r) cs1 c cs2 len h p h').
Proof.
  intros Hr Hc Hel Hlen Hfuel Hbytes. pose proof (chunk_ok _ _ _ _ _ _ (hr_shape _ _ _ _ Hr)) as (C1 & C2 & C3 & C4 & C5).
  destruct (malloc_ok base _ h r len fuel Hr Hel ltac:(lia) ltac:(lia)) as (p & cs' & h1 & E & Ha & Hr1 & Hk1).
  assert (request len = len) as Hreq by (unfold request; destruct (Z.ltb_spec len 2); lia). rewrite Hreq in Ha.
  rewrite (bind_ret _ _ _ _ _ E). destruct (Z.eqb_spec p 0) as [->|Hp].
  { exists 0, h1. split; [done|]. left. split; [done|].
    by destruct (malloc_zero_same _ _ _ _ _ _ Hr Ha) as [-> _]. }
  pose proof (allocates_length _ _ _ _ _ _ Ha) as Hlen'.
  destruct (allocates_used _ _ _ _ _ _ Ha Hp) as (a1 & c' & a2 & -> & Hc' & -> & Hsz & Hperm & _ & Hin).
  destruct (rep_ok _ _ _ _ (hr_shape _ _ _ _ Hr1)) as [Hok1 Hsort1].
  assert (forall x, x ∈ a1 ++ a2 -> 2 <= size x -> x <> c') as Hne.
  { intros x Hx Hx2 ->. destruct (sorted_others a1 c' a2 c' Hsort1 ltac:(by apply elem_of_app)); unfold ending in *; lia. }
  assert (c ∈ a1 ++ a2) as Hca by (apply Hin; [set_solver|done]).
  assert (c ∈ a1 ++ c' :: a2) as Hca' by set_solver. destruct (list_elem_of_split _ _ Hca') as (l1 & l2 & El).
  assert (c' ∈ l1 ++ l2) as Hin'.
  { assert (c' ∈ l1 ++ c :: l2) as H by (rewrite <- El; set_solver). specialize (Hne c Hca C4). set_solver. }
  rewrite El in Hr1, Hlen'. destruct (move_ok base _ l1 c l2 c' h1 fuel Hr1 Hc Hc' Hin' ltac:(lia) ltac:(lia))
    as (h' & E' & (cs'' & Hr' & Hused) & Hkept & Hcopy).
  { intros a v Hra Hv. apply (Hbytes a v Hra). rewrite <- Hv. symmetry. apply (Hk1 c); [set_solver|done|].
    unfold ending in *. lia. }
  exists (addr c' + 2), h'. split; [done|]. right. exists cs'', c'. split; [done|].
  split; [|split; [done|split; [lia|split]]].
  - intros d Hd Hu a Hra. assert (d ∈ cs1 ++ c :: cs2) as Hd' by set_solver.
    destruct (rep_ok _ _ _ _ (hr_shape _ _ _ _ Hr)) as [Hok Hsort]. rewrite Forall_forall in Hok.
    destruct (Hok d Hd') as (_ & _ & _ & Hd2 & _). specialize (Hin d Hd' Hu). rewrite (Hkept d); [| |done|by apply Hne|done].
    + by apply (Hk1 d).
    + assert (d ∈ l1 ++ c :: l2) as H by (rewrite <- El; set_solver). assert (d <> c); [|set_solver].
      intros ->. destruct (sorted_others cs1 c cs2 c Hsort ltac:(by apply elem_of_app)); unfold ending in *; lia.
  - rewrite Hused. apply (inj (cons c)).
    assert (in_use (a1 ++ c' :: a2) ≡ₚ in_use (l1 ++ c :: l2)) as Hpl by by rewrite El.
    rewrite (in_use_mid a1), (in_use_mid l1) in Hpl by done. rewrite <- Hpl, <- Hperm, (in_use_mid cs1) by done.
    apply Permutation_swap.
  - intros i Hi. rewrite Hcopy by done. apply (Hk1 c); [set_solver|done|]. unfold ending. lia.
Qed.

(** C23 [realloc] of a block in use, that holds bytes, to an even length above
    its size and below 2^16 - 2 returns a block that holds what the old one held: the same, grown
    in place, or another one; the other chunks in use keep their contents and
    the heap stays well formed.  When it returns 0 the chunks and
    the contents of those in use are as before.  (Odd
    lengths misalign the heap as they do in [malloc], and the length 2^16 - 2
    breaks it: [realloc_wraps].) *)
Theorem realloc_grows base cs1 c cs2 h r len fuel :
  heap_rep base (heap_limit r) (cs1 ++ c :: cs2) h -> is_free c = false -> evenz len ->
  size c < len < 2 ^ 16 - 2 -> (S (length (cs1 ++ c :: cs2)) < fuel)%nat ->
  (forall a v, addr c + 2 <= a < ending c -> memory h !! a = Some v -> 0 <= v < 256) ->
  exists p h', realloc fuel r (addr c + 2) len h = Ret p h' /\
    ((p = 0 /\ heap_rep base (heap_limit r) (cs1 ++ c :: cs2) h' /\
      payload_kept (cs1 ++ c :: cs2) (memory h) (memory h')) \/
     grown base (heap_limit r) cs1 c cs2 len h p h').
Proof.
  intros Hr Hc Hel Hlen Hfuel Hbytes. pose proof (hr_shape _ _ _ _ Hr) as Hs.
  pose proof (chunk_ok _ _ _ _ _ _ Hs) as Hcok. pose proof Hcok as (C1 & C2 & C3 & C4 & C5). unfold ending in C5.
  pose proof (hr_lim _ _ _ _ Hr) as [Hl1 Hl2]. pose proof (hr_base _ _ _ _ Hr) as [Hb1 Hb2].
  pose proof (hr_sizes _ _ _ _ Hr) as Hz. rewrite Forall_forall in Hz.
  assert ((0 = 0 /\ heap_rep base (heap_limit r) (cs1 ++ c :: cs2) h /\
      payload_kept (cs1 ++ c :: cs2) (memory h) (memory h)) \/
     grown base (heap_limit r) cs1 c cs2 len h 0 h) as Hzero.
  { left. do 2 (split; [done|]). by intros ? ? ? ? ?. }
  unfold realloc. rewrite (proj2 (Z.eqb_neq _ 0)) by lia.
  replace (u16 (addr c + 2 - sizeof_size_t)) with (addr c)
    by (unfold sizeof_size_t; rewrite wrapu_id; unfold in_u; lia).
  destruct (Z.ltb_spec (u16 (addr c + 2 + len)) (addr c)) as [|Hge]; [by exists 0, h|].
  assert (addr c + 2 + len < 2 ^ 16) as Hnw.
  { destruct (Z.le_gt_cases (2 ^ 16) (addr c + 2 + len)); [exfalso|done].
    revert Hge. unfold wrapu. rewrite <- (Z.mod_unique (addr c + 2 + len) (2 ^ 16) 1 (addr c + 2 + len - 2 ^ 16)); lia. }
  rewrite (wrapu_id 16 (addr c + 2 + len)) by (unfold in_u; lia).
  rewrite (bind_ret _ _ _ _ _ (sz_ok base _ Hb2 h c Hcok (Hz c ltac:(set_solver)))).
  rewrite (proj2 (Z.leb_gt len _)) by lia.
  destruct (grow_in_place_ok base _ cs1 c cs2 h len fuel Hr Hc Hel ltac:(lia) ltac:(lia)) as (res & h' & E & Hres).
  rewrite (bind_ret _ _ _ _ _ E). destruct res as [|s]; [exists (addr c + 2), h'; split; [done|by right]|subst h'].
  rewrite (bind_ret _ _ _ _ _ (gets_ok _ _)), (u16_sum _ c base _ Hcok Hb2 Hl2 eq_refl).
  destruct ((__brkval h =? ending c) && (s <? len)) eqn:Etop.
  - apply andb_prop in Etop as [Eb%Z.eqb_eq _]. apply eq_sym, (topmost _ _ _ _ _ _ Hs) in Eb as ->.
    destruct (Z.ltb_spec (addr c + 2 + len) (heap_limit r)) as [Hroom|]; [|by exists 0, h].
    rewrite (bind_ret _ _ _ _ _ (modify_ok _ _)).
    pose proof (set_sz_ok base _ Hb2 (with_brkval (addr c + 2 + len) h) c len Hcok (hr_alive _ _ _ _ Hr)) as Hset.
    rewrite (bind_ret _ _ _ _ _ Hset). eexists _, _. split; [reflexivity|]. right.
    exact (grow_top base _ cs1 c h len Hr Hc Hel ltac:(lia) ltac:(lia)).
  - apply realloc_moves; [done|done|done|lia|done|done].
Qed.

Lemma realloc_grows_witness : exists p h', realloc 4 demo_region 522 10 demo_heap = Ret p h' /\
  ((p = 0 /\ heap_rep 512 (heap_limit demo_region) demo_chunks h' /\
    payload_kept demo_chunks (memory demo_heap) (memory h')) \/
   grown 512 (heap_limit demo_region) [Chunk 512 6 true] (Chunk 520 4 false) [] 10 demo_heap p h').
Proof.
  apply (realloc_grows 512 [Chunk 512 6 true] (Chunk 520 4 false) [] demo_heap demo_region 10 4);
    [exact demo_heap_rep|reflexivity|reflexivity|cbn; lia|cbn; lia|].
  intros a v Ha. cbn in Ha. unfold ending in Ha. cbn in Ha.
  assert (a = 522 \/ a = 523 \/ a = 524 \/ a = 525) as [->|[->|[->| ->]]] by lia; intros Hv; vm_compute in Hv; injection Hv as <-; lia.
Defined.

(** ** A size that wraps around *)

(** [realloc] rejects a size that would move the end of the block below its
    header, but with the size 2^16 - 2 the end is the header: for the topmost
    block this lowers the break below the block itself and succeeds. *)
Theorem realloc_wraps base cs1 c h r fuel :
  heap_rep base (heap_limit r) (cs1 ++ [c]) h -> is_free c = false -> (length (cs1 ++ [c]) < fuel)%nat ->
  exists h', realloc fuel r (addr c + 2) (2 ^ 16 - 2) h = Ret (addr c + 2) h' /\ __brkval h' = addr c /\
    sz (addr c) h' = Ret (2 ^ 16 - 2) h'.
Proof.
  intros Hr Hc Hfuel. pose proof (hr_shape _ _ _ _ Hr) as Hs.
  pose proof (chunk_ok _ _ _ _ _ _ Hs) as Hcok. pose proof Hcok as (C1 & C2 & C3 & C4 & C5). unfold ending in C5.
  pose proof (hr_lim _ _ _ _ Hr) as [Hl1 Hl2]. pose proof (hr_base _ _ _ _ Hr) as [Hb1 Hb2].
  pose proof (hr_sizes _ _ _ _ Hr) as Hz. rewrite Forall_forall in Hz.
  unfold realloc. rewrite (proj2 (Z.eqb_neq _ 0)) by lia.
  replace (u16 (addr c + 2 - sizeof_size_t)) with (addr c)
    by (unfold sizeof_size_t; rewrite wrapu_id; unfold in_u; lia).
  assert (u16 (addr c + 2 + (2 ^ 16 - 2)) = addr c) as ->.
  { unfold wrapu. symmetry. apply (Z.mod_unique _ _ 1); lia. }
  rewrite (proj2 (Z.ltb_ge (addr c) _)) by lia.
  rewrite (bind_ret _ _ _ _ _ (sz_ok base _ Hb2 h c Hcok (Hz c ltac:(set_solver)))).
  rewrite (proj2 (Z.leb_gt (2 ^ 16 - 2) _)) by lia.
  destruct (grow_none base _ cs1 c [] h (2 ^ 16 - 2) fuel Hr ltac:(lia) Hfuel) as (s & E & Hsmax).
  { intros d Hd. destruct (usable c (2 ^ 16 - 2) d) eqn:Hu; [exfalso|done].
    by destruct (usable_next _ _ _ _ _ _ _ _ Hs Hd Hu). }
  rewrite (bind_ret _ _ _ _ _ E), (bind_ret _ _ _ _ _ (gets_ok _ _)), (u16_sum _ c base _ Hcok Hb2 Hl2 eq_refl).
  assert (s < 2 ^ 16 - 2) as Hslt.
  { destruct Hsmax as [->|(d & Hd & ->)]; [lia|]. destruct (rep_ok _ _ _ _ Hs) as [Hok _].
    rewrite Forall_forall in Hok. destruct (Hok d Hd) as (D1 & D2 & D3 & D4 & D5). unfold ending in D5. lia. }
  rewrite (proj2 (Z.eqb_eq _ _)) by (symmetry; by apply (topmost _ _ _ _ _ _ Hs)).
  rewrite (proj2 (Z.ltb_lt s _)) by done. cbn [andb].
  rewrite (proj2 (Z.ltb_lt (addr c) _)) by lia. rewrite (bind_ret _ _ _ _ _ (modify_ok _ _)).
  pose proof (set_sz_ok base _ Hb2 (with_brkval (addr c) h) c (2 ^ 16 - 2) Hcok (hr_alive _ _ _ _ Hr)) as Hset.
  rewrite (bind_ret _ _ _ _ _ Hset). eexists. split; [reflexivity|]. split; [done|].
  unfold sz. rewrite (proj2 (Z.eqb_neq _ 0)) by lia. apply load_word_ok; [done|]. cbn. by rewrite word_put_eq.
Qed.

Lemma realloc_wraps_witness : exists h', realloc 3 demo_region 522 (2 ^ 16 - 2) demo_heap = Ret 522 h' /\
  __brkval h' = 520 /\ sz 520 h' = Ret (2 ^ 16 - 2) h'.
Proof.
  apply (realloc_wraps 512 [Chunk 512 6 true] (Chunk 520 4 false) demo_heap demo_region 3);
    [exact demo_heap_rep|reflexivity|cbn; lia].
Defined.
