(* ===== verification/Oneway.v ===== *)
(** * The one-way heap (sys/oneway-malloc/oneway-malloc.c)

    The allocator of ports without one of their own: every block comes from
    [sbrk], and none goes back.  It is stated against a specification that
    hands out consecutive blocks. *)

From S2P Require Import Prelude Malloc MallocProps MallocFree MallocSpec MallocRealloc MallocGrow.

(** ** The code *)

(** The library's [memcpy] has no meaning for regions that overlap. *)
Definition copy (dst src size : Z) : M heap_t unit :=
  if (dst <? src + size) && (src <? dst + size) then fail BadAddr
  else memcpy (Z.to_nat size) dst src.

(** [size] is handed to [sbrk] as an [int]; [(void* ) -1] is the failure. *)
Definition malloc (r : region) (size : Z) : M heap_t Z :=
  if size =? 0 then ret 0
  else
    let! ptr := sbrk r (s16 size) in
    ret (if ptr =? 0xFFFF then 0 else ptr).

Definition free (ptr : Z) : M heap_t unit := ret tt.

Definition realloc (r : region) (ptr size : Z) : M heap_t Z :=
  if ptr =? 0 then malloc r size
  else if size =? 0 then do! free ptr; ret 0
  else
    let! newptr := malloc r size in
    do! when (negb (newptr =? 0)) (copy newptr ptr size);
    ret newptr.

Definition calloc (r : region) (size cnt : Z) : M heap_t Z :=
  let! mem := malloc r (u16 (size * cnt)) in
  do! when (negb (mem =? 0)) (memset (Z.to_nat (u16 (size * cnt))) mem 0);
  ret mem.

(** A program that asks for one block after the other. *)
Fixpoint requests (r : region) (sizes : list Z) : M heap_t (list Z) :=
  match sizes with
  | [] => ret []
  | n :: rest => let! p := malloc r n in let! ps := requests r rest in ret (p :: ps)
  end.

(** ** The specification *)

(** From [b] on, blocks below [lim] side by side; 0 where there is no room. *)
Fixpoint grants (b lim : Z) (sizes : list Z) : list Z :=
  match sizes with
  | [] => []
  | n :: rest => if n <=? lim - b then b :: grants (b + n) lim rest else 0 :: grants b lim rest
  end.

(** What the granted blocks add up to. *)
Fixpoint granted (b lim : Z) (sizes : list Z) : Z :=
  match sizes with
  | [] => 0
  | n :: rest => if n <=? lim - b then n + granted (b + n) lim rest else granted b lim rest
  end.

(** The break lies in the heap, which is less than half of the memory. *)
Definition heap_small (r : region) (h : heap_t) : Prop :=
  0 < __brkval h <= heap_limit r /\ heap_limit r < 0xFFFF /\ heap_limit r - __brkval h < 2 ^ 15.

Lemma oneway_malloc_ok r h n :
  heap_small r h -> 0 < n < 2 ^ 15 ->
  malloc r n h = if n <=? heap_limit r - __brkval h then Ret (__brkval h) (with_brkval (__brkval h + n) h) else Ret 0 h.
Proof.
  intros (Hb & Hl & Hs) Hn. unfold malloc. rewrite (proj2 (Z.eqb_neq _ _)) by lia.
  unfold sbrk. fold (heap_limit r). unfold bind, gets, modify, ret.
  rewrite (wraps_id 16 n), (wraps_id 16 (_ - _)) by (unfold in_s; lia). rewrite Z.ltb_antisym. destruct (Z.leb_spec n (heap_limit r - __brkval h)); cbn [negb]; [|done].
  rewrite wrapu_id by (unfold in_u; lia). by rewrite (proj2 (Z.eqb_neq _ _)) by lia.
Qed.

Lemma oneway_small_after r h n : heap_small r h -> 0 < n -> n <= heap_limit r - __brkval h -> heap_small r (with_brkval (__brkval h + n) h).
Proof. unfold heap_small. cbn. lia. Qed.

(** Every block of the specification lies between the break and the limit. *)
Lemma grants_range b lim sizes i p n :
  b <= lim -> Forall (fun n => 0 < n) sizes -> grants b lim sizes !! i = Some p -> sizes !! i = Some n -> p <> 0 ->
  b <= p /\ p + n <= lim.
Proof.
  revert b i. induction sizes as [|x sizes IH]; intros b i Hb Hs Hp Hn H0; [done|]. apply Forall_cons in Hs as [Hx Hs].
  cbn [grants] in Hp. destruct (Z.leb_spec x (lim - b)) as [Hle|]; (destruct i as [|i]; cbn in Hp, Hn).
  - injection Hp as <-. injection Hn as <-. lia.
  - destruct (IH (b + x) i) as [? ?]; [lia|done..|]. lia.
  - congruence.
  - by apply (IH b i).
Qed.

Lemma grants_apart b lim sizes i j p n q m :
  b <= lim -> Forall (fun n => 0 < n) sizes -> (i < j)%nat ->
  grants b lim sizes !! i = Some p -> sizes !! i = Some n -> p <> 0 ->
  grants b lim sizes !! j = Some q -> sizes !! j = Some m -> q <> 0 -> p + n <= q.
Proof.
  revert b i j. induction sizes as [|x sizes IH]; intros b i j Hb Hs Hij Hp Hn H0 Hq Hm H1; [done|].
  apply Forall_cons in Hs as [Hx Hs]. destruct j as [|j]; [lia|].
  cbn [grants] in Hp, Hq. destruct (Z.leb_spec x (lim - b)) as [Hle|]; (destruct i as [|i]; cbn in Hp, Hq, Hn, Hm).
  - injection Hp as <-. injection Hn as <-. by apply (grants_range (b + x) lim sizes j q m); [lia|..].
  - apply (IH (b + x) i j); [lia|done|lia|done..].
  - congruence.
  - apply (IH b i j); [lia|done|lia|done..].
Qed.

(** ** Properties *)

(** A program that asks for blocks of less than half of the memory is given
    exactly what the specification grants: blocks one behind the other inside
    the heap, no two of them overlapping, and null where the rest of the heap
    is too small; the memory itself is not touched. *)
Theorem oneway_blocks r h sizes :
  heap_small r h -> Forall (fun n => 0 < n < 2 ^ 15) sizes ->
  let ps := grants (__brkval h) (heap_limit r) sizes in
  requests r sizes h = Ret ps (with_brkval (__brkval h + granted (__brkval h) (heap_limit r) sizes) h) /\
  (forall i p n, ps !! i = Some p -> sizes !! i = Some n -> p <> 0 -> __brkval h <= p /\ p + n <= heap_limit r) /\
  (forall i j p n q m, (i < j)%nat -> ps !! i = Some p -> sizes !! i = Some n -> p <> 0 ->
     ps !! j = Some q -> sizes !! j = Some m -> q <> 0 -> p + n <= q).
Proof.
  intros Hh Hs ps. assert (Forall (fun n => 0 < n) sizes) as Hpos by (eapply Forall_impl; [exact Hs|]; cbn; lia).
  split; [|split].
  - clear Hpos. subst ps. revert h Hh. induction Hs as [|n sizes Hn Hs IH]; intros h Hh.
    { cbn. rewrite Z.add_0_r. by destruct h. }
    cbn [requests grants granted]. pose proof (oneway_malloc_ok r h n Hh Hn) as E.
    destruct (Z.leb_spec n (heap_limit r - __brkval h)) as [Hle|Hgt].
    + rewrite (bind_ret _ _ _ _ _ E), (bind_ret _ _ _ _ _ (IH _ (oneway_small_after r h n Hh ltac:(lia) Hle))).
      by rewrite Z.add_assoc.
    + by rewrite (bind_ret _ _ _ _ _ E), (bind_ret _ _ _ _ _ (IH h Hh)).
  - intros i p n. apply grants_range; [apply Hh|done].
  - intros i j p n q m. apply grants_apart; [apply Hh|done].
Qed.

(** [realloc] does not know the size of the old block: it copies as many
    bytes as are asked for.  If that many bytes lie behind the old block
    below the break, they are the contents of the new block; if not, the
    regions overlap, which [memcpy] excludes, so that a block can never be
    made larger while it is the last one. *)
Theorem oneway_realloc r h ptr size :
  heap_small r h -> 0 < size < 2 ^ 15 -> size <= heap_limit r - __brkval h -> 0 < ptr < __brkval h ->
  (forall a, ptr <= a < heap_limit r -> exists v, memory h !! a = Some v /\ 0 <= v < 256) ->
  (ptr + size <= __brkval h -> exists h', realloc r ptr size h = Ret (__brkval h) h' /\
     __brkval h' = __brkval h + size /\
     (forall i, 0 <= i < size -> memory h' !! (__brkval h + i) = memory h !! (ptr + i)) /\
     (forall a, a < __brkval h \/ __brkval h + size <= a -> memory h' !! a = memory h !! a)) /\
  (__brkval h < ptr + size -> realloc r ptr size h = Err BadAddr).
Proof.
  intros Hh Hn Hle Hp Hm. pose proof Hh as (Hb & Hl & _). pose proof (oneway_malloc_ok r h size Hh Hn) as E.
  rewrite (proj2 (Z.leb_le _ _)) in E by lia. unfold realloc.
  rewrite (proj2 (Z.eqb_neq ptr 0)), (proj2 (Z.eqb_neq size 0)), (bind_ret _ _ _ _ _ E), (proj2 (Z.eqb_neq (__brkval h) 0)) by lia.
  cbn [negb when]. unfold copy. set (h1 := with_brkval (__brkval h + size) h). split; intros Hs.
  - rewrite (proj2 (Z.ltb_ge _ _)) by lia. cbn [andb].
    destruct (heap_memcpy_ok (Z.to_nat size) (__brkval h) ptr h1) as (m' & Em & Hout & Hin & _);
      rewrite ?Z2Nat.id by lia; [lia..| | |].
    { intros a Ha. destruct (Hm a) as (v & Hv & _); [lia|]. by exists v. }
    { intros a Ha. apply Hm. lia. }
    rewrite Z2Nat.id in Hout, Hin by lia. rewrite (bind_ret _ _ _ _ _ Em). by eexists.
  - by rewrite (proj2 (Z.ltb_lt _ _)), (proj2 (Z.ltb_lt _ _)) by lia.
Qed.

(** A size of half of the memory or more becomes a negative [int]: the break
    goes down, and the "block" that is handed out ends below its start; the
    blocks that follow lie over those handed out before. *)
Theorem oneway_large_sizes r h size :
  heap_small r h -> 2 ^ 15 <= size < 2 ^ 16 -> 2 ^ 16 - size <= __brkval h ->
  malloc r size h = Ret (__brkval h) (with_brkval (__brkval h - (2 ^ 16 - size)) h).
Proof.
  intros (Hb & Hl & Hs) Hn Hlow. unfold malloc. rewrite (proj2 (Z.eqb_neq _ _)) by lia.
  assert (s16 size = size - 2 ^ 16) as En.
  { unfold wraps. change (2 ^ (16 - 1)) with (2 ^ 15). rewrite <- (Z.mod_unique (size + 2 ^ 15) (2 ^ 16) 1 (size + 2 ^ 15 - 2 ^ 16)); lia. }
  unfold sbrk. fold (heap_limit r). unfold bind, gets, modify, ret.
  rewrite En, (wraps_id 16 (_ - _)) by (unfold in_s; lia). rewrite (proj2 (Z.ltb_ge _ _)) by lia.
  rewrite wrapu_id by (unfold in_u; lia). rewrite (proj2 (Z.eqb_neq _ _)) by lia. by replace (__brkval h + (size - 2 ^ 16)) with (__brkval h - (2 ^ 16 - size)) by lia.
Qed.

(** ** Witnesses *)

Definition demo_region : region := Region 0x300 0x400 0.
Definition demo_heap : heap_t := Heap (list_to_map ((fun a => (a, a mod 256)) <$> seqZ 0x300 0x100)) 0x300 0.

Lemma demo_small : heap_small demo_region demo_heap.
Proof. unfold heap_small. cbn. lia. Qed.

Lemma oneway_blocks_witness :
  requests demo_region [100; 200; 50] demo_heap = Ret [0x300; 0; 0x364] (with_brkval 0x396 demo_heap).
Proof. exact (proj1 (oneway_blocks demo_region demo_heap [100; 200; 50] demo_small ltac:(repeat constructor; lia))). Defined.

Lemma oneway_realloc_witness : exists p h1, malloc demo_region 10 demo_heap = Ret p h1 /\
  realloc demo_region p 11 h1 = Err BadAddr.
Proof.
  exists 0x300, (with_brkval 0x30A demo_heap). split; [vm_compute; reflexivity|].
  refine (proj2 (oneway_realloc demo_region (with_brkval 0x30A demo_heap) 0x300 11 _ _ _ _ _) _); [unfold heap_small; cbn; lia|lia|cbn; lia|cbn; lia| |cbn; lia].
  intros a Ha. cbn in Ha. exists (a mod 256). split; [|apply Z.mod_pos_bound; lia].
  apply elem_of_list_to_map_1; [apply (bool_decide_eq_true_1 _); vm_compute; reflexivity|].
  apply list_elem_of_fmap. exists a. split; [done|]. apply elem_of_seqZ. lia.
Defined.

Lemma oneway_large_sizes_witness :
  malloc demo_region 65532 (with_brkval 0x30A demo_heap) = Ret 0x30A (with_brkval 0x306 (with_brkval 0x30A demo_heap)).
Proof. apply (oneway_large_sizes demo_region (with_brkval 0x30A demo_heap) 65532); [unfold heap_small; cbn; lia|lia|cbn; lia]. Defined.
