(* ===== verification/KState.v ===== *)
(** * The state of the kernel

    The scheduler module ([sancus_sm_timer]) owns the thread table, the run
    queues, the software timers and the hardware timer.  This file gives
    that state as records, the addresses its pointers take, and the accesses
    the C code performs on it.  The functions follow in RunQueue, Mintimer,
    Sched, Cpu, Thread and Mutex. *)

From S2P Require Import Prelude Clist.

(** ** Constants of the configuration *)

Definition SCHED_PRIO_LEVELS : Z := 16.
Definition SCHED_PROTECTED_PRIO_LEVELS : Z := 1.
Definition SCHED_PERIODIC_PRIO_LEVEL : Z := 1.
Definition SCHED_MAX_PRIO_LEVEL_UNPROTECTED : Z :=
  SCHED_PROTECTED_PRIO_LEVELS + SCHED_PERIODIC_PRIO_LEVEL + 1.
Definition SCHEDULER_OVERHEAD_RUN : Z := 300.
Definition MAXTHREADS : Z := 32.
Definition KERNEL_PID_UNDEF : Z := 0.
Definition KERNEL_PID_FIRST : Z := KERNEL_PID_UNDEF + 1.
Definition KERNEL_PID_LAST : Z := KERNEL_PID_FIRST + MAXTHREADS - 1.

(** ** Threads *)

Inductive thread_status : Type :=
  | STATUS_STOPPED | STATUS_SLEEPING | STATUS_MUTEX_BLOCKED | STATUS_RECEIVE_BLOCKED
  | STATUS_SEND_BLOCKED | STATUS_REPLY_BLOCKED | STATUS_FLAG_BLOCKED_ANY
  | STATUS_FLAG_BLOCKED_ALL | STATUS_MBOX_BLOCKED | STATUS_COND_BLOCKED
  | STATUS_RUNNING | STATUS_PENDING | STATUS_NUMOF.

#[export] Instance thread_status_eq_dec : EqDecision thread_status.
Proof. solve_decision. Defined.

(** The value of the enumeration constant. *)
Definition status_code (s : thread_status) : Z :=
  match s with
  | STATUS_STOPPED => 0 | STATUS_SLEEPING => 1 | STATUS_MUTEX_BLOCKED => 2
  | STATUS_RECEIVE_BLOCKED => 3 | STATUS_SEND_BLOCKED => 4 | STATUS_REPLY_BLOCKED => 5
  | STATUS_FLAG_BLOCKED_ANY => 6 | STATUS_FLAG_BLOCKED_ALL => 7 | STATUS_MBOX_BLOCKED => 8
  | STATUS_COND_BLOCKED => 9 | STATUS_RUNNING => 10 | STATUS_PENDING => 11 | STATUS_NUMOF => 12
  end.
Definition STATUS_ON_RUNQUEUE : thread_status := STATUS_RUNNING.
Definition STATUS_NOT_FOUND : Z := -1.

(** [st >= STATUS_ON_RUNQUEUE]. *)
Definition on_runqueue (s : thread_status) : bool :=
  status_code STATUS_ON_RUNQUEUE <=? status_code s.

Record thread_t : Type := Thread {
  is_sm : bool;
  sp : Z;
  sm_idx : Z;
  status : thread_status;
  priority : Z;
  pid : Z;
  in_use : bool;
  sm_entry : Z;
  period : Z;
  runtime : Z;
  last_reference : Z;
  last_runtime : Z;
  original_idx : Z
}.

(** ** Addresses *)

(** List nodes: the [rq_entry] of a thread, the head of a run queue, the
    queue of a mutex or another wait list, and the constant [mutex_LOCKED]
    (the address -1, where no object is). *)
Inductive knode : Type :=
  | NThread (i : Z) | NRunq (p : Z) | NMutex (m : Z) | NWait (l : Z) | NLocked.

#[export] Instance knode_eq_dec : EqDecision knode.
Proof. solve_decision. Defined.
#[export] Instance knode_countable : Countable knode.
Proof.
  refine (inj_countable'
    (fun n => match n with
              | NThread i => inl (inl i) | NRunq p => inl (inr p)
              | NMutex m => inr (inl (inl m)) | NWait l => inr (inl (inr l)) | NLocked => inr (inr tt)
              end)
    (fun c => match c with
              | inl (inl i) => NThread i | inl (inr p) => NRunq p
              | inr (inl (inl m)) => NMutex m | inr (inl (inr l)) => NWait l | inr (inr tt) => NLocked
              end) _).
  by intros [].
Defined.

(** Cells that hold a pointer to a software timer: the three list heads, the
    [next] field of an element of [secure_mintimer_timer_list], and that of
    [scheduler_timer]. *)
Inductive tnode : Type := HTimer | HOverflow | HLong | TSlot (i : Z) | TSched.

#[export] Instance tnode_eq_dec : EqDecision tnode.
Proof. solve_decision. Defined.
#[export] Instance tnode_countable : Countable tnode.
Proof.
  refine (inj_countable'
    (fun n => match n with
              | HTimer => inl 0 | HOverflow => inl 1 | HLong => inl 2
              | TSched => inl 3 | TSlot i => inr i
              end)
    (fun c => match c with
              | inl 0 => HTimer | inl 1 => HOverflow | inl 2 => HLong
              | inl _ => TSched | inr i => TSlot i
              end) _).
  by intros [].
Defined.

(** ** The records *)

Record sched_t : Type := Sched {
  sched_threads : list thread_t;
  rq : gmap knode (option knode);
  runqueue_bitcache : Z;
  sched_active_thread : option Z;      (* index into sched_threads *)
  sched_active_pid : Z;
  sched_num_threads : Z;
  sched_context_switch_request : Z;
  initialization_done : bool;
  scheduler_entry : Z
}.

Record timers_t : Type := Timers {
  t_next : gmap tnode (option tnode);
  t_target : gmap tnode Z;
  t_long_target : gmap tnode Z;
  t_thread : gmap tnode (option Z);    (* index into sched_threads *)
  _long_cnt : Z;
  _secure_mintimer_high_cnt : Z;
  _in_handler : Z
}.

(** The counter register changes on its own: the [n]-th read of it returns
    [clock n]. *)
Record hw_t : Type := Hw {
  clock : nat -> Z;
  reads : nat;
  CTL : Z;
  CCTL : list Z;
  CCR : list Z;
  isr_cb : bool;                       (* _periph_timer_callback registered *)
  __sm_irq_is_in : Z;
  __unprotected_sp : Z
}.

Record kst : Type := K { sch : sched_t; tmr : timers_t; hw : hw_t }.

(** ** Updates *)

Definition set_status (s : thread_status) (t : thread_t) : thread_t :=
  Thread (is_sm t) (sp t) (sm_idx t) s (priority t) (pid t) (in_use t) (sm_entry t)
         (period t) (runtime t) (last_reference t) (last_runtime t) (original_idx t).
Definition set_in_use (b : bool) (t : thread_t) : thread_t :=
  Thread (is_sm t) (sp t) (sm_idx t) (status t) (priority t) (pid t) b (sm_entry t)
         (period t) (runtime t) (last_reference t) (last_runtime t) (original_idx t).
Definition set_is_sm (b : bool) (t : thread_t) : thread_t :=
  Thread b (sp t) (sm_idx t) (status t) (priority t) (pid t) (in_use t) (sm_entry t)
         (period t) (runtime t) (last_reference t) (last_runtime t) (original_idx t).
Definition set_sp (v : Z) (t : thread_t) : thread_t :=
  Thread (is_sm t) v (sm_idx t) (status t) (priority t) (pid t) (in_use t) (sm_entry t)
         (period t) (runtime t) (last_reference t) (last_runtime t) (original_idx t).
Definition set_sm_idx (v : Z) (t : thread_t) : thread_t :=
  Thread (is_sm t) (sp t) v (status t) (priority t) (pid t) (in_use t) (sm_entry t)
         (period t) (runtime t) (last_reference t) (last_runtime t) (original_idx t).
Definition set_sm_entry (v : Z) (t : thread_t) : thread_t :=
  Thread (is_sm t) (sp t) (sm_idx t) (status t) (priority t) (pid t) (in_use t) v
         (period t) (runtime t) (last_reference t) (last_runtime t) (original_idx t).
Definition set_priority (v : Z) (t : thread_t) : thread_t :=
  Thread (is_sm t) (sp t) (sm_idx t) (status t) v (pid t) (in_use t) (sm_entry t)
         (period t) (runtime t) (last_reference t) (last_runtime t) (original_idx t).
Definition set_pid (v : Z) (t : thread_t) : thread_t :=
  Thread (is_sm t) (sp t) (sm_idx t) (status t) (priority t) v (in_use t) (sm_entry t)
         (period t) (runtime t) (last_reference t) (last_runtime t) (original_idx t).
Definition set_period (v : Z) (t : thread_t) : thread_t :=
  Thread (is_sm t) (sp t) (sm_idx t) (status t) (priority t) (pid t) (in_use t) (sm_entry t)
         v (runtime t) (last_reference t) (last_runtime t) (original_idx t).
Definition set_runtime (v : Z) (t : thread_t) : thread_t :=
  Thread (is_sm t) (sp t) (sm_idx t) (status t) (priority t) (pid t) (in_use t) (sm_entry t)
         (period t) v (last_reference t) (last_runtime t) (original_idx t).
Definition set_last_reference (v : Z) (t : thread_t) : thread_t :=
  Thread (is_sm t) (sp t) (sm_idx t) (status t) (priority t) (pid t) (in_use t) (sm_entry t)
         (period t) (runtime t) v (last_runtime t) (original_idx t).
Definition set_last_runtime (v : Z) (t : thread_t) : thread_t :=
  Thread (is_sm t) (sp t) (sm_idx t) (status t) (priority t) (pid t) (in_use t) (sm_entry t)
         (period t) (runtime t) (last_reference t) v (original_idx t).
Definition set_original_idx (v : Z) (t : thread_t) : thread_t :=
  Thread (is_sm t) (sp t) (sm_idx t) (status t) (priority t) (pid t) (in_use t) (sm_entry t)
         (period t) (runtime t) (last_reference t) (last_runtime t) v.

Definition with_threads (l : list thread_t) (s : sched_t) : sched_t :=
  Sched l (rq s) (runqueue_bitcache s) (sched_active_thread s) (sched_active_pid s)
        (sched_num_threads s) (sched_context_switch_request s) (initialization_done s)
        (scheduler_entry s).
Definition with_rq (h : gmap knode (option knode)) (s : sched_t) : sched_t :=
  Sched (sched_threads s) h (runqueue_bitcache s) (sched_active_thread s) (sched_active_pid s)
        (sched_num_threads s) (sched_context_switch_request s) (initialization_done s)
        (scheduler_entry s).
Definition with_bitcache (v : Z) (s : sched_t) : sched_t :=
  Sched (sched_threads s) (rq s) v (sched_active_thread s) (sched_active_pid s)
        (sched_num_threads s) (sched_context_switch_request s) (initialization_done s)
        (scheduler_entry s).
Definition with_active (a : option Z) (s : sched_t) : sched_t :=
  Sched (sched_threads s) (rq s) (runqueue_bitcache s) a (sched_active_pid s)
        (sched_num_threads s) (sched_context_switch_request s) (initialization_done s)
        (scheduler_entry s).
Definition with_active_pid (v : Z) (s : sched_t) : sched_t :=
  Sched (sched_threads s) (rq s) (runqueue_bitcache s) (sched_active_thread s) v
        (sched_num_threads s) (sched_context_switch_request s) (initialization_done s)
        (scheduler_entry s).
Definition with_num_threads (v : Z) (s : sched_t) : sched_t :=
  Sched (sched_threads s) (rq s) (runqueue_bitcache s) (sched_active_thread s)
        (sched_active_pid s) v (sched_context_switch_request s) (initialization_done s)
        (scheduler_entry s).
Definition with_request (v : Z) (s : sched_t) : sched_t :=
  Sched (sched_threads s) (rq s) (runqueue_bitcache s) (sched_active_thread s)
        (sched_active_pid s) (sched_num_threads s) v (initialization_done s) (scheduler_entry s).
Definition with_init_done (e : Z) (s : sched_t) : sched_t :=
  Sched (sched_threads s) (rq s) (runqueue_bitcache s) (sched_active_thread s)
        (sched_active_pid s) (sched_num_threads s) (sched_context_switch_request s) true e.

Definition with_sch (s : sched_t) (k : kst) : kst := K s (tmr k) (hw k).
Definition with_tmr (t : timers_t) (k : kst) : kst := K (sch k) t (hw k).
Definition with_hw (h : hw_t) (k : kst) : kst := K (sch k) (tmr k) h.

(** ** Accesses *)

Definition on_sched {A} (m : M sched_t A) : M kst A := zoom sch with_sch m.
Definition on_timers {A} (m : M timers_t A) : M kst A := zoom tmr with_tmr m.
Definition on_hw {A} (m : M hw_t A) : M kst A := zoom hw with_hw m.
Definition on_rq {A} (m : M (gmap knode (option knode)) A) : M sched_t A := zoom rq with_rq m.

(** [sched_threads[i]]. *)
Definition thread_at (i : Z) : M sched_t thread_t :=
  fun s => match aget (sched_threads s) i with Some t => Ret t s | None => Err OutOfBounds end.
Definition upd_thread (i : Z) (f : thread_t -> thread_t) : M sched_t unit :=
  fun s => match aget (sched_threads s) i with
           | Some t => Ret tt (with_threads (<[Z.to_nat i := f t]> (sched_threads s)) s)
           | None => Err OutOfBounds
           end.

(** [container_of(n, thread_t, rq_entry)]. *)
Definition thread_of (n : knode) : M sched_t Z :=
  match n with NThread i => ret i | _ => fail BadAddr end.

(** ** Rules for the accesses *)

Section access.
Implicit Types (s : sched_t) (k : kst).

Lemma with_rq_id s : with_rq (rq s) s = s.
Proof. by destruct s. Qed.
Lemma with_sch_id k : with_sch (sch k) k = k.
Proof. by destruct k. Qed.
Lemma with_tmr_id k : with_tmr (tmr k) k = k.
Proof. by destruct k. Qed.
Lemma with_hw_id k : with_hw (hw k) k = k.
Proof. by destruct k. Qed.

Lemma thread_at_ok s i t : aget (sched_threads s) i = Some t -> thread_at i s = Ret t s.
Proof. intros H. unfold thread_at. by rewrite H. Qed.

Lemma upd_thread_ok s i t f :
  aget (sched_threads s) i = Some t ->
  upd_thread i f s = Ret tt (with_threads (<[Z.to_nat i := f t]> (sched_threads s)) s).
Proof. intros H. unfold upd_thread. by rewrite H. Qed.

Lemma on_rq_ok {A} (m : M (gmap knode (option knode)) A) s a h :
  m (rq s) = Ret a h -> on_rq m s = Ret a (with_rq h s).
Proof. intros H. unfold on_rq, zoom. by rewrite H. Qed.

Lemma on_rq_same {A} (m : M (gmap knode (option knode)) A) s a :
  m (rq s) = Ret a (rq s) -> on_rq m s = Ret a s.
Proof. intros H. by rewrite (on_rq_ok _ _ _ _ H), with_rq_id. Qed.

Lemma on_rq_err {A} (m : M (gmap knode (option knode)) A) s f :
  m (rq s) = Err f -> on_rq m s = Err f.
Proof. intros H. unfold on_rq, zoom. by rewrite H. Qed.

Lemma on_sched_ok {A} (m : M sched_t A) k a s :
  m (sch k) = Ret a s -> on_sched m k = Ret a (with_sch s k).
Proof. intros H. unfold on_sched, zoom. by rewrite H. Qed.

Lemma on_sched_err {A} (m : M sched_t A) k f : m (sch k) = Err f -> on_sched m k = Err f.
Proof. intros H. unfold on_sched, zoom. by rewrite H. Qed.

Lemma on_timers_ok {A} (m : M timers_t A) k a t :
  m (tmr k) = Ret a t -> on_timers m k = Ret a (with_tmr t k).
Proof. intros H. unfold on_timers, zoom. by rewrite H. Qed.

Lemma on_hw_ok {A} (m : M hw_t A) k a h :
  m (hw k) = Ret a h -> on_hw m k = Ret a (with_hw h k).
Proof. intros H. unfold on_hw, zoom. by rewrite H. Qed.

End access.

#[export] Hint Rewrite with_rq_id with_sch_id with_tmr_id with_hw_id : kernel.
