(* ===== verification/RunQueue.v ===== *)
(** * The run queues (core/sched.c)

    Sixteen circular lists, one per priority, and a bit cache of the
    non-empty ones.  [rq_rep s Q] says that queue [p] holds exactly the
    threads [Q p], that those are exactly the runnable threads of priority
    [p], and that the cache is right.  [sched_set_status] keeps it, as long
    as a thread that stops being runnable is the first of its queue. *)

From S2P Require Import Prelude Clist ClistSpec Bitarithm KState.

(** ** The program *)

(** [1 << p] in the 16-bit [int], converted to the [uint32_t] of the cache. *)
Definition prio_bit (p : Z) : Z := s16 (Z.shiftl 1 p).

Definition sched_set_status (process : Z) (st : thread_status) : M sched_t unit :=
  let! t := thread_at process in
  do! (if on_runqueue st then
         when (negb (on_runqueue (status t)))
           (do! on_rq (sm_clist_rpush (NRunq (priority t)) (NThread process));
            modify (fun s => with_bitcache
                      (u32 (Z.lor (runqueue_bitcache s) (u32 (prio_bit (priority t))))) s))
       else
         when (on_runqueue (status t))
           (do! on_rq (sm_clist_lpop (NRunq (priority t)));
            let! nx := on_rq (load (NRunq (priority t))) in
            when (bool_decide (nx = None))
              (modify (fun s => with_bitcache
                 (Z.land (runqueue_bitcache s) (u32 (Z.lnot (prio_bit (priority t))))) s))));
  upd_thread process (set_status st).

(** Lines 249-250: the first thread of the queue the cache's lowest bit names. *)
Definition next_runnable (fuel : nat) : M sched_t Z :=
  let! cache := gets runqueue_bitcache in
  let! nextrq := unwrap Diverges (bitarithm_lsb_sm_timer fuel (u16 cache)) in
  let! n := on_rq (load2 (NRunq nextrq)) in
  let! node := unwrap NullDeref n in
  thread_of node.

(** ** The invariant *)

(** What the operations keep: the run queue entries and the queue heads are
    objects of the heap. *)
Definition nodes_alive (s : sched_t) : Prop :=
  length (sched_threads s) = 33%nat /\
  (forall i, 0 <= i <= KERNEL_PID_LAST -> is_Some (rq s !! NThread i)).

Definition runnable (s : sched_t) (p i : Z) : Prop :=
  exists t, aget (sched_threads s) i = Some t /\ on_runqueue (status t) = true /\ priority t = p.

Definition rq_rep (s : sched_t) (Q : Z -> list Z) : Prop :=
  nodes_alive s /\
  (forall p, 0 <= p < SCHED_PRIO_LEVELS -> ring (rq s) (NRunq p) (NThread <$> Q p)) /\
  (forall p i, 0 <= p < SCHED_PRIO_LEVELS -> (i ∈ Q p <-> runnable s p i)) /\
  (forall p, 0 <= p < SCHED_PRIO_LEVELS ->
     Z.testbit (runqueue_bitcache s) p = bool_decide (Q p <> [])).

(** One queue replaced. *)
Definition set_queue (Q : Z -> list Z) (p : Z) (xs : list Z) : Z -> list Z :=
  fun p' => if p' =? p then xs else Q p'.

Lemma set_queue_eq Q p xs : set_queue Q p xs p = xs.
Proof. unfold set_queue. by rewrite Z.eqb_refl. Qed.

Lemma set_queue_ne Q p p' xs : p' <> p -> set_queue Q p xs p' = Q p'.
Proof. intros. unfold set_queue. by rewrite (proj2 (Z.eqb_neq _ _)). Qed.

Lemma thread_fmap_elem i (xs : list Z) : NThread i ∈ NThread <$> xs <-> i ∈ xs.
Proof.
  rewrite list_elem_of_fmap. split; [|by eexists]. by intros (j & [= ->] & ?).
Qed.

Lemma runq_notin p (xs : list Z) : NRunq p ∉ NThread <$> xs.
Proof. rewrite list_elem_of_fmap. by intros (? & ? & ?). Qed.

Lemma head_fmap_thread (xs : list Z) : head (NThread <$> xs) = NThread <$> head xs.
Proof. by destruct xs. Qed.

Lemma tail_fmap_thread (xs : list Z) : tail (NThread <$> xs) = NThread <$> tail xs.
Proof. by destruct xs. Qed.

(** A queue without duplicates. *)
Lemma rq_rep_nodup s Q p : rq_rep s Q -> 0 <= p < SCHED_PRIO_LEVELS -> NoDup (Q p).
Proof.
  intros (_ & Hr & _) Hp. destruct (Hr p Hp) as ([_ Hd]%NoDup_cons & _).
  by apply NoDup_fmap_1 in Hd.
Qed.

(** A thread is in the queue of its own priority only. *)
Lemma rq_rep_unique s Q p p' i :
  rq_rep s Q -> 0 <= p < SCHED_PRIO_LEVELS -> 0 <= p' < SCHED_PRIO_LEVELS ->
  i ∈ Q p -> i ∈ Q p' -> p = p'.
Proof.
  intros (_ & _ & Hq & _) Hp Hp' (t & Ht & _ & E)%Hq (t' & Ht' & _ & E')%Hq; [|done..].
  congruence.
Qed.

(** Changing the list heap under one queue leaves the other rings alone. *)
Lemma other_rings s Q h p xs ws :
  rq_rep s Q -> 0 <= p < SCHED_PRIO_LEVELS ->
  frame (rq s) h ws ->
  (forall a, a ∈ ws -> a = NRunq p \/ exists i, a = NThread i /\ (i ∈ Q p \/ forall p', 0 <= p' < SCHED_PRIO_LEVELS -> i ∉ Q p')) ->
  ring h (NRunq p) (NThread <$> xs) ->
  forall p', 0 <= p' < SCHED_PRIO_LEVELS ->
    ring h (NRunq p') (NThread <$> set_queue Q p xs p').
Proof.
  intros Hrep Hp Hf Hws Hr p' Hp'. destruct (decide (p' = p)) as [->|Hne].
  { by rewrite set_queue_eq. }
  rewrite set_queue_ne by done. pose proof Hrep as (_ & Hrings & _).
  eapply ring_frame; [done| |by apply Hrings].
  intros a Ha Hin. destruct (Hws a Hin) as [->|(i & -> & Hi)].
  - apply elem_of_cons in Ha as [[= ->]|Ha]; [done|]. by apply runq_notin in Ha.
  - apply elem_of_cons in Ha as [?|Ha]; [done|]. apply (thread_fmap_elem i (Q p')) in Ha.
    destruct Hi as [Hi|Hi]; [|by eapply Hi].
    apply Hne. by eapply rq_rep_unique.
Qed.

(** ** Checking the invariant of a concrete state *)

Definition runnableb (s : sched_t) (p i : Z) : bool :=
  match aget (sched_threads s) i with
  | Some t => on_runqueue (status t) && (priority t =? p)
  | None => false
  end.

Definition rq_check (s : sched_t) (Q : Z -> list Z) : bool :=
  (length (sched_threads s) =? 33)%nat &&
  forallb (fun i => bool_decide (is_Some (rq s !! NThread i))) (seqZ 0 33) &&
  forallb (fun p =>
    bool_decide (ring (rq s) (NRunq p) (NThread <$> Q p)) &&
    forallb (fun i => (0 <=? i) && (i <? 33)) (Q p) &&
    forallb (fun i => eqb (bool_decide (i ∈ Q p)) (runnableb s p i)) (seqZ 0 33) &&
    eqb (Z.testbit (runqueue_bitcache s) p) (bool_decide (Q p <> []))) (seqZ 0 16).

Lemma runnableb_ok s p i : runnableb s p i = true <-> runnable s p i.
Proof.
  unfold runnableb, runnable. destruct (aget (sched_threads s) i) as [t|]; [|naive_solver].
  rewrite andb_true_iff, Z.eqb_eq. naive_solver.
Qed.

Lemma rq_check_ok s Q : rq_check s Q = true -> rq_rep s Q.
Proof.
  unfold rq_check. rewrite !andb_true_iff, Nat.eqb_eq, !forallb_forall. intros [[Hl Ha] Hp].
  assert (forall p, 0 <= p < SCHED_PRIO_LEVELS -> In p (seqZ 0 16)) as Hin.
  { intros p Hpr. apply list_elem_of_In, elem_of_seqZ. unfold SCHED_PRIO_LEVELS in Hpr. lia. }
  split; [split; [done|]|split; [|split]].
  - intros i Hi. apply (bool_decide_eq_true (is_Some (rq s !! NThread i))). apply Ha.
    apply list_elem_of_In, elem_of_seqZ.
    unfold KERNEL_PID_LAST, KERNEL_PID_FIRST, KERNEL_PID_UNDEF, MAXTHREADS in Hi. lia.
  - intros p Hpr. specialize (Hp p (Hin p Hpr)). rewrite !andb_true_iff, bool_decide_eq_true in Hp. tauto.
  - intros p i Hpr. specialize (Hp p (Hin p Hpr)). rewrite !andb_true_iff, !forallb_forall in Hp.
    destruct Hp as [[[_ Hb] He] _]. rewrite <- runnableb_ok.
    destruct (decide (0 <= i < 33)) as [Hi|Hi].
    + specialize (He i ltac:(apply list_elem_of_In, elem_of_seqZ; lia)). apply eqb_prop in He.
      by rewrite <- He, bool_decide_eq_true.
    + split.
      * intros Hx%list_elem_of_In%Hb. apply andb_prop in Hx as [?%Z.leb_le ?%Z.ltb_lt]. lia.
      * intros (t & Ht & _)%runnableb_ok. apply aget_range in Ht. rewrite Hl in Ht. lia.
  - intros p Hpr. specialize (Hp p (Hin p Hpr)). rewrite !andb_true_iff in Hp. apply eqb_prop; tauto.
Qed.

(** ** The bit cache *)

Lemma prio_bit_spec p b :
  0 <= p < 16 -> 0 <= b < 16 -> Z.testbit (prio_bit p) b = (p =? b).
Proof.
  intros Hp Hb. unfold prio_bit. rewrite Z.shiftl_1_l.
  assert (Z.testbit (s16 (2 ^ p)) b = Z.testbit (2 ^ p) b) as ->.
  { rewrite <- (Z.mod_pow2_bits_low (s16 _) 16), <- (Z.mod_pow2_bits_low (2 ^ p) 16) by lia.
    f_equal. unfold wraps. rewrite Zminus_mod_idemp_l. f_equal. lia. }
  apply Z.pow2_bits_eqb. lia.
Qed.

Lemma cache_set c p b :
  0 <= p < 16 -> 0 <= b < 16 ->
  Z.testbit (u32 (Z.lor c (u32 (prio_bit p)))) b = (p =? b) || Z.testbit c b.
Proof.
  intros Hp Hb. rewrite wrapu_testbit, Z.lor_spec, wrapu_testbit by lia.
  rewrite (proj2 (Z.ltb_lt b 32)) by lia. cbn [andb]. rewrite prio_bit_spec by lia. apply orb_comm.
Qed.

Lemma cache_clear c p b :
  0 <= p < 16 -> 0 <= b < 16 ->
  Z.testbit (Z.land c (u32 (Z.lnot (prio_bit p)))) b = negb (p =? b) && Z.testbit c b.
Proof.
  intros Hp Hb. rewrite Z.land_spec, wrapu_testbit, Z.lnot_spec by lia.
  rewrite (proj2 (Z.ltb_lt b 32)) by lia. cbn [andb]. rewrite prio_bit_spec by lia. apply andb_comm.
Qed.

(** The lowest bit of the cache names the most urgent non-empty queue. *)
Lemma cache_lowest s Q p :
  rq_rep s Q -> 0 <= p < SCHED_PRIO_LEVELS -> Q p <> [] ->
  (forall p', 0 <= p' < p -> Q p' = []) ->
  forall fuel, (17 <= fuel)%nat ->
  bitarithm_lsb_sm_timer fuel (u16 (runqueue_bitcache s)) = Some p.
Proof.
  unfold SCHED_PRIO_LEVELS. intros (_ & _ & _ & Hb) Hp Hne Hlow fuel Hf. unfold SCHED_PRIO_LEVELS in Hb.
  apply (lsb_loop 16 fuel); [lia|apply wrapu_range; lia|].
  split; [lia|]. split.
  - rewrite wrapu_testbit, Hb by lia. rewrite (proj2 (Z.ltb_lt _ _)) by lia.
    by rewrite bool_decide_true.
  - intros i Hi. rewrite wrapu_testbit, Hb by lia. rewrite Hlow by lia. apply andb_false_r.
Qed.

(** ** Choosing the next thread *)

Lemma next_runnable_ok s Q p i fuel :
  rq_rep s Q -> 0 <= p < SCHED_PRIO_LEVELS -> head (Q p) = Some i ->
  (forall p', 0 <= p' < p -> Q p' = []) -> (17 <= fuel)%nat ->
  next_runnable fuel s = Ret i s.
Proof.
  intros Hrep Hp Hi Hlow Hf. unfold next_runnable. rewrite (bind_ret _ _ _ _ _ (gets_ok _ _)).
  rewrite (cache_lowest s Q p) by (done || by intros E; rewrite E in Hi).
  unfold unwrap. rewrite (bind_ret (ret p) _ s p s) by done.
  pose proof Hrep as (_ & Hr & _). specialize (Hr p Hp).
  pose proof (lpeek_spec _ _ _ Hr) as Hl. rewrite head_fmap_thread, Hi in Hl.
  assert (load2 (NRunq p) (rq s) = Ret (Some (NThread i)) (rq s)) as Hl2.
  { unfold clist_lpeek in Hl. destruct Hr as (_ & Hlast & _).
    rewrite (bind_ret _ _ _ _ _ (load_ok _ _ _ Hlast)) in Hl.
    destruct (last (NThread <$> Q p)); [done|]. by injection Hl. }
  rewrite (bind_ret _ _ _ _ _ (on_rq_same _ _ _ Hl2)). done.
Qed.

(** ** [sched_set_status] *)

(** The queues afterwards. *)
Definition queues_after (Q : Z -> list Z) (p i : Z) (old new : thread_status) : Z -> list Z :=
  if on_runqueue new then
    if on_runqueue old then Q else set_queue Q p (Q p ++ [i])
  else if on_runqueue old then set_queue Q p (tail (Q p)) else Q.

(** The thread table afterwards. *)
Definition threads_after (s : sched_t) (i : Z) (t : thread_t) : list thread_t :=
  <[Z.to_nat i := t]> (sched_threads s).


Lemma runnable_upd s s' i t0 t p j :
  aget (sched_threads s) i = Some t0 -> sched_threads s' = threads_after s i t ->
  runnable s' p j <-> (j = i /\ on_runqueue (status t) = true /\ priority t = p) \/
                      (j <> i /\ runnable s p j).
Proof.
  intros Ht Hs. pose proof (aget_range _ _ _ Ht) as Hi. unfold runnable. rewrite Hs.
  unfold threads_after. destruct (decide (j = i)) as [->|Hne].
  - rewrite aget_set_eq by done. naive_solver.
  - rewrite aget_set_ne by lia. naive_solver.
Qed.

Lemma nodes_alive_frame s s' ws :
  nodes_alive s -> length (sched_threads s') = length (sched_threads s) ->
  frame (rq s) (rq s') ws -> nodes_alive s'.
Proof.
  intros [Hl Ha] El [_ Hf]. split; [congruence|]. intros i Hi. apply Hf. by apply Ha.
Qed.

Lemma set_status_push s Q i t p :
  rq_rep s Q -> aget (sched_threads s) i = Some t -> priority t = p ->
  0 <= p < SCHED_PRIO_LEVELS -> on_runqueue (status t) = false ->
  forall st, on_runqueue st = true ->
  exists s', sched_set_status i st s = Ret tt s' /\
    rq_rep s' (set_queue Q p (Q p ++ [i])) /\
    s' = with_threads (threads_after s i (set_status st t))
           (with_bitcache (u32 (Z.lor (runqueue_bitcache s) (u32 (prio_bit p)))) (with_rq (rq s') s)).
Proof.
  intros Hrep Ht Hpt Hp Hoff st Hon. pose proof (aget_range _ _ _ Ht) as Hi.
  pose proof Hrep as (Hal & Hr & Hq & Hb). pose proof Hal as [Hlen Halive].
  assert (forall p', 0 <= p' < SCHED_PRIO_LEVELS -> i ∉ Q p') as Hni.
  { intros p' Hp' (t' & Ht' & E & _)%Hq; [|done]. congruence. }
  destruct (rpush_spec (rq s) (NRunq p) (NThread i) (NThread <$> Q p)) as (h & Hh & Hring & Hf);
    [by apply Hr| | |].
  { intros [?|Hin]%elem_of_cons; [done|]. apply thread_fmap_elem in Hin. by apply (Hni p). }
  { apply Halive. unfold KERNEL_PID_LAST, KERNEL_PID_FIRST, KERNEL_PID_UNDEF, MAXTHREADS. lia. }
  rewrite <- sm_rpush_eq in Hh.
  unfold sched_set_status. rewrite (bind_ret _ _ _ _ _ (thread_at_ok _ _ _ Ht)), Hon, Hoff, Hpt.
  cbn [negb when]. rewrite bind_assoc, (bind_ret _ _ _ _ _ (on_rq_ok _ _ _ _ Hh)).
  rewrite (bind_ret _ _ _ _ _ (modify_ok _ _)).
  erewrite upd_thread_ok by done. eexists. split; [done|]. split; [|done].
  change [NThread i] with (NThread <$> [i]) in Hring. rewrite <- fmap_app in Hring.
  split; [|split; [|split]].
  - eapply (nodes_alive_frame s); [done|cbn; apply length_insert|exact Hf].
  - eapply (other_rings s); [done|done|exact Hf| |exact Hring].
    intros a [->|[->|Ha]%elem_of_cons]%elem_of_cons; [right; eauto|by left|].
    right. apply list_elem_of_fmap in Ha as (j & -> & ?). eauto.
  - intros p' j Hp'. erewrite (runnable_upd s) by (exact Ht || reflexivity). cbn [set_status status priority].
    destruct (decide (p' = p)) as [->|Hne].
    + rewrite set_queue_eq, elem_of_app, list_elem_of_singleton, Hq, Hpt by done.
      split; [|naive_solver]. intros [Hj| ->]; [right; split; [|done]|naive_solver].
      intros ->. by apply (Hni p), Hq.
    + rewrite set_queue_ne, Hq by done. split; [|intros [(-> & _ & E)|[_ ?]]; [congruence|done]].
      intros Hj. right. split; [|done]. intros ->. by apply (Hni p'), Hq.
  - intros p' Hp'. cbn [runqueue_bitcache with_threads with_bitcache with_rq].
    unfold SCHED_PRIO_LEVELS in *. rewrite cache_set by done. destruct (Z.eqb_spec p p') as [<-|Hne].
    + rewrite set_queue_eq. cbn. symmetry. apply bool_decide_eq_true. by destruct (Q p).
    + rewrite set_queue_ne by done. by apply Hb.
Qed.

(** Taking the first thread of a queue off it, as [sched_set_status] does. *)
Lemma set_status_pop s Q i t p j :
  rq_rep s Q -> aget (sched_threads s) i = Some t -> priority t = p ->
  0 <= p < SCHED_PRIO_LEVELS -> on_runqueue (status t) = true -> head (Q p) = Some j ->
  forall st, on_runqueue st = false ->
  exists s', sched_set_status i st s = Ret tt s' /\
    nodes_alive s' /\
    (forall p', 0 <= p' < SCHED_PRIO_LEVELS ->
       ring (rq s') (NRunq p') (NThread <$> set_queue Q p (tail (Q p)) p') /\
       Z.testbit (runqueue_bitcache s') p' = bool_decide (set_queue Q p (tail (Q p)) p' <> [])) /\
    s' = with_threads (threads_after s i (set_status st t))
           (with_bitcache (runqueue_bitcache s') (with_rq (rq s') s)).
Proof.
  intros Hrep Ht Hpt Hp Hon Hj st Hoff.
  pose proof Hrep as (Hal & Hr & Hq & Hb).
  destruct (lpop_spec (rq s) (NRunq p) (NThread <$> Q p)) as (h & Hh & Hring & Hf & _); [by apply Hr|].
  rewrite tail_fmap_thread in Hring. rewrite <- sm_lpop_eq in Hh.
  pose proof Hring as (_ & Hlast & _). rewrite fmap_last in Hlast.
  unfold sched_set_status. rewrite (bind_ret _ _ _ _ _ (thread_at_ok _ _ _ Ht)), Hoff, Hon, Hpt.
  cbn [when]. rewrite !bind_assoc, (bind_ret _ _ _ _ _ (on_rq_ok _ _ _ _ Hh)).
  rewrite !bind_assoc.
  erewrite bind_ret by (apply on_rq_ok; cbn; exact (load_ok _ _ _ Hlast)).
  set (s1 := with_rq h (with_rq h s)).
  assert (exists c, when (bool_decide (NThread <$> last (tail (Q p)) = None))
     (modify (fun s => with_bitcache
         (Z.land (runqueue_bitcache s) (u32 (Z.lnot (prio_bit p)))) s)) s1
     = Ret tt (with_bitcache c s1) /\
     forall p', 0 <= p' < SCHED_PRIO_LEVELS ->
       Z.testbit c p' = bool_decide (set_queue Q p (tail (Q p)) p' <> [])) as (c & Hc & Hcb).
  { unfold SCHED_PRIO_LEVELS in *. destruct (last (tail (Q p))) as [z|] eqn:E; cbn [fmap option_fmap option_map].
    - exists (runqueue_bitcache s). rewrite bool_decide_false by done. split; [by destruct s|].
      intros p' Hp'. rewrite Hb by done. destruct (decide (p' = p)) as [->|Hne].
      + rewrite set_queue_eq. rewrite !bool_decide_true; [done| |];
          intros E'; [by rewrite E' in E|by rewrite E' in Hj].
      + by rewrite set_queue_ne.
    - eexists. rewrite bool_decide_true by done. split; [done|].
      intros p' Hp'. cbn. rewrite cache_clear, Hb by done. apply last_None in E.
      destruct (Z.eqb_spec p p') as [<-|Hne]; cbn [negb andb].
      + rewrite set_queue_eq, E. by rewrite bool_decide_false by (intros H; by apply H).
      + by rewrite set_queue_ne. }
  rewrite (bind_ret _ _ _ _ _ Hc). erewrite upd_thread_ok by done.
  eexists. split; [done|]. split; [|split; [|done]].
  - eapply (nodes_alive_frame s); [done|cbn; apply length_insert|exact Hf].
  - intros p' Hp'. split; [|by apply Hcb].
    eapply (other_rings s); [done|done|exact Hf| |exact Hring|done].
    intros a [->|Ha]%elem_of_cons; [by left|].
    right. apply list_elem_of_fmap in Ha as (k & -> & ?). eauto.
Qed.

Lemma head_in {A} (x : A) xs : head xs = Some x -> x ∈ xs.
Proof. destruct xs; [done|]. intros [= ->]. by left. Qed.

(** A thread changed in fields that the queues do not depend on. *)
Lemma rq_rep_thread s Q i t t' :
  rq_rep s Q -> aget (sched_threads s) i = Some t ->
  on_runqueue (status t) = on_runqueue (status t') /\ priority t' = priority t ->
  rq_rep (with_threads (threads_after s i t') s) Q.
Proof.
  intros (Hal & Hr & Hq & Hb) Ht [E Ep].
  split; [eapply (nodes_alive_frame s); [done|cbn; apply length_insert|apply frame_refl with (ws := [])]|].
  split; [done|]. split; [|done].
  intros p j Hpj. erewrite (runnable_upd s) by (exact Ht || reflexivity). rewrite Hq by done. split.
  - intros Hj. destruct (decide (j = i)) as [->|]; [left|by right].
    destruct Hj as (u & Hu & Hon & Hpr). replace u with t in * by congruence.
    by rewrite <- E, Ep.
  - intros [(-> & Hon & Hpr)|[_ Hj]]; [|done]. exists t. by rewrite E, <- Ep.
Qed.

(** [sched_set_status] on every branch that leaves the queues consistent. *)
Lemma set_status_rep s Q i t st :
  rq_rep s Q -> aget (sched_threads s) i = Some t -> 0 <= priority t < SCHED_PRIO_LEVELS ->
  (on_runqueue (status t) = true -> on_runqueue st = false -> head (Q (priority t)) = Some i) ->
  exists s', sched_set_status i st s = Ret tt s' /\
    rq_rep s' (queues_after Q (priority t) i (status t) st) /\
    s' = with_threads (threads_after s i (set_status st t))
           (with_bitcache (runqueue_bitcache s') (with_rq (rq s') s)).
Proof.
  intros Hrep Ht Hp Hhead. unfold queues_after.
  pose proof Hrep as (Hal & Hr & Hq & Hb). pose proof (aget_range _ _ _ Ht) as Hi.
  assert (on_runqueue (status t) = on_runqueue st ->
          exists s', sched_set_status i st s = Ret tt s' /\ rq_rep s' Q /\
            s' = with_threads (threads_after s i (set_status st t)) s) as Hstay.
  { intros E. unfold sched_set_status. rewrite (bind_ret _ _ _ _ _ (thread_at_ok _ _ _ Ht)), E.
    exists (with_threads (threads_after s i (set_status st t)) s). split; [|split; [|done]].
    - destruct (on_runqueue st); cbn [negb when]; rewrite (bind_ret (ret tt) _ s tt s) by done;
        by erewrite upd_thread_ok.
    - by eapply rq_rep_thread. }
  destruct (on_runqueue st) eqn:Eon, (on_runqueue (status t)) eqn:Eold.
  - destruct (Hstay eq_refl) as (s' & H1 & H2 & ->). eexists. split; [done|]. split; [done|]. by destruct s.
  - destruct (set_status_push s Q i t (priority t) Hrep Ht eq_refl Hp Eold st Eon) as (s' & H1 & H2 & H3).
    exists s'. split; [done|]. split; [done|]. rewrite H3 at 1. by rewrite H3.
  - destruct (set_status_pop s Q i t (priority t) i Hrep Ht eq_refl Hp Eold (Hhead eq_refl eq_refl) st Eon)
      as (s' & H1 & H2 & H3 & H4).
    exists s'. split; [done|]. split; [|done].
    split; [done|]. split; [intros p' Hp'; by apply H3|]. split; [|intros p' Hp'; by apply H3].
    intros p' j Hp'. assert (sched_threads s' = threads_after s i (set_status st t)) as Hth by by rewrite H4.
    erewrite (runnable_upd s) by (exact Ht || exact Hth). cbn [set_status status priority].
    rewrite Eon. pose proof (rq_rep_nodup s Q (priority t) Hrep Hp) as Hnd.
    specialize (Hhead eq_refl eq_refl).
    destruct (Q (priority t)) as [|i0 r] eqn:EQ; [done|]. injection Hhead as ->.
    apply NoDup_cons in Hnd as [Hni _].
    destruct (decide (p' = priority t)) as [->|Hne].
    + rewrite set_queue_eq. cbn [tail]. rewrite <- Hq, EQ by done. set_solver.
    + rewrite set_queue_ne, <- Hq by done. split; [|naive_solver]. intros Hj. right. split; [|done].
      intros ->. apply Hne. eapply rq_rep_unique; [done|done|exact Hp|done|]. rewrite EQ. set_solver.
  - destruct (Hstay eq_refl) as (s' & H1 & H2 & ->). eexists. split; [done|]. split; [done|]. by destruct s.
Qed.

(** The list nodes it writes. *)
Lemma set_status_frame s Q i t st s' :
  rq_rep s Q -> aget (sched_threads s) i = Some t -> 0 <= priority t < SCHED_PRIO_LEVELS ->
  sched_set_status i st s = Ret tt s' ->
  frame (rq s) (rq s') (NThread i :: NRunq (priority t) :: (NThread <$> Q (priority t))).
Proof.
  intros (Hal & Hr & Hq & _) Ht Hp E. unfold sched_set_status in E.
  rewrite (bind_ret _ _ _ _ _ (thread_at_ok _ _ _ Ht)) in E.
  apply bind_inv in E as ([] & s1 & E1 & E2).
  assert (rq s' = rq s1) as ->.
  { unfold upd_thread in E2. destruct (aget (sched_threads s1) i); [|done]. by injection E2 as <-. }
  destruct (on_runqueue st), (on_runqueue (status t)) eqn:Hon; cbn [negb when] in E1;
    try (injection E1 as <-; apply frame_refl).
  - destruct (rpush_spec (rq s) (NRunq (priority t)) (NThread i) (NThread <$> Q (priority t)))
      as (h & Eh & _ & Hf); [by apply Hr| | |].
    { intros [?|Hin]%elem_of_cons; [done|]. apply thread_fmap_elem, Hq in Hin as (u & Hu & Hon' & _); [|done].
      congruence. }
    { apply Hal. pose proof (aget_range _ _ _ Ht) as Hi. destruct Hal as [Hlen _].
      unfold KERNEL_PID_LAST, KERNEL_PID_FIRST, KERNEL_PID_UNDEF, MAXTHREADS. lia. }
    rewrite <- sm_rpush_eq in Eh. rewrite (bind_ret _ _ _ _ _ (on_rq_ok _ _ _ _ Eh)) in E1.
    injection E1 as <-. exact Hf.
  - destruct (lpop_spec (rq s) (NRunq (priority t)) (NThread <$> Q (priority t))) as (h & Eh & _ & Hf & _);
      [by apply Hr|].
    rewrite <- sm_lpop_eq in Eh. rewrite (bind_ret _ _ _ _ _ (on_rq_ok _ _ _ _ Eh)) in E1.
    apply bind_inv in E1 as (nx & s2 & Ea & Eb). unfold on_rq, zoom, load in Ea. cbn in Ea.
    assert (rq s1 = h) as ->.
    { destruct (h !! NRunq (priority t)); [|done]. injection Ea as <- <-.
      unfold when in Eb. by destruct (bool_decide _); injection Eb as <-. }
    eapply frame_weaken; [exact Hf|set_solver].
Qed.

(** ** Properties *)

(** C5 [sched_set_status] keeps the run queues consistent (the queues are
    rings, each holds exactly the runnable threads of its priority, the bit
    cache marks the non-empty ones): a thread that becomes runnable is
    appended to the queue of its priority, one that stops being runnable is
    taken off it provided it is the first of its queue, any other change
    moves nothing, and nothing but the status, the queues and the cache
    changes. *)
Theorem sched_set_status_refines s Q i t st :
  rq_rep s Q -> aget (sched_threads s) i = Some t -> 0 <= priority t < SCHED_PRIO_LEVELS ->
  (on_runqueue (status t) = true -> on_runqueue st = false -> head (Q (priority t)) = Some i) ->
  exists s', sched_set_status i st s = Ret tt s' /\
    rq_rep s' (queues_after Q (priority t) i (status t) st) /\
    s' = with_threads (threads_after s i (set_status st t))
           (with_bitcache (runqueue_bitcache s') (with_rq (rq s') s)).
Proof. apply set_status_rep. Qed.

(** Without that proviso [sched_set_status] takes off the wrong thread:
    when the thread that stops being runnable is not the first of its queue,
    the first one is unlinked in its place.  Afterwards the thread that
    stopped is still queued, and a runnable thread is in no queue, so it is
    never scheduled again. *)
Theorem sched_set_status_wrong_thread s Q i t st j :
  rq_rep s Q -> aget (sched_threads s) i = Some t -> 0 <= priority t < SCHED_PRIO_LEVELS ->
  on_runqueue (status t) = true -> on_runqueue st = false ->
  head (Q (priority t)) = Some j -> j <> i ->
  exists s', sched_set_status i st s = Ret tt s' /\
    ring (rq s') (NRunq (priority t)) (NThread <$> tail (Q (priority t))) /\
    i ∈ tail (Q (priority t)) /\ ~ runnable s' (priority t) i /\
    j ∉ tail (Q (priority t)) /\ runnable s' (priority t) j /\
    forall Q', ~ rq_rep s' Q'.
Proof.
  intros Hrep Ht Hp Hon Hoff Hj Hne. pose proof (aget_range _ _ _ Ht) as Hi.
  pose proof Hrep as (Hal & Hr & Hq & Hb).
  destruct (set_status_pop s Q i t (priority t) j Hrep Ht eq_refl Hp Hon Hj st Hoff)
    as (s' & H1 & H2 & H3 & H4).
  assert (sched_threads s' = threads_after s i (set_status st t)) as Hth by by rewrite H4.
  destruct (H3 (priority t) Hp) as [Hring _]. rewrite set_queue_eq in Hring.
  assert (i ∈ Q (priority t)) as Hin by (apply Hq; [done|]; by exists t).
  pose proof (rq_rep_nodup s Q (priority t) Hrep Hp) as Hnd.
  assert (runnable s (priority t) j) as Hjr by (apply Hq; [done|]; by apply head_in).
  assert (forall p x, runnable s' p x <-> x <> i /\ runnable s p x) as Hrun.
  { intros p x. erewrite (runnable_upd s) by (exact Ht || exact Hth). cbn [set_status status].
    rewrite Hoff. naive_solver. }
  destruct (Q (priority t)) as [|j0 r] eqn:EQ; [done|]. injection Hj as ->. cbn [tail] in *.
  apply NoDup_cons in Hnd as [Hnj _]. assert (i ∈ r) as Hir by set_solver.
  exists s'. split; [done|]. split; [done|]. split; [done|].
  split; [rewrite Hrun; tauto|]. split; [done|]. split; [by rewrite Hrun|].
  intros Q' (_ & Hr' & Hq' & _).
  assert (j ∈ Q' (priority t)) as Hj' by (apply Hq', Hrun; done).
  specialize (Hr' (priority t) Hp).
  pose proof (ring_unique _ _ _ _ Hring Hr') as E.
  apply (thread_fmap_elem j) in Hj'. rewrite <- E in Hj'. by apply thread_fmap_elem in Hj'.
Qed.

(** ** A concrete table of threads *)

(** Thread 1 idles at priority 15, 2 and 3 share priority 7 with 2 running,
    4 sleeps at priority 5; 5 and 6 are periodic, only 5 and 6 of priority 1
    being runnable when [busy]. *)
Definition free_thread : thread_t := Thread false 0 0 STATUS_STOPPED 0 0 false 0 0 0 0 0 0.
Definition demo_thread (i p : Z) (st : thread_status) : thread_t :=
  Thread false (1000 * i) 0 st p i true 0 0 0 0 0 0.

Definition demo_threads (busy : thread_status) : list thread_t :=
  [free_thread; demo_thread 1 15 STATUS_PENDING; demo_thread 2 7 STATUS_RUNNING;
   demo_thread 3 7 STATUS_PENDING; demo_thread 4 5 STATUS_SLEEPING;
   demo_thread 5 1 busy; demo_thread 6 1 busy] ++ replicate 26 free_thread.

Definition demo_links (busy : bool) : gmap knode (option knode) :=
  list_to_map
    ([(NRunq 15, Some (NThread 1)); (NThread 1, Some (NThread 1));
      (NRunq 7, Some (NThread 3)); (NThread 2, Some (NThread 3)); (NThread 3, Some (NThread 2))] ++
     (if busy then [(NRunq 1, Some (NThread 6)); (NThread 5, Some (NThread 6)); (NThread 6, Some (NThread 5))]
      else []) ++
     ((fun p => (NRunq p, None)) <$> seqZ 0 16) ++ ((fun i => (NThread i, None)) <$> seqZ 0 33) ++
     [(NMutex 0, None); (NWait 0, None); (NWait 1, None)]).

Definition demo_sched : sched_t :=
  Sched (demo_threads STATUS_SLEEPING) (demo_links false) 0xFFFF8080 (Some 2) 2 6 0 true 0.
Definition demo_sched_busy : sched_t :=
  Sched (demo_threads STATUS_PENDING) (demo_links true) 0xFFFF8082 (Some 2) 2 6 0 true 0.

Definition demo_queues (p : Z) : list Z :=
  if p =? 15 then [1] else if p =? 7 then [2; 3] else [].
Definition demo_queues_busy (p : Z) : list Z := if p =? 1 then [5; 6] else demo_queues p.

Lemma demo_rep : rq_rep demo_sched demo_queues.
Proof. apply rq_check_ok. vm_compute. reflexivity. Qed.
Lemma demo_rep_busy : rq_rep demo_sched_busy demo_queues_busy.
Proof. apply rq_check_ok. vm_compute. reflexivity. Qed.

Lemma sched_set_status_refines_witness :
  exists s', sched_set_status 4 STATUS_PENDING demo_sched = Ret tt s' /\
             rq_rep s' (set_queue demo_queues 5 [4]).
Proof.
  destruct (sched_set_status_refines demo_sched demo_queues 4 (demo_thread 4 5 STATUS_SLEEPING)
              STATUS_PENDING demo_rep eq_refl) as (s' & H1 & H2 & _).
  - cbv. split; [discriminate|reflexivity].
  - discriminate.
  - exists s'. split; [exact H1|exact H2].
Defined.

Lemma sched_set_status_wrong_thread_witness :
  exists s', sched_set_status 6 STATUS_SLEEPING demo_sched_busy = Ret tt s' /\
             forall Q, ~ rq_rep s' Q.
Proof.
  destruct (sched_set_status_wrong_thread demo_sched_busy demo_queues_busy 6
              (demo_thread 6 1 STATUS_PENDING) STATUS_SLEEPING 5 demo_rep_busy eq_refl)
    as (s' & H1 & _ & _ & _ & _ & _ & H2).
  - cbv. split; [discriminate|reflexivity].
  - reflexivity.
  - reflexivity.
  - reflexivity.
  - lia.
  - exists s'. split; [exact H1|exact H2].
Defined.
