(* ===== verification/TimerHw.v ===== *)
(** * The hardware timer of the Sancus boards
    (cpu/msp430-sancus/periph/timer.c, sm_irq.c)

    Timer A is its control register [CTL], the capture/compare registers
    [CCR] and [CCTL], and the counter [TAR].  The counter runs by itself: a
    read returns the next value of the sequence [clock], about which nothing
    is assumed beyond the width of the register. *)

From S2P Require Import Prelude KState.

(** ** Register bits (msp430_regs.h, time.h, periph_conf.h) *)

Definition TIMER_CTL_IFG : Z := 0x0001.
Definition TIMER_CTL_MC_CONT : Z := 0x0020.
Definition TIMER_CTL_MC_MASK : Z := 0x0030.
Definition TIMER_CTL_TASSEL_SMCLK : Z := 0x0200.
Definition TIMERA_CLOCK_DIVIDER : Z := 0x0080.
Definition TIMER_CCTL_CCIFG : Z := 0x0001.
Definition TIMER_CCTL_CCIE : Z := 0x0010.
Definition TIMER_CHAN : Z := 3.

(** ** The program *)

Definition with_CTL (v : Z) (h : hw_t) : hw_t :=
  Hw (clock h) (reads h) v (CCTL h) (CCR h) (isr_cb h) (__sm_irq_is_in h) (__unprotected_sp h).
Definition with_CCTL (l : list Z) (h : hw_t) : hw_t :=
  Hw (clock h) (reads h) (CTL h) l (CCR h) (isr_cb h) (__sm_irq_is_in h) (__unprotected_sp h).
Definition with_CCR (l : list Z) (h : hw_t) : hw_t :=
  Hw (clock h) (reads h) (CTL h) (CCTL h) l (isr_cb h) (__sm_irq_is_in h) (__unprotected_sp h).
Definition with_isr_cb (b : bool) (h : hw_t) : hw_t :=
  Hw (clock h) (reads h) (CTL h) (CCTL h) (CCR h) b (__sm_irq_is_in h) (__unprotected_sp h).
Definition with_irq_is_in (v : Z) (h : hw_t) : hw_t :=
  Hw (clock h) (reads h) (CTL h) (CCTL h) (CCR h) (isr_cb h) v (__unprotected_sp h).
Definition with_unprotected_sp (v : Z) (h : hw_t) : hw_t :=
  Hw (clock h) (reads h) (CTL h) (CCTL h) (CCR h) (isr_cb h) (__sm_irq_is_in h) v.
Definition count_read (h : hw_t) : hw_t :=
  Hw (clock h) (Datatypes.S (reads h)) (CTL h) (CCTL h) (CCR h) (isr_cb h) (__sm_irq_is_in h)
     (__unprotected_sp h).

(** [TIMER_A->R]. *)
Definition sm_timer_read_internal : M hw_t Z :=
  fun h => Ret (u16 (clock h (reads h))) (count_read h).
Definition sm_timer_read : M hw_t Z := sm_timer_read_internal.

Definition upd_CCTL (channel : Z) (f : Z -> Z) : M hw_t unit :=
  fun h => match aget (CCTL h) channel with
           | Some v => Ret tt (with_CCTL (<[Z.to_nat channel := f v]> (CCTL h)) h)
           | None => Err OutOfBounds
           end.
Definition set_CCR (channel v : Z) : M hw_t unit :=
  fun h => match aset (CCR h) channel v with
           | Some l => Ret tt (with_CCR l h)
           | None => Err OutOfBounds
           end.

Definition sm_timer_init (dev freq : Z) : M hw_t Z :=
  if negb (dev =? 0) then ret (-1)
  else if negb (freq =? 1000000) then ret (-1)
  else
    do! modify (with_isr_cb true);
    do! modify (with_CTL (Z.lor TIMER_CTL_TASSEL_SMCLK TIMERA_CLOCK_DIVIDER));
    do! loop 4 (fun i =>
          if i <? TIMER_CHAN then do! upd_CCTL i (fun _ => 0); ret (inl (i + 1))
          else ret (inr tt)) 0;
    do! modify (fun h => with_CTL (Z.lor (CTL h) TIMER_CTL_MC_CONT) h);
    ret 0.

Definition sm_timer_set_absolute (channel value : Z) : M hw_t unit :=
  do! set_CCR channel (u16 value);
  do! upd_CCTL channel (fun v => Z.land v (u16 (Z.lnot TIMER_CCTL_CCIFG)));
  upd_CCTL channel (fun v => Z.lor v TIMER_CCTL_CCIE).

Definition sm_timer_clear (channel : Z) : M hw_t unit :=
  upd_CCTL 0 (fun v => Z.land v (u16 (Z.lnot TIMER_CCTL_CCIE))).

Definition sm_timer_start : M hw_t unit := modify (fun h => with_CTL (Z.lor (CTL h) TIMER_CTL_MC_CONT) h).
Definition sm_timer_stop : M hw_t unit :=
  modify (fun h => with_CTL (Z.land (CTL h) (u16 (Z.lnot TIMER_CTL_MC_MASK))) h).

(** Outside the scheduler module every timer operation is refused. *)
Definition timer_init (dev freq : Z) : M hw_t Z := ret (-1).
Definition timer_set_absolute (dev channel value : Z) : M hw_t Z := ret (-1).
Definition timer_clear (dev channel : Z) : M hw_t Z := ret (-1).
Definition timer_read (dev : Z) : M hw_t Z := sm_timer_read.
Definition timer_start (dev : Z) : M hw_t unit := ret tt.
Definition timer_stop (dev : Z) : M hw_t unit := ret tt.

(** The scheduler module runs with interrupts off; its interrupt functions
    (sm_irq.c) keep no state. *)
Definition sm_irq_disable : M hw_t Z := ret 0.
Definition sm_irq_enable : M hw_t Z := ret 0.
Definition sm_irq_restore (state : Z) : M hw_t unit := ret tt.
Definition sm_irq_is_in : M hw_t Z := gets __sm_irq_is_in.

(** ** Rules *)

Definition hw_wf (h : hw_t) : Prop := length (CCTL h) = 3%nat /\ length (CCR h) = 3%nat.

Lemma read_internal_ok h :
  sm_timer_read_internal h = Ret (u16 (clock h (reads h))) (count_read h).
Proof. done. Qed.

Lemma read_range h : in_u 16 (u16 (clock h (reads h))).
Proof. apply wrapu_range. lia. Qed.

(** What arming the compare channel does. *)
Definition armed (value : Z) (h : hw_t) : hw_t :=
  with_CCTL (<[0%nat := Z.lor (Z.land (default 0 (head (CCTL h))) (u16 (Z.lnot TIMER_CCTL_CCIFG)))
                              TIMER_CCTL_CCIE]> (CCTL h))
            (with_CCR (<[0%nat := u16 value]> (CCR h)) h).

Lemma set_absolute_ok h value :
  hw_wf h -> sm_timer_set_absolute 0 value h = Ret tt (armed value h) /\ hw_wf (armed value h).
Proof.
  destruct h as [c r ctl cc ccr cb ii us]. intros [H1 H2]. cbn in H1, H2.
  destruct cc as [|a [|b [|d [|]]]]; try done. destruct ccr as [|x [|y [|z [|]]]]; done.
Qed.

(** The interrupt is enabled and its flag cleared. *)
Lemma armed_flags value h :
  hw_wf h ->
  exists v, aget (CCTL (armed value h)) 0 = Some v /\
    Z.testbit v 4 = true /\ Z.testbit v 0 = false /\
    aget (CCR (armed value h)) 0 = Some (u16 value).
Proof.
  destruct h as [c r ctl cc ccr cb ii us]. intros [H1 H2]. cbn in H1, H2.
  destruct cc as [|a cc]; [done|]. destruct ccr as [|x ccr]; [done|].
  eexists. split; [reflexivity|]. cbn [head default from_option id CCTL]. unfold id.
  split; [|split; [|done]].
  - rewrite Z.lor_spec, orb_true_iff. by right.
  - rewrite Z.lor_spec, Z.land_spec, wrapu_testbit by lia. cbn. by rewrite andb_false_r.
Qed.

(** ** Properties *)

(** The timer driver: [sm_timer_init] refuses any device but 0 and any
    frequency but 1 MHz without touching the hardware, and otherwise stops
    all compare interrupts and starts the counter in continuous mode;
    [sm_timer_set_absolute] arms the compare channel with the value and
    clears its pending flag; the functions callable from outside the
    scheduler module change nothing. *)
Theorem timer_driver_ok h dev freq value channel :
  hw_wf h ->
  (dev <> 0 \/ freq <> 1000000 -> sm_timer_init dev freq h = Ret (-1) h) /\
  (exists h', sm_timer_init 0 1000000 h = Ret 0 h' /\ hw_wf h' /\ isr_cb h' = true /\
     CCTL h' = [0; 0; 0] /\ CTL h' = 0x02A0 /\ CCR h' = CCR h) /\
  (exists h' v, sm_timer_set_absolute 0 value h = Ret tt h' /\ hw_wf h' /\
     aget (CCR h') 0 = Some (u16 value) /\ aget (CCTL h') 0 = Some v /\
     Z.testbit v 4 = true /\ Z.testbit v 0 = false) /\
  timer_init dev freq h = Ret (-1) h /\ timer_set_absolute dev channel value h = Ret (-1) h /\
  timer_clear dev channel h = Ret (-1) h /\ timer_start dev h = Ret tt h /\ timer_stop dev h = Ret tt h.
Proof.
  intros Hwf. split; [|split; [|split]].
  - unfold sm_timer_init. destruct (Z.eqb_spec dev 0), (Z.eqb_spec freq 1000000); naive_solver.
  - destruct h as [c r ctl cc ccr cb ii us]. destruct Hwf as [H1 H2]. cbn in H1, H2.
    destruct cc as [|a [|b [|d [|]]]]; try done.
    eexists. split; [reflexivity|]. done.
  - destruct (set_absolute_ok h value Hwf) as [Hs Hw].
    destruct (armed_flags value h Hwf) as (v & H1 & H2 & H3 & H4). by exists (armed value h), v.
  - done.
Qed.

Definition demo_hw : hw_t := Hw (fun n => Z.of_nat n * 10) 0 0x02A0 [0; 0; 0] [0xFFFF; 0; 0] true 0 0.

Lemma timer_driver_ok_witness :
  sm_timer_init 1 1000000 demo_hw = Ret (-1) demo_hw /\
  exists h v, sm_timer_set_absolute 0 5000 demo_hw = Ret tt h /\ aget (CCTL h) 0 = Some v /\
              Z.testbit v 4 = true.
Proof.
  destruct (timer_driver_ok demo_hw 1 1000000 5000 0 (conj eq_refl eq_refl))
    as (H1 & _ & (h & v & H2 & _ & _ & H3 & H4 & _) & _).
  split; [apply H1; left; discriminate|]. exists h, v. split; [exact H2|]. split; [exact H3|exact H4].
Defined.
