(* ===== verification/Mintimer.v ===== *)
(** * The software timers (sys/secure_mintimer/secure_mintimer_core.c)

    Timers wait in three lists: those of the current 16-bit period of the
    hardware counter, those of the next one ([overflow]), and all later ones
    ([long]).  A pointer cell is a [tnode]: the three head variables and the
    [next] fields, so that [secure_mintimer_t **] parameters are [tnode]s.
    [_secure_mintimer_high_cnt] and [_long_cnt] extend the 16-bit counter to
    64 bits. *)

From S2P Require Import Prelude Clist KState RunQueue TimerHw.

(** ** Configuration (secure_mintimer.h, board.h) *)

Definition SECURE_MINTIMER_BACKOFF : Z := 200.
Definition SECURE_MINTIMER_OVERHEAD : Z := 300.
Definition SECURE_MINTIMER_ISR_BACKOFF : Z := 200.
Definition SECURE_MINTIMER_WIDTH : Z := 16.
Definition SECURE_MINTIMER_MASK : Z :=
  u32 (Z.shiftl (Z.shiftr 0xffffffff SECURE_MINTIMER_WIDTH) SECURE_MINTIMER_WIDTH).
Definition SECURE_MINTIMER_TIMER_LIST_LENGTH : Z := 15.
Definition SECURE_MINTIMER_CHAN : Z := 0.
Definition SECURE_MINTIMER_DEV : Z := 0.
Definition SECURE_MINTIMER_HZ : Z := 1000000.

(** ** Accesses *)

Definition with_next (h : gmap tnode (option tnode)) (t : timers_t) : timers_t :=
  Timers h (t_target t) (t_long_target t) (t_thread t) (_long_cnt t)
         (_secure_mintimer_high_cnt t) (_in_handler t).
Definition with_target (m : gmap tnode Z) (t : timers_t) : timers_t :=
  Timers (t_next t) m (t_long_target t) (t_thread t) (_long_cnt t)
         (_secure_mintimer_high_cnt t) (_in_handler t).
Definition with_long_target (m : gmap tnode Z) (t : timers_t) : timers_t :=
  Timers (t_next t) (t_target t) m (t_thread t) (_long_cnt t)
         (_secure_mintimer_high_cnt t) (_in_handler t).
Definition with_thread (m : gmap tnode (option Z)) (t : timers_t) : timers_t :=
  Timers (t_next t) (t_target t) (t_long_target t) m (_long_cnt t)
         (_secure_mintimer_high_cnt t) (_in_handler t).
Definition with_long_cnt (v : Z) (t : timers_t) : timers_t :=
  Timers (t_next t) (t_target t) (t_long_target t) (t_thread t) v
         (_secure_mintimer_high_cnt t) (_in_handler t).
Definition with_high_cnt (v : Z) (t : timers_t) : timers_t :=
  Timers (t_next t) (t_target t) (t_long_target t) (t_thread t) (_long_cnt t) v (_in_handler t).
Definition with_in_handler (v : Z) (t : timers_t) : timers_t :=
  Timers (t_next t) (t_target t) (t_long_target t) (t_thread t) (_long_cnt t)
         (_secure_mintimer_high_cnt t) v.

Definition nxt {A} (m : M (gmap tnode (option tnode)) A) : M timers_t A := zoom t_next with_next m.
Definition get_target (n : tnode) : M timers_t Z :=
  fun t => match t_target t !! n with Some v => Ret v t | None => Err BadAddr end.
Definition get_long_target (n : tnode) : M timers_t Z :=
  fun t => match t_long_target t !! n with Some v => Ret v t | None => Err BadAddr end.
Definition set_target (n : tnode) (v : Z) : M timers_t unit :=
  fun t => match t_target t !! n with
           | Some _ => Ret tt (with_target (<[n := v]> (t_target t)) t) | None => Err BadAddr end.
Definition set_long_target (n : tnode) (v : Z) : M timers_t unit :=
  fun t => match t_long_target t !! n with
           | Some _ => Ret tt (with_long_target (<[n := v]> (t_long_target t)) t)
           | None => Err BadAddr end.
Definition get_thread (n : tnode) : M timers_t (option Z) :=
  fun t => match t_thread t !! n with Some v => Ret v t | None => Err BadAddr end.
Definition set_thread (n : tnode) (v : option Z) : M timers_t unit :=
  fun t => match t_thread t !! n with
           | Some _ => Ret tt (with_thread (<[n := v]> (t_thread t)) t) | None => Err BadAddr end.

(** ** Reading the time *)

Definition _secure_mintimer_lltimer_mask (val : Z) : Z :=
  Z.land val (u32 (Z.lnot SECURE_MINTIMER_MASK)).

Definition _is_set (timer : tnode) : M timers_t bool :=
  let! a := get_target timer in
  if c_true a then ret true else let! b := get_long_target timer in ret (c_true b).

Definition _secure_mintimer_lltimer_now : M kst Z := on_hw sm_timer_read_internal.

Definition secure_mintimer_spin_until (fuel : nat) (target : Z) : M kst unit :=
  let target := _secure_mintimer_lltimer_mask target in
  do! loop fuel (fun _ : unit =>
        let! n := _secure_mintimer_lltimer_now in
        ret (if target <? n then inl tt else inr tt)) tt;
  loop fuel (fun _ : unit =>
        let! n := _secure_mintimer_lltimer_now in
        ret (if n <? target then inl tt else inr tt)) tt.

Definition _lltimer_set (target : Z) : M kst unit :=
  let! t := on_timers (gets _in_handler) in
  if c_true t then ret tt
  else on_hw (sm_timer_set_absolute SECURE_MINTIMER_CHAN (_secure_mintimer_lltimer_mask target)).

Definition secure_mintimer_init : M kst unit :=
  do! on_hw (sm_timer_init SECURE_MINTIMER_DEV SECURE_MINTIMER_HZ);
  _lltimer_set 0xFFFFFFFF.

(** The [do] loop re-reads [_secure_mintimer_high_cnt]. *)
Definition _secure_mintimer_now (fuel : nat) : M kst Z :=
  loop fuel (fun _ : unit =>
    let! latched_high_cnt := on_timers (gets _secure_mintimer_high_cnt) in
    let! now := _secure_mintimer_lltimer_now in
    let! high := on_timers (gets _secure_mintimer_high_cnt) in
    ret (if negb (high =? latched_high_cnt) then inl tt
         else inr (Z.lor latched_high_cnt now))) tt.

(** The values stored through [short_term] and [long_term]. *)
Definition _secure_mintimer_now_internal : M kst (Z * Z) :=
  let! high := on_timers (gets _secure_mintimer_high_cnt) in
  let! now := _secure_mintimer_lltimer_now in
  let! long := on_timers (gets _long_cnt) in
  ret (Z.lor high now, long).

Definition _secure_mintimer_now64 : M kst Z :=
  let! '(short_term, long_term) := _secure_mintimer_now_internal in
  ret (u64 (u64 (Z.shiftl long_term 32) + short_term)).

Definition _time_left (target reference : Z) : M kst Z :=
  let! now := _secure_mintimer_lltimer_now in
  ret (if now <? reference then 0 else if now <? target then u32 (target - now) else 0).

Definition _this_high_period (target : Z) : M timers_t bool :=
  let! high := gets _secure_mintimer_high_cnt in
  ret (Z.land target SECURE_MINTIMER_MASK =? high).

(** ** The lists *)

Definition _add_timer_to_list (fuel : nat) (list_head timer : tnode) : M timers_t unit :=
  let! lh := loop fuel (fun list_head =>
    let! p := nxt (load list_head) in
    match p with
    | None => ret (inr list_head)
    | Some q =>
        let! tq := get_target q in
        let! tn := get_target timer in
        if tq <=? tn then ret (inl q) else ret (inr list_head)
    end) list_head in
  let! p := nxt (load lh) in
  do! nxt (store timer p);
  nxt (store lh (Some timer)).

Definition _add_timer_to_long_list (fuel : nat) (list_head timer : tnode) : M timers_t unit :=
  let! lh := loop fuel (fun list_head =>
    let! p := nxt (load list_head) in
    match p with
    | None => ret (inr list_head)
    | Some q =>
        let! lq := get_long_target q in
        let! lt := get_long_target timer in
        if lq <? lt then ret (inl q)
        else if lq =? lt then
          let! tq := get_target q in
          let! tn := get_target timer in
          if tq <=? tn then ret (inl q) else ret (inr list_head)
        else ret (inr list_head)
    end) list_head in
  let! p := nxt (load lh) in
  do! nxt (store timer p);
  nxt (store lh (Some timer)).

Definition _remove_timer_from_list (fuel : nat) (list_head timer : tnode) : M timers_t Z :=
  loop fuel (fun list_head =>
    let! p := nxt (load list_head) in
    match p with
    | None => ret (inr 0)
    | Some q =>
        if decide (q = timer) then
          let! n := nxt (load timer) in
          do! nxt (store list_head n);
          ret (inr 1)
        else ret (inl q)
    end) list_head.

Definition _remove (fuel : nat) (timer : tnode) : M kst unit :=
  let! hd := on_timers (nxt (load HTimer)) in
  if decide (hd = Some timer) then
    let! n := on_timers (nxt (load timer)) in
    do! on_timers (nxt (store HTimer n));
    let! next := match n with
                 | Some q => let! tq := on_timers (get_target q) in
                             ret (u32 (tq - SECURE_MINTIMER_OVERHEAD))
                 | None => ret (_secure_mintimer_lltimer_mask 0xFFFFFFFF)
                 end in
    _lltimer_set next
  else
    on_timers
      (let! r := _remove_timer_from_list fuel HTimer timer in
       if r =? 0 then
         let! r2 := _remove_timer_from_list fuel HOverflow timer in
         if r2 =? 0 then let! _ := _remove_timer_from_list fuel HLong timer in ret tt
         else ret tt
       else ret tt).

Definition secure_mintimer_remove (fuel : nat) (timer : tnode) : M kst unit :=
  let! s := on_timers (_is_set timer) in
  when s
    (do! _remove fuel timer;
     do! on_timers (set_target timer 0);
     on_timers (set_long_target timer 0)).

Definition get_available_timer (fuel : nat) (pid : Z) : M kst (option tnode) :=
  if pid <=? SECURE_MINTIMER_TIMER_LIST_LENGTH then
    do! secure_mintimer_remove fuel (TSlot pid);
    ret (Some (TSlot pid))
  else ret None.

(** ** Setting a timer *)

(** Waking the thread of a timer; the next scheduling is requested. *)
Definition _shoot_timer (timer : tnode) : M kst unit :=
  let! th := on_timers (get_thread timer) in
  do! match th with
      | Some i => on_sched (sched_set_status i STATUS_PENDING)
      | None => ret tt
      end;
  on_sched (modify (with_request 1)).

Definition _secure_mintimer_set_absolute_explicit (fuel : nat) (timer : tnode) (now : Z) : M kst Z :=
  let! t0 := on_timers (get_target timer) in
  let target := u32 (t0 - SECURE_MINTIMER_OVERHEAD) in
  do! when (target <? now)
        (let! l := on_timers (get_long_target timer) in
         on_timers (set_long_target timer (u32 (l + 1))));
  let! l := on_timers (get_long_target timer) in
  let! long_cnt := on_timers (gets _long_cnt) in
  let! this := on_timers (_this_high_period target) in
  do! (if (long_cnt <? l) || negb this then
         on_timers (_add_timer_to_long_list fuel HLong timer)
       else if target <=? _secure_mintimer_lltimer_mask now then
         on_timers (_add_timer_to_list fuel HOverflow timer)
       else
         do! on_timers (_add_timer_to_list fuel HTimer timer);
         let! hd := on_timers (nxt (load HTimer)) in
         when (bool_decide (hd = Some timer)) (_lltimer_set target));
  ret 0.

Definition _secure_mintimer_set_absolute (fuel : nat) (timer : tnode) (target : Z) : M kst Z :=
  let! now := _secure_mintimer_now fuel in
  do! on_timers (nxt (store timer None));
  let offset := u32 (target - now) in
  if offset <=? SECURE_MINTIMER_BACKOFF then
    do! secure_mintimer_spin_until fuel target;
    do! _shoot_timer timer;
    ret 0
  else
    let! s := on_timers (_is_set timer) in
    do! when s (_remove fuel timer);
    do! on_timers (set_target timer target);
    let! long_cnt := on_timers (gets _long_cnt) in
    do! on_timers (set_long_target timer long_cnt);
    _secure_mintimer_set_absolute_explicit fuel timer now.

Definition _secure_mintimer_set (fuel : nat) (timer : tnode) (offset : Z) : M kst unit :=
  do! secure_mintimer_remove fuel timer;
  let! now := _secure_mintimer_now fuel in
  let target := u32 (now + offset) in
  do! _secure_mintimer_set_absolute fuel timer target;
  ret tt.

(** ** Period changes *)

Definition _compare (a b : option tnode) : M timers_t (option tnode) :=
  match a, b with
  | Some x, Some y =>
      let! ta := get_target x in
      let! tb := get_target y in
      ret (if ta <=? tb then a else b)
  | Some _, None => ret a
  | None, _ => ret b
  end.

Definition _merge_lists (fuel : nat) (head_a head_b : option tnode) : M timers_t (option tnode) :=
  let! result_head := _compare head_a head_b in
  do! loop fuel (fun '(head_a, head_b, pos) =>
        let! x := unwrap NullDeref head_a in
        let! head_a := nxt (load x) in
        let! y := unwrap NullDeref head_b in
        let! head_b := nxt (load y) in
        let! p := unwrap NullDeref pos in
        match head_a with
        | None => do! nxt (store p head_b); ret (inr tt)
        | Some _ =>
            match head_b with
            | None => do! nxt (store p head_a); ret (inr tt)
            | Some _ =>
                let! c := _compare head_a head_b in
                do! nxt (store p c);
                ret (inl (head_a, head_b, c))
            end
        end) (head_a, head_b, result_head);
  ret result_head.

Definition _select_long_timers (fuel : nat) : M timers_t unit :=
  let! select_list_start := nxt (load HLong) in
  let! select_list_last := loop fuel (fun last =>
    let! hd := nxt (load HLong) in
    match hd with
    | None => ret (inr last)
    | Some q =>
        let! l := get_long_target q in
        let! long_cnt := gets _long_cnt in
        if l <=? long_cnt then
          let! t := get_target q in
          let! this := _this_high_period t in
          if (this : bool) then
            let! n := nxt (load q) in
            do! nxt (store HLong n);
            ret (inl (Some q))
          else ret (inr last)
        else ret (inr last)
    end) None in
  do! match select_list_last with
      | Some q => nxt (store q None)
      | None => ret tt
      end;
  let! hd := nxt (load HTimer) in
  match hd, select_list_last with
  | Some _, Some _ =>
      let! m := _merge_lists fuel hd select_list_start in
      nxt (store HTimer m)
  | None, Some _ => nxt (store HTimer select_list_start)
  | _, None => ret tt
  end.

Definition _next_period (fuel : nat) : M timers_t unit :=
  do! modify (fun t => with_high_cnt
        (u32 (_secure_mintimer_high_cnt t + u32 (u32 (Z.lnot SECURE_MINTIMER_MASK) + 1))) t);
  let! high := gets _secure_mintimer_high_cnt in
  do! when (high =? 0) (modify (fun t => with_long_cnt (u32 (_long_cnt t + 1)) t));
  let! o := nxt (load HOverflow) in
  do! nxt (store HTimer o);
  do! nxt (store HOverflow None);
  _select_long_timers fuel.

(** ** The interrupt handler *)

(** Lines 622-639: fire every timer that is due. *)
Definition fire_due (fuel : nat) (reference : Z) : M kst unit :=
  loop fuel (fun _ : unit =>
    let! hd := on_timers (nxt (load HTimer)) in
    match hd with
    | None => ret (inr tt)
    | Some timer =>
        let! target := on_timers (get_target timer) in
        let! left := _time_left (_secure_mintimer_lltimer_mask target) reference in
        if left <? SECURE_MINTIMER_ISR_BACKOFF then
          do! loop fuel (fun _ : unit =>
                let! left := _time_left (_secure_mintimer_lltimer_mask target) reference in
                ret (if c_true left then inl tt else inr tt)) tt;
          let! n := on_timers (nxt (load timer)) in
          do! on_timers (nxt (store HTimer n));
          do! on_timers (set_target timer 0);
          do! on_timers (set_long_target timer 0);
          do! _shoot_timer timer;
          ret (inl tt)
        else ret (inr tt)
    end) tt.

(** One pass from the label [overflow]: [inl reference] is [goto overflow],
    [inr next_target] leaves the handler. *)
Definition overflow_pass (fuel : nat) (reference : Z) : M kst (Z + Z) :=
  do! fire_due fuel reference;
  let! n := _secure_mintimer_lltimer_now in
  let now := u16 (n + SECURE_MINTIMER_ISR_BACKOFF) in
  if now <? reference then
    do! on_timers (_next_period fuel);
    do! loop fuel (fun _ : unit =>
          let! n := _secure_mintimer_lltimer_now in
          ret (if reference <? n then inl tt else inr tt)) tt;
    ret (inl 0)
  else
    let! hd := on_timers (nxt (load HTimer)) in
    match hd with
    | Some q =>
        let! t := on_timers (get_target q) in
        let next_target := u32 (t - SECURE_MINTIMER_OVERHEAD) in
        let! now := _secure_mintimer_now fuel in
        if next_target <? u32 (now + SECURE_MINTIMER_ISR_BACKOFF) then ret (inl reference)
        else ret (inr next_target)
    | None =>
        let next_target := _secure_mintimer_lltimer_mask 0xFFFFFFFF in
        let! now := _secure_mintimer_lltimer_now in
        if now <? reference then
          do! on_timers (_next_period fuel);
          ret (inl 0)
        else if _secure_mintimer_lltimer_mask (u32 (now + SECURE_MINTIMER_ISR_BACKOFF)) <? now then
          do! loop fuel (fun _ : unit =>
                let! n := _secure_mintimer_lltimer_now in
                ret (if now <=? n then inl tt else inr tt)) tt;
          do! on_timers (_next_period fuel);
          ret (inl 0)
        else ret (inr next_target)
    end.

Definition _timer_callback (fuel : nat) : M kst unit :=
  do! on_timers (modify (with_in_handler 1));
  let! hd := on_timers (nxt (load HTimer)) in
  let! reference :=
    match hd with
    | None =>
        do! on_timers (_next_period fuel);
        do! loop fuel (fun _ : unit =>
              let! n := _secure_mintimer_lltimer_now in
              ret (if n =? _secure_mintimer_lltimer_mask 0xFFFFFFFF then inl tt else inr tt)) tt;
        ret 0
    | Some _ => _secure_mintimer_lltimer_now
    end in
  let! next_target := loop fuel (overflow_pass fuel) reference in
  do! on_timers (modify (with_in_handler 0));
  do! _lltimer_set next_target;
  on_hw (modify (fun h => with_CTL (Z.land (CTL h) (u16 (Z.lnot TIMER_CTL_IFG))) h)).

Definition _periph_timer_callback (fuel : nat) (chan : Z) : M kst unit := _timer_callback fuel.
Definition secure_mintimer_timer_callback (fuel : nat) : M kst unit := _timer_callback fuel.

(** ** Sleeping *)

Definition _secure_mintimer_tsleep_specific_pid (fuel : nat) (offset pid : Z) : M kst unit :=
  let! timer := get_available_timer fuel pid in
  match timer with
  | None => ret tt
  | Some tm =>
      do! on_timers (set_long_target tm 0);
      do! on_timers (set_target tm 0);
      do! on_timers (set_thread tm (Some pid));
      do! on_sched (sched_set_status pid STATUS_SLEEPING);
      _secure_mintimer_set fuel tm offset
  end.

Definition _secure_mintimer_tsleep_internal (fuel : nat) (offset : Z) : M kst unit :=
  let! a := on_sched (gets sched_active_thread) in
  let! i := unwrap NullDeref a in
  let! t := on_sched (thread_at i) in
  _secure_mintimer_tsleep_specific_pid fuel offset (pid t).
