(* ===== verification/TimerLists.v ===== *)
(** * The timer lists

    What the list functions of secure_mintimer_core.c do to the three lists:
    insertion is stable insertion into a sorted list, removal takes exactly
    one timer out, and a timer that is set goes to the list of the period it
    expires in.  [_merge_lists] is shown to lose timers. *)

From stdpp Require Import sorting.
From S2P Require Import Prelude Clist ClistSpec ListInsert KState RunQueue TimerHw Mintimer.

(** ** Abstract lists *)

Definition target_of (t : timers_t) (n : tnode) : Z := default 0 (t_target t !! n).
Definition long_of (t : timers_t) (n : tnode) : Z := default 0 (t_long_target t !! n).

(** The orders of the short and of the long list. *)
Definition short_le (t : timers_t) (x y : tnode) : Prop := target_of t x <= target_of t y.
Definition long_le (t : timers_t) (x y : tnode) : Prop :=
  long_of t x < long_of t y \/ (long_of t x = long_of t y /\ target_of t x <= target_of t y).

#[export] Instance short_le_dec t : RelDecision (short_le t).
Proof. intros x y. unfold short_le. apply _. Defined.
#[export] Instance long_le_dec t : RelDecision (long_le t).
Proof. intros x y. unfold long_le. apply _. Defined.
#[export] Instance short_le_trans t : Transitive (short_le t).
Proof. intros x y z. unfold short_le. lia. Qed.
#[export] Instance long_le_trans t : Transitive (long_le t).
Proof. intros x y z. unfold long_le. lia. Qed.
#[export] Instance short_le_total t : Total (short_le t).
Proof. intros x y. unfold short_le. lia. Qed.
#[export] Instance long_le_total t : Total (long_le t).
Proof. intros x y. unfold long_le. lia. Qed.

(** The three head variables. *)
Definition heads : list tnode := [HTimer; HOverflow; HLong].

Definition is_timer (t : timers_t) (n : tnode) : Prop :=
  n ∉ heads /\ is_Some (t_next t !! n) /\ is_Some (t_target t !! n) /\
  is_Some (t_long_target t !! n) /\ is_Some (t_thread t !! n).

#[export] Instance is_timer_dec t n : Decision (is_timer t n).
Proof. unfold is_timer. apply _. Defined.

Definition list_order (hd : tnode) (t : timers_t) : relation tnode :=
  match hd with HLong => long_le t | _ => short_le t end.

#[export] Instance list_order_dec hd t : RelDecision (list_order hd t).
Proof. destruct hd; apply _. Defined.
#[export] Instance list_order_trans hd t : Transitive (list_order hd t).
Proof. destruct hd; apply _. Qed.
#[export] Instance list_order_total hd t : Total (list_order hd t).
Proof. destruct hd; apply _. Qed.

#[export] Instance sorted_dec {A} (R : relation A) `{!RelDecision R} (xs : list A) : Decision (Sorted R xs).
Proof.
  induction xs as [|x r IH]; [left; constructor|].
  destruct IH as [Hs|Hn].
  - destruct r as [|y r]; [left; repeat constructor|]. destruct (decide (R x y)) as [Hr|Hr].
    + left. constructor; [done|by constructor].
    + right. intros Hx. inversion Hx as [|? ? ? Hh]. inversion Hh. done.
  - right. intros Hx. inversion Hx. done.
Defined.

(** [ls hd] is the list that starts at the variable [hd]: distinct timers, in
    the order of the list if [b] says so, and no timer in two lists. *)
Definition list_ok (b : bool) (t : timers_t) (ls : tnode -> list tnode) (hd : tnode) : Prop :=
  chain (t_next t) hd (ls hd) /\ Forall (is_timer t) (ls hd) /\ (b = true -> Sorted (list_order hd t) (ls hd)).
Definition lists_disjoint (ls : tnode -> list tnode) : Prop :=
  Forall (fun hd => Forall (fun hd' => Forall (fun n => n ∈ ls hd' -> hd = hd') (ls hd)) heads) heads.
Definition timers_repb (b : bool) (t : timers_t) (ls : tnode -> list tnode) : Prop :=
  Forall (list_ok b t ls) heads /\ lists_disjoint ls.
Abbreviation timers_rep := (timers_repb true).

#[export] Instance timers_rep_dec t ls : Decision (timers_rep t ls).
Proof. unfold timers_repb, lists_disjoint, list_ok. apply _. Defined.

Definition set_list (ls : tnode -> list tnode) (hd : tnode) (xs : list tnode) : tnode -> list tnode :=
  fun hd' => if decide (hd' = hd) then xs else ls hd'.

(** The timer is in no list. *)
Definition unlinked (ls : tnode -> list tnode) (n : tnode) : Prop :=
  forall hd, hd ∈ heads -> n ∉ ls hd.

Lemma rep_list {b} t ls hd : timers_repb b t ls -> hd ∈ heads -> list_ok b t ls hd.
Proof. intros [Hl _] Hh. by eapply Forall_forall in Hl. Qed.

Lemma rep_disjoint {b} t ls hd hd' n :
  timers_repb b t ls -> hd ∈ heads -> hd' ∈ heads -> n ∈ ls hd -> n ∈ ls hd' -> hd = hd'.
Proof.
  intros [_ Hd] Hh Hh' Hn. eapply Forall_forall in Hd; [|exact Hh]. cbn in Hd.
  eapply Forall_forall in Hd; [|exact Hh']. cbn in Hd. by eapply Forall_forall in Hd.
Qed.

Lemma rep_intro {b} t ls :
  (forall hd, hd ∈ heads -> list_ok b t ls hd) ->
  (forall hd hd' n, hd ∈ heads -> hd' ∈ heads -> n ∈ ls hd -> n ∈ ls hd' -> hd = hd') ->
  timers_repb b t ls.
Proof.
  intros H1 H2. split; [by apply Forall_forall|]. do 3 (apply Forall_forall; intros ? ?). by eapply H2.
Qed.

(** Only the head variables count. *)
Lemma rep_ext {b} t ls ls' :
  (forall hd, hd ∈ heads -> ls' hd = ls hd) -> timers_repb b t ls -> timers_repb b t ls'.
Proof.
  intros E Hr. apply rep_intro.
  - intros hd Hh. unfold list_ok. rewrite E by done. by apply rep_list.
  - intros hd hd' n Hh Hh'. rewrite !E by done. by eapply rep_disjoint.
Qed.

Lemma set_list_eq ls hd xs : set_list ls hd xs hd = xs.
Proof. unfold set_list. by rewrite decide_True. Qed.
Lemma set_list_ne ls hd hd' xs : hd' <> hd -> set_list ls hd xs hd' = ls hd'.
Proof. intros. unfold set_list. by rewrite decide_False. Qed.

Lemma is_timer_next t h ws n : frame (t_next t) h ws -> is_timer t n -> is_timer (with_next h t) n.
Proof.
  intros [_ Hf] (H1 & H2 & H3). split; [done|]. split; [by apply Hf|done].
Qed.

Lemma list_order_next hd h t : list_order hd (with_next h t) = list_order hd t.
Proof. by destruct hd. Qed.

(** Replacing one list. *)
Lemma rep_update {b} t ls hd h xs ws :
  timers_repb b t ls -> hd ∈ heads -> frame (t_next t) h ws ->
  (forall a, a ∈ ws -> a = hd \/ a ∈ ls hd \/ (a ∉ heads /\ unlinked ls a)) ->
  chain h hd xs -> Forall (is_timer t) xs -> (b = true -> Sorted (list_order hd t) xs) ->
  (forall n, n ∈ xs -> n ∈ ls hd \/ unlinked ls n) ->
  timers_repb b (with_next h t) (set_list ls hd xs).
Proof.
  intros Hr Hh Hf Hws Hc Ht Hs Hx.
  assert (forall hd' n, hd' ∈ heads -> n ∈ xs -> n ∈ ls hd' -> hd' = hd) as Hx'.
  { intros hd' n Hh' Hn Hn'. destruct (Hx n Hn) as [H1|H1].
    - by eapply rep_disjoint.
    - by destruct (H1 hd' Hh'). }
  apply rep_intro.
  - intros hd' Hh'. unfold list_ok. rewrite list_order_next.
    destruct (decide (hd' = hd)) as [->|Hne].
    + rewrite set_list_eq. split; [done|]. split; [|done].
      eapply Forall_impl; [exact Ht|]. intros n. by eapply is_timer_next.
    + rewrite set_list_ne by done. destruct (rep_list _ _ _ Hr Hh') as (H1 & H2 & H3).
      split; [|split; [|done]].
      * eapply chain_frame; [exact Hf| |done]. intros a Ha Hin.
        assert (Forall (fun n => n ∉ heads) (ls hd)) as Hnh.
        { eapply Forall_impl; [apply (rep_list _ _ _ Hr Hh)|]. by intros n [? _]. }
        assert (Forall (fun n => n ∉ heads) (ls hd')) as Hnh' by (eapply Forall_impl; [exact H2|by intros n [? _]]).
        rewrite Forall_forall in Hnh, Hnh'. apply elem_of_cons in Ha as [->|Ha].
        -- destruct (Hws _ Hin) as [?|[?|[? _]]]; [done|by eapply Hnh|done].
        -- destruct (Hws _ Hin) as [->|[?|[_ Hu]]]; [by eapply Hnh'| |by eapply Hu].
           apply Hne. by eapply rep_disjoint.
      * eapply Forall_impl; [exact H2|]. intros n. by eapply is_timer_next.
  - intros h1 h2 n Hh1 Hh2. unfold set_list.
    destruct (decide (h1 = hd)) as [->|], (decide (h2 = hd)) as [->|]; [done| | |].
    + intros. symmetry. by eapply Hx'.
    + intros. by eapply Hx'.
    + by eapply rep_disjoint.
Qed.

(** ** Reading the fields *)

Lemma get_target_ok t n : is_timer t n -> get_target n t = Ret (target_of t n) t.
Proof. intros (_ & _ & [v E] & _). unfold get_target, target_of. by rewrite E. Qed.
Lemma get_long_target_ok t n : is_timer t n -> get_long_target n t = Ret (long_of t n) t.
Proof. intros (_ & _ & _ & [v E] & _). unfold get_long_target, long_of. by rewrite E. Qed.

Lemma nxt_ok {A} (m : M (gmap tnode (option tnode)) A) t a h :
  m (t_next t) = Ret a h -> nxt m t = Ret a (with_next h t).
Proof. intros E. unfold nxt, zoom. by rewrite E. Qed.

Lemma with_next_id t : with_next (t_next t) t = t.
Proof. by destruct t. Qed.

Lemma nxt_load_ok t p v : t_next t !! p = Some v -> nxt (load p) t = Ret v t.
Proof. intros E. rewrite (nxt_ok _ _ _ _ (load_ok _ _ _ E)). by rewrite with_next_id. Qed.

(** ** Insertion *)

Section insert.
Context (t : timers_t) (l n : tnode) (xs : list tnode) (fuel : nat).
Context (Hc : chain (t_next t) l xs) (Hn : n ∉ l :: xs) (Ht : Forall (is_timer t) (n :: xs)).
Context (Hf : (length xs < fuel)%nat).

Lemma insert_timer le body :
  walks t_next t le xs body ->
  exists h,
    (let! p := loop fuel body l in
     let! v := nxt (load p) in do! nxt (store n v); nxt (store p (Some n))) t
      = Ret tt (with_next h t) /\
    chain h l (insert_by le n xs) /\ frame (t_next t) h (n :: l :: xs).
Proof.
  apply (insert_generic t_next with_next); [done..| |done]. by apply Forall_cons in Ht as [(_ & Ha & _) _].
Qed.

Lemma in_timer q : q ∈ xs -> is_timer t q.
Proof. intros Hq. apply Forall_cons in Ht as [_ H]. by eapply Forall_forall in H. Qed.

Lemma add_timer_ok :
  exists h, _add_timer_to_list fuel l n t = Ret tt (with_next h t) /\
    chain h l (insert_by (fun x => bool_decide (short_le t x n)) n xs) /\
    frame (t_next t) h (n :: l :: xs).
Proof.
  apply insert_timer. pose proof (Forall_inv Ht) as Hnt. split.
  - intros p E. by rewrite (bind_ret _ _ _ _ _ (nxt_load_ok _ _ _ E)).
  - intros p q E Hq. rewrite (bind_ret _ _ _ _ _ (nxt_load_ok _ _ _ E)).
    rewrite (bind_ret _ _ _ _ _ (get_target_ok _ _ (in_timer _ Hq))).
    rewrite (bind_ret _ _ _ _ _ (get_target_ok _ _ Hnt)). unfold short_le.
    destruct (Z.leb_spec (target_of t q) (target_of t n)); case_bool_decide; done || lia.
Qed.

Lemma add_timer_long_ok :
  exists h, _add_timer_to_long_list fuel l n t = Ret tt (with_next h t) /\
    chain h l (insert_by (fun x => bool_decide (long_le t x n)) n xs) /\
    frame (t_next t) h (n :: l :: xs).
Proof.
  apply insert_timer. pose proof (Forall_inv Ht) as Hnt. split.
  - intros p E. by rewrite (bind_ret _ _ _ _ _ (nxt_load_ok _ _ _ E)).
  - intros p q E Hq. rewrite (bind_ret _ _ _ _ _ (nxt_load_ok _ _ _ E)).
    rewrite (bind_ret _ _ _ _ _ (get_long_target_ok _ _ (in_timer _ Hq))).
    rewrite (bind_ret _ _ _ _ _ (get_long_target_ok _ _ Hnt)). unfold long_le.
    destruct (Z.ltb_spec (long_of t q) (long_of t n)).
    { case_bool_decide; [done|]. lia. }
    destruct (Z.eqb_spec (long_of t q) (long_of t n)).
    2: { case_bool_decide; [lia|done]. }
    rewrite (bind_ret _ _ _ _ _ (get_target_ok _ _ (in_timer _ Hq))).
    rewrite (bind_ret _ _ _ _ _ (get_target_ok _ _ Hnt)).
    destruct (Z.leb_spec (target_of t q) (target_of t n)); case_bool_decide; done || lia.
Qed.
End insert.

(** ** Removal *)

Lemma remove_list_eq n t : forall fuel p,
  _remove_timer_from_list fuel p n t =
  match list_remove fuel p n (t_next t) with
  | Ret r h => Ret (c_bool (bool_decide (r <> None))) (with_next h t)
  | Err f => Err f
  end.
Proof.
  induction fuel as [|fuel IH]; intros p; [done|].
  unfold _remove_timer_from_list, list_remove in *. cbn [loop].
  unfold bind, nxt, zoom, load, store, ret, unwrap in *.
  destruct (t_next t !! p) as [[q|]|] eqn:E; cbn; [|by rewrite with_next_id|done].
  destruct (decide (q = n)) as [->|]; cbn.
  - destruct (t_next t !! n) eqn:En; cbn; [|done]. rewrite with_next_id, E. by cbn.
  - rewrite with_next_id. apply IH.
Qed.

Section operations.
Context {b : bool} (t : timers_t) (ls : tnode -> list tnode) (Hr : timers_repb b t ls).
Context (fuel : nat) (Hf : forall hd, hd ∈ heads -> (length (ls hd) < fuel)%nat).

Lemma in_list_timer hd n : hd ∈ heads -> n ∈ ls hd -> is_timer t n.
Proof. intros Hh Hn. destruct (rep_list _ _ _ Hr Hh) as (_ & Ht & _). by eapply Forall_forall in Ht. Qed.

Lemma unlinked_notin hd n : hd ∈ heads -> is_timer t n -> unlinked ls n -> n ∉ hd :: ls hd.
Proof. intros Hh [Hn _] Hu [->|Hin]%elem_of_cons; [done|by eapply Hu]. Qed.

(** Insertion into any of the lists. *)
Lemma add_any hd n :
  hd ∈ heads -> is_timer t n -> unlinked ls n ->
  let xs := insert_by (fun x => bool_decide (list_order hd t x n)) n (ls hd) in
  exists h,
    (match hd with
     | HLong => _add_timer_to_long_list fuel hd n
     | _ => _add_timer_to_list fuel hd n
     end) t = Ret tt (with_next h t) /\
    timers_repb b (with_next h t) (set_list ls hd xs) /\ frame (t_next t) h (n :: hd :: ls hd).
Proof.
  intros Hh Hn Hu xs. destruct (rep_list _ _ _ Hr Hh) as (Hc & Ht & Hs).
  pose proof (unlinked_notin hd n Hh Hn Hu) as Hni.
  assert (exists h,
    (match hd with
     | HLong => _add_timer_to_long_list fuel hd n
     | _ => _add_timer_to_list fuel hd n
     end) t = Ret tt (with_next h t) /\ chain h hd xs /\ frame (t_next t) h (n :: hd :: ls hd))
    as (h & E & Hc' & Hfr).
  { assert (Forall (is_timer t) (n :: ls hd)) by (by constructor).
    specialize (Hf hd Hh). destruct hd;
      try (by apply add_timer_ok); try (by apply add_timer_long_ok). }
  exists h. split; [done|]. split; [|done]. eapply rep_update; [done|done|exact Hfr| |done| | |].
  - intros a Ha. rewrite !elem_of_cons in Ha. destruct Ha as [->|[->|Ha]]; [|by left|by right; left].
    right; right. split; [apply Hn|done].
  - unfold xs. rewrite insert_perm. by constructor.
  - intros Eb. by apply insert_sorted; [apply _..|apply Hs].
  - intros a Ha. unfold xs in Ha. rewrite insert_perm in Ha.
    apply elem_of_cons in Ha as [->|Ha]; [by right|by left].
Qed.

Lemma timers_without_sorted hd n : Sorted (list_order hd t) (ls hd) -> Sorted (list_order hd t) (without n (ls hd)).
Proof.
  intros Hs. apply Sorted_StronglySorted in Hs; [|exact _]. apply StronglySorted_Sorted.
  unfold without. induction Hs as [|x r Hs IH Hx]; [constructor|]. rewrite filter_cons.
  destruct (decide (x <> n)); [|done]. constructor; [done|]. apply Forall_forall.
  intros y [_ Hy]%list_elem_of_filter. by eapply Forall_forall in Hx.
Qed.

Lemma rep_without hd h n :
  hd ∈ heads -> chain h hd (without n (ls hd)) -> frame (t_next t) h (hd :: ls hd) ->
  timers_repb b (with_next h t) (set_list ls hd (without n (ls hd))).
Proof.
  intros Hh Hc' Hfr. destruct (rep_list _ _ _ Hr Hh) as (Hc & Ht & Hs).
  eapply rep_update; [done|done|exact Hfr| |done| |by intros Eb; apply timers_without_sorted, Hs|].
  - intros a [->|Ha]%elem_of_cons; [by left|by right; left].
  - unfold without. apply Forall_forall. intros a [_ Ha]%list_elem_of_filter. by eapply Forall_forall in Ht.
  - intros a [_ Ha]%list_elem_of_filter. by left.
Qed.

Lemma remove_any hd n :
  hd ∈ heads ->
  exists h, _remove_timer_from_list fuel hd n t
              = Ret (c_bool (bool_decide (n ∈ ls hd))) (with_next h t) /\
    timers_repb b (with_next h t) (set_list ls hd (without n (ls hd))) /\
    (n ∉ ls hd -> h = t_next t) /\ frame (t_next t) h (hd :: ls hd).
Proof.
  intros Hh. destruct (rep_list _ _ _ Hr Hh) as (Hc & Ht & Hs).
  destruct (list_remove_spec fuel _ _ _ n Hc (Hf hd Hh)) as (h & E & Hc' & Hfr & Hno).
  exists h. rewrite remove_list_eq, E. split; [|split; [by apply rep_without|done]].
  destruct (decide (n ∈ ls hd)); by repeat case_bool_decide.
Qed.
End operations.

(** ** Changing the fields of a timer *)

Lemma sorted_weaken (R R' : relation tnode) xs :
  Sorted R xs -> (forall x y, x ∈ xs -> y ∈ xs -> R x y -> R' x y) -> Sorted R' xs.
Proof.
  induction 1 as [|x r Hs IH Hh]; intros HR; [constructor|]. constructor.
  - apply IH. intros a b Ha Hb. apply HR; in_list.
  - destruct Hh as [|y r Hxy]; constructor. apply HR; [in_list..|done].
Qed.

(** An update that keeps the links and the fields of all listed timers. *)
Lemma rep_fields {b} t t' ls :
  timers_repb b t ls -> t_next t' = t_next t ->
  (forall n, is_timer t n -> is_timer t' n) ->
  (forall hd n, hd ∈ heads -> n ∈ ls hd -> target_of t' n = target_of t n /\ long_of t' n = long_of t n) ->
  timers_repb b t' ls.
Proof.
  intros Hr Hn Ht Hx. apply rep_intro.
  - intros hd Hh. destruct (rep_list _ _ _ Hr Hh) as (H1 & H2 & H3). split; [by rewrite Hn|].
    split; [eapply Forall_impl; [exact H2|apply Ht]|].
    intros Eb. eapply sorted_weaken; [exact (H3 Eb)|]. intros x y Hx1 Hy1.
    destruct (Hx hd x Hh Hx1) as [E1 E2], (Hx hd y Hh Hy1) as [E3 E4].
    destruct hd; cbn; unfold short_le, long_le; by rewrite ?E1, ?E2, ?E3, ?E4.
  - intros. by eapply rep_disjoint.
Qed.

(** Writing the two target fields of [n]. *)
Definition with_targets (n : tnode) (v w : Z) (t : timers_t) : timers_t :=
  with_long_target (<[n := w]> (t_long_target t)) (with_target (<[n := v]> (t_target t)) t).

Lemma is_timer_targets t n v w m : is_timer t m -> is_timer (with_targets n v w t) m.
Proof.
  intros (H1 & H2 & H3 & H4 & H5). split; [done|]. split; [done|]. cbn.
  split; [apply lookup_insert_is_Some'; by right|]. split; [|done].
  apply lookup_insert_is_Some'; by right.
Qed.

(** What timers there are stays. *)
Definition keeps_timers (t t' : timers_t) : Prop :=
  (forall q, is_timer t q -> is_timer t' q) /\ forall q, t_target t !! q = None -> t_target t' !! q = None.

Lemma keeps_next t h ws : frame (t_next t) h ws -> keeps_timers t (with_next h t).
Proof. intros Hf. split; [|done]. intros q. by eapply is_timer_next. Qed.

Lemma keeps_targets t n v w : is_timer t n -> keeps_timers t (with_targets n v w t).
Proof.
  intros Hn. split; [by apply is_timer_targets|]. intros q Hq. cbn. rewrite lookup_insert_ne; [done|].
  intros <-. destruct Hn as (_ & _ & [x Hx] & _). congruence.
Qed.

Lemma keeps_trans t t' t'' : keeps_timers t t' -> keeps_timers t' t'' -> keeps_timers t t''.
Proof. intros [H1 H2] [H3 H4]. split; auto. Qed.

Lemma targets_eq t n v w : target_of (with_targets n v w t) n = v /\ long_of (with_targets n v w t) n = w.
Proof. unfold target_of, long_of, with_targets. cbn. by rewrite !lookup_insert_eq. Qed.

Lemma targets_ne t n v w m :
  m <> n -> target_of (with_targets n v w t) m = target_of t m /\ long_of (with_targets n v w t) m = long_of t m.
Proof. intros. unfold target_of, long_of, with_targets. cbn. by rewrite !lookup_insert_ne. Qed.

Lemma rep_targets {b} t ls n v w :
  timers_repb b t ls -> unlinked ls n -> timers_repb b (with_targets n v w t) ls.
Proof.
  intros Hr Hu. eapply rep_fields; [exact Hr|done|apply is_timer_targets|].
  intros hd m Hh Hm. apply targets_ne. intros ->. by apply (Hu hd).
Qed.

Lemma set_target_ok t n v :
  is_timer t n -> set_target n v t = Ret tt (with_target (<[n := v]> (t_target t)) t).
Proof. intros (_ & _ & [x E] & _). unfold set_target. by rewrite E. Qed.
Lemma set_long_target_ok t n v :
  is_timer t n -> set_long_target n v t = Ret tt (with_long_target (<[n := v]> (t_long_target t)) t).
Proof. intros (_ & _ & _ & [x E] & _). unfold set_long_target. by rewrite E. Qed.

(** Both stores in a row. *)
Lemma set_targets_ok k n v w :
  is_timer (tmr k) n ->
  (do! on_timers (set_target n v); on_timers (set_long_target n w)) k
    = Ret tt (with_tmr (with_targets n v w (tmr k)) k).
Proof.
  intros Hn. rewrite (bind_ret _ _ _ _ _ (on_timers_ok _ _ _ _ (set_target_ok _ _ _ Hn))).
  erewrite on_timers_ok; [done|]. cbn [tmr with_tmr]. apply set_long_target_ok.
  destruct Hn as (H1 & H2 & H3 & H4). split; [done|]. split; [done|]. split; [|done]. cbn.
  apply lookup_insert_is_Some'. by right.
Qed.

(** ** Removing a timer *)

Definition drop_timer (n : tnode) (ls : tnode -> list tnode) : tnode -> list tnode :=
  fun hd => without n (ls hd).

Definition is_setb (t : timers_t) (n : tnode) : bool := c_true (target_of t n) || c_true (long_of t n).

Lemma is_set_ok t n : is_timer t n -> _is_set n t = Ret (is_setb t n) t.
Proof.
  intros Hn. unfold _is_set, is_setb. rewrite (bind_ret _ _ _ _ _ (get_target_ok _ _ Hn)).
  destruct (c_true (target_of t n)); [done|]. by rewrite (bind_ret _ _ _ _ _ (get_long_target_ok _ _ Hn)).
Qed.

(** Programming the compare register, unless the handler will do it. *)
Definition rearm (value : Z) (k : kst) : hw_t :=
  if c_true (_in_handler (tmr k)) then hw k
  else armed (_secure_mintimer_lltimer_mask value) (hw k).

Lemma lltimer_set_ok value k :
  hw_wf (hw k) -> _lltimer_set value k = Ret tt (with_hw (rearm value k) k) /\ hw_wf (rearm value k).
Proof.
  intros Hw. unfold _lltimer_set, rearm. rewrite (bind_ret _ _ _ _ _ (on_timers_ok _ _ _ _ (gets_ok _ _))).
  rewrite with_tmr_id. destruct (c_true (_in_handler (tmr k))).
  - split; [|done]. by rewrite with_hw_id.
  - destruct (set_absolute_ok (hw k) (_secure_mintimer_lltimer_mask value) Hw) as [E Hw'].
    split; [|done]. by apply on_hw_ok.
Qed.

(** The compare value after the first of the list is gone. *)
Definition next_deadline (t : timers_t) (rest : list tnode) : Z :=
  match rest with
  | [] => _secure_mintimer_lltimer_mask 0xFFFFFFFF
  | q :: _ => u32 (target_of t q - SECURE_MINTIMER_OVERHEAD)
  end.

Definition hw_after_remove (k : kst) (ls : tnode -> list tnode) (n : tnode) : hw_t :=
  if decide (head (ls HTimer) = Some n)
  then rearm (next_deadline (tmr k) (tail (ls HTimer))) k else hw k.

Lemma store_head_ok {b} t hd x r :
  list_ok b t (fun _ => x :: r) hd ->
  exists h, (let! n := nxt (load x) in do! nxt (store hd n); ret n) t = Ret (head r) (with_next h t) /\
    chain h hd r /\ frame (t_next t) h [hd].
Proof.
  intros (Hc & _). pose proof (list_remove_head_spec _ _ _ Hc) as (h & E & Hc' & Hf).
  exists h. split; [|done]. destruct Hc as [_ [Hl Hs]]. unfold list_remove_head in E.
  rewrite (bind_ret _ _ _ _ _ (load_ok _ _ _ Hl)) in E.
  apply bind_inv in E as (v & h1 & E1 & E). apply bind_inv in E as ([] & h2 & E2 & E).
  rewrite (load_ok _ _ _ (seg_head _ _ _ _ Hs)), app_nil_r in E1. simplify_eq.
  injection E as ->. rewrite (bind_ret _ _ _ _ _ (nxt_load_ok _ _ _ (seg_head _ _ _ _ Hs))), app_nil_r.
  by rewrite (bind_ret _ _ _ _ _ (nxt_ok _ _ _ _ E2)).
Qed.

Section remove.
Context (k : kst) (ls : tnode -> list tnode) (n : tnode) (fuel : nat).
Context {b : bool} (Hr : timers_repb b (tmr k) ls) (Hw : hw_wf (hw k)).
Context (Hf : forall hd, hd ∈ heads -> (length (ls hd) < fuel)%nat).

Lemma head_in_heads : HTimer ∈ heads /\ HOverflow ∈ heads /\ HLong ∈ heads.
Proof. unfold heads. split; [|split]; in_list. Qed.

Lemma without_elsewhere hd hd' :
  hd ∈ heads -> hd' ∈ heads -> n ∈ ls hd -> hd' <> hd -> without n (ls hd') = ls hd'.
Proof.
  intros Hh Hh' Hn Hne. apply without_notin. intros Hn'. apply Hne. by eapply rep_disjoint.
Qed.

(** Dropping [n] from the list it is in drops it from all of them. *)
Lemma drop_one t hd :
  hd ∈ heads -> n ∈ ls hd -> timers_repb b t (set_list ls hd (without n (ls hd))) ->
  timers_repb b t (drop_timer n ls).
Proof.
  intros Hh Hn. apply rep_ext. intros hd' Hh'. unfold drop_timer, set_list.
  destruct (decide (hd' = hd)) as [->|]; [done|]. by apply (without_elsewhere hd).
Qed.

Lemma drop_none t : unlinked ls n -> timers_repb b t ls -> timers_repb b t (drop_timer n ls).
Proof.
  intros Hu. apply rep_ext. intros hd Hh. by apply without_notin, Hu.
Qed.

(** The first list, with its head being removed. *)
Lemma remove_head :
  head (ls HTimer) = Some n ->
  exists h, _remove fuel n k = Ret tt (K (sch k) (with_next h (tmr k)) (hw_after_remove k ls n)) /\
    timers_repb b (with_next h (tmr k)) (drop_timer n ls) /\ frame (t_next (tmr k)) h (HTimer :: ls HTimer).
Proof.
  destruct head_in_heads as (Hh & _). intros Hn. pose proof (rep_list _ _ _ Hr Hh) as Hl.
  unfold hw_after_remove. rewrite decide_True by done.
  destruct (ls HTimer) as [|x r] eqn:El; [done|]. injection Hn as ->.
  pose proof Hl as (Hc & Ht & Hs). rewrite El in Hc, Ht, Hs. pose proof Hc as [Hd [Hl0 Hsg]].
  destruct (store_head_ok (b:=b) (tmr k) HTimer n r) as (h & E & Hc' & Hfr).
  { done. }
  assert (without n (ls HTimer) = r) as Ew.
  { rewrite El. apply (without_split n [] r). by apply NoDup_cons in Hd as [_ Hd]. }
  exists h. split; [|split].
  - unfold _remove.
    rewrite (bind_ret _ _ _ _ _ (on_timers_ok _ _ _ _ (nxt_load_ok _ _ _ Hl0))), with_tmr_id.
    rewrite decide_True by done.
    apply bind_inv in E as (v & t1 & E1 & E). apply bind_inv in E as ([] & t2 & E2 & E).
    rewrite (bind_ret _ _ _ _ _ (on_timers_ok _ _ _ _ E1)).
    rewrite (nxt_load_ok _ _ _ (seg_head _ _ _ _ Hsg)) in E1. injection E1 as <- <-.
    rewrite with_tmr_id, app_nil_r in *. rewrite (bind_ret _ _ _ _ _ (on_timers_ok _ _ _ _ E2)).
    injection E as ->. cbn [tail]. destruct r as [|q r]; cbn [head next_deadline].
    + rewrite (bind_ret (ret _) _ _ _ _ eq_refl).
      destruct (lltimer_set_ok (_secure_mintimer_lltimer_mask 0xFFFFFFFF) (with_tmr (with_next h (tmr k)) k) Hw) as [-> _].
      done.
    + assert (is_timer (with_next h (tmr k)) q) as Hq.
      { eapply is_timer_next; [exact Hfr|]. by apply Forall_cons in Ht as [_ [? _]%Forall_cons]. }
      rewrite bind_assoc.
      rewrite (bind_ret _ _ (with_tmr (with_next h (tmr k)) k) _ _ (on_timers_ok _ _ _ _ (get_target_ok _ _ Hq))).
      rewrite (bind_ret (ret _) _ _ _ _ eq_refl).
      apply (proj1 (lltimer_set_ok _ (with_tmr (with_next h (tmr k)) k) Hw)).
  - apply (drop_one _ HTimer); [done|rewrite El; in_list|].
    apply rep_without; [done|done|by rewrite Ew|]. rewrite El. eapply frame_weaken; [done|]. set_solver.
  - eapply frame_weaken; [done|]. set_solver.
Qed.
Definition timers_kept (h : gmap tnode (option tnode)) : Prop :=
  forall m, is_timer (tmr k) m -> is_timer (with_next h (tmr k)) m.

(** One of the three calls of [_remove_timer_from_list]. *)
Lemma remove_try hd :
  hd ∈ heads ->
  (n ∈ ls hd /\ exists h, _remove_timer_from_list fuel hd n (tmr k) = Ret 1 (with_next h (tmr k)) /\
     timers_repb b (with_next h (tmr k)) (drop_timer n ls) /\ timers_kept h) \/
  (n ∉ ls hd /\ _remove_timer_from_list fuel hd n (tmr k) = Ret 0 (tmr k)).
Proof.
  intros Hh. destruct (remove_any _ _ Hr fuel Hf hd n Hh) as (h & E & Hr' & Hno & Hfr).
  destruct (decide (n ∈ ls hd)) as [Hn|Hn]; [left|right]; (split; [done|]).
  - exists h. rewrite E, bool_decide_true by done. split; [done|].
    split; [by apply (drop_one _ hd)|]. intros m. by eapply is_timer_next.
  - rewrite E, bool_decide_false, (Hno Hn), with_next_id by done. done.
Qed.

Lemma timer_remove_ok :
  exists h, _remove fuel n k = Ret tt (K (sch k) (with_next h (tmr k)) (hw_after_remove k ls n)) /\
    timers_repb b (with_next h (tmr k)) (drop_timer n ls) /\ timers_kept h.
Proof.
  destruct head_in_heads as (H1 & H2 & H3).
  destruct (decide (head (ls HTimer) = Some n)) as [Hhd|Hhd].
  { destruct (remove_head Hhd) as (h & E & Hr' & Hfr). exists h. split; [done|].
    split; [done|]. intros m. by eapply is_timer_next. }
  pose proof (rep_list _ _ _ Hr H1) as ([_ Hs] & _). pose proof (seg_head _ _ _ _ Hs) as Hl.
  rewrite app_nil_r in Hl. unfold _remove, hw_after_remove. rewrite (decide_False _ _ Hhd).
  rewrite (bind_ret _ _ _ _ _ (on_timers_ok _ _ _ _ (nxt_load_ok _ _ _ Hl))), with_tmr_id.
  rewrite decide_False by done.
  assert (forall h, K (sch k) (with_next h (tmr k)) (hw k) = with_tmr (with_next h (tmr k)) k) as EK by done.
  setoid_rewrite EK.
  destruct (remove_try HTimer H1) as [[_ (h & E & Hr')]|[Hn1 E]].
  { exists h. split; [|done]. apply on_timers_ok. by rewrite (bind_ret _ _ _ _ _ E). }
  destruct (remove_try HOverflow H2) as [[_ (h & E2 & Hr')]|[Hn2 E2]].
  { exists h. split; [|done]. apply on_timers_ok. rewrite (bind_ret _ _ _ _ _ E). cbn [Z.eqb].
    by rewrite (bind_ret _ _ _ _ _ E2). }
  destruct (remove_try HLong H3) as [[_ (h & E3 & Hr')]|[Hn3 E3]].
  { exists h. split; [|done]. apply on_timers_ok. rewrite (bind_ret _ _ _ _ _ E). cbn [Z.eqb].
    rewrite (bind_ret _ _ _ _ _ E2). cbn [Z.eqb]. by rewrite (bind_ret _ _ _ _ _ E3). }
  exists (t_next (tmr k)). rewrite with_next_id. split.
  - apply on_timers_ok. rewrite (bind_ret _ _ _ _ _ E). cbn [Z.eqb].
    rewrite (bind_ret _ _ _ _ _ E2). cbn [Z.eqb]. by rewrite (bind_ret _ _ _ _ _ E3).
  - split; [|intros m; by rewrite with_next_id]. apply drop_none; [|done]. intros hd Hh. unfold heads in Hh.
    rewrite !elem_of_cons, elem_of_nil in Hh. destruct Hh as [->|[->|[->|[]]]]; done.
Qed.

Lemma drop_unlinked : unlinked (drop_timer n ls) n.
Proof. intros hd _ [Hn _]%list_elem_of_filter. done. Qed.

Lemma secure_remove_ok :
  is_timer (tmr k) n ->
  exists k', secure_mintimer_remove fuel n k = Ret tt k' /\ sch k' = sch k /\
    if is_setb (tmr k) n then
      timers_repb b (tmr k') (drop_timer n ls) /\ hw k' = hw_after_remove k ls n /\
      target_of (tmr k') n = 0 /\ long_of (tmr k') n = 0 /\
      exists h, tmr k' = with_targets n 0 0 (with_next h (tmr k))
    else k' = k.
Proof.
  intros Hn. unfold secure_mintimer_remove.
  rewrite (bind_ret _ _ _ _ _ (on_timers_ok _ _ _ _ (is_set_ok _ _ Hn))), with_tmr_id.
  destruct (is_setb (tmr k) n); cbn [when]; [|by exists k].
  destruct timer_remove_ok as (h & E & Hr' & Hk). rewrite (bind_ret _ _ _ _ _ E).
  specialize (Hk n Hn).
  rewrite set_targets_ok by done. eexists. split; [done|]. cbn. split; [done|].
  split; [by apply rep_targets; [|apply drop_unlinked]|]. split; [done|].
  pose proof (targets_eq (with_next h (tmr k)) n 0 0). naive_solver.
Qed.
End remove.

(** ** Setting a timer *)

(** Where [_secure_mintimer_set_absolute_explicit] puts a timer, and the
    long target it gives it. *)
Definition start_of (t : timers_t) (n : tnode) : Z := u32 (target_of t n - SECURE_MINTIMER_OVERHEAD).
Definition long_after (t : timers_t) (n : tnode) (now : Z) : Z :=
  if start_of t n <? now then u32 (long_of t n + 1) else long_of t n.
Definition list_for (t : timers_t) (n : tnode) (now : Z) : tnode :=
  if (_long_cnt t <? long_after t n now)
     || negb (Z.land (start_of t n) SECURE_MINTIMER_MASK =? _secure_mintimer_high_cnt t)
  then HLong
  else if start_of t n <=? _secure_mintimer_lltimer_mask now then HOverflow else HTimer.

(** The timers afterwards, links apart. *)
Definition bumped (t : timers_t) (n : tnode) (now : Z) : timers_t :=
  if start_of t n <? now then with_long_target (<[n := u32 (long_of t n + 1)]> (t_long_target t)) t else t.

Lemma list_for_heads t n now : list_for t n now ∈ heads.
Proof. unfold list_for, heads. repeat case_match; in_list. Qed.

Section set.
Context (k : kst) (ls : tnode -> list tnode) (n : tnode) (fuel : nat) (now : Z).
Context {b : bool} (Hr : timers_repb b (tmr k) ls) (Hw : hw_wf (hw k)).
Context (Hf : forall hd, hd ∈ heads -> (length (ls hd) < fuel)%nat).
Context (Hn : is_timer (tmr k) n) (Hu : unlinked ls n).

Abbreviation t1 := (bumped (tmr k) n now).
Abbreviation hd := (list_for (tmr k) n now).

(** The list [hd] with the timer in it. *)
Definition queued : list tnode := insert_by (fun x => bool_decide (list_order hd t1 x n)) n (ls hd).

Lemma bumped_facts :
  is_timer t1 n /\ timers_repb b t1 ls /\ t_next t1 = t_next (tmr k) /\
  target_of t1 n = target_of (tmr k) n /\ long_of t1 n = long_after (tmr k) n now /\
  _long_cnt t1 = _long_cnt (tmr k) /\ _in_handler t1 = _in_handler (tmr k) /\
  _secure_mintimer_high_cnt t1 = _secure_mintimer_high_cnt (tmr k).
Proof.
  unfold bumped, long_after. destruct (start_of (tmr k) n <? now); [|naive_solver].
  assert (forall m, is_timer (tmr k) m ->
            is_timer (with_long_target (<[n:=u32 (long_of (tmr k) n + 1)]> (t_long_target (tmr k))) (tmr k)) m) as Hm.
  { intros m (H1 & H2 & H3 & H4 & H5). split; [done|]. split; [done|]. split; [done|].
    split; [|done]. apply lookup_insert_is_Some'. by right. }
  split; [by apply Hm|]. split; [|split; [done|]; split; [done|]; split; [|done]].
  - eapply rep_fields; [exact Hr|done|done|]. intros hd' m Hh Hm'. split; [done|].
    unfold long_of. cbn. rewrite lookup_insert_ne; [done|]. intros <-. by apply (Hu hd').
  - unfold long_of at 1. cbn. by rewrite lookup_insert_eq.
Qed.

(** The three calls, by the list chosen. *)
Lemma explicit_ok :
  exists h, _secure_mintimer_set_absolute_explicit fuel n now k =
      Ret 0 (K (sch k) (with_next h t1)
               (if decide (hd = HTimer /\ head queued = Some n)
                then rearm (start_of (tmr k) n) k else hw k)) /\
    timers_repb b (with_next h t1) (set_list ls hd queued) /\ frame (t_next (tmr k)) h (n :: hd :: ls hd).
Proof.
  destruct bumped_facts as (Hn1 & Hr1 & En & Et & El & Ec & Ei & Eh).
  destruct (add_any t1 ls Hr1 fuel Hf hd n (list_for_heads _ _ _) Hn1 Hu) as (h & E & Hr' & Hfr).
  fold queued in Hr'. rewrite En in Hfr. exists h. split; [|done].
  unfold _secure_mintimer_set_absolute_explicit.
  rewrite (bind_ret _ _ _ _ _ (on_timers_ok _ _ _ _ (get_target_ok _ _ Hn))), with_tmr_id.
  fold (start_of (tmr k) n).
  erewrite (bind_ret _ _ _ tt (with_tmr t1 k)).
  2: { unfold bumped. destruct (start_of (tmr k) n <? now); cbn [when]; [|by rewrite with_tmr_id].
       rewrite (bind_ret _ _ _ _ _ (on_timers_ok _ _ _ _ (get_long_target_ok _ _ Hn))), with_tmr_id.
       by rewrite (on_timers_ok _ _ _ _ (set_long_target_ok _ _ _ Hn)). }
  set (k1 := with_tmr t1 k). assert (tmr k1 = t1) as Etk by done.
  rewrite (bind_ret _ _ k1 _ _ (on_timers_ok _ _ _ _ (get_long_target_ok (tmr k1) n Hn1))), with_tmr_id.
  rewrite (bind_ret _ _ k1 _ _ (on_timers_ok _ _ _ _ (gets_ok _ _))), with_tmr_id.
  assert (forall x, on_timers (_this_high_period x) k1 =
            Ret (Z.land x SECURE_MINTIMER_MASK =? _secure_mintimer_high_cnt (tmr k1)) k1) as Hthis.
  { intros x. erewrite on_timers_ok by done. by rewrite with_tmr_id. }
  rewrite (bind_ret _ _ _ _ _ (Hthis _)). rewrite Etk, El, Ec, Eh.
  assert (forall m, m t1 = Ret tt (with_next h t1) ->
            on_timers m k1 = Ret tt (with_tmr (with_next h t1) k)) as Hon.
  { intros m Em. unfold on_timers, zoom. change (tmr k1) with t1. by rewrite Em. }
  destruct ((_long_cnt (tmr k) <? long_after (tmr k) n now)
            || negb (Z.land (start_of (tmr k) n) SECURE_MINTIMER_MASK =? _secure_mintimer_high_cnt (tmr k)))
    eqn:C1; [|destruct (start_of (tmr k) n <=? _secure_mintimer_lltimer_mask now) eqn:C2].
  - assert (hd = HLong) as Ehd by (unfold list_for; by rewrite C1).
    rewrite Ehd in E |- *. rewrite (bind_ret _ _ _ _ _ (Hon _ E)).
    by rewrite decide_False by naive_solver.
  - assert (hd = HOverflow) as Ehd by (unfold list_for; by rewrite C1, C2).
    rewrite Ehd in E |- *. rewrite (bind_ret _ _ _ _ _ (Hon _ E)).
    by rewrite decide_False by naive_solver.
  - assert (hd = HTimer) as Ehd by (unfold list_for; by rewrite C1, C2).
    destruct (rep_list _ _ HTimer Hr' (proj1 head_in_heads)) as ([_ Hs] & _).
    rewrite <- Ehd, set_list_eq in Hs. rewrite Ehd in E, Hs |- *.
    rewrite bind_assoc, (bind_ret _ _ _ _ _ (Hon _ E)), bind_assoc.
    pose proof (seg_head _ _ _ _ Hs) as Hh. rewrite app_nil_r in Hh.
    rewrite (bind_ret _ _ (with_tmr (with_next h t1) k) _ _ (on_timers_ok _ _ _ _ (nxt_load_ok _ _ _ Hh))).
    case_bool_decide as Hb; cbn [when].
    + rewrite decide_True by done.
      rewrite (bind_ret _ _ (with_tmr (with_next h t1) k) _ _
                 (proj1 (lltimer_set_ok _ (with_tmr (with_next h t1) k) Hw))).
      unfold rearm. cbn [tmr hw with_tmr]. change (_in_handler (with_next h t1)) with (_in_handler t1).
      by rewrite Ei.
    + rewrite decide_False by naive_solver. done.
Qed.
End set.
