(* ===== verification/TimerPeriod.v ===== *)
(** * Period changes of the software timers

    When the 16-bit counter overflows, [_next_period] advances the count of
    periods, makes the overflow list the current one and merges the long
    timers of the new period into it.  [_merge_lists] keeps only the smaller
    of every pair of timers at the same position. *)

From stdpp Require Import sorting.
From S2P Require Import Prelude Clist ClistSpec ListInsert KState RunQueue TimerHw Mintimer TimerLists.

(** ** The pure merge *)

Fixpoint merge_rest (le : tnode -> tnode -> bool) (a b : list tnode) : list tnode :=
  match a, b with
  | x :: a', y :: b' => (if le x y then x else y) :: merge_rest le a' b'
  | [], _ => b
  | _, [] => a
  end.

Lemma merge_rest_nil_r le a : merge_rest le a [] = a.
Proof. by destruct a. Qed.

Lemma merge_rest_length le a b : length (merge_rest le a b) = Nat.max (length a) (length b).
Proof. revert b. induction a as [|x a IH]; intros [|y b]; cbn; [done..|]. by rewrite IH. Qed.

Lemma merge_rest_elem le a b n : n ∈ merge_rest le a b -> n ∈ a \/ n ∈ b.
Proof.
  revert b. induction a as [|x a IH]; intros [|y b]; cbn; [set_solver..|].
  intros [->|Hn]%elem_of_cons.
  - destruct (le x y); [left|right]; in_list.
  - destruct (IH _ Hn); [left|right]; in_list.
Qed.

Lemma merge_rest_nodup le a b : NoDup (a ++ b) -> NoDup (merge_rest le a b).
Proof.
  revert b. induction a as [|x a IH]; intros [|y b]; cbn; [done|done|by rewrite app_nil_r|].
  intros [Hx Hd]%NoDup_cons. rewrite <- (Permutation_middle a b y) in Hd. apply NoDup_cons in Hd as [Hy Hd].
  constructor; [|by apply IH]. intros Hm%merge_rest_elem.
  destruct (le x y); set_solver.
Qed.

Section merge_sorted.
Context (t : timers_t).
Abbreviation le := (fun x y => target_of t x <=? target_of t y).

Lemma merge_rest_sorted a b :
  Sorted (short_le t) a -> Sorted (short_le t) b -> Sorted (short_le t) (merge_rest le a b).
Proof.
  revert b. induction a as [|x a IH]; intros [|y b] Ha Hb; cbn [merge_rest]; [done..|].
  apply Sorted_inv in Ha as [Ha Hxa]. apply Sorted_inv in Hb as [Hb Hyb].
  constructor; [by apply IH|].
  assert (forall z, z = x \/ z = y -> target_of t z = Z.min (target_of t x) (target_of t y) ->
            HdRel (short_le t) z (merge_rest le a b)) as Hhd.
  { intros z _ Ez. inversion Hxa as [|x' a' Hx']; inversion Hyb as [|y' b' Hy']; subst; cbn;
      [constructor|constructor; unfold short_le in *; lia|constructor; unfold short_le in *; lia|].
    constructor. unfold short_le in *. destruct (Z.leb_spec (target_of t x') (target_of t y')); lia. }
  destruct (Z.leb_spec (target_of t x) (target_of t y)); apply Hhd; try tauto; lia.
Qed.
End merge_sorted.

(** ** [_merge_lists] *)

Section merge.
Context (t : timers_t).
Abbreviation le := (fun x y => target_of t x <=? target_of t y).
Abbreviation min_of x y := (if le x y then x else y).

Lemma compare_ok h x y :
  is_timer t x -> is_timer t y ->
  _compare (Some x) (Some y) (with_next h t) = Ret (Some (min_of x y)) (with_next h t).
Proof.
  intros (_ & _ & [v Ev] & _) (_ & _ & [w Ew] & _). unfold _compare, bind, get_target, target_of. cbn.
  rewrite Ev. cbn. rewrite Ew. cbn. by destruct (v <=? w).
Qed.

(** One iteration. *)
Definition merge_step '(head_a, head_b, pos) :
    M timers_t (option tnode * option tnode * option tnode + unit) :=
  let! x := unwrap NullDeref head_a in
  let! head_a := nxt (load x) in
  let! y := unwrap NullDeref head_b in
  let! head_b := nxt (load y) in
  let! p := unwrap NullDeref pos in
  match head_a with
  | None => do! nxt (store p head_b); ret (inr tt)
  | Some _ =>
      match head_b with
      | None => do! nxt (store p head_a); ret (inr tt)
      | Some _ =>
          let! c := _compare head_a head_b in
          do! nxt (store p c);
          ret (inl (head_a, head_b, c))
      end
  end.

Lemma nxt_load_at h p v : h !! p = Some v -> nxt (load p) (with_next h t) = Ret v (with_next h t).
Proof. intros E. by apply nxt_load_ok. Qed.
Lemma nxt_store_at h p v w :
  h !! p = Some w -> nxt (store p v) (with_next h t) = Ret tt (with_next (<[p := v]> h) t).
Proof. intros E. by rewrite (nxt_ok (store p v) (with_next h t) _ _ (store_ok h p v w E)). Qed.

(** The rest of an iteration, with the two [next] fields read. *)
Definition merge_choice (p : tnode) (head_a head_b : option tnode) :
    M timers_t (option tnode * option tnode * option tnode + unit) :=
  match head_a with
  | None => do! nxt (store p head_b); ret (inr tt)
  | Some _ =>
      match head_b with
      | None => do! nxt (store p head_a); ret (inr tt)
      | Some _ =>
          let! c := _compare head_a head_b in
          do! nxt (store p c);
          ret (inl (head_a, head_b, c))
      end
  end.

Lemma merge_step_eq h x y p va vb :
  h !! x = Some va -> h !! y = Some vb ->
  merge_step (Some x, Some y, Some p) (with_next h t) = merge_choice p va vb (with_next h t).
Proof.
  intros Hx Hy. unfold merge_step, unwrap. rewrite (bind_ret (ret x) _ _ _ _ eq_refl).
  rewrite (bind_ret _ _ _ _ _ (nxt_load_at _ _ _ Hx)), (bind_ret (ret y) _ _ _ _ eq_refl).
  rewrite (bind_ret _ _ _ _ _ (nxt_load_at _ _ _ Hy)). by rewrite (bind_ret (ret p) _ _ _ _ eq_refl).
Qed.

Lemma merge_loop a b : forall h x y p fuel,
  seg h x a None -> seg h y b None -> NoDup (x :: a ++ y :: b) -> (p = x \/ p = y) ->
  Forall (is_timer t) (a ++ b) -> (length a <= fuel)%nat ->
  exists h', loop (Datatypes.S fuel) merge_step (Some x, Some y, Some p) (with_next h t) = Ret tt (with_next h' t) /\
    seg h' p (merge_rest le a b) None /\ frame h h' (p :: a ++ b).
Proof.
  revert b. induction a as [|x2 a IH]; intros b h x y p fuel Ha Hb Hd Hp Ht Hf.
  - cbn [seg] in Ha. pose proof (seg_head _ _ _ _ Hb) as Hy. rewrite app_nil_r in Hy.
    assert (exists w, h !! p = Some w) as [w Hw] by (destruct Hp as [->| ->]; eauto).
    exists (<[p := head b]> h). cbn [merge_rest]. split; [|split].
    + apply loop_exit. rewrite (merge_step_eq _ _ _ _ _ _ Ha Hy). cbn [merge_choice].
      by rewrite (bind_ret _ _ _ _ _ (nxt_store_at _ _ _ _ Hw)).
    + destruct b as [|z b]; cbn [seg head].
      * by rewrite lookup_insert_eq.
      * split; [by rewrite lookup_insert_eq|]. destruct Hb as [_ Hb]. apply seg_insert; [|done].
        clear -Hd Hp. cbn in Hd. rewrite !NoDup_cons in Hd. destruct Hp as [->| ->]; set_solver.
    + apply frame_insert; [set_solver|apply frame_refl].
  - destruct Ha as [Hx Ha]. pose proof (seg_head _ _ _ _ Hb) as Hy. rewrite app_nil_r in Hy.
    assert (exists w, h !! p = Some w) as [w Hw] by (destruct Hp as [->| ->]; eauto).
    assert (p ∉ x2 :: a) as Hpa.
    { clear -Hd Hp. rewrite NoDup_cons, NoDup_app in Hd. destruct Hp as [->| ->]; set_solver. }
    pose proof (merge_step_eq _ _ _ p _ _ Hx Hy) as Est. destruct b as [|y2 b]; cbn [head merge_choice] in Est.
    + exists (<[p := Some x2]> h). rewrite merge_rest_nil_r. split; [|split].
      * apply loop_exit. by rewrite Est, (bind_ret _ _ _ _ _ (nxt_store_at _ _ _ _ Hw)).
      * cbn [seg]. split; [by rewrite lookup_insert_eq|]. by apply seg_insert.
      * apply frame_insert; [set_solver|apply frame_refl].
    + destruct Hb as [_ Hb]. apply Forall_app in Ht as [Ht1 Ht2].
      apply Forall_cons in Ht1 as [Htx Ht1]. apply Forall_cons in Ht2 as [Hty Ht2].
      set (c := min_of x2 y2).
      assert (c = x2 \/ c = y2) as Hc by (unfold c; destruct (_ <=? _); tauto).
      assert (NoDup (x2 :: a ++ y2 :: b) /\ p ∉ y2 :: b) as [Hd' Hpb].
      { clear -Hd Hp. rewrite NoDup_cons, NoDup_app, !NoDup_cons in Hd.
        rewrite NoDup_cons, NoDup_app, NoDup_cons. destruct Hp as [->| ->]; set_solver. }
      destruct fuel as [|fuel]; [cbn in Hf; lia|].
      destruct (IH b (<[p := Some c]> h) x2 y2 c fuel) as (h' & E & Hs & Hfr);
        [by apply seg_insert|by apply seg_insert|done|done|by apply Forall_app|cbn in Hf; lia|].
      exists h'. split; [|split].
      * erewrite loop_next; [exact E|].
        rewrite Est, (bind_ret _ _ _ _ _ (compare_ok h x2 y2 Htx Hty)). fold c.
        by rewrite (bind_ret _ _ _ _ _ (nxt_store_at _ _ _ _ Hw)).
      * cbn [merge_rest seg]. fold c. split; [|done]. destruct Hfr as [Hfr _]. rewrite Hfr.
        -- by rewrite lookup_insert_eq.
        -- clear -Hc Hpa Hpb. destruct Hc as [->| ->]; set_solver.
      * eapply frame_trans; [apply frame_insert; [|apply frame_refl]; in_list|].
        eapply frame_weaken; [exact Hfr|]. clear -Hc. destruct Hc as [->| ->]; set_solver.
Qed.
End merge.

Abbreviation by_target t := (fun x y => target_of t x <=? target_of t y).

Lemma merge_lists_ok t h x a y b fuel :
  seg h x a None -> seg h y b None -> NoDup (x :: a ++ y :: b) ->
  Forall (is_timer t) (x :: a ++ y :: b) -> (length a < fuel)%nat ->
  exists h', _merge_lists fuel (Some x) (Some y) (with_next h t)
               = Ret (head (merge_rest (by_target t) (x :: a) (y :: b))) (with_next h' t) /\
    seg h' (if target_of t x <=? target_of t y then x else y) (merge_rest (by_target t) a b) None /\
    frame h h' (x :: y :: a ++ b).
Proof.
  intros Ha Hb Hd Ht Hf. destruct fuel as [|fuel]; [lia|].
  apply Forall_cons in Ht as [Hx Ht]. apply Forall_app in Ht as [Hta Ht]. apply Forall_cons in Ht as [Hy Htb].
  cbn [merge_rest head]. set (c := if target_of t x <=? target_of t y then x else y).
  assert (c = x \/ c = y) as Hc by (unfold c; destruct (_ <=? _); tauto).
  destruct (merge_loop t a b h x y c fuel) as (h' & E & Hs & Hfr);
    [done|done|done|done|by apply Forall_app|lia|].
  exists h'. split; [|split; [done|]].
  - unfold _merge_lists. rewrite (bind_ret _ _ _ _ _ (compare_ok t h x y Hx Hy)). fold c.
    erewrite bind_ret; [|exact E]. done.
  - eapply frame_weaken; [exact Hfr|]. clear -Hc. destruct Hc as [->| ->]; set_solver.
Qed.

(** ** Selecting the long timers of the period *)

Definition due_now (t : timers_t) (n : tnode) : bool :=
  (long_of t n <=? _long_cnt t) && (Z.land (target_of t n) SECURE_MINTIMER_MASK =? _secure_mintimer_high_cnt t).

Fixpoint selected (P : tnode -> bool) (xs : list tnode) : list tnode :=
  match xs with [] => [] | x :: r => if P x then x :: selected P r else [] end.
Fixpoint remaining (P : tnode -> bool) (xs : list tnode) : list tnode :=
  match xs with [] => [] | x :: r => if P x then remaining P r else xs end.

Lemma selected_app P xs : xs = selected P xs ++ remaining P xs.
Proof. induction xs as [|x r IH]; cbn; [done|]. destruct (P x); [|done]. cbn. by f_equal. Qed.

Definition select_step (last : option tnode) : M timers_t (option tnode + option tnode) :=
  let! hd := nxt (load HLong) in
  match hd with
  | None => ret (inr last)
  | Some q =>
      let! l := get_long_target q in
      let! long_cnt := gets _long_cnt in
      if l <=? long_cnt then
        let! t := get_target q in
        let! this := _this_high_period t in
        if (this : bool) then
          let! n := nxt (load q) in
          do! nxt (store HLong n);
          ret (inl (Some q))
        else ret (inr last)
      else ret (inr last)
  end.

Lemma select_loop t h xs : forall p lst fuel,
  HLong ∉ xs -> seg h p xs None -> Forall (is_timer (with_next h t)) xs -> (length xs < fuel)%nat ->
  let P := due_now t in
  loop fuel select_step lst (with_next (<[HLong := head xs]> h) t)
  = Ret (match last (selected P xs) with Some q => Some q | None => lst end)
        (with_next (<[HLong := head (remaining P xs)]> h) t).
Proof.
  induction xs as [|x r IH]; intros p lst [|fuel] Hni Hs Ht Hf; cbn in Hf; try lia; cbn zeta.
  { apply loop_exit. unfold select_step.
    by rewrite (bind_ret _ _ _ _ _ (nxt_load_at _ _ _ _ (lookup_insert_eq _ _ _))). }
  destruct Hs as [Hs0 Hs]. apply Forall_cons in Ht as [Hx Ht].
  set (h0 := <[HLong := head (x :: r)]> h).
  assert (is_timer (with_next h0 t) x) as Hx'.
  { destruct Hx as (H1 & H2 & H3). split; [done|]. split; [|done]. cbn.
    apply lookup_insert_is_Some'. by right. }
  assert (select_step lst (with_next h0 t) =
    if due_now t x then Ret (inl (Some x)) (with_next (<[HLong := head r]> h) t)
    else Ret (inr lst) (with_next h0 t)) as Est.
  { unfold select_step.
    rewrite (bind_ret _ _ _ _ _ (nxt_load_at _ h0 _ _ (lookup_insert_eq _ _ _))). cbn [head].
    rewrite (bind_ret _ _ _ _ _ (get_long_target_ok _ _ Hx')), (bind_ret _ _ _ _ _ (gets_ok _ _)).
    unfold due_now. change (long_of (with_next h0 t) x) with (long_of t x).
    change (_long_cnt (with_next h0 t)) with (_long_cnt t).
    destruct (long_of t x <=? _long_cnt t); cbn [andb]; [|done].
    rewrite (bind_ret _ _ _ _ _ (get_target_ok _ _ Hx')).
    unfold _this_high_period. rewrite bind_assoc, (bind_ret _ _ _ _ _ (gets_ok _ _)), (bind_ret (ret _) _ _ _ _ eq_refl).
    change (target_of (with_next h0 t) x) with (target_of t x).
    change (_secure_mintimer_high_cnt (with_next h0 t)) with (_secure_mintimer_high_cnt t).
    destruct (Z.land _ _ =? _); [|done].
    assert (h0 !! x = Some (head r)) as Hhx.
    { unfold h0. rewrite lookup_insert_ne by set_solver. rewrite (seg_head _ _ _ _ Hs). by rewrite app_nil_r. }
    rewrite (bind_ret _ _ _ _ _ (nxt_load_at _ _ _ _ Hhx)).
    rewrite (bind_ret _ _ _ _ _ (nxt_store_at _ h0 HLong (head r) _ (lookup_insert_eq _ _ _))).
    unfold h0. by rewrite insert_insert_eq. }
  cbn [selected remaining]. destruct (due_now t x) eqn:Ed.
  - rewrite (loop_next _ _ _ _ _ _ Est). cbn zeta in IH. rewrite (IH x); [|set_solver|done|done|lia].
    rewrite last_cons. by destruct (last (selected _ r)).
  - by rewrite (loop_exit _ _ _ _ _ _ Est).
Qed.

Lemma seg_prefix (h : gmap tnode (option tnode)) p xs ys q :
  seg h p (xs ++ ys) q -> seg h p xs (head (ys ++ option_list q)).
Proof.
  revert p. induction xs as [|x r IH]; intros p; cbn [app seg]; [apply seg_head|].
  intros [Hp Hs]. split; [done|]. by apply IH.
Qed.

(** The state in which the C function finds the lists: [T], the current
    list, and [L], the long one. *)
Lemma select_long_ok t T L fuel :
  let h := t_next t in
  chain h HTimer T -> chain h HLong L -> NoDup (HTimer :: HLong :: T ++ L) ->
  Forall (is_timer t) (T ++ L) -> (length T < fuel)%nat -> (length L < fuel)%nat ->
  exists h', _select_long_timers fuel t = Ret tt (with_next h' t) /\
    chain h' HTimer (merge_rest (by_target t) T (selected (due_now t) L)) /\
    chain h' HLong (remaining (due_now t) L) /\ frame h h' (HTimer :: HLong :: T ++ L).
Proof.
  intros h [_ HsT] [HdL HsL] Hd Ht HfT HfL. set (P := due_now t).
  pose proof (selected_app P L) as EL. set (sel := selected P L) in *. set (rm := remaining P L) in *.
  pose proof (seg_head _ _ _ _ HsL) as HL. rewrite app_nil_r in HL.
  pose proof (seg_head _ _ _ _ HsT) as HT. rewrite app_nil_r in HT.
  apply Forall_app in Ht as [HtT HtL].
  assert (loop fuel select_step None t
          = Ret (last sel) (with_next (<[HLong := head rm]> h) t)) as Eloop.
  { pose proof (select_loop t h L HLong None fuel) as Hl. cbn zeta in Hl.
    rewrite (insert_id _ _ _ HL), (with_next_id t : with_next h t = t) in Hl.
    fold P in Hl. fold sel in Hl. fold rm in Hl. rewrite Hl; [by destruct (last sel)| |done..].
    by apply NoDup_cons in HdL as [? _]. }
  unfold _select_long_timers. rewrite (bind_ret _ _ _ _ _ (nxt_load_ok _ _ _ HL)).
  erewrite (bind_ret _ _ t); [|exact Eloop].
  apply NoDup_cons in Hd as [HdT Hd]. apply NoDup_cons in Hd as [HdL' Hd].
  clearbody rm sel P. set (h1 := <[HLong := head rm]> h).
  assert (chain h1 HTimer T) as HcT.
  { split; [|apply seg_insert; [|done]; clear -HdT HdL'; set_solver].
    constructor; [clear -HdT; set_solver|]. by apply NoDup_app in Hd as [? _]. }
  assert (frame h h1 (HTimer :: HLong :: T ++ L)) as Hf1 by (apply frame_insert; [in_list|apply frame_refl]).
  assert (chain h1 HLong rm) as HcL.
  { rewrite EL in HsL, HdL, HdL'. apply NoDup_cons in HdL as [Hn HdL]. apply NoDup_app in HdL as (_ & _ & HdL).
    split; [constructor; [clear -Hn; set_solver|done]|]. unfold h1. destruct rm as [|y r]; cbn [head seg].
    - by rewrite lookup_insert_eq.
    - rewrite lookup_insert_eq. split; [done|]. apply seg_app in HsL as [_ HsL].
      apply seg_insert; [|done]. clear -Hn. set_solver. }
  assert (h1 !! HTimer = Some (head T)) as HT1 by (unfold h1; by rewrite lookup_insert_ne).
  destruct sel as [|s sel0] eqn:Esel.
  - (* nothing selected *)
    cbn [last]. rewrite (bind_ret (ret tt) _ _ _ _ eq_refl).
    rewrite (bind_ret _ _ _ _ _ (nxt_load_at _ _ _ _ HT1)), merge_rest_nil_r.
    exists h1. split; [by destruct (head T)|]. done.
  - destruct (last (s :: sel0)) as [z|] eqn:Ez; [|by rewrite last_cons in Ez; destruct (last sel0)].
    rewrite EL. cbn [head app].
    assert (z ∈ s :: sel0) as Hz by (by apply last_Some_elem_of).
    assert (z ∈ L) as HzL by (rewrite EL; apply elem_of_app; by left).
    assert (z <> HLong /\ z <> HTimer /\ z ∉ T) as (Nz1 & Nz2 & Nz3).
    { clear -HzL HdT HdL' Hd. apply NoDup_app in Hd as (_ & Hd & _). set_solver. }
    assert (z ∉ rm) as Nz4.
    { rewrite EL in Hd. clear -Hz Hd. apply NoDup_app in Hd as (_ & _ & Hd).
      apply NoDup_app in Hd as (_ & Hd & _). set_solver. }
    assert (seg h s (sel0 ++ rm) None) as Hss by (rewrite EL in HsL; exact (proj2 HsL)).
    assert (HLong ∉ s :: sel0) as HnL by (rewrite EL in HdL'; clear -HdL'; set_solver).
    pose proof (seg_insert h s sel0 _ HLong (head rm) HnL (seg_prefix _ _ _ _ _ Hss)) as Hs1. fold h1 in Hs1.
    assert (is_Some (h1 !! z)) as [w Hw] by (by eapply seg_alive).
    assert (NoDup (s :: sel0)) as Hds.
    { rewrite EL in HdL. apply NoDup_cons in HdL as [_ HdL]. by apply NoDup_app in HdL as [? _]. }
    pose proof (seg_set_last h1 s sel0 _ None z Hs1 Hds Ez) as Hs2.
    set (h2 := <[z := None]> h1) in *.
    assert (chain h2 HTimer T /\ chain h2 HLong rm) as [HcT2 HcL2].
    { split; (split; [apply HcT || apply HcL|]); (apply seg_insert; [|apply HcT || apply HcL]);
        [clear -Nz2 Nz3|clear -Nz1 Nz4]; set_solver. }
    assert (frame h h2 (HTimer :: HLong :: T ++ L)) as Hf2.
    { apply frame_insert; [|done]. clear -HzL. set_solver. }
    rewrite (bind_ret _ _ _ _ _ (nxt_store_at _ h1 z None w Hw)). fold h2.
    pose proof (seg_head _ _ _ _ (proj2 HcT2)) as HT2. rewrite app_nil_r in HT2.
    rewrite (bind_ret _ _ _ _ _ (nxt_load_at _ _ _ _ HT2)).
    destruct T as [|x T]; cbn [head merge_rest].
    + exists (<[HTimer := Some s]> h2). rewrite (nxt_store_at _ _ _ _ _ HT2). split; [done|].
      assert (HTimer ∉ s :: sel0 /\ HTimer ∉ HLong :: rm) as [N1 N2].
      { rewrite EL in HdT. clear -HdT. set_solver. }
      split; [|split].
      * split; [by constructor|]. cbn [seg]. rewrite lookup_insert_eq. split; [done|]. by apply seg_insert.
      * split; [apply HcL2|]. apply seg_insert; [done|apply HcL2].
      * apply frame_insert; [in_list|]. by rewrite EL in Hf2.
    + assert (NoDup (x :: T ++ s :: sel0)) as Hdm.
      { rewrite EL, (assoc_L (++)) in Hd. by apply NoDup_app in Hd as [? _]. }
      assert (Forall (is_timer (with_next h2 t)) (x :: T ++ s :: sel0)) as Htm.
      { apply (Forall_impl (is_timer t)); [|intros m; by eapply is_timer_next].
        rewrite EL in HtL. apply Forall_app in HtL as [HtL _]. by apply (Forall_app _ (x :: T)). }
      destruct (merge_lists_ok (with_next h2 t) h2 x T s sel0 fuel) as (h' & E & Hs' & Hf');
        [exact (proj2 (proj2 HcT2))|exact Hs2|done|done|cbn in HfT; lia|].
      change (with_next h2 (with_next h2 t)) with (with_next h2 t) in E.
      change (by_target (with_next h2 t)) with (by_target t) in *.
      rewrite (bind_ret _ _ _ _ _ E). cbn [merge_rest head]. set (c := if _ <=? _ then x else s) in *.
      change (with_next h' (with_next h2 t)) with (with_next h' t).
      assert (HTimer ∉ HLong :: x :: s :: T ++ sel0 /\ HLong ∉ x :: s :: T ++ sel0 /\ HTimer ∉ rm) as (N1 & N2 & N3).
      { rewrite EL in HdT, HdL'. clear -HdT HdL'. set_solver. }
      pose proof (proj1 Hf') as Hk. 
      assert (h' !! HTimer = Some (Some x)) as Hh' by (rewrite Hk by (clear -N1; set_solver); exact HT2).
      exists (<[HTimer := Some c]> h'). rewrite (nxt_store_at _ _ _ _ _ Hh'). split; [done|].
      assert (NoDup (c :: merge_rest (by_target t) T sel0)) as Hdc.
      { apply (merge_rest_nodup (by_target t) (x :: T) (s :: sel0)). exact Hdm. }
      assert (HTimer ∉ c :: merge_rest (by_target t) T sel0) as Nc.
      { intros Hin. apply (merge_rest_elem (by_target t) (x :: T) (s :: sel0)) in Hin.
        clear -N1 Hin. set_solver. }
      split; [|split].
      * split; [by constructor|]. cbn [seg]. rewrite lookup_insert_eq. split; [done|]. by apply seg_insert.
      * eapply chain_frame; [| |exact HcL2].
        -- apply (frame_insert _ _ (HTimer :: x :: s :: T ++ sel0)); [in_list|].
           eapply frame_weaken; [exact Hf'|]. set_solver.
        -- clear -N1 N2 N3 Hd EL. intros a Ha. rewrite EL in Hd.
           assert (a ∈ rm -> a ∉ x :: T ++ s :: sel0) as Ha'.
           { rewrite (assoc_L (++)) in Hd. apply NoDup_app in Hd as (_ & Hd & _).
             intros Har Hin. by apply (Hd a). }
           set_solver.
      * apply frame_insert; [in_list|]. eapply frame_trans; [rewrite EL in Hf2; exact Hf2|].
        eapply frame_weaken; [exact Hf'|]. clear. set_solver.
Qed.

(** ** [_next_period] *)

(** The count of 16-bit periods that the two variables make up. *)
Definition periods (t : timers_t) : Z := _long_cnt t * 2 ^ 16 + _secure_mintimer_high_cnt t / 2 ^ 16.
Definition counters_ok (t : timers_t) : Prop :=
  in_u 32 (_long_cnt t) /\ in_u 32 (_secure_mintimer_high_cnt t) /\
  _secure_mintimer_high_cnt t mod 2 ^ 16 = 0.

#[export] Instance counters_ok_dec t : Decision (counters_ok t).
Proof. unfold counters_ok, in_u. apply _. Defined.

Definition advanced (t : timers_t) : timers_t :=
  let high := u32 (_secure_mintimer_high_cnt t + 2 ^ 16) in
  let t := with_high_cnt high t in
  if high =? 0 then with_long_cnt (u32 (_long_cnt t + 1)) t else t.

Lemma advanced_ok t :
  counters_ok t -> counters_ok (advanced t) /\ periods (advanced t) = (periods t + 1) mod 2 ^ 48.
Proof.
  unfold counters_ok, advanced, periods. destruct t as [nx tg lt th l hi ih].
  cbn [_long_cnt _secure_mintimer_high_cnt with_high_cnt]. intros (Hl & Hh & Hm).
  assert (exists j, hi = 2 ^ 16 * j /\ 0 <= j < 2 ^ 16) as (j & Ej & Hj).
  { apply Z.mod_divide in Hm as [j Ej]; [|lia]. exists j. unfold in_u in Hh. lia. }
  destruct (decide (j = 2 ^ 16 - 1)) as [->|Hne].
  - assert (u32 (hi + 2 ^ 16) = 0) as -> by (rewrite Ej; reflexivity). rewrite Z.eqb_refl.
    cbn [_long_cnt _secure_mintimer_high_cnt with_long_cnt with_high_cnt].
    split; [split; [apply wrapu_range; lia|done]|].
    assert (hi / 2 ^ 16 = 2 ^ 16 - 1) as -> by (rewrite Ej, Z.mul_comm, Z.div_mul; lia).
    unfold in_u in Hl. destruct (decide (l = 2 ^ 32 - 1)) as [->|].
    + done.
    + change (0 / 2 ^ 16) with 0. rewrite wrapu_id by (unfold in_u; lia). rewrite Z.mod_small; lia.
  - assert (u32 (hi + 2 ^ 16) = 2 ^ 16 * (j + 1)) as ->.
    { rewrite wrapu_id; unfold in_u; lia. }
    rewrite (proj2 (Z.eqb_neq _ _)) by lia.
    cbn [_long_cnt _secure_mintimer_high_cnt with_long_cnt with_high_cnt].
    split; [split; [done|]; split; [unfold in_u; lia|by rewrite Z.mul_comm, Z.mod_mul]|].
    rewrite Ej, !(Z.mul_comm (2 ^ 16)), !Z.div_mul by lia. unfold in_u in Hl. rewrite Z.mod_small; lia.
Qed.

Lemma advanced_fields t :
  t_next (advanced t) = t_next t /\ (forall n, target_of (advanced t) n = target_of t n) /\
  (forall n, long_of (advanced t) n = long_of t n) /\ (forall n, is_timer t n -> is_timer (advanced t) n).
Proof. unfold advanced. by destruct (_ =? 0). Qed.

Lemma next_period_head t (m : M timers_t unit) :
  (do! modify (fun t => with_high_cnt
        (u32 (_secure_mintimer_high_cnt t + u32 (u32 (Z.lnot SECURE_MINTIMER_MASK) + 1))) t);
   let! high := gets _secure_mintimer_high_cnt in
   do! when (high =? 0) (modify (fun t => with_long_cnt (u32 (_long_cnt t + 1)) t));
   m) t = m (advanced t).
Proof.
  unfold bind, modify, gets, when, ret, advanced. cbn [_secure_mintimer_high_cnt with_high_cnt].
  change (u32 (u32 (Z.lnot SECURE_MINTIMER_MASK) + 1)) with (2 ^ 16).
  by destruct (_ =? 0).
Qed.

(** The lists of the next period. *)
Definition lists_after (t : timers_t) (ls : tnode -> list tnode) : tnode -> list tnode :=
  fun hd => match hd with
  | HTimer => merge_rest (by_target t) (ls HOverflow) (selected (due_now (advanced t)) (ls HLong))
  | HOverflow => []
  | _ => remaining (due_now (advanced t)) (ls HLong)
  end.

Lemma sorted_split R P xs : Sorted R xs -> Sorted R (selected P xs) /\ Sorted R (remaining P xs).
Proof.
  induction 1 as [|x r Hs [IH1 IH2] Hh]; cbn; [done|]. destruct (P x).
  - split; [|done]. constructor; [done|]. destruct Hh as [|y r Hy]; cbn; [constructor|].
    destruct (P y); by constructor.
  - split; constructor; done.
Qed.

Lemma selected_true P xs n : n ∈ selected P xs -> P n = true.
Proof.
  induction xs as [|x r IH]; cbn; [set_solver|]. destruct (P x) eqn:E; [|set_solver].
  intros [->|?]%elem_of_cons; [done|by apply IH].
Qed.

Lemma next_period_ok {b} t ls fuel :
  timers_repb b t ls -> (forall hd, hd ∈ heads -> (length (ls hd) < fuel)%nat) ->
  exists h, _next_period fuel t = Ret tt (with_next h (advanced t)) /\
    chain h HTimer (lists_after t ls HTimer) /\ chain h HOverflow [] /\ chain h HLong (lists_after t ls HLong) /\
    frame (t_next t) h (heads ++ ls HOverflow ++ ls HLong).
Proof.
  intros Hr Hf. destruct head_in_heads as (H1 & H2 & H3).
  destruct (rep_list _ _ _ Hr H1) as ([HdT HsT] & _).
  destruct (rep_list _ _ _ Hr H2) as ([HdO HsO] & HtO & HoO).
  destruct (rep_list _ _ _ Hr H3) as ([HdL HsL] & HtL & HoL).
  pose proof (advanced_fields t) as (En & _ & _ & Hk).
  assert (forall n hd, hd ∈ heads -> n ∈ ls hd -> n ∉ heads) as Hnh.
  { intros n hd Hh Hn. by apply (in_list_timer _ _ Hr hd). }
  assert (NoDup (ls HOverflow ++ ls HLong)) as HdOL.
  { apply NoDup_app. apply NoDup_cons in HdO as [_ HdO]. apply NoDup_cons in HdL as [_ HdL].
    split; [done|]. split; [|done]. intros n Hn Hn'.
    by pose proof (rep_disjoint _ _ _ _ _ Hr H2 H3 Hn Hn'). }
  assert (forall hd, hd ∈ heads -> hd ∉ ls HOverflow ++ ls HLong) as Hhn.
  { intros hd Hh [Hin|Hin]%elem_of_app; by eapply Hnh in Hin. }
  pose proof (seg_head _ _ _ _ HsO) as EO. pose proof (seg_head _ _ _ _ HsT) as ET.
  rewrite app_nil_r in EO, ET.
  set (h1 := <[HOverflow := None]> (<[HTimer := head (ls HOverflow)]> (t_next t))).
  unfold _next_period. rewrite next_period_head. rewrite <- En in EO, ET.
  rewrite (bind_ret _ _ _ _ _ (nxt_load_ok _ _ _ EO)).
  rewrite (bind_ret _ _ _ _ _ (nxt_ok _ _ _ _ (store_ok _ _ _ _ ET))), En.
  rewrite (bind_ret _ _ _ tt (with_next h1 (advanced t))).
  2: { eapply (nxt_ok (store HOverflow None) (with_next _ (advanced t))), store_ok. cbn.
       rewrite lookup_insert_ne, <- En by done. exact EO. }
  destruct (select_long_ok (with_next h1 (advanced t)) (ls HOverflow) (ls HLong) fuel) as (h & E & Hc1 & Hc2 & Hfr).
  - split; [constructor; [specialize (Hhn HTimer H1); set_solver|by apply NoDup_cons in HdO as [_ ?]]|].
    cbn [t_next with_next]. unfold h1. destruct (ls HOverflow) as [|x r]; cbn [seg head].
    + rewrite lookup_insert_ne by done. by rewrite lookup_insert_eq.
    + rewrite lookup_insert_ne, lookup_insert_eq by done. split; [done|].
      pose proof (Hhn HTimer H1). pose proof (Hhn HOverflow H2).
      apply seg_insert; [set_solver|]. apply seg_insert; [set_solver|]. exact (proj2 HsO).
  - split; [done|]. cbn [t_next with_next]. pose proof (Hhn HTimer H1). pose proof (Hhn HOverflow H2).
    apply seg_insert; [set_solver|]. apply seg_insert; [set_solver|]. done.
  - pose proof (Hhn HTimer H1). pose proof (Hhn HLong H3). rewrite !NoDup_cons. set_solver.
  - apply (Forall_impl (is_timer t)); [by apply Forall_app|]. intros n Hn.
    apply Hk in Hn as (N1 & N2 & N3). split; [done|]. split; [|done]. cbn [t_next with_next]. unfold h1.
    rewrite En in N2. apply lookup_insert_is_Some'. right. apply lookup_insert_is_Some'. by right.
  - by apply Hf.
  - by apply Hf.
  - change (due_now (with_next h1 (advanced t))) with (due_now (advanced t)) in *.
    assert (by_target (with_next h1 (advanced t)) = by_target t) as Eb.
    { unfold advanced. by destruct (_ =? 0). }
    rewrite Eb in Hc1. exists h. split; [exact E|]. split; [exact Hc1|]. cbn [t_next with_next] in Hfr.
    split; [|split; [exact Hc2|]].
    + eapply chain_frame; [exact Hfr| |].
      * intros a ->%list_elem_of_singleton. pose proof (Hhn HOverflow H2). set_solver.
      * split; [apply NoDup_singleton|]. cbn [seg]. unfold h1. by rewrite lookup_insert_eq.
    + eapply (frame_trans _ h1).
      * unfold h1. apply frame_insert; [set_solver|]. apply frame_insert; [set_solver|]. apply frame_refl.
      * eapply frame_weaken; [exact Hfr|]. set_solver.
Qed.

(** The lists are in order again, unless a long timer was left behind. *)
Lemma next_period_rep {b} t ls h :
  timers_repb b t ls -> (b = true -> forall n, n ∈ ls HLong -> _long_cnt (advanced t) <= long_of t n) ->
  chain h HTimer (lists_after t ls HTimer) -> chain h HOverflow [] -> chain h HLong (lists_after t ls HLong) ->
  frame (t_next t) h (heads ++ ls HOverflow ++ ls HLong) ->
  timers_repb b (with_next h (advanced t)) (lists_after t ls).
Proof.
  intros Hr Hlate Hc1 Hc2 Hc3 Hfr. destruct head_in_heads as (H1 & H2 & H3).
  destruct (rep_list _ _ _ Hr H2) as ([HdO _] & HtO & HoO).
  destruct (rep_list _ _ _ Hr H3) as ([HdL _] & HtL & HoL).
  pose proof (advanced_fields t) as (En & Et & El & Hk).
  set (P := due_now (advanced t)) in *. pose proof (selected_app P (ls HLong)) as EL.
  assert (b = true -> Sorted (long_le t) (selected P (ls HLong)) /\ Sorted (long_le t) (remaining P (ls HLong))) as Hs12.
  { intros Eb. apply sorted_split, (HoL Eb). }
  assert (forall n, is_timer t n -> is_timer (with_next h (advanced t)) n) as Hk'.
  { intros n Hn. eapply is_timer_next; [|by apply Hk]. rewrite En. exact Hfr. }
  assert (forall n, n ∈ lists_after t ls HTimer -> n ∈ ls HOverflow \/ n ∈ selected P (ls HLong)) as HinT.
  { intros n Hn. by apply merge_rest_elem in Hn. }
  rewrite Forall_forall in HtO, HtL.
  assert (forall n, n ∈ selected P (ls HLong) \/ n ∈ remaining P (ls HLong) -> n ∈ ls HLong) as HinL.
  { intros n Hn. rewrite EL. by apply elem_of_app. }
  assert (b = true -> Sorted (short_le t) (selected P (ls HLong))) as Hs1'.
  { intros Eb. eapply sorted_weaken; [apply (Hs12 Eb)|]. intros x y Hx Hy Hxy. unfold short_le, long_le in *.
    pose proof (Hlate Eb x (HinL x (or_introl Hx))). pose proof (Hlate Eb y (HinL y (or_introl Hy))).
    apply selected_true in Hx, Hy. unfold P, due_now in Hx, Hy. rewrite El in Hx, Hy. lia. }
  apply rep_intro.
  - intros hd Hh. unfold list_ok. cbn [t_next with_next].
    assert (forall x y, short_le t x y -> short_le (with_next h (advanced t)) x y) as Hse.
    { intros x y. unfold short_le. change (target_of (with_next h (advanced t))) with (target_of (advanced t)).
      by rewrite !Et. }
    assert (forall x y, long_le t x y -> long_le (with_next h (advanced t)) x y) as Hle.
    { intros x y. unfold long_le. change (target_of (with_next h (advanced t))) with (target_of (advanced t)).
      change (long_of (with_next h (advanced t))) with (long_of (advanced t)). by rewrite !Et, !El. }
    unfold heads in Hh. rewrite !elem_of_cons, elem_of_nil in Hh. destruct Hh as [->|[->|[->|[]]]].
    + split; [done|]. split.
      * apply Forall_forall. intros n [Hn|Hn]%HinT; apply Hk'; [by apply HtO|]. apply HtL, HinL. by left.
      * intros Eb. eapply sorted_weaken; [apply merge_rest_sorted; [apply (HoO Eb)|apply (Hs1' Eb)]|]. intros; by apply Hse.
    + split; [done|]. split; constructor.
    + split; [done|]. split.
      * apply Forall_forall. intros n Hn. apply Hk', HtL, HinL. by right.
      * intros Eb. eapply sorted_weaken; [apply (Hs12 Eb)|]. intros; by apply Hle.
  - assert (forall n, n ∈ lists_after t ls HTimer -> n ∈ lists_after t ls HLong -> False) as Hdis.
    { intros n [Hn|Hn]%HinT Hn'.
      - by pose proof (rep_disjoint _ _ _ _ _ Hr H2 H3 Hn (HinL n (or_intror Hn'))).
      - apply NoDup_cons in HdL as [_ HdL]. rewrite EL in HdL. apply NoDup_app in HdL as (_ & HdL & _).
        by apply (HdL n). }
    intros hd hd' n Hh Hh' Hn Hn'. unfold heads in Hh, Hh'.
    rewrite !elem_of_cons, elem_of_nil in Hh, Hh'.
    destruct Hh as [->|[->|[->|[]]]], Hh' as [->|[->|[->|[]]]]; try done;
      try (by apply elem_of_nil in Hn); try (by apply elem_of_nil in Hn'); exfalso; by apply (Hdis n).
Qed.
