(* ===== verification/TimerProps.v ===== *)
(** * Properties of the software timers

    Time keeping, insertion, removal, period changes, the firing loop of the
    interrupt handler and sleeping.  The hardware counter is an arbitrary
    sequence of readings; where a loop waits for it, [ticking] says that it
    reaches any value within a bounded number of readings. *)

From stdpp Require Import sorting.
From S2P Require Import Prelude Clist ClistSpec ListInsert KState RunQueue TimerHw Mintimer TimerLists.
From S2P Require Import TimerPeriod.

(** ** Time *)

(** The next reading of the counter. *)
Definition tar (h : hw_t) : Z := u16 (clock h (reads h)).

(** Among any [n] readings in a row there is one of at least [v]. *)
Definition ticking (n : nat) (c : nat -> Z) : Prop :=
  forall i v, 0 <= v < 2 ^ 16 -> exists j, (i <= j < i + n)%nat /\ v <= u16 (c j).

Definition tick (k : kst) : kst := with_hw (count_read (hw k)) k.

Lemma lltimer_now_ok k : _secure_mintimer_lltimer_now k = Ret (tar (hw k)) (tick k).
Proof. unfold _secure_mintimer_lltimer_now. by rewrite (on_hw_ok _ _ _ _ (read_internal_ok _)). Qed.

Lemma lor_high hi lo :
  hi mod 2 ^ 16 = 0 -> 0 <= lo < 2 ^ 16 -> Z.lor hi lo = hi + lo.
Proof.
  intros Hm Hl. assert (Z.land hi lo = 0) as Hz.
  { apply Z.bits_inj'. intros i Hi. rewrite Z.land_spec, Z.bits_0.
    destruct (Z.ltb_spec i 16) as [Hlt|Hge].
    - rewrite <- (Z.mod_pow2_bits_low hi 16), Hm, Z.bits_0 by lia. done.
    - rewrite (Z.bits_above_log2 lo i); [apply andb_false_r|lia|].
      destruct (decide (lo = 0)) as [->|]; [cbn; lia|].
      apply Z.log2_lt_pow2; [lia|]. assert (2 ^ 16 <= 2 ^ i) by (apply Z.pow_le_mono_r; lia). lia. }
  rewrite <- Z.add_lor_land, Hz. lia.
Qed.

(** The time the two counters and the hardware counter make up. *)
Definition time64 (t : timers_t) (lo : Z) : Z := periods t * 2 ^ 16 + lo.

Lemma high_parts t :
  counters_ok t -> _secure_mintimer_high_cnt t = 2 ^ 16 * (_secure_mintimer_high_cnt t / 2 ^ 16).
Proof. intros (_ & _ & Hm). apply Z_div_exact_full_2; lia. Qed.

Lemma tar_range h : 0 <= tar h < 2 ^ 16.
Proof. apply (wrapu_range 16). lia. Qed.

(** The 32-bit time. *)
Definition time32 (t : timers_t) (lo : Z) : Z := Z.lor (_secure_mintimer_high_cnt t) lo.

Lemma time32_ok t lo :
  counters_ok t -> 0 <= lo < 2 ^ 16 ->
  time32 t lo = _secure_mintimer_high_cnt t + lo /\ in_u 32 (time32 t lo).
Proof.
  intros Hc Hlo. pose proof (high_parts t Hc) as Hh. destruct Hc as (_ & Hr & Hm).
  unfold time32. rewrite lor_high by done. split; [done|]. unfold in_u in *. lia.
Qed.

Lemma now_ok k fuel :
  _secure_mintimer_now (Datatypes.S fuel) k = Ret (time32 (tmr k) (tar (hw k))) (tick k).
Proof.
  unfold _secure_mintimer_now. apply loop_exit.
  rewrite (bind_ret _ _ _ _ _ (on_timers_ok _ _ _ _ (gets_ok _ _))), with_tmr_id.
  rewrite (bind_ret _ _ _ _ _ (lltimer_now_ok _)).
  rewrite (bind_ret _ _ (tick k) _ _ (on_timers_ok _ _ _ _ (gets_ok _ _))).
  rewrite with_tmr_id. change (tmr (tick k)) with (tmr k). by rewrite Z.eqb_refl.
Qed.

Lemma now_internal_ok k :
  _secure_mintimer_now_internal k = Ret (time32 (tmr k) (tar (hw k)), _long_cnt (tmr k)) (tick k).
Proof.
  unfold _secure_mintimer_now_internal.
  rewrite (bind_ret _ _ _ _ _ (on_timers_ok _ _ _ _ (gets_ok _ _))), with_tmr_id.
  rewrite (bind_ret _ _ _ _ _ (lltimer_now_ok _)).
  rewrite (bind_ret _ _ (tick k) _ _ (on_timers_ok _ _ _ _ (gets_ok _ _))). by rewrite with_tmr_id.
Qed.

(** ** Shooting a timer *)

(** The fields of the scheduler that waking a thread leaves alone. *)
Definition sched_frame (s s' : sched_t) : Prop :=
  sched_active_thread s' = sched_active_thread s /\ sched_active_pid s' = sched_active_pid s /\
  sched_num_threads s' = sched_num_threads s /\ initialization_done s' = initialization_done s /\
  scheduler_entry s' = scheduler_entry s.

Lemma sched_frame_refl s : sched_frame s s.
Proof. done. Qed.
Lemma sched_frame_trans s s' s'' : sched_frame s s' -> sched_frame s' s'' -> sched_frame s s''.
Proof. unfold sched_frame. naive_solver congruence. Qed.

Definition prios_ok (s : sched_t) : Prop :=
  Forall (fun t => 0 <= priority t < SCHED_PRIO_LEVELS) (sched_threads s).

(** A timer's thread, when it has one, is an entry of the table. *)
Definition thread_ok (t : timers_t) (n : tnode) : Prop :=
  match t_thread t !! n with Some (Some i) => 0 <= i <= KERNEL_PID_LAST | _ => True end.

#[export] Instance prios_ok_dec s : Decision (prios_ok s).
Proof. unfold prios_ok. apply _. Defined.
#[export] Instance thread_ok_dec t n : Decision (thread_ok t n).
Proof. unfold thread_ok. repeat case_match; apply _. Defined.

(** The table after the thread of the timer, if any, was woken. *)
Definition wake (t : timers_t) (l : list thread_t) (n : tnode) : list thread_t :=
  match t_thread t !! n with
  | Some (Some i) =>
      match aget l i with Some th => <[Z.to_nat i := set_status STATUS_PENDING th]> l | None => l end
  | _ => l
  end.

Lemma get_thread_ok t n : is_timer t n -> exists v, t_thread t !! n = Some v /\ get_thread n t = Ret v t.
Proof. intros (_ & _ & _ & _ & [v E]). exists v. unfold get_thread. by rewrite E. Qed.

Lemma prios_ok_set s l i st th :
  prios_ok s -> aget (sched_threads s) i = Some th -> l = <[Z.to_nat i := set_status st th]> (sched_threads s) ->
  Forall (fun t => 0 <= priority t < SCHED_PRIO_LEVELS) l.
Proof.
  intros Hp Ht ->. apply Forall_insert; [done|]. cbn. unfold prios_ok in Hp. rewrite Forall_forall in Hp.
  apply Hp. unfold aget in Ht. case_match; [|done]. by eapply list_elem_of_lookup_2.
Qed.

Lemma prio_at s i th : prios_ok s -> aget (sched_threads s) i = Some th -> 0 <= priority th < SCHED_PRIO_LEVELS.
Proof.
  intros Hp Ht. unfold prios_ok in Hp. rewrite Forall_forall in Hp.
  apply Hp. unfold aget in Ht. case_match; [|done]. by eapply list_elem_of_lookup_2.
Qed.

Lemma shoot_ok k Q n :
  is_timer (tmr k) n -> thread_ok (tmr k) n -> rq_rep (sch k) Q -> prios_ok (sch k) ->
  exists s' Q', _shoot_timer n k = Ret tt (with_sch s' k) /\ rq_rep s' Q' /\ prios_ok s' /\
    sched_threads s' = wake (tmr k) (sched_threads (sch k)) n /\
    sched_frame (sch k) s' /\ sched_context_switch_request s' = 1.
Proof.
  intros Hn Hth Hrep Hpr. destruct (get_thread_ok _ _ Hn) as (v & Ev & Eg).
  unfold _shoot_timer. rewrite (bind_ret _ _ _ _ _ (on_timers_ok _ _ _ _ Eg)), with_tmr_id.
  unfold wake. unfold thread_ok in Hth. rewrite Ev in Hth |- *. destruct v as [i|].
  - pose proof Hrep as ([Hlen _] & _).
    destruct (aget_some (sched_threads (sch k)) i) as [th Eth].
    { rewrite Hlen. unfold KERNEL_PID_LAST, KERNEL_PID_FIRST, KERNEL_PID_UNDEF, MAXTHREADS in Hth. lia. }
    destruct (set_status_rep (sch k) Q i th STATUS_PENDING Hrep Eth (prio_at _ _ _ Hpr Eth))
      as (s1 & E & Hrep' & Hs1); [done|].
    rewrite (bind_ret _ _ _ _ _ (on_sched_ok _ _ _ _ E)).
    exists (with_request 1 s1). eexists. split; [done|]. split; [exact Hrep'|]. rewrite Eth.
    assert (sched_threads s1 = <[Z.to_nat i := set_status STATUS_PENDING th]> (sched_threads (sch k))) as Et
      by by rewrite Hs1.
    split; [|split; [exact Et|]; split; [|done]].
    + unfold prios_ok. cbn [sched_threads with_request]. by eapply prios_ok_set.
    + rewrite Hs1. done.
  - rewrite (bind_ret (ret tt) _ _ _ _ eq_refl). exists (with_request 1 (sch k)), Q. done.
Qed.

(** ** The firing loop *)

Definition set_reads (m : nat) (h : hw_t) : hw_t :=
  Hw (clock h) m (CTL h) (CCTL h) (CCR h) (isr_cb h) (__sm_irq_is_in h) (__unprotected_sp h).

(** Nothing but the number of readings has changed. *)
Definition later (k k' : kst) : Prop :=
  exists m, (reads (hw k) <= m)%nat /\ k' = with_hw (set_reads m (hw k)) k.

Lemma later_refl k : later k k.
Proof. exists (reads (hw k)). split; [lia|]. by destruct k as [? ? []]. Qed.
Lemma later_tick k : later k (tick k).
Proof. exists (Datatypes.S (reads (hw k))). split; [lia|]. by destruct k as [? ? []]. Qed.
Lemma later_trans k1 k2 k3 : later k1 k2 -> later k2 k3 -> later k1 k3.
Proof. intros (m & H1 & ->) (m' & H2 & ->). exists m'. split; [cbn in *; lia|done]. Qed.

Lemma mask_mod v : _secure_mintimer_lltimer_mask v = v mod 2 ^ 16.
Proof.
  unfold _secure_mintimer_lltimer_mask. change (u32 (Z.lnot SECURE_MINTIMER_MASK)) with (Z.ones 16).
  by rewrite Z.land_ones.
Qed.

Definition left_at (target reference lo : Z) : Z :=
  if lo <? reference then 0 else if lo <? target then target - lo else 0.

Lemma time_left_ok k target reference :
  0 <= target < 2 ^ 16 ->
  _time_left target reference k = Ret (left_at target reference (tar (hw k))) (tick k).
Proof.
  intros Ht. unfold _time_left, left_at. rewrite (bind_ret _ _ _ _ _ (lltimer_now_ok _)).
  pose proof (tar_range (hw k)). unfold ret. f_equal.
  destruct (_ <? reference); [done|]. destruct (Z.ltb_spec (tar (hw k)) target); [|done].
  apply wrapu_id. unfold in_u. lia.
Qed.

(** Waiting for the timer to expire ends. *)
Lemma spin_ok n target reference : 0 <= target < 2 ^ 16 ->
  forall fuel k, ticking n (clock (hw k)) -> (n < fuel)%nat ->
  exists k', loop fuel (fun _ : unit =>
      let! left := _time_left target reference in
      ret (if c_true left then inl tt else inr tt)) tt k = Ret tt k' /\ later k k'.
Proof.
  intros Ht fuel k Hti Hf. destruct (Hti (reads (hw k)) target Ht) as (j & [Hj1 Hj2] & Hv).
  assert (j - reads (hw k) < fuel)%nat as Hfuel by lia. clear n Hti Hf Hj2.
  revert k Hj1 Hv Hfuel. induction fuel as [|fuel IH]; intros k Hj Hv Hf; [lia|].
  set (body := fun _ : unit => _). 
  assert (body tt k = Ret (if c_true (left_at target reference (tar (hw k))) then inl tt else inr tt) (tick k)) as E.
  { unfold body. by rewrite (bind_ret _ _ _ _ _ (time_left_ok _ _ _ Ht)). }
  destruct (c_true (left_at target reference (tar (hw k)))) eqn:Ec.
  - rewrite (loop_next _ _ _ _ _ _ E).
    assert (reads (hw k) <> j) as Hne.
    { intros <-. revert Ec. unfold left_at. change (u16 (clock (hw k) (reads (hw k)))) with (tar (hw k)) in Hv.
      destruct (_ <? reference); [done|]. by rewrite (proj2 (Z.ltb_ge _ _)) by lia. }
    destruct (IH (tick k)) as (k' & E' & Hl); [cbn; lia|done|cbn; lia|].
    exists k'. split; [exact E'|]. eapply later_trans; [apply later_tick|done].
  - rewrite (loop_exit _ _ _ _ _ _ E). exists (tick k). split; [done|apply later_tick].
Qed.

(** The body of the loop for the first timer of the list. *)
Definition fire_step (fuel : nat) (reference : Z) (_ : unit) : M kst (unit + unit) :=
  let! hd := on_timers (nxt (load HTimer)) in
  match hd with
  | None => ret (inr tt)
  | Some timer =>
      let! target := on_timers (get_target timer) in
      let! left := _time_left (_secure_mintimer_lltimer_mask target) reference in
      if left <? SECURE_MINTIMER_ISR_BACKOFF then
        do! loop fuel (fun _ : unit =>
              let! left := _time_left (_secure_mintimer_lltimer_mask target) reference in
              ret (if c_true left then inl tt else inr tt)) tt;
        let! n := on_timers (nxt (load timer)) in
        do! on_timers (nxt (store HTimer n));
        do! on_timers (set_target timer 0);
        do! on_timers (set_long_target timer 0);
        do! _shoot_timer timer;
        ret (inl tt)
      else ret (inr tt)
  end.

Lemma mask_range v : 0 <= _secure_mintimer_lltimer_mask v < 2 ^ 16.
Proof. rewrite mask_mod. apply Z.mod_pos_bound. lia. Qed.

Section fire.
Context (fuel : nat) (reference : Z).

(** The wait for the first timer. *)
Definition wait_due (tg : Z) : M kst unit :=
  loop fuel (fun _ : unit =>
    let! left := _time_left (_secure_mintimer_lltimer_mask tg) reference in
    ret (if c_true left then inl tt else inr tt)) tt.

(** Looking at the first timer. *)
Lemma fire_look {b} k ls x r :
  timers_repb b (tmr k) ls -> ls HTimer = x :: r ->
  let tg := target_of (tmr k) x in
  fire_step fuel reference tt k =
  (if left_at (_secure_mintimer_lltimer_mask tg) reference (tar (hw k)) <? SECURE_MINTIMER_ISR_BACKOFF then
     do! wait_due tg;
     let! n := on_timers (nxt (load x)) in
     do! on_timers (nxt (store HTimer n));
     do! on_timers (set_target x 0);
     do! on_timers (set_long_target x 0);
     do! _shoot_timer x;
     ret (inl tt)
   else ret (inr tt)) (tick k).
Proof.
  intros Hr El tg. destruct head_in_heads as (Hh & _). pose proof (rep_list _ _ _ Hr Hh) as Hl. unfold list_ok in Hl.
  rewrite El in Hl. destruct Hl as ([_ [Hl0 _]] & Ht & _). pose proof (Forall_inv Ht) as Hx.
  unfold fire_step. rewrite (bind_ret _ _ _ _ _ (on_timers_ok _ _ _ _ (nxt_load_ok _ _ _ Hl0))), with_tmr_id.
  rewrite (bind_ret _ _ _ _ _ (on_timers_ok _ _ _ _ (get_target_ok _ _ Hx))), with_tmr_id.
  by rewrite (bind_ret _ _ _ _ _ (time_left_ok _ _ _ (mask_range _))).
Qed.

(** Taking it out, up to the waking of its thread. *)
Lemma fire_take {b} k ls x r k1 (m : M kst (unit + unit)) :
  timers_repb b (tmr k) ls -> ls HTimer = x :: r -> later k k1 ->
  exists h w, (let! n := on_timers (nxt (load x)) in
      do! on_timers (nxt (store HTimer n));
      do! on_timers (set_target x 0);
      do! on_timers (set_long_target x 0);
      m) k1 = m (K (sch k) (with_targets x 0 0 (with_next h (tmr k))) (set_reads w (hw k))) /\
    (reads (hw k) <= w)%nat /\ w = reads (hw k1) /\
    keeps_timers (tmr k) (with_targets x 0 0 (with_next h (tmr k))) /\
    timers_repb b (with_targets x 0 0 (with_next h (tmr k))) (set_list ls HTimer r).
Proof.
  intros Hr El (w & Hw & ->). destruct head_in_heads as (Hh & _). set (k1 := with_hw _ k).
  pose proof (rep_list _ _ _ Hr Hh) as Hl. unfold list_ok in Hl. rewrite El in Hl.
  pose proof Hl as ([Hd [Hl0 Hs]] & Ht & _). pose proof (Forall_inv Ht) as Hx.
  assert (x ∈ ls HTimer) as Hin by (rewrite El; in_list).
  destruct (store_head_ok (b:=b) (tmr k) HTimer x r Hl) as (h & E & Hc' & Hfr).
  apply bind_inv in E as (v & t1 & Ea & E). apply bind_inv in E as ([] & t2 & Eb & E). injection E as -> ->.
  rewrite (nxt_load_ok _ _ _ (seg_head _ _ _ _ Hs)) in Ea. injection Ea as Ev <-. rewrite app_nil_r in Ev.
  pose proof (nxt_load_ok _ _ _ (seg_head _ _ _ _ Hs)) as Eload. rewrite app_nil_r in Eload.
  rewrite (bind_ret _ _ k1 _ _ (on_timers_ok _ k1 _ _ Eload)).
  set (k2 := with_tmr (with_next h (tmr k)) k1).
  erewrite (bind_ret _ _ _ tt k2).
  2: { exact (on_timers_ok _ k1 _ _ Eb). }
  assert (is_timer (tmr k2) x) as Hx2 by (eapply is_timer_next; [exact Hfr|done]).
  rewrite <- bind_assoc. rewrite (bind_ret _ _ _ _ _ (set_targets_ok k2 x 0 0 Hx2)).
  exists h, w. split; [done|]. split; [done|]. split; [done|].
  split; [eapply keeps_trans; [by eapply keeps_next|by apply keeps_targets]|].
  assert (without x (ls HTimer) = r) as Ew.
  { rewrite El. apply (without_split x [] r). by apply NoDup_cons in Hd as [_ Hd]. }
  apply rep_targets.
  - rewrite <- Ew. apply rep_without; [done|done|by rewrite Ew|].
    eapply frame_weaken; [exact Hfr|]. rewrite El. set_solver.
  - intros hd Hhd Hin'. unfold set_list in Hin'. destruct (decide (hd = HTimer)) as [->|Hne].
    + apply NoDup_cons in Hd as [_ Hd]. by apply NoDup_cons in Hd as [? _].
    + apply Hne. symmetry. by eapply (rep_disjoint _ _ HTimer hd).
Qed.

Context (n : nat) (Hn : (n < fuel)%nat).

(** What firing needs to know of the state. *)
Definition fire_pre (k : kst) (ls : tnode -> list tnode) : Prop :=
  timers_rep (tmr k) ls /\ (exists Q, rq_rep (sch k) Q) /\ prios_ok (sch k) /\
  Forall (thread_ok (tmr k)) (ls HTimer) /\ ticking n (clock (hw k)).

Definition not_due (k : kst) (q : tnode) : Prop :=
  exists lo, reference <= lo /\ lo + SECURE_MINTIMER_ISR_BACKOFF <= target_of (tmr k) q mod 2 ^ 16.

Lemma fire_one k ls x r :
  fire_pre k ls -> ls HTimer = x :: r ->
  (exists k', fire_step fuel reference tt k = Ret (inr tt) k' /\ later k k' /\ not_due k x) \/
  (exists k' h s' m, fire_step fuel reference tt k = Ret (inl tt) k' /\
     k' = K s' (with_targets x 0 0 (with_next h (tmr k))) (set_reads m (hw k)) /\ (reads (hw k) <= m)%nat /\
     fire_pre k' (set_list ls HTimer r) /\
     sched_threads s' = wake (tmr k) (sched_threads (sch k)) x /\
     sched_frame (sch k) s' /\ sched_context_switch_request s' = 1).
Proof.
  intros (Hr & (Q & Hq) & Hp & Hth & Hti) El. rewrite (fire_look k ls x r Hr El).
  set (tg := _secure_mintimer_lltimer_mask (target_of (tmr k) x)).
  destruct (Z.ltb_spec (left_at tg reference (tar (hw k))) SECURE_MINTIMER_ISR_BACKOFF) as [Hlt|Hge].
  2: { left. exists (tick k). split; [done|]. split; [apply later_tick|]. exists (tar (hw k)).
       unfold tg in Hge. rewrite mask_mod in Hge. revert Hge. unfold left_at, SECURE_MINTIMER_ISR_BACKOFF.
       destruct (Z.ltb_spec (tar (hw k)) reference); [lia|]. case_match; lia. }
  right. destruct (spin_ok n tg reference (mask_range _) fuel (tick k)) as (k1 & E1 & Hk1); [done|done|].
  rewrite (bind_ret (wait_due _) _ _ _ _ E1).
  destruct (fire_take k ls x r k1 (do! _shoot_timer x; ret (inl tt)) Hr El
    (later_trans _ _ _ (later_tick k) Hk1)) as (h & w & -> & Hm & _ & Hx3 & Hr3). set (k3 := K _ _ _).
  assert (thread_ok (tmr k3) x) as Hthx by (by rewrite El in Hth; apply Forall_inv in Hth).
  assert (is_timer (tmr k) x) as Hx by (apply (in_list_timer _ _ Hr HTimer); [apply head_in_heads|rewrite El; in_list]).
  destruct (shoot_ok k3 Q x) as (s' & Q' & Es & Hq' & Hp' & Hths & Hfr' & Hreq); [by apply Hx3|done..|].
  rewrite (bind_ret _ _ _ _ _ Es). eexists _, h, s', w. split; [done|]. split; [done|].
  split; [done|]. split; [|split; [exact Hths|done]].
  split; [exact Hr3|]. split; [by exists Q'|]. split; [done|]. split; [|done].
  rewrite set_list_eq. rewrite El in Hth. apply Forall_cons in Hth as [_ Hth]. exact Hth.
Qed.

(** The whole loop. *)
Lemma fire_due_loop xs : forall f k ls,
  fire_pre k ls -> ls HTimer = xs -> (length xs < f)%nat ->
  exists k' fired rest,
    loop f (fire_step fuel reference) tt k = Ret tt k' /\ xs = fired ++ rest /\
    fire_pre k' (set_list ls HTimer rest) /\
    sched_threads (sch k') = foldl (wake (tmr k)) (sched_threads (sch k)) fired /\
    sched_frame (sch k) (sch k') /\
    (fired <> [] -> sched_context_switch_request (sch k') = 1) /\
    (fired = [] -> sch k' = sch k) /\
    (exists m, (reads (hw k) <= m)%nat /\ hw k' = set_reads m (hw k)) /\
    (forall x, x ∈ fired -> target_of (tmr k') x = 0 /\ long_of (tmr k') x = 0) /\
    (forall x, x ∉ fired -> target_of (tmr k') x = target_of (tmr k) x /\ long_of (tmr k') x = long_of (tmr k) x) /\
    t_thread (tmr k') = t_thread (tmr k) /\
    (forall q, head rest = Some q -> not_due k' q).
Proof.
  induction xs as [|x r IH]; intros [|f] k ls Hpre El Hf; cbn in Hf; try lia.
  - destruct Hpre as (Hr & Hrest). destruct head_in_heads as (Hh & _).
    pose proof (rep_list _ _ _ Hr Hh) as Hl. unfold list_ok in Hl. rewrite El in Hl. destruct Hl as ([_ Hl0] & _).
    exists k, [], []. split; [|split; [done|]].
    { apply loop_exit. unfold fire_step.
      by rewrite (bind_ret _ _ _ _ _ (on_timers_ok _ _ _ _ (nxt_load_ok _ _ _ Hl0))), with_tmr_id. }
    split.
    { split; [|by rewrite set_list_eq; destruct Hrest as (? & ? & _ & ?)].
      eapply rep_ext; [|exact Hr]. intros hd _. unfold set_list. by destruct (decide _) as [->|]. }
    split; [done|]. split; [done|]. split; [done|]. split; [done|].
    split; [exists (reads (hw k)); split; [lia|by destruct (hw k)]|]. split; [set_solver|]. done.
  - destruct (fire_one k ls x r Hpre El) as
      [(k' & E & (m & Hm & Hk') & Hnd)|(k' & h & s' & m & E & Hk' & Hm & Hpre' & Hths & Hfr & Hreq)].
    + exists k', [], (x :: r). split; [by apply loop_exit|]. split; [done|]. split.
      { subst k'. destruct Hpre as (Hr & Hq & Hp & Hth & Hti). split; [|split; [done|split; [done|split; [|done]]]].
        - eapply rep_ext; [|exact Hr]. intros hd _. unfold set_list. by destruct (decide _) as [->|].
        - by rewrite set_list_eq, <- El. }
      subst k'. split; [done|]. split; [done|]. split; [done|]. split; [done|].
      split; [by exists m|]. split; [set_solver|]. split; [done|]. split; [done|].
      cbn. intros q [= <-]. exact Hnd.
    + destruct (IH f k' _ Hpre' (set_list_eq _ _ _) ltac:(lia)) as
        (k'' & fired & rest & E' & -> & Hpre'' & Hths' & Hfr' & Hreq' & Hno & (m' & Hm' & Hhw) & Hz & Hu & Htt & Hnd).
      exists k'', (x :: fired), rest. split; [by rewrite (loop_next _ _ _ _ _ _ E)|]. split; [done|].
      subst k'. cbn [sch hw tmr] in *. split.
      { destruct Hpre'' as (Hr & Hrest). split; [|by rewrite set_list_eq in *].
        eapply rep_ext; [|exact Hr]. intros hd _. unfold set_list. by repeat destruct (decide _). }
      split; [cbn [foldl]; by rewrite <- Hths|]. split; [by eapply sched_frame_trans|].
      split.
      { intros _. destruct fired as [|y fired]; [|by apply Hreq']. by rewrite (Hno eq_refl). }
      split; [done|]. split; [exists m'; split; [cbn in Hm'; lia|by rewrite Hhw]|].
      split; [|split; [|split; [exact Htt|exact Hnd]]].
      * intros y Hy. destruct (decide (y ∈ fired)) as [Hyf|Hyf]; [by apply Hz|].
        apply elem_of_cons in Hy as [->|Hy]; [|done]. destruct (Hu x Hyf) as [-> ->]. apply targets_eq.
      * intros y Hy. apply not_elem_of_cons in Hy as [Hyx Hy]. destruct (Hu y Hy) as [-> ->].
        by apply (targets_ne (with_next h (tmr k))).
Qed.
End fire.

(** ** Setting a timer *)

Lemma rep_store_next {b} t ls n v :
  timers_repb b t ls -> is_timer t n -> unlinked ls n ->
  timers_repb b (with_next (<[n := v]> (t_next t)) t) ls.
Proof.
  intros Hr Hn Hu.
  assert (frame (t_next t) (<[n := v]> (t_next t)) [n]) as Hf by (apply frame_insert; [in_list|apply frame_refl]).
  apply rep_intro; [|intros; by eapply rep_disjoint].
  intros hd Hh. destruct (rep_list _ _ _ Hr Hh) as (Hc & Ht & Hs). split; [|split].
  - eapply chain_frame; [exact Hf| |exact Hc]. intros a Ha ->%list_elem_of_singleton.
    by apply (unlinked_notin t ls hd n Hh Hn Hu).
  - eapply Forall_impl; [exact Ht|]. intros m. by eapply is_timer_next.
  - by destruct hd.
Qed.

(** The timers just before [_secure_mintimer_set_absolute_explicit]. *)
Definition set_fields (t : timers_t) (n : tnode) (target : Z) : timers_t :=
  with_targets n target (_long_cnt t) (with_next (<[n := None]> (t_next t)) t).

Section set_absolute.
Context (k : kst) (ls : tnode -> list tnode) (n : tnode) (target : Z) (fuel : nat).
Context {b : bool} (Hr : timers_repb b (tmr k) ls) (Hw : hw_wf (hw k)) (Hc : counters_ok (tmr k)).
Context (Hf : forall hd, hd ∈ heads -> (length (ls hd) < Datatypes.S fuel)%nat).
Context (Hn : is_timer (tmr k) n) (Hu : unlinked ls n) (Hidle : is_setb (tmr k) n = false).

Abbreviation now := (time32 (tmr k) (tar (hw k))).
Abbreviation kf := (with_tmr (set_fields (tmr k) n target) (tick k)).

Lemma set_fields_ok :
  timers_repb b (tmr kf) ls /\ hw_wf (hw kf) /\ is_timer (tmr kf) n /\
  target_of (tmr kf) n = target /\ long_of (tmr kf) n = _long_cnt (tmr k).
Proof.
  assert (is_timer (with_next (<[n := None]> (t_next (tmr k))) (tmr k)) n) as Hn1.
  { destruct Hn as (H1 & H2 & H3). split; [done|]. split; [|done]. apply lookup_insert_is_Some'. by left. }
  split; [by apply rep_targets; [apply rep_store_next|]|]. split; [done|].
  split; [by apply is_timer_targets|]. apply targets_eq.
Qed.

Lemma set_absolute_far :
  SECURE_MINTIMER_BACKOFF < u32 (target - now) ->
  _secure_mintimer_set_absolute (Datatypes.S fuel) n target k =
  _secure_mintimer_set_absolute_explicit (Datatypes.S fuel) n now kf.
Proof.
  intros Hoff. unfold _secure_mintimer_set_absolute. rewrite (bind_ret _ _ _ _ _ (now_ok _ _)).
  pose proof Hn as (H1 & [v Hv] & H3).
  erewrite (bind_ret _ _ (tick k)); [|exact (on_timers_ok _ (tick k) _ _ (nxt_ok _ _ _ _ (store_ok _ _ None _ Hv)))].
  rewrite (proj2 (Z.leb_gt _ _)) by done.
  set (k1 := with_tmr _ (tick k)).
  assert (is_timer (tmr k1) n) as Hn1.
  { split; [done|]. split; [|done]. apply lookup_insert_is_Some'. by left. }
  rewrite (bind_ret _ _ _ _ _ (on_timers_ok _ k1 _ _ (is_set_ok _ _ Hn1))), with_tmr_id.
  change (is_setb (tmr k1) n) with (is_setb (tmr k) n). rewrite Hidle. cbn [when].
  rewrite (bind_ret (ret tt) _ _ _ _ eq_refl).
  rewrite (bind_ret _ _ _ _ _ (on_timers_ok _ k1 _ _ (set_target_ok _ _ target Hn1))).
  set (k2 := with_tmr _ k1).
  rewrite (bind_ret _ _ k2 _ _ (on_timers_ok _ _ _ _ (gets_ok _ _))), with_tmr_id.
  assert (is_timer (tmr k2) n) as Hn2.
  { destruct Hn1 as (N1 & N2 & N3 & N4). split; [done|]. split; [done|]. split; [|done].
    apply lookup_insert_is_Some'. by left. }
  by rewrite (bind_ret _ _ _ _ _ (on_timers_ok _ k2 _ _ (set_long_target_ok _ _ _ Hn2))).
Qed.
End set_absolute.

(** ** Sleeping *)

(** Taking a timer out of the lists reads no clock. *)
Lemma rearm_clock v k : clock (rearm v k) = clock (hw k) /\ reads (rearm v k) = reads (hw k).
Proof. unfold rearm. by destruct (c_true _). Qed.

Lemma after_remove_clock k ls n :
  clock (hw_after_remove k ls n) = clock (hw k) /\ reads (hw_after_remove k ls n) = reads (hw k).
Proof. unfold hw_after_remove. destruct (decide _); [apply rearm_clock|done]. Qed.

Lemma rearm_cb v k : isr_cb (rearm v k) = isr_cb (hw k).
Proof. unfold rearm. by destruct (c_true _). Qed.

Lemma after_remove_cb k ls n : isr_cb (hw_after_remove k ls n) = isr_cb (hw k).
Proof. unfold hw_after_remove. destruct (decide _); [apply rearm_cb|done]. Qed.

Lemma rearm_wf v k : hw_wf (hw k) -> hw_wf (rearm v k).
Proof. intros Hw. by apply lltimer_set_ok. Qed.

Lemma after_remove_wf k ls n : hw_wf (hw k) -> hw_wf (hw_after_remove k ls n).
Proof. intros Hw. unfold hw_after_remove. destruct (decide _); [by apply rearm_wf|done]. Qed.

(** A timer that is not set is in no list. *)
Definition idle_unlinked (t : timers_t) (ls : tnode -> list tnode) (n : tnode) : Prop :=
  is_setb t n = false -> unlinked ls n.

(** After [get_available_timer]: the slot is free. *)
Lemma slot_freed {b} k ls pid fuel :
  timers_repb b (tmr k) ls -> hw_wf (hw k) -> (forall hd, hd ∈ heads -> (length (ls hd) < fuel)%nat) ->
  0 <= pid < 15 -> is_timer (tmr k) (TSlot pid) -> idle_unlinked (tmr k) ls (TSlot pid) ->
  exists h w, get_available_timer fuel pid k
      = Ret (Some (TSlot pid)) (K (sch k) (with_targets (TSlot pid) 0 0 (with_next h (tmr k))) w) /\
    timers_repb b (with_targets (TSlot pid) 0 0 (with_next h (tmr k))) (drop_timer (TSlot pid) ls) /\
    is_timer (with_targets (TSlot pid) 0 0 (with_next h (tmr k))) (TSlot pid) /\
    hw_wf w /\ clock w = clock (hw k) /\ reads w = reads (hw k) /\ isr_cb w = isr_cb (hw k) /\
    keeps_timers (tmr k) (with_targets (TSlot pid) 0 0 (with_next h (tmr k))).
Proof.
  intros Hr Hw Hf Hp Hn Hi. unfold get_available_timer, SECURE_MINTIMER_TIMER_LIST_LENGTH.
  rewrite (proj2 (Z.leb_le _ _)) by lia.
  destruct (is_setb (tmr k) (TSlot pid)) eqn:Es.
  - destruct (timer_remove_ok k ls (TSlot pid) fuel Hr Hw Hf) as (h & E & Hr' & Hk).
    unfold secure_mintimer_remove. 
    rewrite bind_assoc.
    rewrite (bind_ret _ _ _ _ _ (on_timers_ok _ _ _ _ (is_set_ok _ _ Hn))), with_tmr_id, Es. cbn [when].
    rewrite bind_assoc, (bind_ret _ _ _ _ _ E). pose proof (Hk _ Hn) as Hkn.
    set (k1 := K _ _ _). rewrite (bind_ret _ _ _ _ _ (set_targets_ok k1 (TSlot pid) 0 0 Hkn)).
    exists h, (hw_after_remove k ls (TSlot pid)). split; [done|].
    split; [by apply rep_targets; [|apply drop_unlinked]|]. split; [by apply is_timer_targets|].
    split; [by apply after_remove_wf|]. split; [apply after_remove_clock|]. split; [apply after_remove_clock|].
    split; [apply after_remove_cb|]. apply (keeps_trans _ (with_next h (tmr k))); [by split|by apply keeps_targets].
  - exists (t_next (tmr k)), (hw k). rewrite with_next_id.
    assert (with_targets (TSlot pid) 0 0 (tmr k) = tmr k) as Et.
    { unfold is_setb, target_of, long_of, c_true in Es. destruct Hn as (_ & _ & [v Ea] & [w Eb] & _).
      rewrite Ea, Eb in Es. cbn in Es. unfold id in Es.
      assert (v = 0 /\ w = 0) as [-> ->] by lia.
      unfold with_targets, with_long_target, with_target. cbn. rewrite !insert_id by done. by destruct (tmr k). }
    rewrite Et. split; [|split; [|done]].
    + unfold secure_mintimer_remove. rewrite bind_assoc.
      rewrite (bind_ret _ _ _ _ _ (on_timers_ok _ _ _ _ (is_set_ok _ _ Hn))), with_tmr_id, Es.
      by destruct k.
    + apply drop_none; [by apply Hi|done].
Qed.

(** *** When a timer is due, in 64 bits *)

(** The start of a timer is the time its interrupt is programmed for, an
    overhead before its target; with the long target on top it is a time in
    64 bits. *)
Definition start64 (t : timers_t) (n : tnode) : Z := long_of t n * 2 ^ 32 + start_of t n.

(** The list for a timer by its start and the present time: the long list for
    a later 16-bit period; in the present period the current list, but for
    one that starts at once in the first period of 32 bits. *)
Definition place (t : timers_t) (start now : Z) : tnode :=
  if periods t <? start / 2 ^ 16 then HLong
  else if (_secure_mintimer_high_cnt t =? 0) && (start =? now) then HOverflow
  else HTimer.

Lemma land_high x : in_u 32 x -> Z.land x SECURE_MINTIMER_MASK = 2 ^ 16 * (x / 2 ^ 16).
Proof.
  intros Hx. change SECURE_MINTIMER_MASK with (Z.shiftl (Z.ones 16) 16).
  rewrite Z.mul_comm, <- Z.shiftr_div_pow2, <- Z.shiftl_mul_pow2 by lia.
  apply Z.bits_inj'. intros i Hi. rewrite Z.land_spec, !Z.shiftl_spec by lia. destruct (Z.ltb_spec i 16) as [Hlt|Hge].
  - rewrite !(Z.testbit_neg_r _ (i - 16)) by lia. apply andb_false_r.
  - rewrite Z.shiftr_spec by lia. replace (i - 16 + 16) with i by lia.
    destruct (Z.ltb_spec i 32) as [Hlo|Hhi].
    + rewrite Z.ones_spec_low by lia. apply andb_true_r.
    + rewrite <- (wrapu_id 32 x Hx), wrapu_testbit by lia. by rewrite (proj2 (Z.ltb_ge i 32)).
Qed.

(** The branches of [_secure_mintimer_set_absolute_explicit] place a timer by
    its start. *)
Lemma list_for_place t n now :
  counters_ok t -> in_u 32 now -> now / 2 ^ 16 = _secure_mintimer_high_cnt t / 2 ^ 16 ->
  _long_cnt t <= long_of t n < 2 ^ 32 - 1 ->
  list_for t n now = place t (long_after t n now * 2 ^ 32 + start_of t n) (_long_cnt t * 2 ^ 32 + now) /\
  long_after t n now = long_of t n + (if start_of t n <? now then 1 else 0).
Proof.
  intros Hc Hnow Hper Hl. pose proof (high_parts t Hc) as Hh. destruct Hc as (Hlc & Hhc & _).
  assert (in_u 32 (start_of t n)) as Hst by (apply (wrapu_range 32); lia).
  unfold list_for, place, long_after. rewrite land_high by done. rewrite mask_mod.
  set (st := start_of t n) in *. set (high := _secure_mintimer_high_cnt t) in *. unfold periods. fold high.
  assert (forall l, (l * 2 ^ 32 + st) / 2 ^ 16 = l * 2 ^ 16 + st / 2 ^ 16) as Ed.
  { intros l. replace (l * 2 ^ 32 + st) with (st + (l * 2 ^ 16) * 2 ^ 16) by lia. rewrite Z.div_add by lia. lia. }
  unfold in_u in *. pose proof (Z.div_mod now (2 ^ 16) ltac:(lia)) as Dn. pose proof (Z.div_mod st (2 ^ 16) ltac:(lia)) as Ds.
  pose proof (Z.mod_pos_bound now (2 ^ 16) ltac:(lia)). pose proof (Z.mod_pos_bound st (2 ^ 16) ltac:(lia)).
  destruct (Z.ltb_spec st now) as [Hlt|Hge].
  - rewrite wrapu_id by (unfold in_u; lia). split; [|lia]. rewrite Ed. rewrite (proj2 (Z.ltb_lt _ (long_of t n + 1))) by lia.
    by rewrite (proj2 (Z.ltb_lt _ _)) by lia.
  - split; [|lia]. rewrite Ed. destruct (Z.ltb_spec (_long_cnt t) (long_of t n)) as [Hll|Hll]; cbn [orb].
    { by rewrite (proj2 (Z.ltb_lt _ _)) by lia. }
    destruct (Z.eqb_spec (2 ^ 16 * (st / 2 ^ 16)) high) as [He|He]; cbn [negb].
    + rewrite (proj2 (Z.ltb_ge _ _)) by lia.
      destruct (Z.leb_spec st (now mod 2 ^ 16)), (Z.eqb_spec high 0), (Z.eqb_spec (long_of t n * 2 ^ 32 + st) (_long_cnt t * 2 ^ 32 + now)); cbn [andb]; (reflexivity || lia).
    + by rewrite (proj2 (Z.ltb_lt _ _)) by lia.
Qed.

(** A timer set [us] ticks after reading [lo], at reading [lo']: its start is
    an overhead before that, and 2^32 too late when it has passed. *)
Definition late (us lo lo' : Z) : Z := if us <? SECURE_MINTIMER_OVERHEAD + (lo' - lo) then 2 ^ 32 else 0.

Lemma set_start t n us lo lo' :
  counters_ok t -> 0 <= lo <= lo' -> lo' < 2 ^ 16 -> in_u 32 us -> _long_cnt t < 2 ^ 32 - 1 ->
  let f := set_fields t n (u32 (time32 t lo + us)) in
  let start := time64 t lo + us - SECURE_MINTIMER_OVERHEAD + late us lo lo' in
  long_after f n (time32 t lo') * 2 ^ 32 + start_of f n = start /\
  list_for f n (time32 t lo') = place t start (time64 t lo').
Proof.
  intros Hc Hlo Hlo' Hus Hlong f start.
  destruct (time32_ok t lo Hc ltac:(lia)) as [E1 R1]. destruct (time32_ok t lo' Hc ltac:(lia)) as [E2 R2].
  pose proof (high_parts t Hc) as Hh. pose proof Hc as (Hlc & Hhc & _).
  assert (forall x, time64 t x = _long_cnt t * 2 ^ 32 + (_secure_mintimer_high_cnt t + x)) as E64.
  { intros x. unfold time64, periods. lia. }
  assert (target_of f n = u32 (time32 t lo + us) /\ long_of f n = _long_cnt t) as [Et El] by apply targets_eq.
  destruct (list_for_place f n (time32 t lo')) as [Ep Ea]; [exact Hc|exact R2| |rewrite El; change (_long_cnt f) with (_long_cnt t); unfold in_u in Hlc; lia|].
  { rewrite E2. change (_secure_mintimer_high_cnt f) with (_secure_mintimer_high_cnt t).
    rewrite Hh at 1. rewrite Z.mul_comm, Z.div_add_l by lia. rewrite (Z.div_small lo') by lia. lia. }
  assert (long_after f n (time32 t lo') * 2 ^ 32 + start_of f n = start) as Es.
  { rewrite Ea, El. unfold start_of. rewrite Et. unfold start. rewrite E64. unfold late, SECURE_MINTIMER_OVERHEAD in *.
    rewrite wrapu_sub_l. rewrite E1, E2 in *. set (x := _secure_mintimer_high_cnt t + lo) in *.
    replace (_secure_mintimer_high_cnt t + lo') with (x + (lo' - lo)) in * by lia. unfold in_u in *.
    unfold wrapu. destruct (decide (x + us - 300 < 0)) as [Hn|Hn]; [|destruct (decide (x + us - 300 < 2 ^ 32)) as [Hs|Hs]].
    - replace ((x + us - 300) mod 2 ^ 32) with (x + us - 300 + 2 ^ 32) by (rewrite <- (Z_mod_plus_full _ 1), Z.mod_small; lia).
      destruct (Z.ltb_spec (x + us - 300 + 2 ^ 32) (x + (lo' - lo))), (Z.ltb_spec us (300 + (lo' - lo))); lia.
    - rewrite (Z.mod_small (x + us - 300)) by lia.
      destruct (Z.ltb_spec (x + us - 300) (x + (lo' - lo))), (Z.ltb_spec us (300 + (lo' - lo))); lia.
    - replace ((x + us - 300) mod 2 ^ 32) with (x + us - 300 - 2 ^ 32) by (rewrite <- (Z_mod_plus_full _ (-1)), Z.mod_small; lia).
      destruct (Z.ltb_spec (x + us - 300 - 2 ^ 32) (x + (lo' - lo))), (Z.ltb_spec us (300 + (lo' - lo))); lia. }
  split; [exact Es|]. rewrite Ep, Es. rewrite E2, E64. reflexivity.
Qed.

Lemma bumped_timer t n now q : is_timer t q -> is_timer (bumped t n now) q.
Proof.
  unfold bumped. destruct (_ <? now); [|done]. intros (H1 & H2 & H3 & H4 & H5).
  do 3 (split; [done|]). split; [|done]. apply lookup_insert_is_Some'. by right.
Qed.

Lemma bumped_keeps t n now : is_timer t n -> keeps_timers t (bumped t n now).
Proof.
  intros Hn. split; [intros q; apply bumped_timer|]. unfold bumped. by destruct (_ <? now).
Qed.

(** Setting a free timer, with the two readings of the clock. *)
Lemma mintimer_set_far {b} k ls n offset fuel :
  timers_repb b (tmr k) ls -> hw_wf (hw k) ->
  (forall hd, hd ∈ heads -> (length (ls hd) < Datatypes.S fuel)%nat) ->
  is_timer (tmr k) n -> unlinked ls n -> is_setb (tmr k) n = false ->
  let target := u32 (time32 (tmr k) (tar (hw k)) + offset) in
  let now := time32 (tmr k) (tar (hw (tick k))) in
  SECURE_MINTIMER_BACKOFF < u32 (target - now) ->
  exists k' hd xs, _secure_mintimer_set (Datatypes.S fuel) n offset k = Ret tt k' /\
    hd = list_for (set_fields (tmr k) n target) n now /\ xs ≡ₚ n :: ls hd /\
    timers_repb b (tmr k') (set_list ls hd xs) /\ sch k' = sch k /\ hw_wf (hw k') /\
    target_of (tmr k') n = target /\ long_of (tmr k') n = long_after (set_fields (tmr k) n target) n now /\
    t_thread (tmr k') = t_thread (tmr k) /\ isr_cb (hw k') = isr_cb (hw k) /\ keeps_timers (tmr k) (tmr k').
Proof.
  intros Hr Hw Hf Hn Hu Hidle target now Hoff. unfold _secure_mintimer_set, secure_mintimer_remove.
  rewrite bind_assoc.
  rewrite (bind_ret _ _ _ _ _ (on_timers_ok _ _ _ _ (is_set_ok _ _ Hn))), with_tmr_id, Hidle. cbn [when].
  rewrite (bind_ret (ret tt) _ _ _ _ eq_refl), (bind_ret _ _ _ _ _ (now_ok _ _)).
  fold target. pose proof (set_absolute_far (tick k) n target fuel Hn Hidle Hoff) as E.
  destruct (set_fields_ok (tick k) ls n target Hr Hw Hn Hu) as (Hr1 & Hw1 & Hn1 & Et & El).
  fold now in E. change (tmr (tick k)) with (tmr k) in *.
  set (kf := with_tmr (set_fields (tmr k) n target) (tick (tick k))) in *.
  destruct (explicit_ok kf ls n (Datatypes.S fuel) now Hr1 Hw1 Hf Hn1 Hu) as (h & E' & Hr' & Hfr).
  destruct (bumped_facts kf ls n now Hr1 Hn1 Hu) as (_ & _ & Enx & Et' & El' & _).
  pose proof (eq_trans E E') as Eset. clear E. eexists _, _, (queued kf ls n now).
  rewrite (bind_ret _ _ _ _ _ Eset). split; [done|].
  split; [done|]. split; [apply insert_perm|]. split; [exact Hr'|]. split; [done|]. split.
  { cbn [hw]. destruct (decide _); [by apply rearm_wf|done]. }
  split; [by rewrite <- Et|]. split; [exact El'|]. split; [|split].
  - cbn [tmr t_thread with_next]. unfold bumped. by destruct (_ <? _).
  - cbn [hw]. destruct (decide _); [by rewrite rearm_cb|done].
  - apply (keeps_trans _ (tmr kf)).
    { apply (keeps_trans _ (with_next (<[n := None]> (t_next (tmr k))) (tmr k))).
      - eapply (keeps_next _ _ [n]), frame_insert; [in_list|apply frame_refl].
      - apply keeps_targets. eapply (is_timer_next _ _ [n]), Hn. apply frame_insert; [in_list|apply frame_refl]. }
    apply (keeps_trans _ (bumped (tmr kf) n now)); [by apply bumped_keeps|].
    eapply keeps_next. by rewrite Enx.
Qed.

(** A timer that is due so soon that the call waits for it. *)
Lemma mintimer_set_near k n offset fuel :
  is_timer (tmr k) n -> is_setb (tmr k) n = false ->
  let target := u32 (time32 (tmr k) (tar (hw k)) + offset) in
  ~ SECURE_MINTIMER_BACKOFF < u32 (target - time32 (tmr k) (tar (hw (tick k)))) ->
  _secure_mintimer_set (Datatypes.S fuel) n offset k =
  (do! secure_mintimer_spin_until (Datatypes.S fuel) target; do! _shoot_timer n; ret tt)
    (with_tmr (with_next (<[n := None]> (t_next (tmr k))) (tmr k)) (tick (tick k))).
Proof.
  intros Hn Hidle target Hoff. unfold _secure_mintimer_set, secure_mintimer_remove. rewrite bind_assoc.
  rewrite (bind_ret _ _ _ _ _ (on_timers_ok _ _ _ _ (is_set_ok _ _ Hn))), with_tmr_id, Hidle. cbn [when].
  rewrite (bind_ret (ret tt) _ _ _ _ eq_refl), (bind_ret _ _ _ _ _ (now_ok _ _)). fold target.
  unfold _secure_mintimer_set_absolute. rewrite bind_assoc, (bind_ret _ _ _ _ _ (now_ok _ _)).
  pose proof Hn as (_ & [w Hw] & _). rewrite bind_assoc.
  erewrite (bind_ret _ _ (tick (tick k))); [|exact (on_timers_ok _ (tick (tick k)) _ _ (nxt_ok _ _ _ _ (store_ok _ _ None _ Hw)))].
  rewrite (proj2 (Z.leb_le _ _)) by (change (tmr (tick k)) with (tmr k); lia). rewrite !bind_assoc. unfold bind.
  destruct (secure_mintimer_spin_until _ _ _) as [? ?|]; [|done]. by destruct (_shoot_timer _ _).
Qed.

(** ** Properties *)

(** What [explicit_ok] says of the lists. *)
Lemma explicit_places k ls n now fuel :
  timers_rep (tmr k) ls -> hw_wf (hw k) -> (forall hd, hd ∈ heads -> (length (ls hd) < fuel)%nat) ->
  is_timer (tmr k) n -> unlinked ls n ->
  let hd := list_for (tmr k) n now in
  exists k', _secure_mintimer_set_absolute_explicit fuel n now k = Ret 0 k' /\ sch k' = sch k /\
    timers_rep (tmr k') (set_list ls hd (queued k ls n now)) /\
    queued k ls n now ≡ₚ n :: ls hd /\
    target_of (tmr k') n = target_of (tmr k) n /\ long_of (tmr k') n = long_after (tmr k) n now /\
    hw k' = if decide (hd = HTimer /\ head (queued k ls n now) = Some n)
            then rearm (start_of (tmr k) n) k else hw k.
Proof.
  intros Hr Hw Hf Hn Hu hd. destruct (explicit_ok k ls n fuel now Hr Hw Hf Hn Hu) as (h & E & Hr' & _).
  destruct (bumped_facts k ls n now Hr Hn Hu) as (_ & _ & _ & Et & El & _).
  eexists. split; [exact E|]. split; [done|]. split; [exact Hr'|]. split; [apply insert_perm|].
  by split.
Qed.

(** The time [n] is due, in microseconds since the start. *)
Definition deadline (t : timers_t) (n : tnode) : Z := long_of t n * 2 ^ 32 + target_of t n.

(** [_secure_mintimer_now64] returns the 64-bit time: the count of 16-bit
    periods kept in [_long_cnt] and [_secure_mintimer_high_cnt] followed by
    the counter register, without overflow. *)
Theorem now64_exact k :
  counters_ok (tmr k) ->
  _secure_mintimer_now64 k = Ret (time64 (tmr k) (tar (hw k))) (tick k) /\
  in_u 64 (time64 (tmr k) (tar (hw k))).
Proof.
  intros Hc. pose proof (tar_range (hw k)) as Hl. destruct (time32_ok _ _ Hc Hl) as [E Hr].
  pose proof (high_parts _ Hc) as Hh. destruct Hc as (Hlo & Hhi & _).
  assert (time64 (tmr k) (tar (hw k)) = _long_cnt (tmr k) * 2 ^ 32 + time32 (tmr k) (tar (hw k))) as ET.
  { rewrite E. unfold time64, periods. lia. }
  unfold in_u in *. assert (in_u 64 (time64 (tmr k) (tar (hw k)))) as H64 by (unfold in_u; lia).
  split; [|exact H64]. unfold _secure_mintimer_now64. rewrite (bind_ret _ _ _ _ _ (now_internal_ok k)).
  unfold ret. f_equal. rewrite Z.shiftl_mul_pow2, wrapu_add_l, ET by lia. rewrite wrapu_id; [done|].
  unfold in_u. lia.
Qed.

(** C13 Adding a timer to the list of a head variable is stable insertion:
    the timers that are not later stay in front of it, all others behind,
    the list stays in the order of its targets (of long target, then target,
    for the long list) and the other two lists do not change. *)
Theorem timer_insertion_stable t ls hd n fuel :
  timers_rep t ls -> hd ∈ heads -> is_timer t n -> unlinked ls n ->
  (forall hd', hd' ∈ heads -> (length (ls hd') < fuel)%nat) ->
  exists h pre suf,
    (match hd with
     | HLong => _add_timer_to_long_list fuel hd n
     | _ => _add_timer_to_list fuel hd n
     end) t = Ret tt (with_next h t) /\
    ls hd = pre ++ suf /\ timers_rep (with_next h t) (set_list ls hd (pre ++ n :: suf)) /\
    Forall (fun x => list_order hd t x n) pre /\ (forall x, head suf = Some x -> ~ list_order hd t x n).
Proof.
  intros Hr Hh Hn Hu Hf.
  destruct (insert_stable (list_order hd t) n (ls hd)) as (pre & suf & E1 & E2 & Hp & Hsuf).
  destruct (add_any t ls Hr fuel Hf hd n Hh Hn Hu) as (h & E & Hr' & _).
  cbn zeta in Hr'. rewrite E2 in Hr'. by exists h, pre, suf.
Qed.

(** C14 [secure_mintimer_remove] leaves a timer that is not set alone; one
    that is set it takes out of whichever list holds it, keeps the rest of
    the three lists in order, clears both targets, and reprograms the
    compare register exactly when the timer was the next to expire. *)
Theorem secure_mintimer_remove_exact k ls n fuel :
  timers_rep (tmr k) ls -> hw_wf (hw k) -> (forall hd, hd ∈ heads -> (length (ls hd) < fuel)%nat) ->
  is_timer (tmr k) n ->
  exists k', secure_mintimer_remove fuel n k = Ret tt k' /\ sch k' = sch k /\
    if is_setb (tmr k) n then
      timers_rep (tmr k') (drop_timer n ls) /\ unlinked (drop_timer n ls) n /\
      deadline (tmr k') n = 0 /\ is_setb (tmr k') n = false /\ hw k' = hw_after_remove k ls n
    else k' = k.
Proof.
  intros Hr Hw Hf Hn. destruct (secure_remove_ok k ls n fuel Hr Hw Hf Hn) as (k' & E & Es & H).
  exists k'. split; [done|]. split; [done|]. destruct (is_setb (tmr k) n); [|done].
  destruct H as (H1 & H2 & H3 & H4 & _). split; [done|]. split; [apply drop_unlinked|].
  unfold deadline, is_setb. by rewrite H3, H4.
Qed.

(** C16 [_secure_mintimer_set_absolute_explicit] at the time [now] of the present
    period, for a timer whose long target is not in the past.  The start of a
    timer is its target less the overhead, carried into the 64-bit time by
    counting a start below [now] as one of the next 32-bit period.  A start in
    a later 16-bit period than the present one puts the timer into the long
    list; one in the present period into the current list, except that a
    timer that starts exactly now goes to the overflow list while the upper
    half of the 32-bit time is 0.  The lists stay in order, the other two do
    not change, and the compare register is set to the start exactly when the
    timer became the first of the current list. *)
Theorem set_absolute_explicit_places k ls n now fuel :
  timers_rep (tmr k) ls -> hw_wf (hw k) -> counters_ok (tmr k) ->
  (forall hd, hd ∈ heads -> (length (ls hd) < fuel)%nat) ->
  is_timer (tmr k) n -> unlinked ls n ->
  in_u 32 now -> now / 2 ^ 16 = _secure_mintimer_high_cnt (tmr k) / 2 ^ 16 ->
  _long_cnt (tmr k) <= long_of (tmr k) n < 2 ^ 32 - 1 ->
  let st := u32 (target_of (tmr k) n - SECURE_MINTIMER_OVERHEAD) in
  let start := (long_of (tmr k) n + if st <? now then 1 else 0) * 2 ^ 32 + st in
  let hd := if periods (tmr k) <? start / 2 ^ 16 then HLong
            else if (_secure_mintimer_high_cnt (tmr k) =? 0) && (start =? _long_cnt (tmr k) * 2 ^ 32 + now) then HOverflow
            else HTimer in
  exists k' xs, _secure_mintimer_set_absolute_explicit fuel n now k = Ret 0 k' /\ sch k' = sch k /\
    timers_rep (tmr k') (set_list ls hd xs) /\ xs ≡ₚ n :: ls hd /\
    target_of (tmr k') n = target_of (tmr k) n /\
    long_of (tmr k') n * 2 ^ 32 + st = start /\
    hw k' = if decide (hd = HTimer /\ head xs = Some n) then rearm st k else hw k.
Proof.
  intros Hr Hw Hc Hf Hn Hu Hnow Hper Hl st start.
  destruct (list_for_place (tmr k) n now Hc Hnow Hper Hl) as [Ep Ea]. rewrite Ea in Ep. fold (start_of (tmr k) n) in st.
  fold st start in Ep. unfold place in Ep. intros hd. fold hd in Ep.
  destruct (explicit_places k ls n now fuel Hr Hw Hf Hn Hu) as (k' & E & Es & Hr' & Hp & Et & El & Eh).
  rewrite Ep in *. exists k', (queued k ls n now). do 5 (split; [done|]). split; [|exact Eh].
  by rewrite El, Ea.
Qed.

(** A timer set to expire between 200 and 300 microseconds ahead is lost
    for 2^32 microseconds: the backoff test lets it through, its start
    (target minus an overhead of 300) lies before the present, and the
    function takes that for an overflow of the 32-bit time.  The timer ends
    in the long list with a deadline 2^32 too late, and the compare register
    is not programmed for it. *)
Theorem short_delay_lost k ls n target fuel :
  timers_rep (tmr k) ls -> hw_wf (hw k) -> counters_ok (tmr k) ->
  (forall hd, hd ∈ heads -> (length (ls hd) < Datatypes.S fuel)%nat) ->
  is_timer (tmr k) n -> unlinked ls n -> is_setb (tmr k) n = false ->
  SECURE_MINTIMER_OVERHEAD <= target < 2 ^ 32 -> _long_cnt (tmr k) < 2 ^ 32 - 1 ->
  SECURE_MINTIMER_BACKOFF < target - time32 (tmr k) (tar (hw k)) < SECURE_MINTIMER_OVERHEAD ->
  exists k' xs, _secure_mintimer_set_absolute (Datatypes.S fuel) n target k = Ret 0 k' /\
    timers_rep (tmr k') (set_list ls HLong xs) /\ xs ≡ₚ n :: ls HLong /\
    deadline (tmr k') n = _long_cnt (tmr k) * 2 ^ 32 + target + 2 ^ 32 /\ hw k' = hw (tick k).
Proof.
  intros Hr Hw Hc Hf Hn Hu Hidle Ht Hlong Hd.
  destruct (time32_ok _ _ Hc (tar_range (hw k))) as [_ Hnow].
  set (now := time32 (tmr k) (tar (hw k))) in *.
  unfold SECURE_MINTIMER_OVERHEAD, SECURE_MINTIMER_BACKOFF, in_u in *.
  assert (u32 (target - now) = target - now) as Eu by (apply wrapu_id; unfold in_u; lia).
  rewrite (set_absolute_far k n target fuel Hn Hidle) by (fold now; unfold SECURE_MINTIMER_BACKOFF; lia).
  fold now. set (kf := with_tmr (set_fields (tmr k) n target) (tick k)).
  destruct (set_fields_ok k ls n target Hr Hw Hn Hu) as (Hr1 & Hw1 & Hn1 & Et & El). fold kf in Hr1, Hw1, Hn1, Et, El.
  destruct (explicit_places kf ls n now (Datatypes.S fuel) Hr1 Hw1 Hf Hn1 Hu)
    as (k' & E & _ & Hr' & Hp & Et' & El' & Eh).
  assert (long_after (tmr kf) n now = _long_cnt (tmr k) + 1) as Ela.
  { unfold long_after, start_of, SECURE_MINTIMER_OVERHEAD. rewrite Et, El.
    rewrite (wrapu_id 32 (target - 300)) by (unfold in_u; lia). rewrite (proj2 (Z.ltb_lt _ _)) by lia.
    apply wrapu_id. destruct Hc as (Hl & _). unfold in_u in *. lia. }
  assert (list_for (tmr kf) n now = HLong) as Ehd.
  { unfold list_for. rewrite Ela. change (_long_cnt (tmr kf)) with (_long_cnt (tmr k)).
    by rewrite (proj2 (Z.ltb_lt _ _)) by lia. }
  rewrite Ehd in Hr', Hp, Eh. rewrite decide_False in Eh by naive_solver.
  exists k', (queued kf ls n now). split; [exact E|]. split; [exact Hr'|]. split; [exact Hp|].
  split; [|exact Eh]. unfold deadline. rewrite Et', El', Ela, Et. lia.
Qed.

(** The timers of the current list are not among those of the next. *)
Lemma lists_after_current {b} t ls n : timers_repb b t ls -> n ∈ ls HTimer -> unlinked (lists_after t ls) n.
Proof.
  intros Hr Hn hd Hh Hin. destruct head_in_heads as (H1 & H2 & H3). unfold heads in Hh. rewrite !elem_of_cons, elem_of_nil in Hh.
  pose proof (selected_app (due_now (advanced t)) (ls HLong)) as El.
  assert (n ∈ ls HOverflow \/ n ∈ ls HLong) as [Ho|Ho].
  { destruct Hh as [->|[->|[->|[]]]]; cbn [lists_after] in Hin; [|by apply elem_of_nil in Hin|].
    - apply merge_rest_elem in Hin as [|Hin]; [by left|]. right. rewrite El. apply elem_of_app. by left.
    - right. rewrite El. apply elem_of_app. by right. }
  - by pose proof (rep_disjoint _ _ _ _ _ Hr H1 H2 Hn Ho).
  - by pose proof (rep_disjoint _ _ _ _ _ Hr H1 H3 Hn Ho).
Qed.

(** C15 [_next_period] advances the 48-bit count of periods by one, makes the
    overflow list the current list, and moves to it from the long list the
    first timers that belong to the new period; the overflow list is empty
    afterwards.  All timers of the overflow list and of the long list stay in
    a list when the former is empty or none of the latter is moved (otherwise
    [_merge_lists] loses some); the three lists are in order again unless a
    timer of an earlier 32-bit period was left in the long list.  A timer that
    was still in the current list is in none of the lists afterwards: the
    function overwrites that list. *)
Theorem next_period_moves t ls fuel :
  timers_rep t ls -> counters_ok t -> (forall hd, hd ∈ heads -> (length (ls hd) < fuel)%nat) ->
  exists t', _next_period fuel t = Ret tt t' /\
    counters_ok t' /\ periods t' = (periods t + 1) mod 2 ^ 48 /\
    chain (t_next t') HTimer (lists_after t ls HTimer) /\ chain (t_next t') HOverflow [] /\
    chain (t_next t') HLong (lists_after t ls HLong) /\
    (let due := selected (due_now t') (ls HLong) in
     ls HLong = due ++ lists_after t ls HLong /\
     (ls HOverflow = [] \/ due = [] -> lists_after t ls HTimer = ls HOverflow ++ due)) /\
    (forall n, n ∈ ls HTimer -> unlinked (lists_after t ls) n) /\
    ((forall n, n ∈ ls HLong -> _long_cnt t' <= long_of t n) -> timers_rep t' (lists_after t ls)).
Proof.
  intros Hr Hc Hf. destruct (next_period_ok t ls fuel Hr Hf) as (h & E & Hc1 & Hc2 & Hc3 & Hfr).
  destruct (advanced_ok t Hc) as [Hc' Hp].
  exists (with_next h (advanced t)). split; [exact E|]. split; [exact Hc'|]. split; [exact Hp|].
  split; [exact Hc1|]. split; [exact Hc2|]. split; [exact Hc3|].
  split; [|split; [intros n Hn; exact (lists_after_current t ls n Hr Hn)|intros Hl; by apply next_period_rep]].
  cbn zeta. change (due_now (with_next h (advanced t))) with (due_now (advanced t)).
  split; [apply selected_app|]. cbn [lists_after]. intros [->| ->]; [done|].
  by rewrite merge_rest_nil_r, app_nil_r.
Qed.

(** [_merge_lists] does not merge: of the two timers at the same position
    it keeps the earlier one only, so that the result has as many timers as
    the longer list and the other [min] many are in no list any more: their
    threads are never woken. *)
Theorem merge_lists_loses t h x a y b fuel :
  seg h x a None -> seg h y b None -> NoDup (x :: a ++ y :: b) ->
  Forall (is_timer t) (x :: a ++ y :: b) -> (length a < fuel)%nat ->
  exists hd rest h', _merge_lists fuel (Some x) (Some y) (with_next h t) = Ret (Some hd) (with_next h' t) /\
    seg h' hd rest None /\ hd :: rest = merge_rest (by_target t) (x :: a) (y :: b) /\
    length (hd :: rest) = Nat.max (length (x :: a)) (length (y :: b)) /\
    exists n, n ∈ x :: a ++ y :: b /\ n ∉ hd :: rest.
Proof.
  intros Ha Hb Hd Ht Hf. destruct (merge_lists_ok t h x a y b fuel Ha Hb Hd Ht Hf) as (h' & E & Hs & _).
  cbn [merge_rest head] in E. eexists _, _, h'. split; [exact E|]. split; [exact Hs|]. split; [done|].
  assert (NoDup (merge_rest (by_target t) (x :: a) (y :: b))) as Hdm by (by apply merge_rest_nodup).
  split; [apply (merge_rest_length (by_target t) (x :: a) (y :: b))|].
  destruct (decide (Exists (fun n => n ∉ merge_rest (by_target t) (x :: a) (y :: b)) (x :: a ++ y :: b)))
    as [He|He].
  { apply Exists_exists in He as (n & ? & ?). by exists n. }
  exfalso. assert (length (x :: a ++ y :: b) <= length (merge_rest (by_target t) (x :: a) (y :: b)))%nat as Hle.
  { apply submseteq_length, NoDup_submseteq; [done|]. intros n Hn.
    destruct (decide (n ∈ merge_rest (by_target t) (x :: a) (y :: b))) as [|Hno]; [done|].
    exfalso. apply He, Exists_exists. by exists n. }
  rewrite merge_rest_length in Hle. cbn in Hle. rewrite length_app in Hle. cbn in Hle. lia.
Qed.

(** The handler's loop fires exactly the timers that are due: a prefix of
    the current list leaves it, their targets are cleared, the threads that
    wait for them become runnable, a scheduling is requested, and the first
    timer left is at least 200 ticks ahead of the counter.  The loop ends,
    since the counter passes any value. *)
Theorem fire_due_wakes k ls Q reference n fuel :
  timers_rep (tmr k) ls -> rq_rep (sch k) Q -> prios_ok (sch k) ->
  Forall (thread_ok (tmr k)) (ls HTimer) -> ticking n (clock (hw k)) ->
  (length (ls HTimer) < fuel)%nat -> (n < fuel)%nat ->
  exists k' fired rest, fire_due fuel reference k = Ret tt k' /\ ls HTimer = fired ++ rest /\
    timers_rep (tmr k') (set_list ls HTimer rest) /\ (exists Q', rq_rep (sch k') Q') /\
    sched_threads (sch k') = foldl (wake (tmr k)) (sched_threads (sch k)) fired /\
    (fired <> [] -> sched_context_switch_request (sch k') = 1) /\
    (forall x, x ∈ fired -> is_setb (tmr k') x = false) /\
    (forall q, head rest = Some q -> not_due reference k' q).
Proof.
  intros Hr Hq Hp Hth Hti Hf Hn.
  destruct (fire_due_loop fuel reference n Hn (ls HTimer) fuel k ls) as
    (k' & fired & rest & E & EL & (Hr' & Hq' & _) & Hths & _ & Hreq & _ & _ & Hz & _ & _ & Hnd);
    [by split; [|split; [exists Q|]]|done|done|].
  exists k', fired, rest. split; [exact E|]. split; [done|]. split; [done|]. split; [done|].
  split; [done|]. split; [done|]. split; [|done].
  intros x Hx. unfold is_setb. by destruct (Hz x Hx) as [-> ->].
Qed.

(** [get_available_timer] bounds the pid by 15 where the array has 15
    elements and pids start at 0: pid 15 reads past the end of the array,
    and so does a negative pid (the type is signed).  A pid above 15 gets no
    timer. *)
Theorem get_available_timer_bounds k ls fuel pid :
  timers_rep (tmr k) ls -> hw_wf (hw k) -> (forall hd, hd ∈ heads -> (length (ls hd) < fuel)%nat) ->
  (0 <= pid < SECURE_MINTIMER_TIMER_LIST_LENGTH -> is_timer (tmr k) (TSlot pid)) ->
  (~ 0 <= pid < SECURE_MINTIMER_TIMER_LIST_LENGTH -> t_target (tmr k) !! TSlot pid = None) ->
  if decide (0 <= pid < 15) then
    exists k', get_available_timer fuel pid k = Ret (Some (TSlot pid)) k' /\
      is_setb (tmr k') (TSlot pid) = false
  else if decide (15 < pid) then get_available_timer fuel pid k = Ret None k
  else get_available_timer fuel pid k = Err BadAddr.
Proof.
  intros Hr Hw Hf Hs Hns. unfold get_available_timer, SECURE_MINTIMER_TIMER_LIST_LENGTH in *.
  destruct (decide (0 <= pid < 15)) as [Hp|Hp].
  - rewrite (proj2 (Z.leb_le _ _)) by lia.
    destruct (secure_mintimer_remove_exact k ls (TSlot pid) fuel Hr Hw Hf) as (k' & E & _ & H); [by apply Hs|].
    exists k'. rewrite (bind_ret _ _ _ _ _ E). split; [done|].
    destruct (is_setb (tmr k) (TSlot pid)) eqn:Es; [tauto|by subst].
  - destruct (decide (15 < pid)); [by rewrite (proj2 (Z.leb_gt _ _)) by lia|].
    rewrite (proj2 (Z.leb_le _ _)) by lia. apply bind_err. unfold secure_mintimer_remove. apply bind_err.
    unfold on_timers, zoom, _is_set, bind, get_target. by rewrite Hns.
Qed.

(** A sleep up to the setting of the timer: the slot of the thread is free
    and belongs to it, and the thread sleeps. *)
Lemma tsleep_prepared {b} k ls pid s' offset fuel :
  timers_repb b (tmr k) ls -> hw_wf (hw k) -> (forall hd, hd ∈ heads -> (length (ls hd) < fuel)%nat) ->
  0 <= pid < 15 -> is_timer (tmr k) (TSlot pid) -> idle_unlinked (tmr k) ls (TSlot pid) ->
  sched_set_status pid STATUS_SLEEPING (sch k) = Ret tt s' ->
  exists k2, _secure_mintimer_tsleep_specific_pid fuel offset pid k = _secure_mintimer_set fuel (TSlot pid) offset k2 /\
    sch k2 = s' /\ timers_repb b (tmr k2) (drop_timer (TSlot pid) ls) /\ is_timer (tmr k2) (TSlot pid) /\
    is_setb (tmr k2) (TSlot pid) = false /\ t_thread (tmr k2) = <[TSlot pid := Some pid]> (t_thread (tmr k)) /\
    _long_cnt (tmr k2) = _long_cnt (tmr k) /\ _secure_mintimer_high_cnt (tmr k2) = _secure_mintimer_high_cnt (tmr k) /\
    keeps_timers (tmr k) (tmr k2) /\
    hw_wf (hw k2) /\ clock (hw k2) = clock (hw k) /\ reads (hw k2) = reads (hw k) /\ isr_cb (hw k2) = isr_cb (hw k).
Proof.
  intros Hr Hw Hf Hp Hn Hi Es.
  destruct (slot_freed k ls pid fuel Hr Hw Hf Hp Hn Hi) as (h & w & E & Hr1 & Hn1 & Hw1 & Ec & Er & Ecb & Hk).
  set (t1 := with_targets (TSlot pid) 0 0 (with_next h (tmr k))) in *.
  unfold _secure_mintimer_tsleep_specific_pid. rewrite (bind_ret _ _ _ _ _ E). cbn iota.
  assert (t_target t1 !! TSlot pid = Some 0 /\ t_long_target t1 !! TSlot pid = Some 0) as [Z1 Z2].
  { unfold t1. cbn. by rewrite !lookup_insert_eq. }
  set (k1 := K (sch k) t1 w).
  rewrite (bind_ret _ _ k1 tt k1).
  2: { rewrite (on_timers_ok _ k1 _ _ (set_long_target_ok _ _ 0 Hn1)). cbn [tmr k1].
       unfold with_long_target. rewrite insert_id by done. by destruct t1. }
  rewrite (bind_ret _ _ k1 tt k1).
  2: { rewrite (on_timers_ok _ k1 _ _ (set_target_ok _ _ 0 Hn1)). cbn [tmr k1].
       unfold with_target. rewrite insert_id by done. by destruct t1. }
  set (t2 := with_thread (<[TSlot pid := Some pid]> (t_thread t1)) t1).
  rewrite (bind_ret _ _ k1 tt (with_tmr t2 k1)).
  2: { apply on_timers_ok. unfold set_thread. change (tmr k1) with t1. destruct Hn1 as (_ & _ & _ & _ & [x Ex]). by rewrite Ex. }
  rewrite (bind_ret _ _ _ _ _ (on_sched_ok _ (with_tmr t2 k1) _ _ Es)).
  assert (forall q, is_timer t1 q -> is_timer t2 q) as Hk2.
  { intros q (N1 & N2 & N3 & N4 & N5). do 4 (split; [done|]). apply lookup_insert_is_Some'. by right. }
  exists (with_sch s' (with_tmr t2 k1)). split; [done|]. split; [done|].
  split; [by eapply rep_fields; [exact Hr1|done|exact Hk2|]|]. split; [by apply Hk2|]. split.
  { unfold is_setb, target_of, long_of. cbn [tmr with_sch with_tmr t2 with_thread t_target t_long_target]. by rewrite Z1, Z2. }
  do 3 (split; [done|]). split; [|done]. eapply keeps_trans; [exact Hk|by split].
Qed.

(** A sleep frees the slot of the thread, marks the thread sleeping,
    which takes it off its run queue, and queues the slot's timer for the
    thread at the present time plus the offset, provided that more than the
    backoff of 200 is left when it is set and that the counter does not run
    over between its two readings.  An offset below the overhead is taken for
    one of 2^32 ticks more. *)
Theorem tsleep_sleeps k ls Q pid th offset fuel :
  timers_rep (tmr k) ls -> hw_wf (hw k) -> counters_ok (tmr k) -> _long_cnt (tmr k) < 2 ^ 32 - 1 -> rq_rep (sch k) Q ->
  (forall hd, hd ∈ heads -> (length (ls hd) < Datatypes.S fuel)%nat) ->
  0 <= pid < 15 -> is_timer (tmr k) (TSlot pid) -> idle_unlinked (tmr k) ls (TSlot pid) ->
  aget (sched_threads (sch k)) pid = Some th -> 0 <= priority th < SCHED_PRIO_LEVELS ->
  (on_runqueue (status th) = true -> head (Q (priority th)) = Some pid) -> in_u 32 offset ->
  let lo := u16 (clock (hw k) (reads (hw k))) in
  let lo' := u16 (clock (hw k) (Datatypes.S (reads (hw k)))) in
  let target := u32 (time32 (tmr k) lo + offset) in
  SECURE_MINTIMER_BACKOFF < u32 (target - time32 (tmr k) lo') -> lo <= lo' ->
  let start := time64 (tmr k) lo + offset - SECURE_MINTIMER_OVERHEAD + late offset lo lo' in
  let hd := place (tmr k) start (time64 (tmr k) lo') in
  exists k' xs, _secure_mintimer_tsleep_specific_pid (Datatypes.S fuel) offset pid k = Ret tt k' /\
    rq_rep (sch k') (queues_after Q (priority th) pid (status th) STATUS_SLEEPING) /\
    sched_threads (sch k') = threads_after (sch k) pid (set_status STATUS_SLEEPING th) /\
    xs ≡ₚ TSlot pid :: drop_timer (TSlot pid) ls hd /\
    timers_rep (tmr k') (set_list (drop_timer (TSlot pid) ls) hd xs) /\
    target_of (tmr k') (TSlot pid) = target /\ start64 (tmr k') (TSlot pid) = start /\
    t_thread (tmr k') !! TSlot pid = Some (Some pid).
Proof.
  intros Hr Hw Hcnt Hlong Hq Hf Hp Hn Hi Eth Hprio Hhead Hof lo lo' target Hoff Hll start hd.
  destruct (set_status_rep (sch k) Q pid th STATUS_SLEEPING Hq Eth Hprio) as (s' & Es & Hq' & Hs'); [auto|].
  destruct (tsleep_prepared k ls pid s' offset (Datatypes.S fuel) Hr Hw Hf Hp Hn Hi Es)
    as (k2 & E & Esch & Hr2 & Hn2 & Hidle & Eth2 & Elong & Ehigh & _ & Hw2 & Ec & Er & _).
  assert (Hf2 : forall hd, hd ∈ heads -> (length (drop_timer (TSlot pid) ls hd) < Datatypes.S fuel)%nat).
  { intros x Hh. eapply Nat.le_lt_trans; [apply length_filter|by apply Hf]. }
  assert (tar (hw k2) = lo /\ tar (hw (tick k2)) = lo') as [Elo Elo'].
  { unfold tar, lo, lo'. cbn [hw tick with_hw count_read clock reads]. by rewrite Ec, Er. }
  assert (forall x, time32 (tmr k2) x = time32 (tmr k) x) as Et32 by (intros x; unfold time32; by rewrite Ehigh).
  pose proof (mintimer_set_far k2 (drop_timer (TSlot pid) ls) (TSlot pid) offset fuel Hr2 Hw2 Hf2 Hn2
    (drop_unlinked _ _) Hidle) as Hset.
  cbn zeta in Hset. rewrite Elo, Elo', !Et32 in Hset.
  fold target in Hset.
  destruct (Hset Hoff) as (k' & hd' & xs & E' & Ehd & Hx & Hr' & Esch' & _ & Et & El & Eth' & _).
  assert (forall n v now, list_for (set_fields (tmr k2) n v) n now = list_for (set_fields (tmr k) n v) n now /\
    long_after (set_fields (tmr k2) n v) n now = long_after (set_fields (tmr k) n v) n now) as Esame.
  { intros n v now. assert (forall t, target_of (set_fields t n v) n = v /\ long_of (set_fields t n v) n = _long_cnt t) as Ef by (intros t; apply targets_eq).
    unfold list_for, long_after, start_of. rewrite !(proj1 (Ef _)), !(proj2 (Ef _)).
    cbn [set_fields with_targets with_next with_target with_long_target _long_cnt _secure_mintimer_high_cnt].
    by rewrite Elong, Ehigh. }
  assert (0 <= lo < 2 ^ 16 /\ 0 <= lo' < 2 ^ 16) as [Rlo Rlo'] by (split; apply (wrapu_range 16); lia).
  destruct (set_start (tmr k) (TSlot pid) offset lo lo' Hcnt ltac:(lia) ltac:(lia) Hof Hlong) as [Es1 Es2].
  fold target start in Es1, Es2. fold hd in Es2.
  rewrite (proj1 (Esame _ _ _)), Es2 in Ehd. subst hd'. rewrite (proj2 (Esame _ _ _)) in El.
  exists k', xs. split; [by rewrite E|]. rewrite Esch', Esch. split; [exact Hq'|].
  split; [by rewrite Hs'|]. split; [exact Hx|]. split; [exact Hr'|].
  split; [exact Et|]. split; [|rewrite Eth', Eth2; by rewrite lookup_insert_eq].
  unfold start64. rewrite El, <- Es1. f_equal. unfold start_of. rewrite Et. f_equal.
  by rewrite (proj1 (targets_eq _ _ _ _ : target_of (set_fields _ _ _) _ = _ /\ _)).
Qed.

(** ** A concrete state

    Slots 3 and 4 wait in the current period, 7 in the overflow list, 5, 6
    and 8 in the long list: 5 and 6 are due in the next period.  Slot 4
    belongs to thread 4, which sleeps. *)

Definition demo_slots : list tnode := TSched :: (TSlot <$> seqZ 0 15).

Definition demo_tmr : timers_t :=
  Timers
    (list_to_map ([(HTimer, Some (TSlot 3)); (TSlot 3, Some (TSlot 4)); (HOverflow, Some (TSlot 7));
                   (HLong, Some (TSlot 5)); (TSlot 5, Some (TSlot 6)); (TSlot 6, Some (TSlot 8))]
                  ++ ((fun n => (n, None)) <$> demo_slots)))
    (list_to_map ([(TSlot 3, 136072); (TSlot 4, 140072); (TSlot 7, 196658); (TSlot 5, 196708);
                   (TSlot 6, 197308); (TSlot 8, 77)] ++ ((fun n => (n, 0)) <$> demo_slots)))
    (list_to_map ([(TSlot 3, 5); (TSlot 4, 5); (TSlot 7, 5); (TSlot 5, 5); (TSlot 6, 5); (TSlot 8, 9)]
                  ++ ((fun n => (n, 0)) <$> demo_slots)))
    (list_to_map ([(TSlot 3, None); (TSlot 4, Some 4)] ++ ((fun n => (n, None)) <$> demo_slots)))
    5 131072 0.

Definition demo_ls (hd : tnode) : list tnode :=
  match hd with
  | HTimer => [TSlot 3; TSlot 4]
  | HOverflow => [TSlot 7]
  | HLong => [TSlot 5; TSlot 6; TSlot 8]
  | _ => []
  end.

(** A counter that advances by one from one reading to the next. *)
Definition step_hw (start : Z) : hw_t :=
  Hw (fun n => start + Z.of_nat n) 0 0x02A0 [0; 0; 0] [0xFFFF; 0; 0] true 0 0.

Definition demo_kst : kst := K demo_sched demo_tmr (step_hw 1000).

Lemma demo_timers_rep : timers_rep demo_tmr demo_ls.
Proof. apply (bool_decide_eq_true_1 _). vm_compute. reflexivity. Qed.
Lemma demo_counters : counters_ok demo_tmr.
Proof. apply (bool_decide_eq_true_1 _). vm_compute. reflexivity. Qed.
Lemma demo_prios : prios_ok demo_sched.
Proof. apply (bool_decide_eq_true_1 _). vm_compute. reflexivity. Qed.

Lemma demo_fuel n : (5 <= n)%nat -> forall hd, hd ∈ heads -> (length (demo_ls hd) < n)%nat.
Proof. intros Hn hd _. destruct hd; cbn; lia. Qed.

Lemma step_ticking s : 0 <= s -> ticking (Z.to_nat 65536) (clock (step_hw s)).
Proof.
  intros Hs i v Hv. exists (i + Z.to_nat (65535 - (s + Z.of_nat i) mod 65536))%nat.
  pose proof (Z.mod_pos_bound (s + Z.of_nat i) 65536 ltac:(lia)) as Hm.
  split; [lia|]. cbn [clock step_hw].
  replace (s + Z.of_nat (i + Z.to_nat (65535 - (s + Z.of_nat i) mod 65536)))
    with (65535 + ((s + Z.of_nat i) / 65536) * 65536).
  - unfold wrapu. change (2 ^ 16) with 65536 in *. rewrite Z_mod_plus_full. rewrite Z.mod_small by lia. lia.
  - pose proof (Z.div_mod (s + Z.of_nat i) 65536 ltac:(lia)). lia.
Qed.

Ltac concrete := apply (bool_decide_eq_true_1 _); vm_compute; reflexivity.

Lemma demo_unlinked n :
  Forall (fun hd => n ∉ demo_ls hd) heads -> unlinked demo_ls n.
Proof. intros H hd Hh. rewrite Forall_forall in H. by apply H. Qed.

Lemma now64_exact_witness : _secure_mintimer_now64 demo_kst = Ret (5 * 2 ^ 32 + 131072 + 1000) (tick demo_kst).
Proof. exact (proj1 (now64_exact demo_kst demo_counters)). Defined.

Lemma timer_insertion_stable_witness :
  exists h pre suf, _add_timer_to_list 5 HTimer (TSlot 1) demo_tmr = Ret tt (with_next h demo_tmr) /\
    [TSlot 3; TSlot 4] = pre ++ suf /\
    timers_rep (with_next h demo_tmr) (set_list demo_ls HTimer (pre ++ TSlot 1 :: suf)).
Proof.
  destruct (timer_insertion_stable demo_tmr demo_ls HTimer (TSlot 1) 5 demo_timers_rep)
    as (h & pre & suf & H1 & H2 & H3 & _).
  - concrete.
  - concrete.
  - apply demo_unlinked. concrete.
  - apply demo_fuel. lia.
  - exists h, pre, suf. split; [exact H1|]. split; [exact H2|exact H3].
Defined.

Lemma secure_mintimer_remove_exact_witness :
  exists k', secure_mintimer_remove 5 (TSlot 3) demo_kst = Ret tt k' /\
    timers_rep (tmr k') (drop_timer (TSlot 3) demo_ls) /\ deadline (tmr k') (TSlot 3) = 0.
Proof.
  destruct (secure_mintimer_remove_exact demo_kst demo_ls (TSlot 3) 5 demo_timers_rep
              (conj eq_refl eq_refl) (demo_fuel 5 ltac:(lia)) ltac:(concrete)) as (k' & H1 & _ & H).
  replace (is_setb (tmr demo_kst) (TSlot 3)) with true in H by (vm_compute; reflexivity).
  destruct H as (H2 & _ & H3 & _). exists k'. split; [exact H1|]. split; [exact H2|exact H3].
Defined.

Definition demo_set (n : tnode) (v w : Z) : kst := with_tmr (with_targets n v w demo_tmr) demo_kst.

Lemma demo_set_rep n v w :
  Forall (fun hd => n ∉ demo_ls hd) heads -> timers_rep (tmr (demo_set n v w)) demo_ls.
Proof. intros H. apply rep_targets; [exact demo_timers_rep|by apply demo_unlinked]. Qed.

Lemma set_absolute_explicit_places_witness :
  exists k' xs, _secure_mintimer_set_absolute_explicit 5 (TSlot 1) 132072 (demo_set (TSlot 1) 135000 5) = Ret 0 k' /\
    timers_rep (tmr k') (set_list demo_ls HTimer xs) /\ xs ≡ₚ [TSlot 1; TSlot 3; TSlot 4].
Proof.
  destruct (set_absolute_explicit_places (demo_set (TSlot 1) 135000 5) demo_ls (TSlot 1) 132072 5
              (demo_set_rep (TSlot 1) 135000 5 ltac:(concrete)) (conj eq_refl eq_refl) ltac:(concrete) (demo_fuel 5 ltac:(lia)))
    as (k' & xs & H1 & _ & H2 & Hp & _).
  - concrete.
  - apply demo_unlinked. concrete.
  - vm_compute. split; [discriminate|reflexivity].
  - vm_compute. reflexivity.
  - vm_compute. split; [discriminate|reflexivity].
  - match type of H2 with context [set_list demo_ls ?h xs] => replace h with HTimer in H2, Hp by (vm_compute; reflexivity) end.
    exists k', xs. split; [exact H1|]. split; [exact H2|exact Hp].
Defined.

Lemma short_delay_lost_witness :
  exists k', _secure_mintimer_set_absolute 5 (TSlot 1) 132322 demo_kst = Ret 0 k' /\
    deadline (tmr k') (TSlot 1) = 5 * 2 ^ 32 + 132322 + 2 ^ 32.
Proof.
  destruct (short_delay_lost demo_kst demo_ls (TSlot 1) 132322 4 demo_timers_rep (conj eq_refl eq_refl)
              demo_counters (demo_fuel 5 ltac:(lia))) as (k' & xs & H1 & _ & _ & H2 & _).
  - concrete.
  - apply demo_unlinked. concrete.
  - vm_compute. reflexivity.
  - vm_compute. split; [discriminate|reflexivity].
  - vm_compute. reflexivity.
  - vm_compute. split; reflexivity.
  - exists k'. split; [exact H1|exact H2].
Defined.

Lemma next_period_moves_witness :
  exists t', _next_period 5 demo_tmr = Ret tt t' /\ periods t' = 5 * 2 ^ 16 + 3 /\
    chain (t_next t') HTimer [TSlot 7; TSlot 6] /\ chain (t_next t') HLong [TSlot 8].
Proof.
  destruct (next_period_moves demo_tmr demo_ls 5 demo_timers_rep demo_counters (demo_fuel 5 ltac:(lia)))
    as (t' & H1 & _ & H2 & H3 & _ & H4 & _).
  exists t'. split; [exact H1|]. split; [rewrite H2; vm_compute; reflexivity|].
  split; [exact H3|exact H4].
Defined.

Lemma merge_lists_loses_witness :
  exists hd rest h', _merge_lists 5 (Some (TSlot 3)) (Some (TSlot 5)) (with_next (t_next demo_tmr) demo_tmr)
      = Ret (Some hd) (with_next h' demo_tmr) /\ seg h' hd rest None /\ length (hd :: rest) = 3%nat.
Proof.
  destruct (merge_lists_loses demo_tmr (t_next demo_tmr) (TSlot 3) [TSlot 4] (TSlot 5) [TSlot 6; TSlot 8] 5)
    as (hd & rest & h' & H1 & H2 & _ & H3 & _).
  - concrete.
  - concrete.
  - concrete.
  - concrete.
  - cbn. lia.
  - exists hd, rest, h'. split; [exact H1|]. split; [exact H2|exact H3].
Defined.

Definition demo_due : kst := K demo_sched demo_tmr (step_hw 4900).

Lemma fire_due_wakes_witness :
  exists k' fired rest, fire_due (Z.to_nat 65537) 4900 demo_due = Ret tt k' /\
    [TSlot 3; TSlot 4] = fired ++ rest /\ timers_rep (tmr k') (set_list demo_ls HTimer rest).
Proof.
  destruct (fire_due_wakes demo_due demo_ls demo_queues 4900 (Z.to_nat 65536) (Z.to_nat 65537)
              demo_timers_rep demo_rep demo_prios) as (k' & fired & rest & H1 & H2 & H3 & _).
  - concrete.
  - apply step_ticking. lia.
  - cbn [length demo_ls]. lia.
  - lia.
  - exists k', fired, rest. split; [exact H1|]. split; [exact H2|exact H3].
Defined.

Lemma get_available_timer_bounds_witness : get_available_timer 5 15 demo_kst = Err BadAddr.
Proof.
  exact (get_available_timer_bounds demo_kst demo_ls 5 15 demo_timers_rep (conj eq_refl eq_refl)
           (demo_fuel 5 ltac:(lia)) ltac:(intros []; discriminate) ltac:(intros _; vm_compute; reflexivity)).
Defined.

Lemma tsleep_sleeps_witness :
  exists k' xs, _secure_mintimer_tsleep_specific_pid 5 5000 2 demo_kst = Ret tt k' /\
    xs ≡ₚ TSlot 2 :: drop_timer (TSlot 2) demo_ls HTimer /\
    timers_rep (tmr k') (set_list (drop_timer (TSlot 2) demo_ls) HTimer xs) /\
    start64 (tmr k') (TSlot 2) = 5 * 2 ^ 32 + 131072 + 1000 + 5000 - 300 /\
    rq_rep (sch k') (set_queue demo_queues 7 [3]).
Proof.
  destruct (tsleep_sleeps demo_kst demo_ls demo_queues 2 (demo_thread 2 7 STATUS_RUNNING) 5000 4
              demo_timers_rep (conj eq_refl eq_refl) demo_counters eq_refl demo_rep (demo_fuel 5 ltac:(lia)))
    as (k' & xs & H1 & H2 & _ & H3 & H4 & _ & H5 & _).
  - lia.
  - concrete.
  - intros _. apply demo_unlinked. concrete.
  - reflexivity.
  - cbv. split; [discriminate|reflexivity].
  - reflexivity.
  - vm_compute. split; [discriminate|reflexivity].
  - vm_compute. reflexivity.
  - vm_compute. discriminate.
  - exists k', xs. split; [exact H1|]. split; [exact H3|]. split; [exact H4|]. split; [exact H5|exact H2].
Defined.
