(* ===== verification/Sched.v ===== *)
(** * The scheduler (core/sched.c) and the context switch it ends in

    [sched_run_internal] chooses the next thread, [sched_yield],
    [sched_switch_internal] and [sched_task_exit_internal] are the ways a
    thread gives up the processor.  The switch itself
    ([thread_yield_higher_internal] of cpu/msp430-sancus/cpu.c and the macro
    RESTORE_CONTEXT of its cpu.h) does not return to its caller: it ends in
    a [reti] that resumes a thread, so a function that may switch yields
    [Some] of what is resumed, or [None] when it returned normally. *)

From S2P Require Import Prelude Clist KState RunQueue TimerHw Mintimer.

(** ** Initialisation *)

(** [entry] is the address of the module's entry point, known to the linker. *)
Definition scheduler_init (entry : Z) : M kst unit :=
  let! d := on_sched (gets initialization_done) in
  when (negb d)
    (do! secure_mintimer_init;
     do! on_timers (set_thread TSched None);
     do! on_timers (nxt (store TSched None));
     on_sched (modify (with_init_done entry))).

(** ** Periodic threads *)

Definition periodic_thread_schedule_next_timer (fuel : nat) (i current_time : Z) : M kst unit :=
  do! loop fuel (fun _ : unit =>
        let! t := on_sched (thread_at i) in
        if (last_reference t <? current_time)
           && (u32 (current_time - last_reference t) <? current_time)
        then do! on_sched (upd_thread i (fun t => set_last_reference (u32 (last_reference t + period t)) t));
             ret (inl tt)
        else ret (inr tt)) tt;
  let! t := on_sched (thread_at i) in
  let! timer := get_available_timer fuel (pid t) in
  do! on_sched (sched_set_status i STATUS_SLEEPING);
  let! tm := unwrap NullDeref timer in
  let! t := on_sched (thread_at i) in
  let! _ := _secure_mintimer_set_absolute fuel tm (last_reference t) in
  do! on_sched (upd_thread i (fun t => set_sm_idx (original_idx t) t));
  on_sched (upd_thread i (set_last_runtime 0)).

(** ** Choosing the next thread *)

(** Lines 282-297, the label [end]. *)
Definition sched_run_end (fuel : nat) : M kst unit :=
  let! a := on_sched (gets sched_active_thread) in
  let! i := unwrap NullDeref a in
  let! t := on_sched (thread_at i) in
  when (priority t =? SCHED_PERIODIC_PRIO_LEVEL)
    (do! on_sched (on_rq (sm_clist_lpoprpush (NRunq SCHED_PERIODIC_PRIO_LEVEL)));
     let! '(short_term, long_term) := _secure_mintimer_now_internal in
     let! t := on_sched (thread_at i) in
     do! on_timers (set_target TSched (u32 (u32 (short_term + runtime t) - last_runtime t)));
     do! on_timers (set_long_target TSched long_term);
     let! _ := _secure_mintimer_set_absolute_explicit fuel TSched short_term in
     ret tt).

(** Lines 217-240: charge the running periodic thread; [true] when it goes
    on ([goto end]). *)
Definition charge_periodic (fuel : nat) (active_thread : option Z) : M kst bool :=
  match active_thread with
  | None => ret false
  | Some i =>
      let! t := on_sched (thread_at i) in
      let! request := on_sched (gets sched_context_switch_request) in
      if bool_decide (status t = STATUS_RUNNING) && (priority t =? SCHED_PERIODIC_PRIO_LEVEL)
         && negb (c_true request) then
        let! '(current_time, long_term) := _secure_mintimer_now_internal in
        let rt := u32 (last_runtime t - SCHEDULER_OVERHEAD_RUN) in
        let rt := u32 (rt + u32 (current_time - last_reference t)) in
        if runtime t <=? rt then
          do! periodic_thread_schedule_next_timer fuel i current_time;
          ret false
        else
          do! on_sched (upd_thread i (set_last_runtime rt));
          ret true
      else ret false
  end.

(** Lines 242-280: take the head of the most urgent queue. *)
Definition switch_to_next (fuel : nat) (active_thread : option Z) : M sched_t Z :=
  do! modify (with_request 0);
  let! next := next_runnable fuel in
  if decide (active_thread = Some next) then ret 0
  else
    do! match active_thread with
        | Some i =>
            let! t := thread_at i in
            when (bool_decide (status t = STATUS_RUNNING)) (upd_thread i (set_status STATUS_PENDING))
        | None => ret tt
        end;
    do! upd_thread next (set_status STATUS_RUNNING);
    let! t := thread_at next in
    do! modify (with_active_pid (pid t));
    do! modify (with_active (Some next));
    ret 1.

Definition sched_run_internal (fuel : nat) : M kst Z :=
  let! active_thread := on_sched (gets sched_active_thread) in
  let! goes_on := charge_periodic fuel active_thread in
  let! changed_thread := if (goes_on : bool) then ret 0 else on_sched (switch_to_next fuel active_thread) in
  do! sched_run_end fuel;
  ret changed_thread.

Definition sched_run (fuel : nat) : M kst Z := sched_run_internal fuel.

Definition sched_set_own_status (st : thread_status) : M sched_t unit :=
  let! a := gets sched_active_thread in
  let! me := unwrap NullDeref a in
  sched_set_status me st.

(** ** Yielding *)

Definition sched_yield (fuel : nat) : M kst unit :=
  let! me := on_sched (gets sched_active_thread) in
  do! match me with
      | Some i =>
          let! t := on_sched (thread_at i) in
          when (on_runqueue (status t)) (on_sched (on_rq (sm_clist_lpoprpush (NRunq (priority t)))))
      | None => ret tt
      end;
  let! i := unwrap NullDeref me in
  let! t := on_sched (thread_at i) in
  when (priority t =? SCHED_PERIODIC_PRIO_LEVEL)
    (do! secure_mintimer_remove fuel TSched;
     let! '(short_term, long_term) := _secure_mintimer_now_internal in
     do! periodic_thread_schedule_next_timer fuel i short_term;
     on_sched (modify (with_request 1))).

(** What a [reti] resumes: an enclave through its entry point, with the
    entry index in r6, the address to come back to in r7 and interrupts
    enabled, or an unprotected thread from the registers on its stack. *)
Inductive resumed : Type :=
  | ResumeSM (entry idx sched_entry : Z)
  | ResumeThread (stack : Z).

(** RESTORE_CONTEXT.  The twelve registers popped move the stack pointer. *)
Definition restore_context : M kst resumed :=
  let! a := on_sched (gets sched_active_thread) in
  let! i := unwrap NullDeref a in
  let! t := on_sched (thread_at i) in
  do! on_hw (modify (with_unprotected_sp (sp t)));
  if is_sm t then
    let! e := on_sched (gets scheduler_entry) in
    ret (ResumeSM (sm_entry t) (sm_idx t) e)
  else
    do! on_hw (modify (with_unprotected_sp (u16 (sp t + 24))));
    ret (ResumeThread (sp t)).

Definition thread_yield_higher_internal (fuel : nat) (do_thread_yield : bool) : M kst resumed :=
  do! when do_thread_yield (sched_yield fuel);
  let! _ := sched_run_internal fuel in
  restore_context.

Definition sched_switch_internal_allow_yield (fuel : nat) (other_prio : Z) (yield_allowed : bool)
    : M kst (option resumed) :=
  let! a := on_sched (gets sched_active_thread) in
  let! i := unwrap NullDeref a in
  let! t := on_sched (thread_at i) in
  if negb (on_runqueue (status t)) || (other_prio <? priority t) then
    do! on_sched (modify (with_request 1));
    let! isin := on_hw sm_irq_is_in in
    if c_true isin then ret None
    else if yield_allowed then
      let! r := thread_yield_higher_internal fuel true in ret (Some r)
    else ret None
  else ret None.

Definition sched_switch_internal (fuel : nat) (other_prio : Z) : M kst (option resumed) :=
  sched_switch_internal_allow_yield fuel other_prio true.

(** ** Leaving *)

Definition sched_task_exit_internal : M sched_t unit :=
  let! p := gets sched_active_pid in
  when (negb (p =? KERNEL_PID_UNDEF))
    (do! upd_thread p (set_in_use false);
     do! modify (fun s => with_num_threads (wraps 16 (sched_num_threads s - 1)) s);
     let! a := gets sched_active_thread in
     let! i := unwrap NullDeref a in
     do! sched_set_status i STATUS_STOPPED;
     modify (with_active None)).
