(* ===== verification/SchedProps.v ===== *)
(** * Properties of the scheduler

    Which thread runs next, what yielding, sleeping periodically and exiting
    do to the run queues, and two places where the program goes wrong: the
    scheduler timer linked twice, and the null pointer read on exit. *)

From stdpp Require Import sorting.
From S2P Require Import Prelude Clist ClistSpec ListInsert KState RunQueue TimerHw Mintimer TimerLists.
From S2P Require Import TimerPeriod TimerProps Sched.

(** ** Choosing *)

(** [i] is the first thread of the most urgent queue, [p]. *)
Definition most_urgent (Q : Z -> list Z) (p i : Z) : Prop :=
  0 <= p < SCHED_PRIO_LEVELS /\ head (Q p) = Some i /\ forall p', 0 <= p' < p -> Q p' = [].

Definition active_ok (s : sched_t) : Prop :=
  match sched_active_thread s with Some a => is_Some (aget (sched_threads s) a) | None => True end.

(** What the choice changes: two statuses, who is active, the request. *)
Record switched (s s' : sched_t) (Q : Z -> list Z) (p i : Z) : Prop := {
  sw_rep : rq_rep s' Q;
  sw_active : sched_active_thread s' = Some i;
  sw_request : sched_context_switch_request s' = 0;
  sw_new : exists t, aget (sched_threads s) i = Some t /\ priority t = p /\
             aget (sched_threads s') i =
               Some (if decide (sched_active_thread s = Some i) then t else set_status STATUS_RUNNING t) /\
             (sched_active_thread s <> Some i -> sched_active_pid s' = pid t) /\
             (sched_active_thread s = Some i -> sched_active_pid s' = sched_active_pid s);
  sw_old : forall a t, sched_active_thread s = Some a -> a <> i -> aget (sched_threads s) a = Some t ->
             aget (sched_threads s') a =
               Some (if decide (status t = STATUS_RUNNING) then set_status STATUS_PENDING t else t);
  sw_others : forall j, j <> i -> sched_active_thread s <> Some j ->
                aget (sched_threads s') j = aget (sched_threads s) j;
  sw_rest : rq s' = rq s /\ runqueue_bitcache s' = runqueue_bitcache s /\
            sched_num_threads s' = sched_num_threads s /\ scheduler_entry s' = scheduler_entry s
}.

Lemma sw_thread s s' Q p i :
  switched s s' Q p i -> exists t, aget (sched_threads s') i = Some t /\ priority t = p.
Proof.
  intros Hsw. destruct (sw_new _ _ _ _ _ Hsw) as (t & _ & Hp & Ht & _). eexists. split; [exact Ht|].
  by destruct (decide _).
Qed.

Lemma rep_active_pid s Q v : rq_rep s Q -> rq_rep (with_active_pid v s) Q.
Proof. done. Qed.

Lemma put_status s Q i t st :
  rq_rep s Q -> aget (sched_threads s) i = Some t -> on_runqueue (status t) = on_runqueue st ->
  upd_thread i (set_status st) s = Ret tt (with_threads (threads_after s i (set_status st t)) s) /\
  rq_rep (with_threads (threads_after s i (set_status st t)) s) Q.
Proof.
  intros Hr Ht E. split; [by rewrite (upd_thread_ok _ _ _ _ Ht)|]. by eapply rq_rep_thread.
Qed.

Lemma threads_after_eq s i t0 t : aget (sched_threads s) i = Some t0 -> aget (threads_after s i t) i = Some t.
Proof. intros H%aget_range. by apply aget_set_eq. Qed.
Lemma threads_after_ne s i j t0 t :
  aget (sched_threads s) i = Some t0 -> j <> i -> aget (threads_after s i t) j = aget (sched_threads s) j.
Proof. intros H%aget_range Hne. apply aget_set_ne; [lia|done]. Qed.

(** Lines 261-265: the thread that was running. *)
Lemma demote_ok s Q i :
  rq_rep s Q -> active_ok s -> sched_active_thread s <> Some i ->
  exists s1, (match sched_active_thread s with
        | Some a => let! t := thread_at a in
                    when (bool_decide (status t = STATUS_RUNNING)) (upd_thread a (set_status STATUS_PENDING))
        | None => ret tt
        end) s = Ret tt s1 /\ rq_rep s1 Q /\
    s1 = with_threads (sched_threads s1) s /\
    (forall a t, sched_active_thread s = Some a -> aget (sched_threads s) a = Some t ->
       aget (sched_threads s1) a =
         Some (if decide (status t = STATUS_RUNNING) then set_status STATUS_PENDING t else t)) /\
    (forall j, sched_active_thread s <> Some j -> aget (sched_threads s1) j = aget (sched_threads s) j).
Proof.
  intros Hr Ha Hne. unfold active_ok in Ha. destruct (sched_active_thread s) as [a|].
  2: { exists s. split; [done|]. split; [done|]. split; [by destruct s|]. done. }
  destruct Ha as [t Ht]. rewrite (bind_ret _ _ _ _ _ (thread_at_ok _ _ _ Ht)).
  case_bool_decide as Hs; cbn [when].
  - destruct (put_status s Q a t STATUS_PENDING Hr Ht) as [E Hr']; [by rewrite Hs|].
    eexists. split; [exact E|]. split; [exact Hr'|]. split; [done|]. split.
    + intros a' t' [= <-] Ht'. replace t' with t by congruence. rewrite decide_True by done.
      by eapply threads_after_eq.
    + intros j Hj. eapply threads_after_ne; [done|congruence].
  - exists s. split; [done|]. split; [done|]. split; [by destruct s|]. split; [|done].
    intros a' t' [= <-] Ht'. replace t' with t by congruence. by rewrite decide_False.
Qed.

Lemma switch_to_next_ok s Q p i fuel :
  rq_rep s Q -> most_urgent Q p i -> active_ok s -> (17 <= fuel)%nat ->
  exists s', switch_to_next fuel (sched_active_thread s) s
               = Ret (c_bool (bool_decide (sched_active_thread s <> Some i))) s' /\
    switched s s' Q p i.
Proof.
  intros Hr (Hp & Hi & Hlow) Ha Hf. pose proof Hr as (_ & _ & Hq & _).
  destruct (proj1 (Hq p i Hp) (head_in _ _ Hi)) as (t & Ht & Hon & Hpt).
  unfold switch_to_next. rewrite (bind_ret _ _ _ _ _ (modify_ok _ _)).
  set (s0 := with_request 0 s).
  rewrite (bind_ret _ _ _ _ _ (next_runnable_ok s0 Q p i fuel Hr Hp Hi Hlow Hf)).
  destruct (decide (sched_active_thread s = Some i)) as [Ea|Ea].
  { rewrite bool_decide_false by tauto. exists s0. split; [done|]. constructor; try done.
    - exists t. rewrite decide_True by done. done.
    - intros a t' Ha' Hne. congruence. }
  rewrite bool_decide_true by done. change (sched_active_thread s) with (sched_active_thread s0) in *.
  destruct (demote_ok s0 Q i Hr Ha Ea) as (s1 & E1 & Hr1 & Hs1 & Hold & Hoth).
  rewrite (bind_ret _ _ _ _ _ E1).
  assert (aget (sched_threads s1) i = Some t) as Ht1 by (rewrite Hoth by done; exact Ht).
  destruct (put_status s1 Q i t STATUS_RUNNING Hr1 Ht1) as [E2 Hr2]; [by rewrite Hon|].
  rewrite (bind_ret _ _ _ _ _ E2). set (s2 := with_threads _ s1).
  assert (aget (sched_threads s2) i = Some (set_status STATUS_RUNNING t)) as Ht2 by by eapply threads_after_eq.
  rewrite (bind_ret _ _ _ _ _ (thread_at_ok _ _ _ Ht2)), !(bind_ret _ _ _ _ _ (modify_ok _ _)).
  eexists. split; [done|]. constructor; try done.
  - unfold s2; rewrite Hs1; done.
  - exists t. rewrite decide_False by done. split; [done|]. split; [done|]. split; [exact Ht2|]. done.
  - intros a t' Ha' Hne Ht'. rewrite <- (Hold a t' Ha' Ht'). by eapply threads_after_ne.
  - intros j Hj Hj'. cbn. rewrite (threads_after_ne s1 i j t) by done. by apply Hoth.
  - unfold s2; rewrite Hs1; done.
Qed.

(** The threads whose running time is charged. *)
Definition charged (s : sched_t) : Prop :=
  exists a t, sched_active_thread s = Some a /\ aget (sched_threads s) a = Some t /\
    status t = STATUS_RUNNING /\ priority t = SCHED_PERIODIC_PRIO_LEVEL /\
    sched_context_switch_request s = 0.

Lemma on_thread k i t :
  aget (sched_threads (sch k)) i = Some t -> on_sched (thread_at i) k = Ret t k.
Proof. intros H. rewrite (on_sched_ok _ _ _ _ (thread_at_ok _ _ _ H)). by rewrite with_sch_id. Qed.
Lemma on_sched_gets {A} k (f : sched_t -> A) : on_sched (gets f) k = Ret (f (sch k)) k.
Proof. rewrite (on_sched_ok _ _ _ _ (gets_ok _ _)). by rewrite with_sch_id. Qed.
Lemma on_timers_gets {A} k (f : timers_t -> A) : on_timers (gets f) k = Ret (f (tmr k)) k.
Proof. rewrite (on_timers_ok _ _ _ _ (gets_ok _ _)). by rewrite with_tmr_id. Qed.

Lemma not_charged k fuel :
  active_ok (sch k) -> ~ charged (sch k) ->
  charge_periodic fuel (sched_active_thread (sch k)) k = Ret false k.
Proof.
  intros Ha Hc. unfold charge_periodic, active_ok in *.
  destruct (sched_active_thread (sch k)) as [a|] eqn:Ea; [|done]. destruct Ha as [t Ht].
  rewrite (bind_ret _ _ _ _ _ (on_thread _ _ _ Ht)), (bind_ret _ _ _ _ _ (on_sched_gets _ _)).
  destruct (bool_decide (status t = STATUS_RUNNING) && (priority t =? SCHED_PERIODIC_PRIO_LEVEL)
            && negb (c_true (sched_context_switch_request (sch k)))) eqn:E; [|done].
  exfalso. apply Hc. exists a, t. apply andb_prop in E as [E E3]. apply andb_prop in E as [E1 E2].
  apply bool_decide_eq_true_1 in E1. apply Z.eqb_eq in E2. unfold c_true in E3.
  rewrite negb_involutive in E3. by apply Z.eqb_eq in E3.
Qed.

(** The last part does nothing for a thread that is not periodic. *)
Lemma run_end_plain k i t fuel :
  sched_active_thread (sch k) = Some i -> aget (sched_threads (sch k)) i = Some t ->
  priority t <> SCHED_PERIODIC_PRIO_LEVEL -> sched_run_end fuel k = Ret tt k.
Proof.
  intros Ha Ht Hp. unfold sched_run_end. rewrite (bind_ret _ _ _ _ _ (on_sched_gets _ _)), Ha.
  unfold unwrap. rewrite (bind_ret (ret i) _ _ _ _ eq_refl), (bind_ret _ _ _ _ _ (on_thread _ _ _ Ht)).
  by rewrite (proj2 (Z.eqb_neq _ _) Hp).
Qed.

Lemma run_plain k Q p i fuel :
  rq_rep (sch k) Q -> most_urgent Q p i -> p <> SCHED_PERIODIC_PRIO_LEVEL -> active_ok (sch k) ->
  ~ charged (sch k) -> (17 <= fuel)%nat ->
  exists s', sched_run_internal fuel k
      = Ret (c_bool (bool_decide (sched_active_thread (sch k) <> Some i))) (with_sch s' k) /\
    switched (sch k) s' Q p i.
Proof.
  intros Hr Hu Hp Ha Hc Hf. destruct (switch_to_next_ok (sch k) Q p i fuel Hr Hu Ha Hf) as (s' & E & Hsw).
  exists s'. split; [|done]. unfold sched_run_internal. rewrite (bind_ret _ _ _ _ _ (on_sched_gets _ _)).
  rewrite (bind_ret _ _ _ _ _ (not_charged _ _ Ha Hc)), (bind_ret _ _ _ _ _ (on_sched_ok _ _ _ _ E)).
  destruct (sw_thread _ _ _ _ _ Hsw) as (t & Ht & Hpt).
  by rewrite (bind_ret _ _ _ _ _ (run_end_plain (with_sch s' k) i t fuel (sw_active _ _ _ _ _ Hsw) Ht ltac:(by rewrite Hpt))).
Qed.

(** ** Yielding *)

Lemma rotate_fmap (xs : list Z) : rotate_l (NThread <$> xs) = NThread <$> rotate_l xs.
Proof. destruct xs as [|x r]; [done|]. cbn. by rewrite fmap_app. Qed.

Lemma rotate_ok s Q p :
  rq_rep s Q -> 0 <= p < SCHED_PRIO_LEVELS ->
  exists h, on_rq (sm_clist_lpoprpush (NRunq p)) s = Ret tt (with_rq h s) /\
    rq_rep (with_rq h s) (set_queue Q p (rotate_l (Q p))) /\ frame (rq s) h [NRunq p].
Proof.
  intros Hrep Hp. pose proof Hrep as (Hal & Hr & Hq & Hb).
  destruct (lpoprpush_spec _ _ _ (Hr p Hp)) as (h & E & Hring & Hf). rewrite <- sm_lpoprpush_eq in E.
  rewrite rotate_fmap in Hring. exists h. split; [by apply on_rq_ok|].
  split; [|exact Hf]. split; [eapply nodes_alive_frame; [exact Hal|done|exact Hf]|]. split; [|split].
  - eapply (other_rings s); [done|done|exact Hf| |exact Hring].
    intros a ->%list_elem_of_singleton. by left.
  - intros p' j Hp'. change (runnable (with_rq h s) p' j) with (runnable s p' j). rewrite <- Hq by done.
    destruct (decide (p' = p)) as [->|Hne]; [|by rewrite set_queue_ne].
    by rewrite set_queue_eq, rotate_perm.
  - intros p' Hp'. change (runqueue_bitcache (with_rq h s)) with (runqueue_bitcache s). rewrite Hb by done.
    destruct (decide (p' = p)) as [->|Hne]; [|by rewrite set_queue_ne].
    rewrite set_queue_eq. apply bool_decide_ext. destruct (Q p) as [|x r]; [done|]. cbn.
    split; [|done]. intros _. by destruct r.
Qed.

Lemma yield_plain k Q p i t fuel :
  rq_rep (sch k) Q -> sched_active_thread (sch k) = Some i ->
  aget (sched_threads (sch k)) i = Some t -> priority t = p -> 0 <= p < SCHED_PRIO_LEVELS ->
  p <> SCHED_PERIODIC_PRIO_LEVEL -> on_runqueue (status t) = true ->
  exists h, sched_yield fuel k = Ret tt (with_sch (with_rq h (sch k)) k) /\
    rq_rep (with_rq h (sch k)) (set_queue Q p (rotate_l (Q p))) /\ frame (rq (sch k)) h [NRunq p].
Proof.
  intros Hr Ha Ht Hp Hpr Hne Hon. destruct (rotate_ok _ _ _ Hr Hpr) as (h & E & Hr' & Hf).
  exists h. split; [|done]. unfold sched_yield.
  rewrite (bind_ret _ _ _ _ _ (on_sched_gets _ _)), Ha. rewrite bind_assoc.
  rewrite (bind_ret _ _ _ _ _ (on_thread _ _ _ Ht)), Hon, Hp. cbn [when].
  rewrite (bind_ret _ _ _ _ _ (on_sched_ok _ _ _ _ E)). unfold unwrap.
  rewrite (bind_ret (ret i) _ _ _ _ eq_refl).
  rewrite (bind_ret _ _ _ _ _ (on_thread (with_sch (with_rq h (sch k)) k) i t Ht)), Hp.
  by rewrite (proj2 (Z.eqb_neq _ _) Hne).
Qed.

(** What resuming a thread is, and the stack pointer kept for it. *)
Definition resume_of (t : thread_t) (e : Z) : resumed :=
  if is_sm t then ResumeSM (sm_entry t) (sm_idx t) e else ResumeThread (sp t).
Definition unprotected_sp_of (t : thread_t) : Z := if is_sm t then sp t else u16 (sp t + 24).

Lemma restore_ok k i t :
  sched_active_thread (sch k) = Some i -> aget (sched_threads (sch k)) i = Some t ->
  restore_context k = Ret (resume_of t (scheduler_entry (sch k)))
                          (with_hw (with_unprotected_sp (unprotected_sp_of t) (hw k)) k).
Proof.
  intros Ha Ht. unfold restore_context. rewrite (bind_ret _ _ _ _ _ (on_sched_gets _ _)), Ha.
  unfold unwrap. rewrite (bind_ret (ret i) _ _ _ _ eq_refl), (bind_ret _ _ _ _ _ (on_thread _ _ _ Ht)).
  rewrite (bind_ret _ _ _ _ _ (on_hw_ok _ _ _ _ (modify_ok _ _))).
  unfold resume_of, unprotected_sp_of. destruct (is_sm t).
  - by rewrite (bind_ret _ _ _ _ _ (on_sched_gets _ _)).
  - by rewrite (bind_ret _ _ _ _ _ (on_hw_ok _ _ _ _ (modify_ok _ _))).
Qed.

(** ** The scheduler timer *)

(** A timer added to the end of a list that it already ends points to
    itself. *)
Lemma relink_last t xs n fuel :
  chain (t_next t) HTimer (xs ++ [n]) -> Forall (is_timer t) (xs ++ [n]) ->
  Forall (fun x => short_le t x n) xs -> (length xs + 1 < fuel)%nat ->
  exists h, _add_timer_to_list fuel HTimer n t = Ret tt (with_next h t) /\ h !! n = Some (Some n) /\
    seg h HTimer (xs ++ [n]) (Some n) /\ frame (t_next t) h [n].
Proof.
  intros [Hd Hs] Ht Hle Hf. apply Forall_app in Ht as [Htx Hn]. apply Forall_inv in Hn as Htn. clear Hn.
  apply seg_app in Hs as [Hs Hn]. cbn [seg] in Hn.
  set (body := fun list_head =>
    let! p := nxt (load list_head) in
    match p with
    | None => ret (inr list_head)
    | Some q =>
        let! tq := get_target q in
        let! tn := get_target n in
        if tq <=? tn then ret (inl q) else ret (inr list_head)
    end : M timers_t (tnode + tnode)).
  assert (forall p q, t_next t !! p = Some (Some q) -> is_timer t q -> short_le t q n ->
            body p t = Ret (inl q) t) as Hstep.
  { intros p q Hp Hq Hle'. unfold body. rewrite (bind_ret _ _ _ _ _ (nxt_load_ok _ _ _ Hp)).
    rewrite (bind_ret _ _ _ _ _ (get_target_ok _ _ Hq)), (bind_ret _ _ _ _ _ (get_target_ok _ _ Htn)).
    unfold short_le in Hle'. by rewrite (proj2 (Z.leb_le _ _)) by done. }
  assert (loop fuel body HTimer t = Ret n t) as Eloop.
  { clear Hd. revert fuel Hf Hs. generalize HTimer.
    induction xs as [|x r IH]; intros p [|fuel] Hf Hs; cbn in Hf; try lia; cbn [seg] in Hs.
    - rewrite (loop_next _ _ _ _ _ _ (Hstep _ _ Hs Htn ltac:(unfold short_le; lia))).
      destruct fuel as [|fuel]; [lia|]. apply loop_exit. unfold body.
      by rewrite (bind_ret _ _ _ _ _ (nxt_load_ok _ _ _ Hn)).
    - destruct Hs as [Hp Hs]. apply Forall_cons in Htx as [Hx Htx]. apply Forall_cons in Hle as [Hlx Hle].
      rewrite (loop_next _ _ _ _ _ _ (Hstep _ _ Hp Hx Hlx)). apply IH; [done|done|lia|done]. }
  exists (<[n := Some n]> (<[n := None]> (t_next t))). split; [|split].
  - unfold _add_timer_to_list. fold body. rewrite (bind_ret _ _ _ _ _ Eloop).
    rewrite (bind_ret _ _ _ _ _ (nxt_load_ok _ _ _ Hn)).
    rewrite (bind_ret _ _ _ _ _ (nxt_ok _ _ _ _ (store_ok _ _ None _ Hn))).
    by rewrite (nxt_ok (store n (Some n)) (with_next (<[n := None]> (t_next t)) t) _ _
                  (store_ok _ _ (Some n) _ (lookup_insert_eq _ _ _))).
  - by rewrite lookup_insert_eq.
  - rewrite insert_insert_eq. split; [|apply frame_insert; [in_list|apply frame_refl]].
    apply seg_app. split.
    + apply seg_insert; [|done]. apply NoDup_cons in Hd as [Hh Hd]. apply NoDup_app in Hd as (_ & Hd & _).
      intros [->|Hin]%elem_of_cons; [apply Hh; set_solver|]. apply (Hd n); [done|set_solver].
    + cbn [seg]. by rewrite lookup_insert_eq.
Qed.

(** Walking towards a timer that points to itself never ends. *)
Lemma cycle_diverges t m n : is_timer t n -> is_timer t m -> short_le t n m ->
  forall fuel xs p, seg (t_next t) p (xs ++ [n]) (Some n) ->
  Forall (is_timer t) xs -> Forall (fun x => short_le t x m) xs ->
  _add_timer_to_list fuel p m t = Err Diverges.
Proof.
  intros Htn Htm Hle fuel xs p Hs Ht Hx. unfold _add_timer_to_list. apply bind_err.
  revert xs p Hs Ht Hx. induction fuel as [|fuel IH]; intros xs p Hs Ht Hx; [done|].
  assert (exists q xs', t_next t !! p = Some (Some q) /\ is_timer t q /\ short_le t q m /\
    seg (t_next t) q (xs' ++ [n]) (Some n) /\ Forall (is_timer t) xs' /\
    Forall (fun x => short_le t x m) xs') as (q & xs' & Hp & Hq & Hqm & Hs' & Ht' & Hx').
  { destruct xs as [|x r]; cbn [app seg] in Hs; destruct Hs as [Hp Hs].
    - exists n, []. by cbn.
    - apply Forall_cons in Ht as [? ?]. apply Forall_cons in Hx as [? ?]. by exists x, r. }
  erewrite loop_next; [by apply (IH xs' q)|]. rewrite (bind_ret _ _ _ _ _ (nxt_load_ok _ _ _ Hp)).
  rewrite (bind_ret _ _ _ _ _ (get_target_ok _ _ Hq)), (bind_ret _ _ _ _ _ (get_target_ok _ _ Htm)).
  unfold short_le in Hqm. by rewrite (proj2 (Z.leb_le _ _)).
Qed.

(** ** Periodic threads *)

Section periodic.
Context (k : kst) (i current_time : Z) (t : thread_t).
Context (Ht : aget (sched_threads (sch k)) i = Some t).

(** The state with the reference time of thread [i] moved. *)
Definition with_reference (lr : Z) : kst :=
  with_sch (with_threads (threads_after (sch k) i (set_last_reference lr t)) (sch k)) k.

Definition catch_up (_ : unit) : M kst (unit + unit) :=
  let! t := on_sched (thread_at i) in
  if (last_reference t <? current_time)
     && (u32 (current_time - last_reference t) <? current_time)
  then do! on_sched (upd_thread i (fun t => set_last_reference (u32 (last_reference t + period t)) t));
       ret (inl tt)
  else ret (inr tt).

Lemma reference_thread lr : aget (sched_threads (sch (with_reference lr))) i = Some (set_last_reference lr t).
Proof. by eapply threads_after_eq. Qed.

Lemma reference_start : with_reference (last_reference t) = k.
Proof.
  unfold with_reference, threads_after. rewrite list_insert_id.
  - destruct k as [[] ? ?]. done.
  - assert (set_last_reference (last_reference t) t = t) as -> by by destruct t.
    unfold aget in Ht. by case_match.
Qed.

Lemma catch_up_step lr :
  0 <= lr -> 0 <= current_time < 2 ^ 32 ->
  catch_up tt (with_reference lr) =
    if decide (0 < lr < current_time)
    then Ret (inl tt) (with_reference (u32 (lr + period t))) else Ret (inr tt) (with_reference lr).
Proof.
  intros Hlr Hc. unfold catch_up. rewrite (bind_ret _ _ _ _ _ (on_thread _ _ _ (reference_thread lr))).
  cbn [last_reference set_last_reference].
  destruct (decide (0 < lr < current_time)) as [Hin|Hout].
  - rewrite (proj2 (Z.ltb_lt _ _)) by lia. cbn [andb].
    rewrite (wrapu_id 32 (current_time - lr)) by (unfold in_u; lia). rewrite (proj2 (Z.ltb_lt _ _)) by lia.
    rewrite (bind_ret _ _ _ _ _ (on_sched_ok _ _ _ _ (upd_thread_ok _ _ _ _ (reference_thread lr)))).
    unfold with_reference. cbn [sch with_sch with_threads sched_threads]. unfold ret, threads_after. f_equal.
    by rewrite list_insert_insert_eq.
  - destruct (Z.ltb_spec lr current_time) as [Hlt|]; cbn [andb]; [|done].
    assert (lr = 0) as -> by lia. rewrite Z.sub_0_r, wrapu_id by done. by rewrite Z.ltb_irrefl.
Qed.

(** The loop ends at the first multiple of the period that is not in the
    past, when the period is not so long that the addition can jump over
    the rest of the 32-bit range. *)
Lemma catch_up_ok n : forall lr fuel,
  0 < lr < 2 ^ 32 -> 0 <= current_time < 2 ^ 32 -> 0 < period t <= 2 ^ 32 - current_time ->
  current_time <= lr + Z.of_nat n * period t -> (n < fuel)%nat ->
  exists lr' m, loop fuel catch_up tt (with_reference lr) = Ret tt (with_reference lr') /\
    lr' = lr + m * period t /\ 0 <= m /\ current_time <= lr' < 2 ^ 32 /\
    (lr < current_time -> lr' < current_time + period t) /\ (current_time <= lr -> lr' = lr).
Proof.
  induction n as [|n IH]; intros lr [|fuel] Hlr Hc Hp Hn Hf; try lia.
  - exists lr, 0. split; [|lia]. apply loop_exit. rewrite catch_up_step by lia. by rewrite decide_False by lia.
  - destruct (decide (lr < current_time)) as [Hlt|Hge].
    + erewrite loop_next; [|rewrite catch_up_step by lia; by rewrite decide_True by lia].
      rewrite wrapu_id by (unfold in_u; lia).
      destruct (IH (lr + period t) fuel) as (lr' & m & E & H1 & H2 & H3 & H4 & H5); [lia..|].
      exists lr', (m + 1). split; [exact E|]. destruct (decide (lr + period t < current_time)); lia.
    + exists lr, 0. split; [|lia]. apply loop_exit. rewrite catch_up_step by lia. by rewrite decide_False by lia.
Qed.

(** It never ends when the references it passes through are all in the past. *)
Lemma catch_up_diverges (P : Z -> Prop) :
  0 <= current_time < 2 ^ 32 ->
  (forall lr, P lr -> 0 < lr < current_time /\ P (u32 (lr + period t))) ->
  forall fuel lr, P lr -> loop fuel catch_up tt (with_reference lr) = Err Diverges.
Proof.
  intros Hc HP. induction fuel as [|fuel IH]; intros lr Hlr; [done|]. destruct (HP lr Hlr) as [Hr Hn].
  erewrite loop_next; [by apply IH|]. rewrite catch_up_step by lia. by rewrite decide_True by lia.
Qed.
End periodic.

(** Putting a periodic thread to sleep. *)
Lemma schedule_next_ok k ls Q i t lr fuel :
  let k1 := with_reference k i t lr in
  aget (sched_threads (sch k)) i = Some t ->
  timers_rep (tmr k) ls -> hw_wf (hw k) -> counters_ok (tmr k) -> rq_rep (sch k) Q ->
  (forall hd, hd ∈ heads -> (length (ls hd) < Datatypes.S fuel)%nat) ->
  0 <= pid t < 15 -> is_timer (tmr k) (TSlot (pid t)) -> idle_unlinked (tmr k) ls (TSlot (pid t)) ->
  0 <= priority t < SCHED_PRIO_LEVELS -> on_runqueue (status t) = true -> head (Q (priority t)) = Some i ->
  SECURE_MINTIMER_BACKOFF < u32 (lr - time32 (tmr k) (tar (hw k))) ->
  exists k' hd xs,
    (let! timer := get_available_timer (Datatypes.S fuel) (pid t) in
     do! on_sched (sched_set_status i STATUS_SLEEPING);
     let! tm := unwrap NullDeref timer in
     let! t := on_sched (thread_at i) in
     let! _ := _secure_mintimer_set_absolute (Datatypes.S fuel) tm (last_reference t) in
     do! on_sched (upd_thread i (fun t => set_sm_idx (original_idx t) t));
     on_sched (upd_thread i (set_last_runtime 0))) k1 = Ret tt k' /\
    rq_rep (sch k') (set_queue Q (priority t) (tail (Q (priority t)))) /\
    aget (sched_threads (sch k')) i =
      Some (set_last_runtime 0 (set_sm_idx (original_idx t) (set_status STATUS_SLEEPING (set_last_reference lr t)))) /\
    hd ∈ heads /\ xs ≡ₚ TSlot (pid t) :: drop_timer (TSlot (pid t)) ls hd /\
    timers_rep (tmr k') (set_list (drop_timer (TSlot (pid t)) ls) hd xs) /\
    target_of (tmr k') (TSlot (pid t)) = lr.
Proof.
  intros k1 Ht Hr Hw Hc Hq Hf Hpid Hn Hi Hpr Hon Hhead Hoff.
  pose proof (reference_thread k i t Ht lr) as Ht1. fold k1 in Ht1.
  assert (rq_rep (sch k1) Q) as Hq1 by by eapply rq_rep_thread.
  destruct (slot_freed k1 ls (pid t) (Datatypes.S fuel) Hr Hw Hf Hpid Hn Hi)
    as (h & w & E & Hr2 & Hn2 & Hw2 & Ec & Er & _).
  rewrite (bind_ret _ _ _ _ _ E). set (k2 := K (sch k1) _ w).
  destruct (set_status_rep (sch k1) Q i _ STATUS_SLEEPING Hq1 Ht1 Hpr) as (s3 & E3 & Hq3 & Hs3); [auto|].
  cbn [status set_last_reference priority] in Hq3. unfold queues_after in Hq3. rewrite Hon in Hq3.
  rewrite (bind_ret _ _ _ _ _ (on_sched_ok _ k2 _ _ E3)). set (k3 := with_sch s3 k2).
  unfold unwrap. rewrite (bind_ret (ret _) _ _ _ _ eq_refl).
  assert (aget (sched_threads (sch k3)) i = Some (set_status STATUS_SLEEPING (set_last_reference lr t))) as Ht3.
  { cbn [sch k3 with_sch]. rewrite Hs3. by eapply threads_after_eq. }
  rewrite (bind_ret _ _ _ _ _ (on_thread k3 i _ Ht3)). cbn [last_reference set_status set_last_reference].
  set (n := TSlot (pid t)) in *. set (ls2 := drop_timer n ls) in *.
  assert (forall hd, hd ∈ heads -> (length (ls2 hd) < Datatypes.S fuel)%nat) as Hf2.
  { intros hd Hh. eapply Nat.le_lt_trans; [apply length_filter|by apply Hf]. }
  assert (unlinked ls2 n) as Hu2 by apply drop_unlinked.
  assert (is_setb (tmr k3) n = false) as Hidle.
  { change (tmr k3) with (with_targets n 0 0 (with_next h (tmr k1))). unfold is_setb.
    by destruct (targets_eq (with_next h (tmr k1)) n 0 0) as [-> ->]. }
  assert (tar (hw k3) = tar (hw k)) as Etar.
  { unfold tar. cbn [hw k3 k2 with_sch]. by rewrite Ec, Er. }
  assert (time32 (tmr k3) (tar (hw k3)) = time32 (tmr k) (tar (hw k))) as Enow by by rewrite Etar.
  pose proof (set_absolute_far k3 n lr fuel Hn2 Hidle) as Eset. rewrite Enow in Eset.
  destruct (set_fields_ok k3 ls2 n lr Hr2 Hw2 Hn2 Hu2) as (Hr4 & Hw4 & Hn4 & Et4 & _).
  set (k4 := with_tmr (set_fields (tmr k3) n lr) (tick k3)) in *.
  destruct (explicit_ok k4 ls2 n (Datatypes.S fuel) (time32 (tmr k) (tar (hw k))) Hr4 Hw4 Hf2 Hn4 Hu2)
    as (h5 & E5 & Hr5 & _).
  destruct (bumped_facts k4 ls2 n (time32 (tmr k) (tar (hw k))) Hr4 Hn4 Hu2) as (_ & _ & _ & Et5 & _).
  pose proof (eq_trans (Eset Hoff) E5) as E6. rewrite (bind_ret _ _ _ _ _ E6). clear Eset E5.
  set (k6 := K (sch k4) _ _). change (sch k4) with (sch k3) in k6.
  set (s7 := with_threads (threads_after (sch k3) i
      (set_sm_idx (original_idx t) (set_status STATUS_SLEEPING (set_last_reference lr t)))) (sch k3)).
  rewrite (bind_ret _ _ k6 tt (with_sch s7 k6)) by exact (on_sched_ok _ k6 _ _ (upd_thread_ok _ _ _ _ Ht3)).
  assert (aget (sched_threads s7) i = Some (set_sm_idx (original_idx t) (set_status STATUS_SLEEPING (set_last_reference lr t)))) as Ht7
    by by eapply threads_after_eq.
  eexists _, _, _. split; [exact (on_sched_ok _ (with_sch s7 k6) _ _ (upd_thread_ok _ _ _ _ Ht7))|].
  cbn [sch tmr with_sch k6]. split; [|split; [by eapply threads_after_eq|]].
  - eapply (rq_rep_thread s7); [|exact Ht7|done]. eapply (rq_rep_thread (sch k3)); [exact Hq3|exact Ht3|done].
  - split; [|split; [apply insert_perm|split; [exact Hr5|]]]; [apply list_for_heads|].
    change (target_of (bumped (tmr k4) n (time32 (tmr k) (tar (hw k)))) n = lr). by rewrite Et5.
Qed.

(** A yield, with the context of the thread that yielded. *)
Lemma yield_switches k Q p i r t fuel :
  rq_rep (sch k) Q -> most_urgent Q p i -> Q p = i :: r -> p <> SCHED_PERIODIC_PRIO_LEVEL ->
  sched_active_thread (sch k) = Some i -> aget (sched_threads (sch k)) i = Some t ->
  (17 <= fuel)%nat ->
  exists k' j tj, thread_yield_higher_internal fuel true k
      = Ret (resume_of tj (scheduler_entry (sch k))) k' /\
    head (r ++ [i]) = Some j /\ sched_active_thread (sch k') = Some j /\
    aget (sched_threads (sch k')) j = Some tj /\
    rq_rep (sch k') (set_queue Q p (r ++ [i])) /\ tmr k' = tmr k /\
    exists ti, aget (sched_threads (sch k')) i = Some ti /\ sp ti = sp t /\ is_sm ti = is_sm t /\
      sm_idx ti = sm_idx t /\ sm_entry ti = sm_entry t.
Proof.
  intros Hr (Hp & Hi & Hlow) EQ Hne Ha Ht Hf. pose proof Hr as (_ & _ & Hq & _).
  destruct (proj1 (Hq p i Hp) (head_in _ _ Hi)) as (t' & Ht' & Hon & Hpt).
  replace t' with t in * by congruence.
  destruct (yield_plain k Q p i t fuel Hr Ha Ht Hpt Hp Hne Hon) as (h & E & Hr' & _).
  rewrite EQ in Hr'. cbn [rotate_l] in Hr'.
  set (k1 := with_sch (with_rq h (sch k)) k).
  assert (exists j, head (r ++ [i]) = Some j) as [j Hj] by (destruct r; eauto).
  destruct (run_plain k1 (set_queue Q p (r ++ [i])) p j fuel Hr') as (s' & E2 & Hsw); [| done| | |done|].
  { split; [done|]. rewrite set_queue_eq. split; [done|]. intros p' Hp'. rewrite set_queue_ne by lia. by apply Hlow. }
  { unfold active_ok. cbn. rewrite Ha, Ht. done. }
  { intros (a & ta & Ha' & Hta & _ & Hpa & _). cbn in Ha', Hta. congruence. }
  destruct (sw_thread _ _ _ _ _ Hsw) as (tj & Htj & _).
  destruct (sw_new _ _ _ _ _ Hsw) as (t0 & Ht0 & _ & Htj' & _).
  pose proof (restore_ok (with_sch s' k1) j tj (sw_active _ _ _ _ _ Hsw) Htj) as E3.
  exists (with_hw (with_unprotected_sp (unprotected_sp_of tj) (hw k)) (with_sch s' k1)), j, tj.
  split; [|split; [exact Hj|split; [exact (sw_active _ _ _ _ _ Hsw)|]]].
  - unfold thread_yield_higher_internal. cbn [when]. rewrite (bind_ret _ _ _ _ _ E).
    rewrite (bind_ret _ _ _ _ _ E2), E3. do 2 f_equal.
    destruct (sw_rest _ _ _ _ _ Hsw) as (_ & _ & _ & He). cbn. by rewrite He.
  - split; [exact Htj|]. split; [exact (sw_rep _ _ _ _ _ Hsw)|]. split; [done|].
    destruct (decide (j = i)) as [->|Hji].
    + change (aget (sched_threads (sch k)) i = Some t0) in Ht0. replace t0 with t in * by congruence.
      exists t. rewrite decide_True in Htj' by exact Ha. split; [exact Htj'|done].
    + eexists. split; [exact (sw_old _ _ _ _ _ Hsw i t Ha ltac:(congruence) Ht)|]. by destruct (decide (status t = STATUS_RUNNING)).
Qed.

(** A thread that leaves. *)
Lemma task_exit_ok k Q i t fuel :
  rq_rep (sch k) Q -> sched_active_thread (sch k) = Some i -> sched_active_pid (sch k) = i ->
  i <> KERNEL_PID_UNDEF -> aget (sched_threads (sch k)) i = Some t -> on_runqueue (status t) = true ->
  0 <= priority t < SCHED_PRIO_LEVELS -> head (Q (priority t)) = Some i ->
  exists s', sched_task_exit_internal (sch k) = Ret tt s' /\
    aget (sched_threads s') i = Some (set_status STATUS_STOPPED (set_in_use false t)) /\
    rq_rep s' (set_queue Q (priority t) (tail (Q (priority t)))) /\
    sched_active_thread s' = None /\ sched_num_threads s' = wraps 16 (sched_num_threads (sch k) - 1) /\
    thread_yield_higher_internal fuel true (with_sch s' k) = Err NullDeref.
Proof.
  intros Hr Ha Hpid Hi Ht Hon Hp Hhead. unfold sched_task_exit_internal.
  rewrite (bind_ret _ _ _ _ _ (gets_ok _ _)), Hpid. rewrite (proj2 (Z.eqb_neq _ _) Hi). cbn [negb when].
  rewrite (bind_ret _ _ _ _ _ (upd_thread_ok _ _ _ _ Ht)), (bind_ret _ _ _ _ _ (modify_ok _ _)).
  set (s1 := with_threads (threads_after (sch k) i (set_in_use false t)) (sch k)).
  change (with_threads _ (sch k)) with s1. set (s2 := with_num_threads _ s1).
  assert (aget (sched_threads s2) i = Some (set_in_use false t)) as Ht2 by by eapply threads_after_eq.
  assert (rq_rep s2 Q) as Hr2 by (change (rq_rep s1 Q); by eapply rq_rep_thread).
  rewrite (bind_ret _ _ _ _ _ (gets_ok _ s2)). change (sched_active_thread s2) with (sched_active_thread (sch k)).
  rewrite Ha. unfold unwrap. rewrite (bind_ret (ret i) _ _ _ _ eq_refl).
  destruct (set_status_rep s2 Q i _ STATUS_STOPPED Hr2 Ht2 Hp) as (s3 & E3 & Hr3 & Hs3); [auto|].
  cbn [status set_in_use priority] in Hr3. unfold queues_after in Hr3. rewrite Hon in Hr3.
  rewrite (bind_ret _ _ _ _ _ E3). exists (with_active None s3). split; [done|].
  split; [|split; [exact Hr3|split; [done|split]]].
  - cbn. rewrite Hs3. by eapply threads_after_eq.
  - cbn. by rewrite Hs3.
  - unfold thread_yield_higher_internal. apply bind_err. cbn [when]. unfold sched_yield.
    by rewrite (bind_ret _ _ _ _ _ (on_sched_gets _ _)).
Qed.

(** ** Properties *)

(** C6 [sched_run_internal] switches to the first thread of the most urgent
    non-empty run queue.  It returns 0 and only clears the request when that
    thread is the active one; otherwise the thread becomes the active one
    and RUNNING, a thread that was RUNNING becomes PENDING, and neither the
    queues nor the timers change.  (For a periodic thread, see the next
    property.) *)
Theorem sched_run_picks k Q p i fuel :
  rq_rep (sch k) Q -> most_urgent Q p i -> p <> SCHED_PERIODIC_PRIO_LEVEL -> active_ok (sch k) ->
  ~ charged (sch k) -> (17 <= fuel)%nat ->
  exists s', sched_run_internal fuel k
      = Ret (c_bool (bool_decide (sched_active_thread (sch k) <> Some i))) (with_sch s' k) /\
    switched (sch k) s' Q p i.
Proof. apply run_plain. Qed.

(** When the most urgent thread is periodic, the switch also rotates the
    periodic queue and sets the scheduler's own timer to the end of the
    thread's budget: now plus its runtime less what it has used. *)
Theorem sched_run_periodic k Q i ls fuel :
  rq_rep (sch k) Q -> most_urgent Q SCHED_PERIODIC_PRIO_LEVEL i -> active_ok (sch k) -> ~ charged (sch k) ->
  timers_rep (tmr k) ls -> hw_wf (hw k) -> (forall hd, hd ∈ heads -> (length (ls hd) < fuel)%nat) ->
  is_timer (tmr k) TSched -> unlinked ls TSched -> (17 <= fuel)%nat ->
  exists k' s' t hd xs, sched_run_internal fuel k
      = Ret (c_bool (bool_decide (sched_active_thread (sch k) <> Some i))) k' /\
    switched (sch k) s' Q SCHED_PERIODIC_PRIO_LEVEL i /\ aget (sched_threads s') i = Some t /\
    sch k' = with_rq (rq (sch k')) s' /\
    rq_rep (sch k') (set_queue Q SCHED_PERIODIC_PRIO_LEVEL (rotate_l (Q SCHED_PERIODIC_PRIO_LEVEL))) /\
    hd ∈ heads /\ xs ≡ₚ TSched :: ls hd /\ timers_rep (tmr k') (set_list ls hd xs) /\
    target_of (tmr k') TSched
      = u32 (u32 (time32 (tmr k) (tar (hw k)) + runtime t) - last_runtime t).
Proof.
  intros Hr Hu Ha Hc Ht Hw Hf Hn Hun Hfu.
  destruct (switch_to_next_ok (sch k) Q _ i fuel Hr Hu Ha Hfu) as (s' & E & Hsw).
  pose proof Hsw as [Hr' Ha' _ _ _ _ _]. destruct (sw_thread _ _ _ _ _ Hsw) as (t & Hti & Hpt).
  destruct (rotate_ok s' Q SCHED_PERIODIC_PRIO_LEVEL Hr' (proj1 Hu)) as (h & Erot & Hrot & _).
  set (k1 := with_sch (with_rq h s') k).
  set (now := time32 (tmr k) (tar (hw k))). set (tgt := u32 (u32 (now + runtime t) - last_runtime t)).
  set (k2 := with_tmr (with_targets TSched tgt (_long_cnt (tmr k)) (tmr k)) (tick k1)).
  assert (timers_rep (tmr k2) ls) as Ht2 by by apply rep_targets.
  assert (is_timer (tmr k2) TSched) as Hn2 by by apply is_timer_targets.
  destruct (explicit_ok k2 ls TSched fuel now Ht2 Hw Hf Hn2 Hun) as (h3 & E3 & Hr3 & _).
  destruct (bumped_facts k2 ls TSched now Ht2 Hn2 Hun) as (_ & _ & _ & Et3 & _).
  eexists _, s', t, _, _. split; [|split; [exact Hsw|split; [exact Hti|]]].
  - unfold sched_run_internal. rewrite (bind_ret _ _ _ _ _ (on_sched_gets _ _)).
    rewrite (bind_ret _ _ _ _ _ (not_charged _ _ Ha Hc)), (bind_ret _ _ _ _ _ (on_sched_ok _ _ _ _ E)).
    erewrite bind_ret; [reflexivity|]. unfold sched_run_end. set (k0 := with_sch s' k).
    rewrite (bind_ret _ _ _ _ _ (on_sched_gets k0 _)). change (sched_active_thread (sch k0)) with (sched_active_thread s').
    rewrite Ha'. unfold unwrap. rewrite (bind_ret (ret i) _ _ _ _ eq_refl).
    rewrite (bind_ret _ _ _ _ _ (on_thread k0 i t Hti)), Hpt, Z.eqb_refl. cbn [when].
    rewrite (bind_ret _ _ k0 tt k1) by exact (on_sched_ok _ k0 _ _ Erot).
    rewrite (bind_ret _ _ _ _ _ (now_internal_ok k1)). change (time32 (tmr k1) (tar (hw k1))) with now.
    rewrite (bind_ret _ _ _ _ _ (on_thread (tick k1) i t Hti)). fold tgt. rewrite <- bind_assoc.
    rewrite (bind_ret _ _ (tick k1) tt k2) by exact (set_targets_ok (tick k1) TSched tgt (_long_cnt (tmr k)) Hn).
    by rewrite (bind_ret _ _ _ _ _ E3).
  - split; [reflexivity|]. split; [exact Hrot|]. split; [apply list_for_heads|].
    split; [apply insert_perm|]. split; [exact Hr3|].
    change (target_of (bumped (tmr k2) TSched now) TSched = tgt). rewrite Et3. apply targets_eq.
Qed.

(** A running periodic thread that is interrupted without a scheduling
    request is charged the time since its reference less the overhead; while
    that is below its budget it simply goes on, with the charge recorded. *)
Theorem periodic_charge k a t fuel :
  sched_active_thread (sch k) = Some a -> aget (sched_threads (sch k)) a = Some t ->
  status t = STATUS_RUNNING -> priority t = SCHED_PERIODIC_PRIO_LEVEL ->
  sched_context_switch_request (sch k) = 0 -> in_u 32 (last_runtime t) ->
  let used := u32 (last_runtime t - SCHEDULER_OVERHEAD_RUN + time32 (tmr k) (tar (hw k)) - last_reference t) in
  used < runtime t ->
  charge_periodic fuel (Some a) k
    = Ret true (with_sch (with_threads (threads_after (sch k) a (set_last_runtime used t)) (sch k)) (tick k)).
Proof.
  intros Ha Ht Hs Hp Hrq Hlr used Hused. unfold charge_periodic.
  rewrite (bind_ret _ _ _ _ _ (on_thread _ _ _ Ht)), (bind_ret _ _ _ _ _ (on_sched_gets _ _)).
  rewrite bool_decide_true, Hp, Hrq, Z.eqb_refl by done. cbn [andb negb c_true Z.eqb].
  rewrite (bind_ret _ _ _ _ _ (now_internal_ok k)). rewrite wrapu_add_l, wrapu_add_r.
  replace (last_runtime t - SCHEDULER_OVERHEAD_RUN + (time32 (tmr k) (tar (hw k)) - last_reference t))
    with (last_runtime t - SCHEDULER_OVERHEAD_RUN + time32 (tmr k) (tar (hw k)) - last_reference t) by lia.
  fold used. rewrite (proj2 (Z.leb_gt _ _)) by done.
  erewrite bind_ret; [reflexivity|]. exact (on_sched_ok _ (tick k) _ _ (upd_thread_ok _ _ _ _ Ht)).
Qed.

(** [periodic_thread_schedule_next_timer] moves the thread's reference to
    the first multiple of its period that is not in the past, takes the
    thread off its queue, queues its timer for that time, and resets its
    entry index and its charge. *)
Theorem periodic_sleeps k ls Q i t now fuel :
  aget (sched_threads (sch k)) i = Some t ->
  timers_rep (tmr k) ls -> hw_wf (hw k) -> counters_ok (tmr k) -> rq_rep (sch k) Q ->
  (forall hd, hd ∈ heads -> (length (ls hd) < Datatypes.S fuel)%nat) ->
  0 <= pid t < 15 -> is_timer (tmr k) (TSlot (pid t)) -> idle_unlinked (tmr k) ls (TSlot (pid t)) ->
  0 <= priority t < SCHED_PRIO_LEVELS -> on_runqueue (status t) = true -> head (Q (priority t)) = Some i ->
  0 < last_reference t < now -> now < 2 ^ 32 -> 0 < period t <= 2 ^ 32 - now ->
  let n := (now - last_reference t + period t - 1) / period t in
  let lr := last_reference t + n * period t in
  (Z.to_nat n < Datatypes.S fuel)%nat ->
  SECURE_MINTIMER_BACKOFF < u32 (lr - time32 (tmr k) (tar (hw k))) ->
  now <= lr < now + period t /\
  exists k' hd xs, periodic_thread_schedule_next_timer (Datatypes.S fuel) i now k = Ret tt k' /\
    rq_rep (sch k') (set_queue Q (priority t) (tail (Q (priority t)))) /\
    aget (sched_threads (sch k')) i =
      Some (set_last_runtime 0 (set_sm_idx (original_idx t) (set_status STATUS_SLEEPING (set_last_reference lr t)))) /\
    hd ∈ heads /\ xs ≡ₚ TSlot (pid t) :: drop_timer (TSlot (pid t)) ls hd /\
    timers_rep (tmr k') (set_list (drop_timer (TSlot (pid t)) ls) hd xs) /\
    target_of (tmr k') (TSlot (pid t)) = lr.
Proof.
  intros Ht Hr Hw Hc Hq Hf Hpid Hn Hi Hpr Hon Hhead Hlr Hnow Hper n lr Hfu Hoff.
  pose proof (Z.div_mod (now - last_reference t + period t - 1) (period t) ltac:(lia)) as Hdm. fold n in Hdm.
  pose proof (Z.mod_pos_bound (now - last_reference t + period t - 1) (period t) ltac:(lia)) as Hmod.
  assert (now <= lr < now + period t) as Hb by (unfold lr; lia).
  assert (0 <= n) as Hn0 by (apply Z.div_pos; lia). split; [exact Hb|].
  destruct (catch_up_ok k i now t Ht (Z.to_nat n) (last_reference t) (Datatypes.S fuel))
    as (lr' & m & E & H1 & H2 & H3 & H4 & _); [lia|lia|lia|rewrite Z2Nat.id by lia; fold lr; lia|lia|].
  rewrite (reference_start k i t Ht) in E. assert (m = n) as -> by (unfold lr in Hb; nia). fold lr in H1. subst lr'.
  destruct (schedule_next_ok k ls Q i t lr fuel Ht Hr Hw Hc Hq Hf Hpid Hn Hi Hpr Hon Hhead Hoff)
    as (k' & hd & xs & E' & Hrest).
  exists k', hd, xs. split; [|exact Hrest].
  unfold periodic_thread_schedule_next_timer. rewrite (bind_ret _ _ _ _ _ E).
  by rewrite (bind_ret _ _ _ _ _ (on_thread _ _ _ (reference_thread k i t Ht lr))).
Qed.

(** The catch-up loop, which is written to avoid infinite loops on
    overflow, does not always end: with a period of 0 it never does, and
    with a period of 2^31 neither when the references it alternates between
    are both in the past.  The scheduler then hangs with interrupts off. *)
Theorem periodic_catchup_hangs k i t now fuel :
  aget (sched_threads (sch k)) i = Some t -> 0 <= now < 2 ^ 32 -> 0 < last_reference t < now ->
  period t = 0 \/ (period t = 2 ^ 31 /\ last_reference t + 2 ^ 31 < now) ->
  periodic_thread_schedule_next_timer fuel i now k = Err Diverges.
Proof.
  intros Ht Hnow Hlr Hp. unfold periodic_thread_schedule_next_timer. apply bind_err.
  rewrite <- (reference_start k i t Ht) at 1.
  apply (catch_up_diverges k i now t Ht
    (fun lr => lr = last_reference t \/ (period t = 2 ^ 31 /\ lr = last_reference t + 2 ^ 31))); [done| |by left].
  intros lr Hl. unfold wrapu. destruct Hp as [Hp|[Hp Hlt]]; destruct Hl as [->|[Hp' ->]]; try lia.
  - rewrite Hp, Z.add_0_r, Z.mod_small by lia. tauto.
  - rewrite Hp, Z.mod_small by lia. split; [lia|by right].
  - rewrite Hp. replace (last_reference t + 2 ^ 31 + 2 ^ 31) with (last_reference t + 1 * 2 ^ 32) by lia.
    rewrite Z_mod_plus_full, Z.mod_small by lia. split; [lia|by left].
Qed.


(** [sched_switch_internal] continues without a switch exactly when the
    active thread is still runnable and the other priority is not more
    urgent than its own; otherwise it requests a scheduling, and inside an
    interrupt leaves it at that. *)
Theorem sched_switch_decides k i t other_prio fuel :
  sched_active_thread (sch k) = Some i -> aget (sched_threads (sch k)) i = Some t ->
  let stays := on_runqueue (status t) && (priority t <=? other_prio) in
  let k1 := with_sch (with_request 1 (sch k)) k in
  sched_switch_internal fuel other_prio k =
    if stays then Ret None k
    else if c_true (__sm_irq_is_in (hw k)) then Ret None k1
    else bind (thread_yield_higher_internal fuel true) (fun r => ret (Some r)) k1.
Proof.
  intros Ha Ht stays k1. unfold sched_switch_internal, sched_switch_internal_allow_yield.
  rewrite (bind_ret _ _ _ _ _ (on_sched_gets _ _)), Ha. unfold unwrap.
  rewrite (bind_ret (ret i) _ _ _ _ eq_refl), (bind_ret _ _ _ _ _ (on_thread _ _ _ Ht)).
  replace (negb (on_runqueue (status t)) || (other_prio <? priority t)) with (negb stays).
  2: { unfold stays. rewrite negb_andb. by rewrite Z.ltb_antisym. }
  destruct stays; cbn [negb]; [done|].
  rewrite (bind_ret _ _ k tt k1) by exact (on_sched_ok _ k _ _ (modify_ok _ _)).
  rewrite (bind_ret _ _ k1 (__sm_irq_is_in (hw k)) k1).
  2: { by rewrite (on_hw_ok sm_irq_is_in k1 _ (hw k1) eq_refl), with_hw_id. }
  by destruct (c_true _).
Qed.

(** A thread that exits frees its entry of the table, stops and leaves
    its run queue, and no thread is active; but the yield that the exit path
    performs next reads the priority of the active thread without the check
    made four lines earlier, through a null pointer. *)
Theorem task_exit_then_null k Q i t fuel :
  rq_rep (sch k) Q -> sched_active_thread (sch k) = Some i -> sched_active_pid (sch k) = i ->
  i <> KERNEL_PID_UNDEF -> aget (sched_threads (sch k)) i = Some t -> on_runqueue (status t) = true ->
  0 <= priority t < SCHED_PRIO_LEVELS -> head (Q (priority t)) = Some i ->
  exists s', sched_task_exit_internal (sch k) = Ret tt s' /\
    aget (sched_threads s') i = Some (set_status STATUS_STOPPED (set_in_use false t)) /\
    rq_rep s' (set_queue Q (priority t) (tail (Q (priority t)))) /\
    sched_active_thread s' = None /\ sched_num_threads s' = wraps 16 (sched_num_threads (sch k) - 1) /\
    thread_yield_higher_internal fuel true (with_sch s' k) = Err NullDeref.
Proof. apply task_exit_ok. Qed.

(** [sched_run_internal] sets the scheduler timer without taking it out of
    the list it may still be in, unlike every other caller.  A timer added
    again to the list that it ends points to itself, and after that any
    insertion of a later timer loops for ever. *)
Theorem relink_hangs t xs n m fuel fuel' :
  chain (t_next t) HTimer (xs ++ [n]) -> Forall (is_timer t) (xs ++ [n]) ->
  Forall (fun x => short_le t x n) xs -> (length xs + 1 < fuel)%nat ->
  is_timer t m -> short_le t n m ->
  exists t', _add_timer_to_list fuel HTimer n t = Ret tt t' /\ t_next t' !! n = Some (Some n) /\
    _add_timer_to_list fuel' HTimer m t' = Err Diverges.
Proof.
  intros Hc Ht Hle Hf Hm Hmt. destruct (relink_last t xs n fuel Hc Ht Hle Hf) as (h & E & Hn & Hs & Hfr).
  assert (forall x, is_timer t x -> is_timer (with_next h t) x) as Hk by (intros x; by eapply is_timer_next).
  apply Forall_app in Ht as [Htx Htn]. apply Forall_inv in Htn.
  exists (with_next h t). split; [exact E|]. split; [exact Hn|].
  eapply (cycle_diverges (with_next h t) m n); [by apply Hk|by apply Hk|exact Hmt|exact Hs| |].
  - eapply Forall_impl; [exact Htx|exact Hk].
  - eapply Forall_impl; [exact Hle|]. intros x Hx. change (short_le t x m).
    change (short_le t x n) in Hx. by transitivity n.
Qed.

(** ** Concrete states *)

(** Thread 1 active, so that 2 is to be switched to. *)
Definition demo_idle : kst := with_sch (with_active (Some 1) demo_sched) demo_kst.
Definition demo_busy : kst := with_sch demo_sched_busy demo_kst.

(** Threads 5 and 6 periodic with a budget of 5000 in 10000, 5 running. *)
Definition demo_job (i : Z) (st : thread_status) : thread_t :=
  Thread false (1000 * i) 0 st 1 i true 0 10000 5000 131072 0 0.
Definition demo_jobs : sched_t :=
  with_active (Some 5)
    (with_threads (<[6%nat := demo_job 6 STATUS_PENDING]> (<[5%nat := demo_job 5 STATUS_RUNNING]>
                     (sched_threads demo_sched_busy))) demo_sched_busy).
Definition demo_periodic : kst := with_sch demo_jobs demo_kst.

Lemma demo_jobs_rep : rq_rep demo_jobs demo_queues_busy.
Proof. apply rq_check_ok. vm_compute. reflexivity. Qed.

Lemma demo_urgent : most_urgent demo_queues 7 2.
Proof.
  split; [unfold SCHED_PRIO_LEVELS; lia|]. split; [reflexivity|]. intros p Hp. unfold demo_queues.
  rewrite !(proj2 (Z.eqb_neq _ _)) by lia. reflexivity.
Qed.

Lemma demo_urgent_busy : most_urgent demo_queues_busy 1 5.
Proof.
  split; [unfold SCHED_PRIO_LEVELS; lia|]. split; [reflexivity|]. intros p Hp.
  assert (p = 0) as -> by lia. reflexivity.
Qed.

(** The active thread is not periodic. *)
Lemma not_charged_prio s a t :
  sched_active_thread s = Some a -> aget (sched_threads s) a = Some t -> priority t <> 1 -> ~ charged s.
Proof. intros Ha Ht Hp (a' & t' & Ha' & Ht' & _ & Hp' & _). unfold SCHED_PERIODIC_PRIO_LEVEL in Hp'. congruence. Qed.

Lemma sched_run_picks_witness :
  exists s', sched_run_internal 17 demo_idle = Ret 1 (with_sch s' demo_idle) /\
    sched_active_thread s' = Some 2 /\ rq_rep s' demo_queues.
Proof.
  destruct (sched_run_picks demo_idle demo_queues 7 2 17 demo_rep demo_urgent) as (s' & H1 & H2).
  - discriminate.
  - eexists. reflexivity.
  - eapply not_charged_prio; [reflexivity|reflexivity|discriminate].
  - lia.
  - exists s'. split; [exact H1|]. split; [exact (sw_active _ _ _ _ _ H2)|exact (sw_rep _ _ _ _ _ H2)].
Defined.

Lemma sched_run_periodic_witness :
  exists k', sched_run_internal 17 demo_busy = Ret 1 k' /\
    rq_rep (sch k') (set_queue demo_queues_busy 1 [6; 5]).
Proof.
  destruct (sched_run_periodic demo_busy demo_queues_busy 5 demo_ls 17 demo_rep_busy demo_urgent_busy)
    as (k' & s' & t & hd & xs & H1 & _ & _ & _ & H2 & _).
  - eexists. reflexivity.
  - eapply not_charged_prio; [reflexivity|reflexivity|discriminate].
  - exact demo_timers_rep.
  - exact (conj eq_refl eq_refl).
  - apply demo_fuel. lia.
  - concrete.
  - apply demo_unlinked. concrete.
  - lia.
  - exists k'. split; [exact H1|exact H2].
Defined.

Lemma periodic_charge_witness :
  exists s', charge_periodic 17 (Some 5) demo_periodic = Ret true (with_sch s' (tick demo_periodic)) /\
    aget (sched_threads s') 5 = Some (set_last_runtime 700 (demo_job 5 STATUS_RUNNING)).
Proof.
  eexists. split.
  - refine (periodic_charge demo_periodic 5 (demo_job 5 STATUS_RUNNING) 17 eq_refl eq_refl eq_refl eq_refl eq_refl _ _).
    + cbn. unfold in_u. lia.
    + vm_compute. reflexivity.
  - vm_compute. reflexivity.
Defined.

Lemma periodic_sleeps_witness :
  exists k', periodic_thread_schedule_next_timer 17 5 132072 demo_periodic = Ret tt k' /\
    rq_rep (sch k') (set_queue demo_queues_busy 1 [6]) /\ target_of (tmr k') (TSlot 5) = 141072.
Proof.
  destruct (periodic_sleeps demo_periodic demo_ls demo_queues_busy 5 (demo_job 5 STATUS_RUNNING) 132072 16
              eq_refl demo_timers_rep (conj eq_refl eq_refl) demo_counters demo_jobs_rep (demo_fuel 17 ltac:(lia)))
    as (_ & k' & hd & xs & H1 & H2 & _ & _ & _ & _ & H3).
  - cbn. lia.
  - concrete.
  - intros H. exfalso. revert H. vm_compute. discriminate.
  - cbn. unfold SCHED_PRIO_LEVELS. lia.
  - reflexivity.
  - reflexivity.
  - cbn. lia.
  - lia.
  - cbn. lia.
  - vm_compute. lia.
  - vm_compute. reflexivity.
  - exists k'. split; [exact H1|]. split; [exact H2|exact H3].
Defined.

Lemma periodic_catchup_hangs_witness :
  periodic_thread_schedule_next_timer 1000 2 132072
    (with_sch (with_threads (<[2%nat := set_last_reference 5 (demo_thread 2 7 STATUS_RUNNING)]>
       (sched_threads demo_sched)) demo_sched) demo_kst) = Err Diverges.
Proof.
  apply (periodic_catchup_hangs _ 2 (set_last_reference 5 (demo_thread 2 7 STATUS_RUNNING))).
  - reflexivity.
  - lia.
  - cbn. lia.
  - left. reflexivity.
Defined.


Lemma sched_switch_decides_witness : sched_switch_internal 17 7 demo_kst = Ret None demo_kst.
Proof.
  exact (sched_switch_decides demo_kst 2 (demo_thread 2 7 STATUS_RUNNING) 7 17 eq_refl eq_refl).
Defined.

Lemma task_exit_then_null_witness :
  exists s', sched_task_exit_internal demo_sched = Ret tt s' /\ rq_rep s' (set_queue demo_queues 7 [3]) /\
    thread_yield_higher_internal 17 true (with_sch s' demo_kst) = Err NullDeref.
Proof.
  destruct (task_exit_then_null demo_kst demo_queues 2 (demo_thread 2 7 STATUS_RUNNING) 17 demo_rep
              eq_refl eq_refl) as (s' & H1 & _ & H2 & _ & _ & H3).
  - discriminate.
  - reflexivity.
  - reflexivity.
  - cbv. split; [discriminate|reflexivity].
  - reflexivity.
  - exists s'. split; [exact H1|]. split; [exact H2|exact H3].
Defined.

(** Slot 8 is the last of the long list; the current list ends in 4. *)
Lemma relink_hangs_witness :
  exists t', _add_timer_to_list 10 HTimer (TSlot 4) demo_tmr = Ret tt t' /\
    _add_timer_to_list 1000 HTimer (TSlot 7) t' = Err Diverges.
Proof.
  destruct (relink_hangs demo_tmr [TSlot 3] (TSlot 4) (TSlot 7) 10 1000) as (t' & H1 & _ & H2).
  - concrete.
  - concrete.
  - concrete.
  - cbn. lia.
  - concrete.
  - concrete.
  - exists t'. split; [exact H1|exact H2].
Defined.

(** The scheduler does it: two schedulings in a row that choose a periodic
    thread leave its own timer pointing to itself. *)
Example scheduler_timer_cycle :
  (match (let! _ := sched_run_internal 17 in
          do! on_sched (modify (with_request 1)); sched_run_internal 17)
         (with_sch (with_request 1 demo_jobs) demo_kst) with
   | Ret _ k => t_next (tmr k) !! TSched
   | Err _ => None
   end) = Some (Some TSched).
Proof. vm_compute. reflexivity. Qed.
