(* ===== verification/Cpu.v ===== *)
(** * The processor-specific part (cpu/msp430-sancus/cpu.c, its cpu.h, and
    the interrupt handler of periph/timer.c)

    The entry point of calls that do not return to their caller, the saving
    and restoring of contexts, the interrupt handler, and the first stack
    frame of a thread.  The assembly is translated instruction by
    instruction as far as it touches the kernel's state: registers that are
    arguments are parameters, the saved registers themselves stay in the
    threads' own memory, of which only the stack pointers are kept. *)

From stdpp Require Import sorting.
From S2P Require Import Prelude Clist ClistSpec ListInsert KState RunQueue TimerHw Mintimer TimerLists.
From S2P Require Import TimerPeriod TimerProps Sched SchedProps.

(** ** cpu.h *)

Definition EXITLESS_FUNCTION_TYPE_BOOT : Z := 0.
Definition EXITLESS_FUNCTION_TYPE_YIELD : Z := 1.
Definition EXITLESS_FUNCTION_TYPE_EXIT : Z := 2.
Definition EXITLESS_FUNCTION_TYPE_SCHED_SWITCH : Z := 3.
Definition EXITLESS_FUNCTION_TYPE_SLEEP : Z := 4.
Definition SM_ID_UNPROTECTED : Z := 0.
Definition CALLER_VIOLATION : Z := 0xFFFD.
Definition GIE : Z := 0x0008.

(** The active thread, which the assembly reaches through r11. *)
Definition active_index : M kst Z :=
  let! a := on_sched (gets sched_active_thread) in unwrap NullDeref a.

(** SAVE_UNTRUSTED_CONTEXT: twelve registers are pushed below [r1]. *)
Definition save_untrusted_context (r1 : Z) : M kst unit :=
  let v := u16 (r1 - 24) in
  let! i := active_index in
  do! on_sched (upd_thread i (set_sp v));
  on_hw (modify (with_unprotected_sp v)).

(** SAVE_CONTEXT, with the interrupted stack pointer, the status register
    (bit 15: an enclave was interrupted) and the stack pointer of the
    module's own save area, whose bit 0 tells that the scheduler itself was
    interrupted; a stack pointer has no bit 0.  Two registers are pushed and
    popped again around it. *)
Definition save_context (isr_stack_top r1 sr ssa_sp : Z) : M kst unit :=
  let r1 := if r1 =? 0 then isr_stack_top else r1 in
  if Z.testbit ssa_sp 0 then
    let! i := active_index in
    let! t := on_sched (thread_at i) in
    if is_sm t then ret tt else save_untrusted_context (u16 (Z.land ssa_sp 0xfffe - 4))
  else
    let! i := active_index in
    if negb (Z.testbit sr 15) then
      do! on_sched (upd_thread i (set_is_sm false));
      save_untrusted_context r1
    else
      do! on_sched (upd_thread i (set_is_sm true));
      let! v := on_hw (gets __unprotected_sp) in
      on_sched (upd_thread i (set_sp v)).

(** EXIT_ISR. *)
Definition exit_isr (fuel : nat) : M kst resumed :=
  let! request := on_sched (gets sched_context_switch_request) in
  do! when (c_true request) (let! _ := sched_run_internal fuel in ret tt);
  do! on_hw (modify (with_irq_is_in 0));
  restore_context.

(** ** periph/timer.c: the interrupt handler *)

(** From the label [after_context_save]. *)
Definition isr_body (fuel : nat) : M kst resumed :=
  do! on_hw (upd_CCTL 0 (fun v => Z.land v (u16 (Z.lnot TIMER_CCTL_CCIE))));
  let! cb := on_hw (gets isr_cb) in
  do! (if (cb : bool) then _periph_timer_callback fuel 0 else fail NullDeref);
  exit_isr fuel.

Definition __sm_sancus_sm_timer_isr_func (fuel : nat) (caller isr_stack_top r1 sr ssa_sp : Z)
    : M kst resumed :=
  if caller =? CALLER_VIOLATION then
    do! on_sched sched_task_exit_internal;
    let! ctl := on_hw (gets CTL) in
    if Z.land ctl TIMER_CTL_IFG =? 0 then thread_yield_higher_internal fuel true
    else
      do! on_hw (modify (with_irq_is_in 1));
      isr_body fuel
  else
    do! save_context isr_stack_top r1 sr ssa_sp;
    do! on_hw (modify (with_irq_is_in 1));
    isr_body fuel.

(** ** cpu.c *)

(** Lines 102-132: what the caller leaves behind. *)
Definition save_caller (function_type sp_or_return caller : Z) : M kst unit :=
  let! a := on_sched (gets sched_active_thread) in
  match a with
  | None => ret tt
  | Some i =>
      if function_type =? EXITLESS_FUNCTION_TYPE_EXIT then ret tt
      else
        do! on_sched (upd_thread i (set_sp sp_or_return));
        if caller =? SM_ID_UNPROTECTED then on_sched (upd_thread i (set_is_sm false))
        else
          do! on_sched (upd_thread i (set_is_sm true));
          on_sched (upd_thread i (set_sm_idx 0xFFFF))
  end.

(** Lines 184-206, the label [.default]. *)
Definition default_yield (fuel : nat) : M kst resumed :=
  let! ctl := on_hw (gets CTL) in
  let! cctl := on_hw (gets CCTL) in
  let! cctl0 := unwrap OutOfBounds (aget cctl 0) in
  if negb (Z.land ctl TIMER_CTL_IFG =? 0) || negb (Z.land cctl0 TIMER_CCTL_CCIFG =? 0) then
    do! on_hw (modify (with_irq_is_in 1));
    do! secure_mintimer_timer_callback fuel;
    do! on_sched (modify (with_request 1));
    exit_isr fuel
  else thread_yield_higher_internal fuel true.

(** [entry] is the address of the module's entry point; [r13] and [r12] are
    the optional arguments, for a sleep the high and the low half of the
    offset. *)
Definition exitless_entry (fuel : nat) (entry function_type sp_or_return r13 r12 caller : Z)
    : M kst resumed :=
  do! save_caller function_type sp_or_return caller;
  if function_type =? EXITLESS_FUNCTION_TYPE_BOOT then
    do! scheduler_init entry;
    default_yield fuel
  else if function_type =? EXITLESS_FUNCTION_TYPE_EXIT then
    do! on_sched sched_task_exit_internal;
    default_yield fuel
  else if function_type =? EXITLESS_FUNCTION_TYPE_SCHED_SWITCH then
    let! r := sched_switch_internal fuel r13 in
    match r with
    | Some r => ret r
    | None => restore_context
    end
  else if function_type =? EXITLESS_FUNCTION_TYPE_SLEEP then
    do! _secure_mintimer_tsleep_internal fuel (Z.lor (Z.shiftl r13 16) r12);
    default_yield fuel
  else default_yield fuel.

(** ** The first frame of a thread *)

(** Memory by words, at even addresses. *)
Abbreviation mem := (gmap Z Z).

(** Pushing a word: the stack pointer moves first. *)
Definition push (v : Z) (st : Z * mem) : Z * mem :=
  let sp := u16 (st.1 - 2) in (sp, <[sp := u16 v]> st.2).

Fixpoint push_registers (n : nat) (i : Z) (st : Z * mem) : Z * mem :=
  match n with
  | O => st
  | Datatypes.S n => push_registers n (i + 1) (push i st)
  end.

Definition stack_top (stack_start stack_size : Z) : Z :=
  u16 (Z.land (u16 (stack_start + stack_size)) 0xfffe - 2).

(** [sched_task_exit] is the address of that function. *)
Definition thread_stack_init (sched_task_exit task_func arg stack_start stack_size : Z) (m : mem) : Z * mem :=
  let st := (stack_top stack_start stack_size, m) in
  let st := push sched_task_exit st in
  let st := push task_func st in
  let st := push GIE st in
  let st := push arg st in
  push_registers 11 4 st.

Definition thread_unprotected_stack_init (stack_start stack_size : Z) : Z :=
  stack_top stack_start stack_size.

(** RESTORE_UNTRUSTED_CONTEXT and [reti]: r4 to r15 are popped, then the
    status register with the two forbidden bits cleared, then the program
    counter; the last component is where a [ret] would go. *)
Definition CPUOFF : Z := 0x0010.
Definition SCG1 : Z := 0x0080.

Fixpoint pop_words (n : nat) (sp : Z) (m : mem) : option (list Z * Z) :=
  match n with
  | O => Some ([], sp)
  | Datatypes.S n =>
      match m !! sp with
      | Some v => match pop_words n (u16 (sp + 2)) m with
                  | Some (vs, sp') => Some (v :: vs, sp')
                  | None => None
                  end
      | None => None
      end
  end.

Definition resume_words (sp : Z) (m : mem) : option (list Z * Z * Z * Z) :=
  match pop_words 15 sp m with
  | Some (vs, _) =>
      match aget vs 12, aget vs 13, aget vs 14 with
      | Some sr, Some pc, Some back =>
          Some (take 12 vs,
                Z.land (Z.land sr (u16 (Z.lnot CPUOFF))) (u16 (Z.lnot SCG1)), pc, back)
      | _, _, _ => None
      end
  | None => None
  end.

(** ** Rules *)

(** The entry of the caller after its context was saved. *)
Definition saved_by (sp caller : Z) (t : thread_t) : thread_t :=
  if caller =? SM_ID_UNPROTECTED then set_is_sm false (set_sp sp t)
  else set_sm_idx 0xFFFF (set_is_sm true (set_sp sp t)).

Lemma upd_on_sched k i t f :
  aget (sched_threads (sch k)) i = Some t ->
  on_sched (upd_thread i f) k = Ret tt (with_sch (with_threads (threads_after (sch k) i (f t)) (sch k)) k).
Proof. intros Ht. exact (on_sched_ok _ _ _ _ (upd_thread_ok _ _ _ _ Ht)). Qed.

Lemma threads_after_twice s i t t' :
  with_threads (threads_after (with_threads (threads_after s i t) s) i t') (with_threads (threads_after s i t) s)
  = with_threads (threads_after s i t') s.
Proof.
  unfold threads_after. cbn [sched_threads with_threads]. by rewrite list_insert_insert_eq.
Qed.

(** Two updates of the same entry in a row. *)
Lemma upd_on_sched_twice k i t t' f :
  aget (sched_threads (sch k)) i = Some t ->
  on_sched (upd_thread i f) (with_sch (with_threads (threads_after (sch k) i t') (sch k)) k)
  = Ret tt (with_sch (with_threads (threads_after (sch k) i (f t')) (sch k)) k).
Proof.
  intros Ht. set (k1 := with_sch _ k).
  assert (aget (sched_threads (sch k1)) i = Some t') as Ht1 by by eapply threads_after_eq.
  rewrite (upd_on_sched k1 i t' f Ht1). cbn [sch k1 with_sch]. by rewrite threads_after_twice.
Qed.

Lemma save_caller_ok k i t ftype sp caller :
  sched_active_thread (sch k) = Some i -> aget (sched_threads (sch k)) i = Some t ->
  ftype <> EXITLESS_FUNCTION_TYPE_EXIT ->
  save_caller ftype sp caller k
    = Ret tt (with_sch (with_threads (threads_after (sch k) i (saved_by sp caller t)) (sch k)) k).
Proof.
  intros Ha Ht Hne. unfold save_caller. rewrite (bind_ret _ _ _ _ _ (on_sched_gets _ _)), Ha.
  rewrite (proj2 (Z.eqb_neq _ _) Hne), (bind_ret _ _ _ _ _ (upd_on_sched _ _ _ _ Ht)).
  unfold saved_by. destruct (caller =? SM_ID_UNPROTECTED).
  - by rewrite (upd_on_sched_twice _ _ _ _ _ Ht).
  - rewrite (bind_ret _ _ _ _ _ (upd_on_sched_twice _ _ _ _ _ Ht)).
    by rewrite (upd_on_sched_twice _ _ _ _ _ Ht).
Qed.

Lemma saved_rep s Q i t sp caller :
  rq_rep s Q -> aget (sched_threads s) i = Some t ->
  rq_rep (with_threads (threads_after s i (saved_by sp caller t)) s) Q.
Proof.
  intros Hr Ht. eapply rq_rep_thread; [done|exact Ht|]. unfold saved_by. by destruct (_ =? _).
Qed.

(** No timer is pending. *)
Definition quiet (h : hw_t) : Prop :=
  Z.land (CTL h) TIMER_CTL_IFG = 0 /\
  exists v, aget (CCTL h) 0 = Some v /\ Z.land v TIMER_CCTL_CCIFG = 0.

Lemma on_hw_gets {A} k (f : hw_t -> A) : on_hw (gets f) k = Ret (f (hw k)) k.
Proof. rewrite (on_hw_ok _ _ _ _ (gets_ok _ _)). by rewrite with_hw_id. Qed.

Lemma default_quiet k fuel :
  quiet (hw k) -> default_yield fuel k = thread_yield_higher_internal fuel true k.
Proof.
  intros (H1 & v & H2 & H3). unfold default_yield.
  rewrite (bind_ret _ _ _ _ _ (on_hw_gets _ _)), (bind_ret _ _ _ _ _ (on_hw_gets _ _)), H2, H1.
  unfold unwrap. by rewrite (bind_ret (ret v) _ _ _ _ eq_refl), H3.
Qed.

(** *** The stack of a new thread *)

(** Pushing a list of words. *)
Definition push_all (vs : list Z) (st : Z * mem) : Z * mem := foldl (fun st v => push v st) st vs.

Lemma push_registers_all n i st : push_registers n i st = push_all (seqZ i (Z.of_nat n)) st.
Proof.
  revert i st. induction n as [|n IH]; intros i st; [done|]. cbn [push_registers]. rewrite IH.
  rewrite (seqZ_cons i (Z.of_nat (Datatypes.S n))) by lia. cbn. by rewrite <- Z.add_1_r, Nat2Z.inj_succ, Z.pred_succ.
Qed.

Lemma push_all_app vs ws st : push_all (vs ++ ws) st = push_all ws (push_all vs st).
Proof. apply foldl_app. Qed.

Lemma push_all_sp vs sp m : (push_all vs (u16 sp, m)).1 = u16 (sp - 2 * Z.of_nat (length vs)).
Proof.
  revert sp m. induction vs as [|v vs IH]; intros sp m; cbn [push_all foldl].
  - by rewrite Z.sub_0_r.
  - change (push v (u16 sp, m)) with (u16 (u16 sp - 2), <[u16 (u16 sp - 2) := u16 v]> m).
    rewrite wrapu_sub_l. fold (push_all vs (u16 (sp - 2), <[u16 (sp - 2) := u16 v]> m)).
    rewrite IH. f_equal. cbn [length]. lia.
Qed.

Lemma u16_ne a i j : 0 <= i < 2 ^ 15 -> 0 <= j < 2 ^ 15 -> i <> j -> u16 (a - 2 * i) <> u16 (a - 2 * j).
Proof.
  intros Hi Hj Hne He. unfold wrapu in He.
  assert ((a - 2 * i - (a - 2 * j)) mod 2 ^ 16 = 0) as Hz.
  { rewrite Zminus_mod, He, Z.sub_diag. done. }
  apply Z.mod_divide in Hz as [q Hq]; [|lia]. lia.
Qed.

(** The words pushed are found below the start, the last one lowest. *)
Lemma push_all_lookup vs sp m j v :
  Z.of_nat (length vs) < 2 ^ 15 -> vs !! j = Some v ->
  (push_all vs (u16 sp, m)).2 !! u16 (sp - 2 * (Z.of_nat j + 1)) = Some (u16 v).
Proof.
  revert j v. induction vs as [|x vs IH] using rev_ind; intros j v Hl Hv; [done|].
  rewrite length_app in Hl. cbn in Hl. rewrite push_all_app. cbn [push_all foldl]. fold (push_all vs (u16 sp, m)).
  change ((push x (push_all vs (u16 sp, m))).2)
    with (<[u16 ((push_all vs (u16 sp, m)).1 - 2) := u16 x]> (push_all vs (u16 sp, m)).2).
  rewrite push_all_sp, wrapu_sub_l.
  replace (sp - 2 * Z.of_nat (length vs) - 2) with (sp - 2 * (Z.of_nat (length vs) + 1)) by lia.
  destruct (decide (j = length vs)) as [->|Hne].
  - rewrite lookup_insert_eq. rewrite lookup_app_r, Nat.sub_diag in Hv by lia. by injection Hv as ->.
  - assert (j < length vs)%nat as Hj.
    { apply lookup_lt_Some in Hv. rewrite length_app in Hv. cbn in Hv. lia. }
    rewrite lookup_app_l in Hv by lia. rewrite lookup_insert_ne; [|apply u16_ne; lia].
    apply IH; [lia|done].
Qed.

Lemma pop_words_ok ws : forall sp m,
  (forall i w, ws !! i = Some w -> m !! u16 (sp + 2 * Z.of_nat i) = Some w) ->
  exists sp', pop_words (length ws) (u16 sp) m = Some (ws, sp').
Proof.
  induction ws as [|w ws IH]; intros sp m Hm; cbn [length pop_words]; [eauto|].
  assert (m !! u16 sp = Some w) as -> by (specialize (Hm O w eq_refl); by rewrite Z.add_0_r in Hm).
  rewrite wrapu_add_l. destruct (IH (sp + 2) m) as (sp' & ->); [|eauto].
  intros i v Hv. specialize (Hm (Datatypes.S i) v Hv). rewrite <- Hm. f_equal. f_equal. lia.
Qed.

Lemma stack_init_ok exit task arg stack_start stack_size m :
  let '(sp, m') := thread_stack_init exit task arg stack_start stack_size m in
  resume_words sp m' = Some ([14; 13; 12; 11; 10; 9; 8; 7; 6; 5; 4; u16 arg], GIE, u16 task, u16 exit) /\
  sp = u16 (stack_top stack_start stack_size - 30).
Proof.
  unfold thread_stack_init. rewrite push_registers_all.
  set (s0 := stack_top stack_start stack_size).
  set (vs := [exit; task; GIE; arg] ++ seqZ 4 11).
  change (push_all (seqZ 4 (Z.of_nat 11)) (push arg (push GIE (push task (push exit (s0, m))))))
    with (push_all vs (s0, m)).
  assert (u16 s0 = s0) as E0 by apply wrapu_idemp.
  pose proof (push_all_sp vs s0 m) as Esp. rewrite E0 in Esp. change (2 * Z.of_nat (length vs)) with 30 in Esp.
  assert (forall j v, vs !! j = Some v -> (push_all vs (s0, m)).2 !! u16 (s0 - 2 * (Z.of_nat j + 1)) = Some (u16 v)) as Hl.
  { intros j v Hv. pose proof (push_all_lookup vs s0 m j v ltac:(vm_compute; reflexivity) Hv) as H. by rewrite E0 in H. }
  destruct (push_all vs (s0, m)) as [sp m'] eqn:Ep. cbn [fst snd] in *. split; [|done].
  assert (forall i w, (u16 <$> rev vs) !! i = Some w -> m' !! u16 (s0 - 30 + 2 * Z.of_nat i) = Some w) as Hpop.
  { intros i w Hw. apply list_lookup_fmap_Some in Hw as (v & -> & Hv).
    assert (i < 15)%nat as Hi by (apply lookup_lt_Some in Hv; exact Hv).
    rewrite <- (Hl (14 - i)%nat v).
    - f_equal. f_equal. lia.
    - do 15 (destruct i as [|i]; [exact Hv|]). lia. }
  destruct (pop_words_ok (u16 <$> rev vs) (s0 - 30) m' Hpop) as (sp' & E).
  rewrite Esp. unfold resume_words. change (length (u16 <$> rev vs)) with 15%nat in E. rewrite E. reflexivity.
Qed.

(** ** Properties *)

(** C24 A call of [exitless_entry] that yields, made by the first thread of the
    most urgent queue, not that of the periodic threads, keeps the caller's
    context: its entry holds the stack pointer it passed, and either that it
    is unprotected or that it is an enclave to be re-entered with index
    0xffff.  With no timer pending it goes behind its queue and the next
    thread of its priority is resumed; a thread alone at its priority is
    itself resumed at once, exactly where it left.  This call is all that
    [thread_yield_higher] does, so that function, too, puts its caller behind
    its queue, where thread.h says that it stays the first of its priority. *)
Theorem exitless_yield_context k Q p i r t fuel entry v r13 r12 caller :
  rq_rep (sch k) Q -> most_urgent Q p i -> Q p = i :: r -> p <> SCHED_PERIODIC_PRIO_LEVEL ->
  sched_active_thread (sch k) = Some i -> aget (sched_threads (sch k)) i = Some t ->
  quiet (hw k) -> (17 <= fuel)%nat ->
  exists k' j tj ti, exitless_entry fuel entry EXITLESS_FUNCTION_TYPE_YIELD v r13 r12 caller k
      = Ret (resume_of tj (scheduler_entry (sch k))) k' /\
    head (r ++ [i]) = Some j /\ sched_active_thread (sch k') = Some j /\
    aget (sched_threads (sch k')) j = Some tj /\ aget (sched_threads (sch k')) i = Some ti /\
    sp ti = v /\ is_sm ti = negb (caller =? SM_ID_UNPROTECTED) /\
    sm_idx ti = (if caller =? SM_ID_UNPROTECTED then sm_idx t else 0xFFFF) /\
    rq_rep (sch k') (set_queue Q p (r ++ [i])) /\
    (r = [] -> resume_of tj (scheduler_entry (sch k)) =
       if caller =? SM_ID_UNPROTECTED then ResumeThread v
       else ResumeSM (sm_entry t) 0xFFFF (scheduler_entry (sch k))).
Proof.
  intros Hr Hu EQ Hne Ha Ht Hqu Hf.
  set (k1 := with_sch (with_threads (threads_after (sch k) i (saved_by v caller t)) (sch k)) k).
  pose proof (saved_rep (sch k) Q i t v caller Hr Ht) as Hr1.
  assert (aget (sched_threads (sch k1)) i = Some (saved_by v caller t)) as Ht1 by by eapply threads_after_eq.
  destruct (yield_switches k1 Q p i r _ fuel Hr1 Hu EQ Hne Ha Ht1 Hf)
    as (k' & j & tj & E & Hj & Haj & Htj & Hrep & _ & ti & Hti & H1 & H2 & H3 & H4).
  exists k', j, tj, ti. split; [|do 4 (split; [done|])].
  - assert (EXITLESS_FUNCTION_TYPE_YIELD <> EXITLESS_FUNCTION_TYPE_EXIT) as Hty by done.
    unfold exitless_entry. rewrite (bind_ret _ _ _ _ _ (save_caller_ok k i t _ v caller Ha Ht Hty)).
    exact (eq_trans (default_quiet k1 fuel Hqu) E).
  - assert (sp ti = v /\ is_sm ti = negb (caller =? SM_ID_UNPROTECTED) /\
            sm_idx ti = (if caller =? SM_ID_UNPROTECTED then sm_idx t else 0xFFFF) /\ sm_entry ti = sm_entry t)
      as (E1 & E2 & E3 & E4).
    { rewrite H1, H2, H3, H4. unfold saved_by. by destruct (caller =? SM_ID_UNPROTECTED). }
    do 3 (split; [done|]). split; [done|]. intros ->. cbn in Hj. injection Hj as <-.
    replace tj with ti by congruence. unfold resume_of. rewrite E1, E2, E3, E4.
    by destruct (caller =? SM_ID_UNPROTECTED).
Qed.

(** A thread that exits with no timer pending does not come back to the
    scheduler: the exit path ends in a null pointer read.  So does booting,
    where no thread is active yet. *)
Theorem boot_and_exit_read_null k Q i t fuel entry v r13 r12 caller :
  rq_rep (sch k) Q -> quiet (hw k) ->
  (sched_active_thread (sch k) = None -> initialization_done (sch k) = true ->
   exitless_entry fuel entry EXITLESS_FUNCTION_TYPE_BOOT v r13 r12 caller k = Err NullDeref) /\
  (sched_active_thread (sch k) = Some i -> sched_active_pid (sch k) = i -> i <> KERNEL_PID_UNDEF ->
   aget (sched_threads (sch k)) i = Some t -> on_runqueue (status t) = true ->
   0 <= priority t < SCHED_PRIO_LEVELS -> head (Q (priority t)) = Some i ->
   exitless_entry fuel entry EXITLESS_FUNCTION_TYPE_EXIT v r13 r12 caller k = Err NullDeref).
Proof.
  intros Hr Hqu. split.
  - intros Ha Hd. unfold exitless_entry, save_caller. rewrite bind_assoc.
    rewrite (bind_ret _ _ _ _ _ (on_sched_gets _ _)), Ha, (bind_ret (ret tt) _ _ _ _ eq_refl).
    change (EXITLESS_FUNCTION_TYPE_BOOT =? EXITLESS_FUNCTION_TYPE_BOOT) with true. cbn iota.
    unfold scheduler_init. rewrite bind_assoc, (bind_ret _ _ _ _ _ (on_sched_gets _ _)), Hd. cbn [negb when].
    rewrite (bind_ret (ret tt) _ _ _ _ eq_refl), default_quiet by done.
    unfold thread_yield_higher_internal. apply bind_err. cbn [when]. unfold sched_yield.
    by rewrite (bind_ret _ _ _ _ _ (on_sched_gets _ _)), Ha.
  - intros Ha Hp Hi Ht Hon Hpr Hh. unfold exitless_entry, save_caller. rewrite bind_assoc.
    rewrite (bind_ret _ _ _ _ _ (on_sched_gets _ _)), Ha.
    change (EXITLESS_FUNCTION_TYPE_EXIT =? EXITLESS_FUNCTION_TYPE_EXIT) with true. cbn iota.
    rewrite (bind_ret (ret tt) _ _ _ _ eq_refl).
    change (EXITLESS_FUNCTION_TYPE_EXIT =? EXITLESS_FUNCTION_TYPE_BOOT) with false. cbn iota.
    destruct (task_exit_ok k Q i t fuel Hr Ha Hp Hi Ht Hon Hpr Hh) as (s' & E & _ & _ & _ & _ & E').
    rewrite (bind_ret _ _ _ _ _ (on_sched_ok _ _ _ _ E)), default_quiet by done. exact E'.
Qed.

(** The frame [thread_stack_init] lays out starts the thread: restoring a
    context from the stack pointer it returns leaves the argument in r15,
    enables interrupts, continues at the task function, and a return from
    that goes to [sched_task_exit]. *)
Theorem stack_init_starts_task exit task arg stack_start stack_size m :
  let '(sp, m') := thread_stack_init exit task arg stack_start stack_size m in
  resume_words sp m' = Some ([14; 13; 12; 11; 10; 9; 8; 7; 6; 5; 4; u16 arg], GIE, u16 task, u16 exit) /\
  sp = u16 (stack_top stack_start stack_size - 30).
Proof. apply stack_init_ok. Qed.

(** ** Witnesses *)

Lemma demo_quiet s : quiet (step_hw s).
Proof. split; [reflexivity|]. exists 0. split; reflexivity. Qed.

Lemma exitless_yield_context_witness :
  exists k' tj ti, exitless_entry 17 0 EXITLESS_FUNCTION_TYPE_YIELD 0x9000 0 0 3 demo_kst
      = Ret (resume_of tj 0) k' /\
    sched_active_thread (sch k') = Some 3 /\ aget (sched_threads (sch k')) 3 = Some tj /\
    aget (sched_threads (sch k')) 2 = Some ti /\ sp ti = 0x9000 /\ is_sm ti = true /\ sm_idx ti = 0xFFFF.
Proof.
  destruct (exitless_yield_context demo_kst demo_queues 7 2 [3] (demo_thread 2 7 STATUS_RUNNING) 17 0
              0x9000 0 0 3 demo_rep demo_urgent eq_refl)
    as (k' & j & tj & ti & H1 & H2 & H3 & H4 & H5 & H6 & H7 & H8 & _).
  - discriminate.
  - reflexivity.
  - reflexivity.
  - exact (demo_quiet 1000).
  - lia.
  - injection H2 as <-. exists k', tj, ti. split; [exact H1|]. split; [exact H3|]. split; [exact H4|].
    split; [exact H5|]. split; [exact H6|]. split; [exact H7|exact H8].
Defined.

Lemma boot_and_exit_read_null_witness :
  exitless_entry 17 0 EXITLESS_FUNCTION_TYPE_EXIT 0x9000 0 0 0 demo_kst = Err NullDeref.
Proof.
  apply (proj2 (boot_and_exit_read_null demo_kst demo_queues 2 (demo_thread 2 7 STATUS_RUNNING) 17 0 0x9000 0 0 0
           demo_rep (demo_quiet 1000))).
  - reflexivity.
  - reflexivity.
  - discriminate.
  - reflexivity.
  - reflexivity.
  - cbv. split; [discriminate|reflexivity].
  - reflexivity.
Defined.
