(* ===== verification/TimerApi.v ===== *)
(** * The timer interface of applications
    (sys/include/secure_mintimer/secure_mintimer_implementation.h)

    Sleeping for a time and reading it: unit conversion around the entry
    points of the module.  A sleep is an exitless call, so what it returns is
    what is resumed next. *)

From S2P Require Import Prelude KState RunQueue TimerHw Mintimer TimerLists TimerPeriod TimerProps Sched SchedProps Cpu Div.

Definition US_PER_SEC : Z := 1000000.
Definition NS_PER_US : Z := 1000.

(** The timer runs at [SECURE_MINTIMER_HZ], 1 MHz. *)
Definition HZ : timer_hz := HZ_1M.

Section calls.
(** [entry] is the entry point of the module, [v] what the saved context is
    found by, [caller] the module the call comes from. *)
Context (fuel : nat) (entry v caller : Z).

(** The two halves of [offset] go to r13 and r12; [long_offset] is only
    mentioned in a warning. *)
Definition _secure_mintimer_tsleep (offset long_offset : Z) : M kst resumed :=
  exitless_entry fuel entry EXITLESS_FUNCTION_TYPE_SLEEP v (u16 (Z.shiftr offset 16)) (u16 offset) caller.

Definition _secure_mintimer_tsleep32 (ticks : Z) : M kst resumed := _secure_mintimer_tsleep ticks 0.
Definition _secure_mintimer_tsleep64 (ticks : Z) : M kst resumed :=
  _secure_mintimer_tsleep (u32 ticks) (u32 (Z.shiftr ticks 32)).

Definition secure_mintimer_usleep (microseconds : Z) : M kst resumed :=
  _secure_mintimer_tsleep32 (ticks_from_usec HZ microseconds).
Definition secure_mintimer_usleep64 (microseconds : Z) : M kst resumed :=
  _secure_mintimer_tsleep64 (ticks_from_usec64 HZ microseconds).
Definition secure_mintimer_sleep (seconds : Z) : M kst resumed :=
  _secure_mintimer_tsleep64 (ticks_from_usec64 HZ (u64 (seconds * US_PER_SEC))).
Definition secure_mintimer_nanosleep (nanoseconds : Z) : M kst resumed :=
  _secure_mintimer_tsleep32 (ticks_from_usec HZ (nanoseconds / NS_PER_US)).
Definition secure_mintimer_tsleep32 (ticks : Z) : M kst resumed := _secure_mintimer_tsleep32 ticks.
Definition secure_mintimer_tsleep64 (ticks : Z) : M kst resumed := _secure_mintimer_tsleep64 ticks.
End calls.

Definition secure_mintimer_now (fuel : nat) : M kst Z := _secure_mintimer_now fuel.
Definition secure_mintimer_now64 : M kst Z := _secure_mintimer_now64.
Definition secure_mintimer_now_usec (fuel : nat) : M kst Z :=
  let! t := secure_mintimer_now fuel in ret (usec_from_ticks HZ t).
Definition secure_mintimer_now_usec64 : M kst Z :=
  let! t := secure_mintimer_now64 in ret (usec_from_ticks64 HZ t).

(** ** Properties *)

(** The halves of a 32-bit value in two registers. *)
Lemma halves_join x : in_u 32 x -> Z.lor (Z.shiftl (u16 (Z.shiftr x 16)) 16) (u16 x) = x.
Proof.
  intros Hx. apply Z.bits_inj'. intros i Hi. rewrite Z.lor_spec, Z.shiftl_spec, (wrapu_testbit 16 x i) by lia.
  destruct (Z.ltb_spec i 16) as [Hlt|Hge]; cbn [andb].
  - by rewrite (Z.testbit_neg_r _ (i - 16)) by lia.
  - rewrite orb_false_r, wrapu_testbit, Z.shiftr_spec by lia. replace (i - 16 + 16) with i by lia.
    destruct (Z.ltb_spec (i - 16) 16) as [|Hhi]; [done|]. cbn [andb].
    rewrite <- (wrapu_id 32 x Hx), wrapu_testbit by lia. by rewrite (proj2 (Z.ltb_ge i 32)) by lia.
Qed.

(** The exitless call of a sleep, up to the point where the scheduler looks
    for pending timers and yields. *)
Lemma tsleep_enters fuel entry v caller offset long_offset k i t :
  in_u 32 offset -> sched_active_thread (sch k) = Some i -> aget (sched_threads (sch k)) i = Some t ->
  let k1 := with_sch (with_threads (threads_after (sch k) i (saved_by v caller t)) (sch k)) k in
  _secure_mintimer_tsleep fuel entry v caller offset long_offset k =
  (do! _secure_mintimer_tsleep_specific_pid fuel offset (pid t); default_yield fuel) k1.
Proof.
  intros Ho Ha Ht k1. unfold _secure_mintimer_tsleep, exitless_entry.
  assert (EXITLESS_FUNCTION_TYPE_SLEEP <> EXITLESS_FUNCTION_TYPE_EXIT) as Hty by done.
  rewrite (bind_ret _ _ _ _ _ (save_caller_ok k i t _ v caller Ha Ht Hty)). fold k1.
  change (EXITLESS_FUNCTION_TYPE_SLEEP =? EXITLESS_FUNCTION_TYPE_BOOT) with false.
  change (EXITLESS_FUNCTION_TYPE_SLEEP =? EXITLESS_FUNCTION_TYPE_EXIT) with false.
  change (EXITLESS_FUNCTION_TYPE_SLEEP =? EXITLESS_FUNCTION_TYPE_SCHED_SWITCH) with false.
  change (EXITLESS_FUNCTION_TYPE_SLEEP =? EXITLESS_FUNCTION_TYPE_SLEEP) with true. cbn iota.
  rewrite halves_join by done. unfold _secure_mintimer_tsleep_internal. rewrite bind_assoc.
  rewrite (bind_ret _ _ _ _ _ (on_sched_gets _ _)). change (sched_active_thread (sch k1)) with (sched_active_thread (sch k)).
  rewrite Ha. rewrite bind_assoc, (bind_ret _ _ k1 i k1) by done. rewrite bind_assoc.
  assert (aget (sched_threads (sch k1)) i = Some (saved_by v caller t)) as Ht1 by by eapply threads_after_eq.
  rewrite (bind_ret _ _ k1 (saved_by v caller t) k1).
  - by assert (pid (saved_by v caller t) = pid t) as -> by (unfold saved_by; by destruct (_ =? _)).
  - by rewrite (on_thread k1 i _ Ht1).
Qed.

(** C17 A thread of pid below 15, the first of its queue if it is runnable, calls
    [secure_mintimer_usleep] while the timers are in order, and the counter,
    read twice, does not run over in between and is more than the backoff of
    200 short of the target at the second reading: the thread's context is
    saved, it is marked sleeping and leaves its run queue, the timer of its
    slot is set for it, and then the scheduler looks for pending timers and
    yields.  For at least 300 microseconds (and what passed between the two
    readings) the 64-bit start of the timer is the overhead of 300 before the
    present time plus the number asked for, and its list is the one for this
    start.  For a shorter sleep, of 201 to 299, the start is later by 2^32
    microseconds: the thread oversleeps by more than an hour. *)
Theorem usleep_sleeps k ls Q i t microseconds fuel entry v caller :
  timers_rep (tmr k) ls -> hw_wf (hw k) -> counters_ok (tmr k) -> _long_cnt (tmr k) < 2 ^ 32 - 1 -> rq_rep (sch k) Q ->
  (forall hd, hd ∈ heads -> (length (ls hd) < Datatypes.S fuel)%nat) ->
  sched_active_thread (sch k) = Some i -> aget (sched_threads (sch k)) i = Some t -> pid t = i ->
  0 <= i < 15 -> is_timer (tmr k) (TSlot i) -> idle_unlinked (tmr k) ls (TSlot i) ->
  0 <= priority t < SCHED_PRIO_LEVELS -> (on_runqueue (status t) = true -> head (Q (priority t)) = Some i) ->
  in_u 32 microseconds ->
  let lo := u16 (clock (hw k) (reads (hw k))) in
  let lo' := u16 (clock (hw k) (Datatypes.S (reads (hw k)))) in
  let target := u32 (time32 (tmr k) lo + microseconds) in
  SECURE_MINTIMER_BACKOFF < u32 (target - time32 (tmr k) lo') -> lo <= lo' ->
  let start := time64 (tmr k) lo + microseconds - SECURE_MINTIMER_OVERHEAD
               + if microseconds <? SECURE_MINTIMER_OVERHEAD + (lo' - lo) then 2 ^ 32 else 0 in
  let hd := place (tmr k) start (time64 (tmr k) lo') in
  exists k' xs ti, secure_mintimer_usleep (Datatypes.S fuel) entry v caller microseconds k
      = default_yield (Datatypes.S fuel) k' /\
    aget (sched_threads (sch k')) i = Some ti /\ status ti = STATUS_SLEEPING /\ sp ti = v /\
    rq_rep (sch k') (queues_after Q (priority t) i (status t) STATUS_SLEEPING) /\
    xs ≡ₚ TSlot i :: drop_timer (TSlot i) ls hd /\
    timers_rep (tmr k') (set_list (drop_timer (TSlot i) ls) hd xs) /\
    target_of (tmr k') (TSlot i) = target /\ start64 (tmr k') (TSlot i) = start /\ t_thread (tmr k') !! TSlot i = Some (Some i).
Proof.
  intros Hr Hw Hcnt Hlong Hq Hf Ha Ht Hpid Hi Hn Hun Hp Hh Hus lo lo' target Hoff Hll start hd.
  set (k1 := with_sch (with_threads (threads_after (sch k) i (saved_by v caller t)) (sch k)) k).
  assert (aget (sched_threads (sch k1)) i = Some (saved_by v caller t)) as Ht1 by by eapply threads_after_eq.
  assert (priority (saved_by v caller t) = priority t /\ status (saved_by v caller t) = status t /\
          sp (saved_by v caller t) = v) as (Ep & Es & Ev) by (unfold saved_by; by destruct (_ =? _)).
  pose proof (saved_rep (sch k) Q i t v caller Hq Ht) as Hq1.
  destruct (tsleep_sleeps k1 ls Q i (saved_by v caller t) microseconds fuel) as (k' & xs & E & H1 & H2 & H3 & H4 & H5 & H6 & H7);
    try done; rewrite ?Ep, ?Es; try done.
  exists k', xs, (set_status STATUS_SLEEPING (saved_by v caller t)). split.
  - unfold secure_mintimer_usleep, _secure_mintimer_tsleep32, ticks_from_usec, HZ.
    rewrite (tsleep_enters _ _ _ _ _ _ k i t Hus Ha Ht). fold k1. rewrite Hpid. by rewrite (bind_ret _ _ _ _ _ E).
  - split; [rewrite H2; by eapply threads_after_eq|]. split; [done|]. split; [done|]. rewrite Ep, Es in H1. done.
Qed.

(** The time is given in 64 bits to [_secure_mintimer_tsleep], which drops the
    upper half: a sleep of some seconds is one of their microseconds modulo
    2^32, so 4295 seconds are 33 milliseconds. *)
Theorem sleep_drops_long fuel entry v caller seconds k :
  in_u 32 seconds ->
  secure_mintimer_sleep fuel entry v caller seconds k
    = secure_mintimer_usleep fuel entry v caller (u32 (seconds * US_PER_SEC)) k /\
  u32 (4295 * US_PER_SEC) = 32704.
Proof.
  intros Hs. split; [|done]. unfold secure_mintimer_sleep, secure_mintimer_usleep, _secure_mintimer_tsleep64,
    _secure_mintimer_tsleep32, ticks_from_usec64, ticks_from_usec, HZ, _secure_mintimer_tsleep.
  rewrite (wrapu_id 64); [done|]. unfold in_u, US_PER_SEC in *. lia.
Qed.

Lemma usleep_sleeps_witness : exists k' xs ti,
  secure_mintimer_usleep 17 0 0x9000 0 5000 demo_kst = default_yield 17 k' /\
    aget (sched_threads (sch k')) 2 = Some ti /\ status ti = STATUS_SLEEPING /\ sp ti = 0x9000 /\
    rq_rep (sch k') (queues_after demo_queues 7 2 STATUS_RUNNING STATUS_SLEEPING) /\
    xs ≡ₚ TSlot 2 :: drop_timer (TSlot 2) demo_ls HTimer /\
    timers_rep (tmr k') (set_list (drop_timer (TSlot 2) demo_ls) HTimer xs) /\
    target_of (tmr k') (TSlot 2) = 137072 /\ start64 (tmr k') (TSlot 2) = 5 * 2 ^ 32 + 136772 /\ t_thread (tmr k') !! TSlot 2 = Some (Some 2).
Proof.
  apply (usleep_sleeps demo_kst demo_ls demo_queues 2 (demo_thread 2 7 STATUS_RUNNING) 5000 16 0 0x9000 0
    demo_timers_rep (conj eq_refl eq_refl) demo_counters eq_refl demo_rep (demo_fuel 17 ltac:(lia))).
  - reflexivity.
  - reflexivity.
  - reflexivity.
  - lia.
  - concrete.
  - intros _. apply demo_unlinked. concrete.
  - cbv. split; [discriminate|reflexivity].
  - reflexivity.
  - cbv. split; [discriminate|reflexivity].
  - vm_compute. reflexivity.
  - vm_compute. discriminate.
Defined.
