(* ===== verification/Thread.v ===== *)
(** * Threads (core/thread.c, thread.h, irq.c)

    The thread table seen from outside the scheduler: looking threads up,
    sleeping and waking, creating protected and unprotected threads, wait
    lists ordered by priority, and turning a thread into a periodic one.  A
    call that switches ends, like [exitless_entry], in what is resumed. *)

From stdpp Require Import sorting.
From S2P Require Import Prelude Clist ClistSpec ListInsert KState RunQueue TimerHw Mintimer.
From S2P Require Import TimerLists TimerProps Sched SchedProps Cpu.

(** ** Constants *)

Definition EINVAL : Z := 28.
Definition EOVERFLOW : Z := 65.
Definition THREAD_CREATE_WOUT_YIELD : Z := 4.

(** [ALIGN_OF(void * )] and [ALIGN_OF(thread_t)] of the target. *)
Definition ALIGN_OF_PTR : Z := 2.
Definition ALIGN_OF_THREAD : Z := 2.

(** ** Interrupt state outside the scheduler (irq.c): nothing is masked *)

Definition irq_disable : M kst Z := ret 0.
Definition irq_restore (state : Z) : M kst unit := ret tt.

(** ** Switching from outside *)

(** What the assembly leaves at an exitless call: the stack pointer after
    the context was pushed, the two argument registers as they happen to
    be, who calls, and the entry point of the scheduler module. *)
Record call_site : Type := Call {
  c_stack : Z; c_r13 : Z; c_r12 : Z; c_caller : Z; c_entry : Z
}.

Definition thread_yield_higher (fuel : nat) (c : call_site) : M kst resumed :=
  exitless_entry fuel (c_entry c) EXITLESS_FUNCTION_TYPE_YIELD (c_stack c) (c_r13 c) (c_r12 c) (c_caller c).

Definition sched_switch (fuel : nat) (c : call_site) (other_prio : Z) : M kst resumed :=
  exitless_entry fuel (c_entry c) EXITLESS_FUNCTION_TYPE_SCHED_SWITCH (c_stack c) other_prio (c_r12 c)
    (c_caller c).

Definition scheduler_kernel_init (fuel : nat) (c : call_site) : M kst resumed :=
  exitless_entry fuel (c_entry c) EXITLESS_FUNCTION_TYPE_BOOT (c_stack c) (c_r13 c) (c_r12 c) (c_caller c).

Definition cpu_switch_context_exit (fuel : nat) (c : call_site) : M kst resumed :=
  exitless_entry fuel (c_entry c) EXITLESS_FUNCTION_TYPE_EXIT (c_stack c) (c_r13 c) (c_r12 c) (c_caller c).

(** The offset travels in r13 and r12. *)
Definition _secure_mintimer_tsleep (fuel : nat) (c : call_site) (offset long_offset : Z) : M kst resumed :=
  exitless_entry fuel (c_entry c) EXITLESS_FUNCTION_TYPE_SLEEP (c_stack c)
    (u16 (Z.shiftr offset 16)) (u16 offset) (c_caller c).

Definition thread_yield (fuel : nat) (c : call_site) : M kst resumed := thread_yield_higher fuel c.

Definition sched_task_exit (fuel : nat) (c : call_site) : M kst resumed := cpu_switch_context_exit fuel c.

(** ** Looking up *)

Definition pid_is_valid (pid : Z) : bool := (KERNEL_PID_FIRST <=? pid) && (pid <=? KERNEL_PID_LAST).

Definition thread_get (pid : Z) : option Z := if pid_is_valid pid then Some pid else None.

Definition thread_getstatus (pid : Z) : M sched_t Z :=
  match thread_get pid with
  | Some i => let! t := thread_at i in ret (status_code (status t))
  | None => ret STATUS_NOT_FOUND
  end.

Definition thread_getpid : M sched_t Z := gets sched_active_pid.

(** ** Sleeping and waking *)

(** [irq_is_in] is the variable [__irq_is_in] of irq.c. *)
Definition thread_sleep (fuel : nat) (c : call_site) (irq_is_in : Z) : M kst (option resumed) :=
  if c_true irq_is_in then ret None
  else
    let! state := irq_disable in
    do! on_sched (sched_set_own_status STATUS_SLEEPING);
    do! irq_restore state;
    let! r := thread_yield_higher fuel c in
    ret (Some r).

Definition thread_wakeup (pid : Z) : M kst Z :=
  let! old_state := on_hw sm_irq_disable in
  match thread_get pid with
  | None => do! on_hw (sm_irq_restore old_state); ret STATUS_NOT_FOUND
  | Some i =>
      let! t := on_sched (thread_at i) in
      if bool_decide (status t = STATUS_SLEEPING) then
        do! on_sched (sched_set_status i STATUS_RUNNING);
        do! on_hw (sm_irq_restore old_state);
        ret 1
      else
        do! on_hw (sm_irq_restore old_state);
        ret STATUS_NOT_FOUND
  end.

(** ** Wait lists *)

Definition thread_add_to_list (fuel : nat) (list : knode) (thread : Z) : M sched_t unit :=
  let! t := thread_at thread in
  do! c_assert (negb (on_runqueue (status t)));
  let my_prio := priority t in
  let! list := loop fuel (fun list =>
    let! nx := on_rq (load list) in
    match nx with
    | None => ret (inr list)
    | Some q =>
        let! i := thread_of q in
        let! list_entry := thread_at i in
        if my_prio <? priority list_entry then ret (inr list) else ret (inl q)
    end) list in
  let! nx := on_rq (load list) in
  do! on_rq (store (NThread thread) nx);
  on_rq (store list (Some (NThread thread))).

(** ** Creating threads *)

(** The first free entry of the table from [KERNEL_PID_FIRST]. *)
Definition free_pid : M sched_t Z :=
  loop 33 (fun i =>
    if i <=? KERNEL_PID_LAST then
      let! t := thread_at i in
      if in_use t then ret (inl (i + 1)) else ret (inr i)
    else ret (inr KERNEL_PID_UNDEF)) KERNEL_PID_FIRST.

Definition _thread_create_scheduler_internal (priority : Z) (is_sm : bool) (thread_sp_init : Z) : M sched_t Z :=
  let! pid := free_pid in
  if pid =? KERNEL_PID_UNDEF then ret (- EOVERFLOW)
  else
    do! upd_thread pid (set_in_use true);
    do! upd_thread pid (set_pid pid);
    do! upd_thread pid (set_priority priority);
    do! upd_thread pid (set_is_sm is_sm);
    do! upd_thread pid (set_sp thread_sp_init);
    do! on_rq (store (NThread pid) None);
    do! modify (fun s => with_num_threads (wraps 16 (sched_num_threads s + 1)) s);
    do! sched_set_status pid STATUS_PENDING;
    ret pid.

Definition thread_create_protected_in_scheduler (priority thread_sp_init thread_entry thread_idx : Z)
    : M sched_t Z :=
  let! pid := _thread_create_scheduler_internal priority true thread_sp_init in
  if pid =? KERNEL_PID_UNDEF then ret pid
  else
    do! upd_thread pid (set_sm_idx thread_idx);
    do! upd_thread pid (set_sm_entry thread_entry);
    ret pid.

Definition thread_create_unprotected_in_scheduler (priority thread_sp_init : Z) : M sched_t Z :=
  if priority <? SCHED_MAX_PRIO_LEVEL_UNPROTECTED then ret (- EINVAL)
  else _thread_create_scheduler_internal priority false thread_sp_init.

(** The stack moved up to an even address and its size rounded down, as an
    unsigned number. *)
Definition align_stack (stack stacksize : Z) : Z * Z :=
  let misalignment := stack mod ALIGN_OF_PTR in
  let '(stack, stacksize) :=
    if c_true misalignment then
      (u16 (stack + (ALIGN_OF_PTR - misalignment)), s16 (stacksize - (ALIGN_OF_PTR - misalignment)))
    else (stack, stacksize) in
  (stack, s16 (u16 stacksize - u16 stacksize mod ALIGN_OF_THREAD)).

(** [exit] and [function] are the addresses of [sched_task_exit] and of the
    task, [m] the memory; the last component says what the switch resumes
    when there is one. *)
Definition thread_create (fuel : nat) (c : call_site) (exit stack stacksize priority flags function arg : Z)
    (m : mem) : M kst (Z * mem * option resumed) :=
  if priority <? SCHED_MAX_PRIO_LEVEL_UNPROTECTED then ret (- EINVAL, m, None)
  else
    let '(stack, stacksize) := align_stack stack stacksize in
    let '(thread_sp_init, m) := thread_stack_init exit function arg stack stacksize m in
    let! pid := on_sched (thread_create_unprotected_in_scheduler priority thread_sp_init) in
    if Z.land flags THREAD_CREATE_WOUT_YIELD =? 0 then
      let! r := sched_switch fuel c priority in ret (pid, m, Some r)
    else ret (pid, m, None).

Definition thread_create_protected (fuel : nat) (c : call_site)
    (unprotected_stack unprotected_stack_size priority flags sm_entry sm_idx : Z)
    : M kst (Z * option resumed) :=
  let '(stack, stacksize) := align_stack unprotected_stack unprotected_stack_size in
  let thread_sp_init := thread_unprotected_stack_init stack stacksize in
  let! pid := on_sched (thread_create_protected_in_scheduler priority thread_sp_init sm_entry sm_idx) in
  if Z.land flags THREAD_CREATE_WOUT_YIELD =? 0 then
    let! r := sched_switch fuel c priority in ret (pid, Some r)
  else ret (pid, None).

(** ** Periodic threads *)

Definition thread_change_to_periodical (fuel : nat) (pid runtime period : Z) : M kst unit :=
  do! on_sched (sched_set_status pid STATUS_SLEEPING);
  do! on_sched (upd_thread pid (set_priority SCHED_PERIODIC_PRIO_LEVEL));
  do! on_sched (upd_thread pid (set_period period));
  let! '(short_term, long_term) := _secure_mintimer_now_internal in
  do! on_sched (upd_thread pid (set_last_reference short_term));
  do! on_sched (upd_thread pid (set_last_runtime 0));
  do! on_sched (upd_thread pid (set_runtime runtime));
  do! on_sched (upd_thread pid (fun t => set_original_idx (sm_idx t) t));
  _secure_mintimer_tsleep_specific_pid fuel period pid.
