(* ===== verification/ThreadProps.v ===== *)
(** * Properties of the thread functions (Thread.v)

    Creation, its error paths, sleeping and waking, and wait lists. *)

From stdpp Require Import sorting.
From S2P Require Import Prelude Clist ClistSpec ListInsert KState RunQueue TimerHw Mintimer.
From S2P Require Import TimerLists TimerProps Sched SchedProps Cpu Thread.

(** ** Fields the queues do not depend on *)

(** An address that no run queue goes through. *)
Definition off_queues (Q : Z -> list Z) (a : knode) : Prop :=
  match a with
  | NThread j => forall p, 0 <= p < SCHED_PRIO_LEVELS -> j ∉ Q p
  | NRunq p => ~ 0 <= p < SCHED_PRIO_LEVELS
  | _ => True
  end.

Lemma idle_off s Q i t :
  rq_rep s Q -> aget (sched_threads s) i = Some t -> on_runqueue (status t) = false ->
  off_queues Q (NThread i).
Proof. intros (_ & _ & Hq & _) Ht Hoff p Hp (u & Hu & Hon & _)%Hq; [|done]. congruence. Qed.

Lemma rq_rep_frame s Q h ws :
  rq_rep s Q -> frame (rq s) h ws -> Forall (off_queues Q) ws -> rq_rep (with_rq h s) Q.
Proof.
  intros (Hal & Hr & Hq & Hb) Hf Hws. rewrite Forall_forall in Hws.
  split; [by eapply (nodes_alive_frame s)|]. split; [|by split].
  intros p Hp. eapply ring_frame; [done| |by apply Hr]. intros a Ha Hin. pose proof (Hws a Hin) as Hoff.
  apply elem_of_cons in Ha as [->|Ha]; [by apply Hoff|].
  apply list_elem_of_fmap in Ha as (j & -> & Hj). by apply (Hoff p).
Qed.

Lemma rq_rep_idle s Q i t t' :
  rq_rep s Q -> aget (sched_threads s) i = Some t -> on_runqueue (status t) = false ->
  on_runqueue (status t') = false -> rq_rep (with_threads (threads_after s i t') s) Q.
Proof.
  intros (Hal & Hr & Hq & Hb) Ht Hoff Hoff'.
  split; [eapply (nodes_alive_frame s); [done|cbn; apply length_insert|apply frame_refl with (ws := [])]|].
  split; [done|]. split; [|done].
  intros p j Hp. erewrite (runnable_upd s) by (exact Ht || reflexivity). rewrite Hq by done. split.
  - intros Hj. right. split; [|done]. intros ->. destruct Hj as (u & Hu & Hon & _). congruence.
  - intros [(-> & Hon & _)|[_ Hj]]; [congruence|done].
Qed.

(** Updates of one entry in a row are one update. *)
Lemma upd_thread_fuse {A} i f g (k : M sched_t A) s :
  bind (upd_thread i f) (fun _ => bind (upd_thread i g) (fun _ => k)) s
  = bind (upd_thread i (fun t => g (f t))) (fun _ => k) s.
Proof.
  unfold bind at 1 3. unfold upd_thread at 1 3. destruct (aget (sched_threads s) i) as [t|] eqn:Ht; [|done].
  pose proof (aget_range _ _ _ Ht). unfold bind, upd_thread. cbn [sched_threads with_threads].
  rewrite aget_set_eq by done. by rewrite list_insert_insert_eq.
Qed.

(** ** The free entry *)

Definition used (s : sched_t) (i : Z) : Prop :=
  exists t, aget (sched_threads s) i = Some t /\ in_use t = true.

(** [p] is the first free entry, or the table is full and [p] is 33. *)
Definition first_free (s : sched_t) (p : Z) : Prop :=
  1 <= p <= 33 /\ (forall i, 1 <= i < p -> used s i) /\
  (p <= KERNEL_PID_LAST -> exists t, aget (sched_threads s) p = Some t /\ in_use t = false).

Lemma free_pid_ok s p :
  first_free s p -> free_pid s = Ret (if p <=? KERNEL_PID_LAST then p else KERNEL_PID_UNDEF) s.
Proof.
  intros ((Hp1 & Hp2) & Hu & Hf). unfold free_pid, KERNEL_PID_FIRST, KERNEL_PID_UNDEF.
  change (KERNEL_PID_LAST) with 32 in *. change (0 + 1) with 1.
  assert (forall n i, 1 <= i <= p -> p - i < Z.of_nat n ->
    loop n (fun i => if i <=? 32 then let! t := thread_at i in
                       if in_use t then ret (inl (i + 1)) else ret (inr i) else ret (inr 0)) i s
    = Ret (if p <=? 32 then p else 0) s) as H; [|apply H; lia].
  induction n as [|n IH]; intros i Hi Hn; [lia|]. destruct (decide (i = p)) as [->|Hne].
  - apply loop_exit. destruct (Z.leb_spec p 32) as [Hle|]; [|done].
    destruct (Hf Hle) as (t & Ht & E). by rewrite (bind_ret _ _ _ _ _ (thread_at_ok _ _ _ Ht)), E.
  - destruct (Hu i ltac:(lia)) as (t & Ht & E). rewrite (loop_next _ _ _ _ (i + 1) s); [apply IH; lia|].
    rewrite (proj2 (Z.leb_le i 32)) by lia. by rewrite (bind_ret _ _ _ _ _ (thread_at_ok _ _ _ Ht)), E.
Qed.

(** ** Creation *)

(** The entry of a new thread before it becomes runnable. *)
Definition new_thread (pid prio : Z) (sm : bool) (stack : Z) (t : thread_t) : thread_t :=
  set_sp stack (set_is_sm sm (set_priority prio (set_pid pid (set_in_use true t)))).

Lemma create_ok s Q p t prio sm stack :
  rq_rep s Q -> first_free s p -> p <= KERNEL_PID_LAST -> aget (sched_threads s) p = Some t ->
  on_runqueue (status t) = false -> 0 <= prio < SCHED_PRIO_LEVELS ->
  exists s', _thread_create_scheduler_internal prio sm stack s = Ret p s' /\
    rq_rep s' (set_queue Q prio (Q prio ++ [p])) /\
    sched_threads s' = threads_after s p (set_status STATUS_PENDING (new_thread p prio sm stack t)) /\
    sched_num_threads s' = wraps 16 (sched_num_threads s + 1) /\
    sched_active_thread s' = sched_active_thread s /\ sched_active_pid s' = sched_active_pid s /\
    initialization_done s' = initialization_done s /\
    frame (rq s) (rq s') (NThread p :: NRunq prio :: (NThread <$> Q prio)).
Proof.
  intros Hr Hfree Hp Ht Hoff Hprio. unfold _thread_create_scheduler_internal.
  rewrite (bind_ret _ _ _ _ _ (free_pid_ok _ _ Hfree)), (proj2 (Z.leb_le _ _) Hp).
  destruct Hfree as ((Hp1 & _) & _).
  rewrite (proj2 (Z.eqb_neq p KERNEL_PID_UNDEF)) by (unfold KERNEL_PID_UNDEF; lia).
  rewrite !upd_thread_fuse. cbv beta. rewrite (bind_ret _ _ _ _ _ (upd_thread_ok _ _ _ _ Ht)).
  change (set_sp stack _) with (new_thread p prio sm stack t).
  set (s1 := with_threads _ s).
  assert (rq_rep s1 Q) as Hr1 by by eapply rq_rep_idle.
  assert (is_Some (rq s1 !! NThread p)) as [v Hv] by (apply Hr1; lia).
  rewrite (bind_ret _ _ _ _ _ (on_rq_ok _ s1 _ _ (store_ok _ _ _ _ Hv))).
  rewrite (bind_ret _ _ _ _ _ (modify_ok _ _)).
  set (s2 := with_num_threads _ _).
  assert (aget (sched_threads s2) p = Some (new_thread p prio sm stack t)) as Ht2 by by eapply threads_after_eq.
  assert (rq_rep s2 Q) as Hr2.
  { apply (rq_rep_frame s1 Q _ [NThread p] Hr1).
    - apply frame_insert; [set_solver|apply frame_refl].
    - constructor; [|done]. by eapply (idle_off s). }
  destruct (set_status_rep s2 Q p _ STATUS_PENDING Hr2 Ht2) as (s' & E & Hr' & Es'); [done|done|].
  pose proof (set_status_frame s2 Q p _ STATUS_PENDING s' Hr2 Ht2 Hprio E) as Hfr.
  rewrite (bind_ret _ _ _ _ _ E). exists s'. split; [done|]. cbn [new_thread priority status set_sp set_is_sm set_priority set_pid set_in_use] in Hr'.
  unfold queues_after in Hr'. rewrite Hoff in Hr'. split; [exact Hr'|]. split; [rewrite Es'; unfold threads_after; cbn; by rewrite list_insert_insert_eq|].
  do 4 (split; [by rewrite Es'|]). eapply (frame_trans _ (rq s2)); [|exact Hfr].
  apply frame_insert; [by left|apply frame_refl].
Qed.

(** Creation without a switch, with the frame the stack is given. *)
Lemma thread_create_ok k Q p t fuel c exit stack stacksize prio flags function arg m v m' :
  rq_rep (sch k) Q -> first_free (sch k) p -> p <= KERNEL_PID_LAST ->
  aget (sched_threads (sch k)) p = Some t -> on_runqueue (status t) = false ->
  SCHED_MAX_PRIO_LEVEL_UNPROTECTED <= prio < SCHED_PRIO_LEVELS ->
  Z.land flags THREAD_CREATE_WOUT_YIELD <> 0 ->
  (let '(stk, size) := align_stack stack stacksize in thread_stack_init exit function arg stk size m) = (v, m') ->
  exists s', thread_create fuel c exit stack stacksize prio flags function arg m k
      = Ret (p, m', None) (with_sch s' k) /\
    rq_rep s' (set_queue Q prio (Q prio ++ [p])) /\
    sched_threads s' = threads_after (sch k) p (set_status STATUS_PENDING (new_thread p prio false v t)) /\
    sched_active_thread s' = sched_active_thread (sch k) /\ sched_active_pid s' = sched_active_pid (sch k) /\
    initialization_done s' = initialization_done (sch k) /\
    frame (rq (sch k)) (rq s') (NThread p :: NRunq prio :: (NThread <$> Q prio)).
Proof.
  intros Hr Hfree Hp Ht Hoff Hprio Hfl Hst. unfold thread_create.
  rewrite (proj2 (Z.ltb_ge _ _)) by lia. destruct (align_stack stack stacksize) as [stk size]. rewrite Hst.
  destruct (create_ok (sch k) Q p t prio false v Hr Hfree Hp Ht Hoff) as (s' & E & Hr' & Hth & _ & Hact).
  { change SCHED_MAX_PRIO_LEVEL_UNPROTECTED with 3 in Hprio. lia. }
  assert (thread_create_unprotected_in_scheduler prio v (sch k) = Ret p s') as E'.
  { unfold thread_create_unprotected_in_scheduler. by rewrite (proj2 (Z.ltb_ge _ _)) by lia. }
  rewrite (bind_ret _ _ _ _ _ (on_sched_ok _ _ _ _ E')), (proj2 (Z.eqb_neq _ _) Hfl). by exists s'.
Qed.

(** ** Wait lists *)

Definition prio_of (s : sched_t) (i : Z) : Z :=
  default 0 (priority <$> aget (sched_threads s) i).
Definition by_prio (s : sched_t) (i j : Z) : Prop := prio_of s i <= prio_of s j.

#[export] Instance by_prio_dec s : RelDecision (by_prio s).
Proof. intros i j. unfold by_prio. apply _. Defined.
#[export] Instance by_prio_trans s : Transitive (by_prio s).
Proof. intros i j l. unfold by_prio. lia. Qed.
#[export] Instance by_prio_total s : Total (by_prio s).
Proof. intros i j. unfold by_prio. lia. Qed.

(** Threads that wait: known, not runnable, linked from [l] in the order of
    their priorities. *)
Definition waits (s : sched_t) (i : Z) : Prop :=
  exists t, aget (sched_threads s) i = Some t /\ on_runqueue (status t) = false.
Definition wait_list (s : sched_t) (l : knode) (xs : list Z) : Prop :=
  chain (rq s) l (NThread <$> xs) /\ Forall (waits s) xs /\ Sorted (by_prio s) xs.

(** The sequence after [i] was queued. *)
Definition queue_up (s : sched_t) (i : Z) (xs : list Z) : list Z :=
  insert_by (fun x => bool_decide (by_prio s x i)) i xs.

Lemma prio_of_ok s i t : aget (sched_threads s) i = Some t -> prio_of s i = priority t.
Proof. intros Ht. unfold prio_of. by rewrite Ht. Qed.

Lemma load_rq_ok s a v : rq s !! a = Some v -> on_rq (load a) s = Ret v s.
Proof. intros Hv. apply on_rq_same. by apply load_ok. Qed.

(** The comparison of the loop, on list nodes. *)
Definition goes_before (s : sched_t) (i : Z) (n : knode) : bool :=
  match n with NThread x => bool_decide (by_prio s x i) | _ => true end.

Lemma add_to_list_raw s l i t xs fuel :
  chain (rq s) l (NThread <$> xs) -> Forall (waits s) xs -> NThread i ∉ l :: (NThread <$> xs) ->
  is_Some (rq s !! NThread i) -> aget (sched_threads s) i = Some t -> on_runqueue (status t) = false ->
  (length xs < fuel)%nat ->
  exists h, thread_add_to_list fuel l i s = Ret tt (with_rq h s) /\
    chain h l (insert_by (goes_before s i) (NThread i) (NThread <$> xs)) /\
    frame (rq s) h (NThread i :: l :: (NThread <$> xs)).
Proof.
  intros Hc Hw Hi Ha Ht Hoff Hf. unfold thread_add_to_list.
  rewrite (bind_ret _ _ _ _ _ (thread_at_ok _ _ _ Ht)), Hoff.
  rewrite (bind_ret (c_assert (negb false)) _ _ _ _ eq_refl).
  apply (insert_generic rq with_rq); [done..|by rewrite length_fmap|]. split.
  - intros p E. by rewrite (bind_ret _ _ _ _ _ (load_rq_ok _ _ _ E)).
  - intros p q E (x & -> & Hx)%list_elem_of_fmap. rewrite (bind_ret _ _ _ _ _ (load_rq_ok _ _ _ E)).
    rewrite (bind_ret (thread_of (NThread x)) _ _ _ _ eq_refl).
    rewrite Forall_forall in Hw. destruct (Hw x Hx) as (u & Hu & _).
    rewrite (bind_ret _ _ _ _ _ (thread_at_ok _ _ _ Hu)). cbn [goes_before].
    pose proof (prio_of_ok _ _ _ Hu). pose proof (prio_of_ok _ _ _ Ht).
    destruct (Z.ltb_spec (priority t) (priority u)); case_bool_decide as Hc1; unfold by_prio in Hc1; done || lia.
Qed.

Lemma wait_list_threads s s' l xs :
  rq s' = rq s -> sched_threads s' = sched_threads s -> wait_list s l xs -> wait_list s' l xs.
Proof.
  intros Hq Ht (Hc & Hw & Hs). unfold wait_list, waits, by_prio, prio_of. by rewrite Hq, Ht.
Qed.

Lemma add_to_list_ok s Q l i t xs fuel :
  rq_rep s Q -> wait_list s l xs -> (forall j, l <> NThread j) -> i ∉ xs ->
  aget (sched_threads s) i = Some t -> on_runqueue (status t) = false -> (length xs < fuel)%nat ->
  exists h, thread_add_to_list fuel l i s = Ret tt (with_rq h s) /\
    wait_list (with_rq h s) l (queue_up s i xs) /\
    frame (rq s) h (NThread i :: l :: (NThread <$> xs)).
Proof.
  intros Hr (Hc & Hw & Hs) Hl Hi Ht Hoff Hf. pose proof (aget_range _ _ _ Ht) as Hir.
  destruct (add_to_list_raw s l i t xs fuel Hc Hw) as (h & E & Hc' & Hfr); [| |done..|].
  - intros [E|E%thread_fmap_elem]%elem_of_cons; [by eapply Hl|done].
  - destruct Hr as ([Hlen Ha] & _). apply Ha.
    unfold KERNEL_PID_LAST, KERNEL_PID_FIRST, KERNEL_PID_UNDEF, MAXTHREADS. lia.
  - exists h. split; [done|]. split; [|done]. rewrite insert_by_fmap in Hc'. split; [exact Hc'|]. split.
    + unfold queue_up. rewrite insert_perm. constructor; [by exists t|done].
    + exact (insert_sorted (by_prio s) i xs Hs).
Qed.

(** ** Giving up the processor without being runnable *)

Lemma yield_blocked k i t fuel :
  sched_active_thread (sch k) = Some i -> aget (sched_threads (sch k)) i = Some t ->
  on_runqueue (status t) = false -> priority t <> SCHED_PERIODIC_PRIO_LEVEL ->
  sched_yield fuel k = Ret tt k.
Proof.
  intros Ha Ht Hoff Hne. unfold sched_yield. rewrite (bind_ret _ _ _ _ _ (on_sched_gets _ _)), Ha.
  rewrite bind_assoc, (bind_ret _ _ _ _ _ (on_thread _ _ _ Ht)), Hoff. cbn [when].
  rewrite (bind_ret (ret tt) _ _ _ _ eq_refl). unfold unwrap. rewrite (bind_ret (ret i) _ _ _ _ eq_refl).
  by rewrite (bind_ret _ _ _ _ _ (on_thread _ _ _ Ht)), (proj2 (Z.eqb_neq _ _) Hne).
Qed.

Lemma block_switches k Q p j i t fuel c :
  rq_rep (sch k) Q -> most_urgent Q p j -> p <> SCHED_PERIODIC_PRIO_LEVEL ->
  sched_active_thread (sch k) = Some i -> aget (sched_threads (sch k)) i = Some t ->
  on_runqueue (status t) = false -> priority t <> SCHED_PERIODIC_PRIO_LEVEL ->
  quiet (hw k) -> (17 <= fuel)%nat ->
  exists k' tj, thread_yield_higher fuel c k = Ret (resume_of tj (scheduler_entry (sch k))) k' /\
    sched_active_thread (sch k') = Some j /\ aget (sched_threads (sch k')) j = Some tj /\
    status tj = STATUS_RUNNING /\ rq_rep (sch k') Q /\ tmr k' = tmr k /\ rq (sch k') = rq (sch k) /\
    aget (sched_threads (sch k')) i = Some (saved_by (c_stack c) (c_caller c) t) /\
    (forall x u, x <> i -> aget (sched_threads (sch k)) x = Some u -> on_runqueue (status u) = false ->
       aget (sched_threads (sch k')) x = Some u).
Proof.
  intros Hr Hu Hne Ha Ht Hoff Hpe Hqu Hf.
  set (k1 := with_sch (with_threads (threads_after (sch k) i (saved_by (c_stack c) (c_caller c) t)) (sch k)) k).
  pose proof (saved_rep (sch k) Q i t (c_stack c) (c_caller c) Hr Ht) as Hr1.
  assert (aget (sched_threads (sch k1)) i = Some (saved_by (c_stack c) (c_caller c) t)) as Ht1 by by eapply threads_after_eq.
  assert (status (saved_by (c_stack c) (c_caller c) t) = status t /\
          priority (saved_by (c_stack c) (c_caller c) t) = priority t) as [Est Epr].
  { unfold saved_by. by destruct (_ =? _). }
  assert (sched_active_thread (sch k1) = Some i) as Ha1 by exact Ha.
  assert (i <> j) as Hij.
  { intros ->. destruct Hu as (Hp & Hh & _). destruct Hr as (_ & _ & Hq & _).
    destruct (proj1 (Hq p j Hp) (head_in _ _ Hh)) as (u & Hu & Hon & _). congruence. }
  destruct (run_plain k1 Q p j fuel Hr1 Hu Hne) as (s' & E2 & Hsw); [| |done|].
  { unfold active_ok. rewrite Ha1, Ht1. done. }
  { intros (a & ta & Ha' & Hta & Hst & _). rewrite Ha1 in Ha'. injection Ha' as <-. rewrite Ht1 in Hta.
    injection Hta as <-. rewrite Est in Hst. by rewrite Hst in Hoff. }
  destruct (sw_thread _ _ _ _ _ Hsw) as (tj & Htj & _).
  destruct (sw_new _ _ _ _ _ Hsw) as (t0 & _ & _ & Htj' & _).
  pose proof (restore_ok (with_sch s' k1) j tj (sw_active _ _ _ _ _ Hsw) Htj) as E3.
  destruct (sw_rest _ _ _ _ _ Hsw) as (Hrq & _ & _ & He).
  exists (with_hw (with_unprotected_sp (unprotected_sp_of tj) (hw k)) (with_sch s' k1)), tj.
  split; [|split; [exact (sw_active _ _ _ _ _ Hsw)|split; [exact Htj|split]]].
  - assert (EXITLESS_FUNCTION_TYPE_YIELD <> EXITLESS_FUNCTION_TYPE_EXIT) as Hty by done.
    unfold thread_yield_higher, exitless_entry.
    rewrite (bind_ret _ _ _ _ _ (save_caller_ok k i t _ (c_stack c) (c_caller c) Ha Ht Hty)).
    refine (eq_trans (default_quiet k1 fuel Hqu) _).
    unfold thread_yield_higher_internal. cbn [when].
    rewrite (bind_ret _ _ _ _ _ (yield_blocked k1 i _ fuel Ha1 Ht1 (eq_trans (f_equal on_runqueue Est) Hoff) (eq_ind_r (fun p => p <> _) Hpe Epr))).
    rewrite (bind_ret _ _ _ _ _ E2), E3. do 2 f_equal. exact He.
  - change (aget (sched_threads s') j = Some tj) in Htj. rewrite decide_False in Htj' by congruence.
    rewrite Htj in Htj'. by injection Htj' as ->.
  - split; [exact (sw_rep _ _ _ _ _ Hsw)|]. split; [done|]. split; [exact Hrq|].
    split.
    + refine (eq_trans (sw_old _ _ _ _ _ Hsw i _ Ha1 Hij Ht1) _).
      rewrite decide_False; [done|]. rewrite Est. intros E. by rewrite E in Hoff.
    + intros x u Hxi Hx Hux.
      assert (x <> j) as Hxj.
      { intros ->. destruct Hu as (Hp & Hh & _). destruct Hr as (_ & _ & Hq & _).
        destruct (proj1 (Hq p j Hp) (head_in _ _ Hh)) as (w & Hw & Hon & _). congruence. }
      refine (eq_trans (sw_others _ _ _ _ _ Hsw x Hxj ltac:(rewrite Ha1; congruence)) _).
      refine (eq_trans (threads_after_ne (sch k) i x _ _ Ht Hxi) Hx).
Qed.

(** ** Properties *)

(** C8 [thread_create] with [THREAD_CREATE_WOUT_YIELD], for a priority open to
    unprotected threads and a free entry that is not marked as queued, takes
    the first free entry of the table, queues the thread behind the others of
    its priority and touches no other thread; and the stack pointer it stores
    leads to a frame from which the processor starts the task function with
    its argument, with interrupts enabled, returning into [sched_task_exit].
    The other flags make no difference: also with [THREAD_CREATE_SLEEPING],
    for which thread.h promises a thread that sleeps until it is woken up, the
    new thread is pending and queued. *)
Theorem thread_create_starts_task k Q p t fuel c exit stack stacksize prio flags function arg m :
  rq_rep (sch k) Q -> first_free (sch k) p -> p <= KERNEL_PID_LAST ->
  aget (sched_threads (sch k)) p = Some t -> on_runqueue (status t) = false ->
  SCHED_MAX_PRIO_LEVEL_UNPROTECTED <= prio < SCHED_PRIO_LEVELS ->
  Z.land flags THREAD_CREATE_WOUT_YIELD <> 0 ->
  exists s' m' tp, thread_create fuel c exit stack stacksize prio flags function arg m k
      = Ret (p, m', None) (with_sch s' k) /\
    rq_rep s' (set_queue Q prio (Q prio ++ [p])) /\ aget (sched_threads s') p = Some tp /\
    status tp = STATUS_PENDING /\ priority tp = prio /\ pid tp = p /\ in_use tp = true /\ is_sm tp = false /\
    resume_words (sp tp) m'
      = Some ([14; 13; 12; 11; 10; 9; 8; 7; 6; 5; 4; u16 arg], GIE, u16 function, u16 exit) /\
    (forall j, j <> p -> aget (sched_threads s') j = aget (sched_threads (sch k)) j) /\
    sched_active_thread s' = sched_active_thread (sch k).
Proof.
  intros Hr Hfree Hp Ht Hoff Hprio Hfl. destruct (align_stack stack stacksize) as [stk size] eqn:Ea.
  pose proof (stack_init_ok exit function arg stk size m) as Hst.
  destruct (thread_stack_init exit function arg stk size m) as [v m'] eqn:Es. destruct Hst as [Hres _].
  destruct (thread_create_ok k Q p t fuel c exit stack stacksize prio flags function arg m v m' Hr Hfree Hp Ht Hoff
    Hprio Hfl) as (s' & E & Hr' & Hth & Hact & _); [by rewrite Ea, Es|].
  exists s', m', (set_status STATUS_PENDING (new_thread p prio false v t)).
  split; [done|]. split; [done|]. split; [by rewrite Hth; eapply threads_after_eq|].
  do 5 (split; [done|]). split; [done|]. split; [|done].
  intros j Hj. rewrite Hth. by eapply threads_after_ne.
Qed.

(** C35 The error paths of thread creation.  A priority reserved for enclaves
    is refused with [-EINVAL], a full table with [-EOVERFLOW] for an
    unprotected thread, and nothing changes.  For a protected thread a full
    table is not noticed: the error is taken for an index and the entry
    before the table is written.  A priority of 16 or more, for which thread.h
    promises [-EINVAL], is used to index the run queues. *)
Theorem thread_create_error_paths k p t fuel c exit stack stacksize prio flags function arg m v entry idx :
  (0 <= prio < SCHED_MAX_PRIO_LEVEL_UNPROTECTED ->
     thread_create fuel c exit stack stacksize prio flags function arg m k = Ret (- EINVAL, m, None) k /\
     thread_create_unprotected_in_scheduler prio v (sch k) = Ret (- EINVAL) (sch k)) /\
  (first_free (sch k) 33 ->
     (SCHED_MAX_PRIO_LEVEL_UNPROTECTED <= prio ->
      thread_create_unprotected_in_scheduler prio v (sch k) = Ret (- EOVERFLOW) (sch k)) /\
     thread_create_protected_in_scheduler prio v entry idx (sch k) = Err OutOfBounds) /\
  (SCHED_PRIO_LEVELS <= prio -> first_free (sch k) p -> p <= KERNEL_PID_LAST ->
   aget (sched_threads (sch k)) p = Some t -> on_runqueue (status t) = false ->
   is_Some (rq (sch k) !! NThread p) -> rq (sch k) !! NRunq prio = None ->
     thread_create_unprotected_in_scheduler prio v (sch k) = Err BadAddr).
Proof.
  split; [|split].
  - intros Hp. unfold thread_create, thread_create_unprotected_in_scheduler.
    by rewrite (proj2 (Z.ltb_lt _ _)) by lia.
  - intros Hfull. assert (forall sm, _thread_create_scheduler_internal prio sm v (sch k) = Ret (- EOVERFLOW) (sch k)) as E.
    { intros sm. unfold _thread_create_scheduler_internal. by rewrite (bind_ret _ _ _ _ _ (free_pid_ok _ _ Hfull)). }
    split.
    + intros Hp. unfold thread_create_unprotected_in_scheduler. by rewrite (proj2 (Z.ltb_ge _ _)) by lia.
    + unfold thread_create_protected_in_scheduler. by rewrite (bind_ret _ _ _ _ _ (E true)).
  - intros Hp Hfree Hple Ht Hoff [n Hn] Hnone. unfold thread_create_unprotected_in_scheduler.
    rewrite (proj2 (Z.ltb_ge prio SCHED_MAX_PRIO_LEVEL_UNPROTECTED)) by (change SCHED_MAX_PRIO_LEVEL_UNPROTECTED with 3; unfold SCHED_PRIO_LEVELS in Hp; lia).
    unfold _thread_create_scheduler_internal.
    rewrite (bind_ret _ _ _ _ _ (free_pid_ok _ _ Hfree)), (proj2 (Z.leb_le _ _) Hple).
    destruct Hfree as ((Hp1 & _) & _).
    rewrite (proj2 (Z.eqb_neq p KERNEL_PID_UNDEF)) by (unfold KERNEL_PID_UNDEF; lia).
    rewrite !upd_thread_fuse. cbv beta. rewrite (bind_ret _ _ _ _ _ (upd_thread_ok _ _ _ _ Ht)).
    change (set_sp v _) with (new_thread p prio false v t). set (s1 := with_threads _ (sch k)).
    rewrite (bind_ret _ _ _ _ _ (on_rq_ok _ s1 _ _ (store_ok _ _ _ _ Hn))), (bind_ret _ _ _ _ _ (modify_ok _ _)).
    set (s2 := with_num_threads _ _).
    assert (aget (sched_threads s2) p = Some (new_thread p prio false v t)) as Ht2 by by eapply threads_after_eq.
    apply bind_err. unfold sched_set_status. rewrite (bind_ret _ _ _ _ _ (thread_at_ok _ _ _ Ht2)).
    change (on_runqueue STATUS_PENDING) with true. change (status (new_thread p prio false v t)) with (status t). rewrite Hoff. cbn [negb when].
    rewrite bind_assoc. apply bind_err, on_rq_err. cbn. unfold sm_clist_rpush. apply bind_err.
    unfold load. cbn. by rewrite lookup_insert_ne, Hnone.
Qed.

(** [thread_wakeup] wakes exactly a thread that sleeps: it is queued
    behind the others of its priority and 1 is returned.  A pid outside 1 to
    32, and a thread in any other state, give [STATUS_NOT_FOUND] and nothing
    changes.  It never switches. *)
Theorem thread_wakeup_only_sleeping k Q pid :
  rq_rep (sch k) Q ->
  (~ 1 <= pid <= 32 -> thread_wakeup pid k = Ret STATUS_NOT_FOUND k) /\
  (1 <= pid <= 32 -> exists t, aget (sched_threads (sch k)) pid = Some t /\
     (status t <> STATUS_SLEEPING -> thread_wakeup pid k = Ret STATUS_NOT_FOUND k) /\
     (status t = STATUS_SLEEPING -> 0 <= priority t < SCHED_PRIO_LEVELS ->
      exists s', thread_wakeup pid k = Ret 1 (with_sch s' k) /\
        rq_rep s' (set_queue Q (priority t) (Q (priority t) ++ [pid])) /\
        sched_threads s' = threads_after (sch k) pid (set_status STATUS_RUNNING t) /\
        sched_active_thread s' = sched_active_thread (sch k))).
Proof.
  intros Hr. unfold thread_wakeup, thread_get, pid_is_valid.
  change KERNEL_PID_FIRST with 1. change KERNEL_PID_LAST with 32. split; intros Hp.
  - replace ((1 <=? pid) && (pid <=? 32)) with false by lia. by destruct k.
  - replace ((1 <=? pid) && (pid <=? 32)) with true by lia.
    destruct (aget_some (sched_threads (sch k)) pid) as [t Ht].
    { destruct Hr as ([-> _] & _). lia. }
    exists t. split; [done|]. rewrite (bind_ret (on_hw sm_irq_disable) _ k 0 k ltac:(by destruct k)).
    rewrite (bind_ret _ _ _ _ _ (on_thread _ _ _ Ht)). split; intros Hst.
    + rewrite bool_decide_false by done. by destruct k.
    + intros Hpr. rewrite bool_decide_true by done.
      destruct (set_status_rep (sch k) Q pid t STATUS_RUNNING Hr Ht Hpr) as (s' & E & Hr' & Es'); [done|].
      exists s'. rewrite (bind_ret _ _ _ _ _ (on_sched_ok _ _ _ _ E)). split; [by destruct k|].
      unfold queues_after in Hr'. rewrite Hst in Hr'. split; [exact Hr'|]. by rewrite Es'.
Qed.

Lemma wait_off_queues s Q l i t xs :
  rq_rep s Q -> Forall (waits s) xs -> off_queues Q l -> aget (sched_threads s) i = Some t ->
  on_runqueue (status t) = false -> Forall (off_queues Q) (NThread i :: l :: (NThread <$> xs)).
Proof.
  intros Hr Hw Hl Ht Hoff. constructor; [by eapply idle_off|]. constructor; [done|].
  apply Forall_fmap. eapply Forall_impl; [exact Hw|]. intros x (u & Hu & Hx). by eapply idle_off.
Qed.

(** C25 A thread that waits is linked behind the waiters at least as urgent as
    it is and in front of all others, so a wait list is always in priority
    order and first come first served within a priority; the run queues are
    not disturbed.  A runnable thread is refused by an assertion. *)
Theorem wait_list_ordered s Q l i t xs fuel :
  rq_rep s Q -> wait_list s l xs -> (forall j, l <> NThread j) -> off_queues Q l -> i ∉ xs ->
  aget (sched_threads s) i = Some t -> (length xs < fuel)%nat ->
  if on_runqueue (status t) then thread_add_to_list fuel l i s = Err AssertFail
  else exists h pre suf, thread_add_to_list fuel l i s = Ret tt (with_rq h s) /\ xs = pre ++ suf /\
    wait_list (with_rq h s) l (pre ++ i :: suf) /\ rq_rep (with_rq h s) Q /\
    Forall (fun x => prio_of s x <= prio_of s i) pre /\
    (forall x, head suf = Some x -> prio_of s i < prio_of s x).
Proof.
  intros Hr Hw Hl Hlo Hi Ht Hf. destruct (on_runqueue (status t)) eqn:Hon.
  { unfold thread_add_to_list. by rewrite (bind_ret _ _ _ _ _ (thread_at_ok _ _ _ Ht)), Hon. }
  destruct (add_to_list_ok s Q l i t xs fuel Hr Hw Hl Hi Ht Hon Hf) as (h & E & Hw' & Hfr).
  destruct (insert_stable (by_prio s) i xs) as (pre & suf & -> & Ei & Hp & Hs).
  exists h, pre, suf. unfold queue_up in Hw'. rewrite Ei in Hw'. do 3 (split; [done|]).
  split; [eapply rq_rep_frame; [done|exact Hfr|eapply wait_off_queues; [done|apply Hw|done..]]|].
  split; [exact Hp|]. intros x Hx. specialize (Hs x Hx). unfold by_prio in Hs. lia.
Qed.

(** A thread that sleeps outside an interrupt leaves its queue, keeps its
    context, and the thread then most urgent is resumed; inside an interrupt
    [thread_sleep] does nothing. *)
Theorem thread_sleep_leaves_queue k Q p p' i j t fuel c irq :
  rq_rep (sch k) Q -> sched_active_thread (sch k) = Some i -> aget (sched_threads (sch k)) i = Some t ->
  on_runqueue (status t) = true -> priority t = p -> 0 <= p < SCHED_PRIO_LEVELS ->
  head (Q p) = Some i -> most_urgent (set_queue Q p (tail (Q p))) p' j ->
  p <> SCHED_PERIODIC_PRIO_LEVEL -> p' <> SCHED_PERIODIC_PRIO_LEVEL -> quiet (hw k) -> (17 <= fuel)%nat ->
  if c_true irq then thread_sleep fuel c irq k = Ret None k
  else exists k' tj ti, thread_sleep fuel c irq k = Ret (Some (resume_of tj (scheduler_entry (sch k)))) k' /\
    sched_active_thread (sch k') = Some j /\ aget (sched_threads (sch k')) j = Some tj /\
    status tj = STATUS_RUNNING /\ rq_rep (sch k') (set_queue Q p (tail (Q p))) /\
    aget (sched_threads (sch k')) i = Some ti /\ status ti = STATUS_SLEEPING /\ sp ti = c_stack c /\
    tmr k' = tmr k.
Proof.
  intros Hr Ha Ht Hon Hpt Hp Hh Hu Hpe Hpe' Hqu Hf. unfold thread_sleep. destruct (c_true irq); [done|].
  rewrite (bind_ret irq_disable _ _ _ _ eq_refl).
  destruct (set_status_rep (sch k) Q i t STATUS_SLEEPING Hr Ht) as (s' & E & Hr' & Es'); [by rewrite Hpt|by rewrite Hpt|].
  unfold queues_after in Hr'. rewrite Hon, Hpt in Hr'. change (on_runqueue STATUS_SLEEPING) with false in Hr'.
  assert (sched_set_own_status STATUS_SLEEPING (sch k) = Ret tt s') as E'.
  { unfold sched_set_own_status. by rewrite (bind_ret _ _ _ _ _ (gets_ok _ _)), Ha. }
  rewrite (bind_ret _ _ _ _ _ (on_sched_ok _ _ _ _ E')), (bind_ret (irq_restore 0) _ _ _ _ eq_refl).
  set (k1 := with_sch s' k).
  assert (aget (sched_threads (sch k1)) i = Some (set_status STATUS_SLEEPING t)) as Ht1.
  { cbn. rewrite Es'. by eapply threads_after_eq. }
  assert (sched_active_thread (sch k1) = Some i) as Ha1 by (cbn; by rewrite Es').
  assert (priority (set_status STATUS_SLEEPING t) <> SCHED_PERIODIC_PRIO_LEVEL) as Hpe1 by (cbn; congruence).
  destruct (block_switches k1 _ p' j i _ fuel c Hr' Hu Hpe' Ha1 Ht1 eq_refl Hpe1 Hqu Hf)
    as (k' & tj & Ek & H1 & H2 & H3 & H4 & H5 & _ & H6 & _).
  exists k', tj, (saved_by (c_stack c) (c_caller c) (set_status STATUS_SLEEPING t)).
  split; [|do 5 (split; [done|]); split; [|split; [|exact H5]]].
  - rewrite (bind_ret _ _ _ _ _ Ek). unfold ret. do 3 f_equal. cbn. by rewrite Es'.
  - unfold saved_by. by destruct (_ =? _).
  - unfold saved_by. by destruct (_ =? _).
Qed.

(** ** Witnesses *)

Definition demo_call : call_site := Call 0x9000 0 0 0 0.

Lemma demo_first_free : first_free demo_sched 7.
Proof.
  split; [lia|]. split; [|intros _; by exists free_thread].
  intros i Hi. assert (i ∈ seqZ 1 6) as Hin by (apply elem_of_seqZ; lia). clear Hi. revert i Hin.
  rewrite <- Forall_forall. repeat constructor; eexists; split; reflexivity.
Qed.

Definition demo_full : sched_t :=
  with_threads (replicate 33 (demo_thread 9 9 STATUS_SLEEPING)) demo_sched.

Lemma demo_full_table : first_free demo_full 33.
Proof.
  split; [lia|]. split; [|intros H; exfalso; apply H; reflexivity].
  intros i Hi. exists (demo_thread 9 9 STATUS_SLEEPING). split; [|reflexivity].
  unfold aget. rewrite (proj2 (Z.leb_le _ _)) by lia. apply lookup_replicate_2. lia.
Qed.

Lemma thread_create_starts_task_witness :
  exists s' m' tp, thread_create 17 demo_call 0x4000 0x8001 101 9 4 0x5000 0x1234 ∅ demo_kst
      = Ret (7, m', None) (with_sch s' demo_kst) /\
    aget (sched_threads s') 7 = Some tp /\
    resume_words (sp tp) m' = Some ([14; 13; 12; 11; 10; 9; 8; 7; 6; 5; 4; 0x1234], GIE, 0x5000, 0x4000).
Proof.
  destruct (thread_create_starts_task demo_kst demo_queues 7 free_thread 17 demo_call 0x4000 0x8001 101 9 4
              0x5000 0x1234 ∅ demo_rep demo_first_free)
    as (s' & m' & tp & H1 & _ & H2 & _ & _ & _ & _ & _ & H3 & _).
  - discriminate.
  - reflexivity.
  - reflexivity.
  - split; [discriminate|reflexivity].
  - discriminate.
  - exists s', m', tp. split; [exact H1|]. split; [exact H2|exact H3].
Defined.

Lemma thread_create_error_paths_witness :
  thread_create_unprotected_in_scheduler 2 0x8000 demo_sched = Ret (- EINVAL) demo_sched /\
  thread_create_protected_in_scheduler 0 0x8000 0x6000 1 demo_full = Err OutOfBounds /\
  thread_create_unprotected_in_scheduler 16 0x8000 demo_sched = Err BadAddr.
Proof.
  split; [|split].
  - apply (proj1 (thread_create_error_paths demo_kst 7 free_thread 17 demo_call 0 0 0 2 0 0 0 ∅ 0x8000 0 0)).
    split; [discriminate|reflexivity].
  - apply (proj1 (proj2 (thread_create_error_paths (with_sch demo_full demo_kst) 7 free_thread 17 demo_call
             0 0 0 0 0 0 0 ∅ 0x8000 0x6000 1))). exact demo_full_table.
  - apply (proj2 (proj2 (thread_create_error_paths demo_kst 7 free_thread 17 demo_call 0 0 0 16 0 0 0 ∅ 0x8000 0 0))).
    + discriminate.
    + exact demo_first_free.
    + discriminate.
    + reflexivity.
    + reflexivity.
    + concrete.
    + concrete.
Defined.

Lemma thread_wakeup_only_sleeping_witness :
  thread_wakeup 33 demo_kst = Ret STATUS_NOT_FOUND demo_kst /\
  exists s', thread_wakeup 4 demo_kst = Ret 1 (with_sch s' demo_kst) /\ rq_rep s' (set_queue demo_queues 5 [4]).
Proof.
  destruct (thread_wakeup_only_sleeping demo_kst demo_queues 33 demo_rep) as [H1 _].
  destruct (thread_wakeup_only_sleeping demo_kst demo_queues 4 demo_rep) as [_ H2].
  split; [apply H1; lia|]. destruct (H2 ltac:(lia)) as (t & Ht & _ & H3).
  assert (t = demo_thread 4 5 STATUS_SLEEPING) as -> by (injection Ht as <-; reflexivity).
  destruct (H3 eq_refl) as (s' & E & Hr & _); [split; [discriminate|reflexivity]|].
  exists s'. split; [exact E|exact Hr].
Defined.

(** Threads 5 and 4 wait in line; 6 is as urgent as 5. *)
Definition demo_waiting : sched_t :=
  with_rq (<[NThread 4 := None]> (<[NThread 5 := Some (NThread 4)]> (<[NWait 0 := Some (NThread 5)]> (rq demo_sched))))
    demo_sched.

Lemma demo_waiting_rep : rq_rep demo_waiting demo_queues.
Proof. apply rq_check_ok. vm_compute. reflexivity. Qed.

Lemma demo_waiting_list : wait_list demo_waiting (NWait 0) [5; 4].
Proof.
  split; [split; [apply (bool_decide_eq_true_1 _); vm_compute; reflexivity|]|split].
  - repeat split; vm_compute; reflexivity.
  - repeat constructor; eexists; split; reflexivity.
  - repeat constructor; discriminate.
Qed.

Lemma wait_list_ordered_witness :
  exists h, thread_add_to_list 5 (NWait 0) 6 demo_waiting = Ret tt (with_rq h demo_waiting) /\
    exists pre suf, [5; 4] = pre ++ suf /\ wait_list (with_rq h demo_waiting) (NWait 0) (pre ++ 6 :: suf).
Proof.
  pose proof (wait_list_ordered demo_waiting demo_queues (NWait 0) 6 (demo_thread 6 1 STATUS_SLEEPING) [5; 4] 5
    demo_waiting_rep demo_waiting_list) as H.
  destruct H as (h & pre & suf & H1 & H2 & H3 & _).
  - discriminate.
  - exact I.
  - concrete.
  - reflexivity.
  - cbn. lia.
  - exists h. split; [exact H1|]. exists pre, suf. split; [exact H2|exact H3].
Defined.

Lemma demo_next_urgent : most_urgent (set_queue demo_queues 7 [3]) 7 3.
Proof.
  split; [split; [discriminate|reflexivity]|]. split; [reflexivity|].
  intros p Hp. rewrite set_queue_ne by lia. unfold demo_queues.
  by rewrite (proj2 (Z.eqb_neq p 15)), (proj2 (Z.eqb_neq p 7)) by lia.
Qed.

Lemma thread_sleep_leaves_queue_witness :
  exists k' tj, thread_sleep 17 demo_call 0 demo_kst = Ret (Some (resume_of tj 0)) k' /\
    sched_active_thread (sch k') = Some 3 /\ rq_rep (sch k') (set_queue demo_queues 7 [3]).
Proof.
  pose proof (thread_sleep_leaves_queue demo_kst demo_queues 7 7 2 3 (demo_thread 2 7 STATUS_RUNNING) 17
    demo_call 0 demo_rep) as H.
  destruct H as (k' & tj & ti & H1 & H2 & _ & _ & H3 & _).
  - reflexivity.
  - reflexivity.
  - reflexivity.
  - reflexivity.
  - split; [discriminate|reflexivity].
  - reflexivity.
  - exact demo_next_urgent.
  - discriminate.
  - discriminate.
  - exact (demo_quiet 1000).
  - lia.
  - exists k', tj. split; [exact H1|]. split; [exact H2|exact H3].
Defined.
