(* ===== verification/Periodic.v ===== *)
(** * Turning a thread into a periodic one (core/thread.c) *)

From S2P Require Import Prelude Clist ClistSpec ListInsert KState RunQueue TimerHw Mintimer.
From S2P Require Import TimerLists TimerPeriod TimerProps Sched SchedProps Cpu Thread ThreadProps.

(** The entry of the thread when its first period begins at [now]. *)
Definition periodic_entry (th : thread_t) (rt per now : Z) : thread_t :=
  Thread (is_sm th) (sp th) (sm_idx th) STATUS_SLEEPING SCHED_PERIODIC_PRIO_LEVEL (pid th) (in_use th) (sm_entry th)
         per rt now 0 (sm_idx th).

(** An update of one entry through the state of the kernel. *)
Lemma upd_sched_step {A} k i t0 t f (g : M kst A) :
  aget (sched_threads (sch k)) i = Some t0 ->
  bind (on_sched (upd_thread i f)) (fun _ => g) (with_sch (with_threads (threads_after (sch k) i t) (sch k)) k)
  = g (with_sch (with_threads (threads_after (sch k) i (f t)) (sch k)) k).
Proof. intros Ht. by rewrite (bind_ret _ _ _ _ _ (upd_on_sched_twice k i t0 t f Ht)). Qed.

(** C26 A thread of pid below 15 that is first of its queue, or not runnable,
    becomes a periodic one while the timers are in order; [lo0], [lo] and [lo'] are the three readings of
    the counter, which does not run over between the last two and is then more
    than the backoff of 200 short of the end of the period.  The thread is
    asleep and in no queue, its entry is of the periodic priority with the
    period, the budget, a reference of now and its entry index kept for later,
    and the timer of its slot is set for it: for a period of at least 300 (and
    what passed between the two readings) with a start an overhead of 300
    before now plus the period, for a shorter one, of 201 to 299, later than
    that by 2^32. *)
Theorem periodic_thread_sleeps k ls Q i th rt per fuel :
  timers_rep (tmr k) ls -> hw_wf (hw k) -> counters_ok (tmr k) -> _long_cnt (tmr k) < 2 ^ 32 - 1 -> rq_rep (sch k) Q ->
  (forall hd, hd ∈ heads -> (length (ls hd) < Datatypes.S fuel)%nat) ->
  0 <= i < 15 -> is_timer (tmr k) (TSlot i) -> idle_unlinked (tmr k) ls (TSlot i) ->
  aget (sched_threads (sch k)) i = Some th -> 0 <= priority th < SCHED_PRIO_LEVELS ->
  (on_runqueue (status th) = true -> head (Q (priority th)) = Some i) -> in_u 32 per ->
  let lo0 := u16 (clock (hw k) (reads (hw k))) in
  let lo := u16 (clock (hw k) (Datatypes.S (reads (hw k)))) in
  let lo' := u16 (clock (hw k) (Datatypes.S (Datatypes.S (reads (hw k))))) in
  let target := u32 (time32 (tmr k) lo + per) in
  SECURE_MINTIMER_BACKOFF < u32 (target - time32 (tmr k) lo') -> lo <= lo' ->
  let start := time64 (tmr k) lo + per - SECURE_MINTIMER_OVERHEAD
               + if per <? SECURE_MINTIMER_OVERHEAD + (lo' - lo) then 2 ^ 32 else 0 in
  let hd := place (tmr k) start (time64 (tmr k) lo') in
  exists k' xs, thread_change_to_periodical (Datatypes.S fuel) i rt per k = Ret tt k' /\
    rq_rep (sch k') (queues_after Q (priority th) i (status th) STATUS_SLEEPING) /\
    sched_threads (sch k') = threads_after (sch k) i (periodic_entry th rt per (time32 (tmr k) lo0)) /\
    (forall p, 0 <= p < SCHED_PRIO_LEVELS -> i ∉ queues_after Q (priority th) i (status th) STATUS_SLEEPING p) /\
    xs ≡ₚ TSlot i :: drop_timer (TSlot i) ls hd /\
    timers_rep (tmr k') (set_list (drop_timer (TSlot i) ls) hd xs) /\
    target_of (tmr k') (TSlot i) = target /\ start64 (tmr k') (TSlot i) = start /\ t_thread (tmr k') !! TSlot i = Some (Some i).
Proof.
  intros Hr Hw Hcnt Hlong Hq Hf Hi Hn Hu Ht Hp Hh Hper lo0 lo lo' target Hoff Hll start hd.
  destruct (set_status_rep (sch k) Q i th STATUS_SLEEPING Hq Ht Hp) as (s' & E & Hq' & Es); [by auto|].
  assert (sched_threads s' = threads_after (sch k) i (set_status STATUS_SLEEPING th)) as Hth by by rewrite Es.
  set (Q' := queues_after _ _ _ _ _) in *. set (k1 := with_sch s' k).
  assert (aget (sched_threads (sch k1)) i = Some (set_status STATUS_SLEEPING th)) as Ht1.
  { change (aget (sched_threads s') i = Some (set_status STATUS_SLEEPING th)). rewrite Hth. by eapply threads_after_eq. }
  set (now := time32 (tmr k) lo0). set (u := periodic_entry th rt per now).
  set (k2 := tick (with_sch (with_threads (threads_after s' i u) s') k)).
  assert (rq_rep (sch k2) Q') as Hq2 by (by eapply rq_rep_idle).
  assert (aget (sched_threads (sch k2)) i = Some u) as Ht2 by (by eapply threads_after_eq).
  destruct (tsleep_sleeps k2 ls Q' i u per fuel Hr Hw Hcnt Hlong Hq2 Hf Hi Hn Hu Ht2) as (k' & xs & E2 & H1 & H2 & H3);
    [by split|done|exact Hper|exact Hoff|exact Hll|].
  assert (aget (sched_threads (sch k')) i = Some (set_status STATUS_SLEEPING u)) as Hti by (rewrite H2; by eapply threads_after_eq).
  exists k', xs. split; [|split; [exact H1|split; [|split; [|exact H3]]]].
  - unfold thread_change_to_periodical. rewrite (bind_ret _ _ _ _ _ (on_sched_ok _ _ _ _ E)). fold k1.
    rewrite (bind_ret _ _ _ _ _ (upd_on_sched k1 i _ _ Ht1)), (upd_sched_step k1 i _ _ _ _ Ht1).
    rewrite (bind_ret _ _ _ _ _ (now_internal_ok _)). change (tmr (with_sch _ k1)) with (tmr k).
    change (tar (hw (with_sch _ k1))) with lo0. fold now. set (k3 := tick k1).
    change (tick (with_sch ?s k1)) with (with_sch s k3).
    change (sch k1) with (sch k3). rewrite !(upd_sched_step k3 i _ _ _ _ Ht1). exact E2.
  - rewrite H2. change (sch k2) with (with_threads (threads_after s' i u) s'). unfold threads_after. cbn.
    rewrite list_insert_insert_eq, Hth. unfold threads_after. by rewrite list_insert_insert_eq.
  - intros p Hpp Hin. destruct H1 as (_ & _ & H1 & _). apply (H1 p i Hpp) in Hin as (w & Hw' & Hon & _).
    change (queues_after Q' (priority u) i (status u) STATUS_SLEEPING) with Q' in *.
    replace w with (set_status STATUS_SLEEPING u) in Hon by congruence. done.
Qed.

Lemma periodic_thread_sleeps_witness :
  exists k' xs, thread_change_to_periodical 5 2 1000 5000 demo_kst = Ret tt k' /\
    rq_rep (sch k') (set_queue demo_queues 7 [3]) /\ xs ≡ₚ TSlot 2 :: drop_timer (TSlot 2) demo_ls HTimer /\
    start64 (tmr k') (TSlot 2) = 5 * 2 ^ 32 + 131072 + 1001 + 5000 - 300.
Proof.
  destruct (periodic_thread_sleeps demo_kst demo_ls demo_queues 2 (demo_thread 2 7 STATUS_RUNNING) 1000 5000 4
              demo_timers_rep (conj eq_refl eq_refl) demo_counters eq_refl demo_rep (demo_fuel 5 ltac:(lia)))
    as (k' & xs & H1 & H2 & _ & _ & H3 & _ & _ & H4 & _).
  - lia.
  - concrete.
  - intros _. apply demo_unlinked. concrete.
  - reflexivity.
  - cbv. split; [discriminate|reflexivity].
  - reflexivity.
  - vm_compute. split; [discriminate|reflexivity].
  - vm_compute. reflexivity.
  - vm_compute. discriminate.
  - exists k', xs. split; [exact H1|]. split; [exact H2|]. split; [exact H3|exact H4].
Defined.
