(* ===== verification/Mutex.v ===== *)
(** * Mutexes (core/mutex.c, mutex.h)

    A mutex is one list node: null when it is free, [mutex_LOCKED] when it is
    held and nobody waits, otherwise the first waiter.  A call that blocks
    ends in what is resumed; the number beside it is what the call returns
    when the thread runs again. *)

From stdpp Require Import sorting.
From S2P Require Import Prelude Clist KState RunQueue TimerHw Mintimer Sched Cpu Thread.

Definition mutex_LOCKED : knode := NLocked.

Definition mutex_init (mutex : knode) : M sched_t unit := on_rq (store mutex None).

Definition _mutex_lock (fuel : nat) (c : call_site) (mutex : knode) (blocking : Z)
    : M kst (Z * option resumed) :=
  let! next := on_sched (on_rq (load mutex)) in
  if decide (next = None) then
    do! on_sched (on_rq (store mutex (Some mutex_LOCKED)));
    ret (1, None)
  else if c_true blocking then
    let! a := on_sched (gets sched_active_thread) in
    let! me := unwrap NullDeref a in
    do! on_sched (sched_set_status me STATUS_MUTEX_BLOCKED);
    let! next := on_sched (on_rq (load mutex)) in
    do! (if decide (next = Some mutex_LOCKED) then
           do! on_sched (on_rq (store mutex (Some (NThread me))));
           on_sched (on_rq (store (NThread me) None))
         else on_sched (thread_add_to_list fuel mutex me));
    let! r := thread_yield_higher fuel c in
    ret (1, Some r)
  else ret (0, None).

Definition mutex_trylock (fuel : nat) (c : call_site) (mutex : knode) : M kst Z :=
  let! '(r, _) := _mutex_lock fuel c mutex 0 in ret r.

Definition mutex_lock (fuel : nat) (c : call_site) (mutex : knode) : M kst (option resumed) :=
  let! '(_, r) := _mutex_lock fuel c mutex 1 in ret r.

(** The part both ways of unlocking share: the first waiter becomes
    runnable and the mutex stays locked for it. *)
Definition wake_waiter (mutex : knode) : M sched_t Z :=
  let! next := on_rq (list_remove_head mutex) in
  let! n := unwrap NullDeref next in
  let! process := thread_of n in
  do! sched_set_status process STATUS_PENDING;
  let! rest := on_rq (load mutex) in
  do! when (bool_decide (rest = None)) (on_rq (store mutex (Some mutex_LOCKED)));
  ret process.

Definition mutex_unlock (fuel : nat) (mutex : knode) : M kst unit :=
  let! next := on_sched (on_rq (load mutex)) in
  if decide (next = None) then ret tt
  else if decide (next = Some mutex_LOCKED) then on_sched (on_rq (store mutex None))
  else
    let! process := on_sched (wake_waiter mutex) in
    let! t := on_sched (thread_at process) in
    let! _ := sched_switch_internal_allow_yield fuel (priority t) false in
    ret tt.

Definition mutex_unlock_and_sleep (fuel : nat) (c : call_site) (mutex : knode) : M kst resumed :=
  let! next := on_sched (on_rq (load mutex)) in
  do! (if decide (next = None) then ret tt
       else if decide (next = Some mutex_LOCKED) then on_sched (on_rq (store mutex None))
       else let! _ := on_sched (wake_waiter mutex) in ret tt);
  let! a := on_sched (gets sched_active_thread) in
  let! me := unwrap NullDeref a in
  do! on_sched (sched_set_status me STATUS_SLEEPING);
  thread_yield_higher fuel c.
