(* ===== verification/MutexProps.v ===== *)
(** * Properties of mutexes (Mutex.v)

    A mutex refines an abstract lock: free, or held with a queue of waiters
    in priority order; unlocking hands it to the first waiter. *)

From stdpp Require Import sorting.
From S2P Require Import Prelude Clist ClistSpec ListInsert KState RunQueue TimerHw Mintimer.
From S2P Require Import TimerLists TimerProps Sched SchedProps Cpu Thread ThreadProps Mutex.

(** ** The abstract lock *)

(** [None]: free; [Some xs]: held, with the threads [xs] waiting. *)
Abbreviation lock := (option (list Z)).

Definition mutex_rep (s : sched_t) (m : Z) (v : lock) : Prop :=
  match v with
  | None => rq s !! NMutex m = Some None
  | Some [] => rq s !! NMutex m = Some (Some mutex_LOCKED)
  | Some xs => wait_list s (NMutex m) xs
  end.

Lemma mutex_off Q m : off_queues Q (NMutex m).
Proof. done. Qed.

(** What the queue pointer holds. *)
Definition lock_word (v : lock) : option knode :=
  match v with None => None | Some [] => Some mutex_LOCKED | Some (x :: _) => Some (NThread x) end.

Lemma mutex_word s m v : mutex_rep s m v -> rq s !! NMutex m = Some (lock_word v).
Proof. destruct v as [[|x r]|]; [done| |done]. intros ([_ [H _]] & _). exact H. Qed.

Lemma load_word k m v :
  mutex_rep (sch k) m v -> on_sched (on_rq (load (NMutex m))) k = Ret (lock_word v) k.
Proof.
  intros H%mutex_word. rewrite (on_sched_ok _ _ _ _ (load_rq_ok _ _ _ H)). by rewrite with_sch_id.
Qed.

Lemma lock_word_none v : lock_word v = None <-> v = None.
Proof. by destruct v as [[|]|]. Qed.
Lemma lock_word_locked v : lock_word v = Some mutex_LOCKED <-> v = Some [].
Proof. by destruct v as [[|]|]. Qed.

(** ** Changing the run queues around a wait list *)

(** A wait list depends on its links and on the state and priority of its
    threads. *)
Lemma wait_list_same s s' l xs :
  chain (rq s') l (NThread <$> xs) ->
  (forall x u, x ∈ xs -> aget (sched_threads s) x = Some u ->
     exists u', aget (sched_threads s') x = Some u' /\ status u' = status u /\ priority u' = priority u) ->
  wait_list s l xs -> wait_list s' l xs.
Proof.
  intros Hc' Hsame (_ & Hw & Hs). split; [exact Hc'|].
  assert (forall x, x ∈ xs -> prio_of s' x = prio_of s x /\ waits s' x) as H.
  { intros x Hx. rewrite Forall_forall in Hw. destruct (Hw x Hx) as (u & Hu & Hoff).
    destruct (Hsame x u Hx Hu) as (u' & Hu' & E1 & E2).
    rewrite (prio_of_ok _ _ _ Hu), (prio_of_ok _ _ _ Hu'). split; [done|]. exists u'. by rewrite E1. }
  split; [apply Forall_forall; intros x Hx; by apply H|].
  clear -Hs H. induction Hs as [|x r Hs IH Hx]; constructor.
  - apply IH. intros y Hy. apply H. by apply list_elem_of_further.
  - destruct Hx as [|y r Hxy]; constructor. unfold by_prio in *.
    destruct (H x) as [-> _]; [set_solver|]. destruct (H y) as [-> _]; [set_solver|done].
Qed.

(** Waiting threads are on no run queue, so [sched_set_status] on others
    leaves a wait list alone. *)
Lemma wait_list_status s Q l xs i t st s' :
  rq_rep s Q -> wait_list s l xs -> off_queues Q l -> (forall j, l <> NThread j) -> i ∉ xs ->
  aget (sched_threads s) i = Some t -> 0 <= priority t < SCHED_PRIO_LEVELS ->
  frame (rq s) (rq s') (NThread i :: NRunq (priority t) :: (NThread <$> Q (priority t))) ->
  sched_threads s' = threads_after s i (set_status st t) -> wait_list s' l xs.
Proof.
  intros Hr (Hc & Hw & Hs) Hl Hnt Hi Ht Hp Hf Hth.
  pose proof Hw as Hw'. rewrite Forall_forall in Hw'.
  apply (wait_list_same s); [|intros x u Hx Hu|done].
  - eapply chain_frame; [exact Hf| |exact Hc]. intros a Ha Hin.
    apply elem_of_cons in Ha as [->|(x & -> & Hx)%list_elem_of_fmap].
    + apply elem_of_cons in Hin as [E|[E|Hin]%elem_of_cons]; [by eapply Hnt| |].
      * subst l. by apply Hl.
      * apply list_elem_of_fmap in Hin as (j & E & _). by eapply Hnt.
    + apply elem_of_cons in Hin as [[= ->]|[E|Hin]%elem_of_cons]; [done|done|].
      apply thread_fmap_elem in Hin. destruct (Hw' x Hx) as (u & Hu & Hoff).
      by apply (idle_off s Q x u Hr Hu Hoff (priority t)).
  - exists u. rewrite Hth. split; [|done]. rewrite (threads_after_ne _ _ _ t); [done|done|]. by intros ->.
Qed.

(** ** Unlocking *)

(** The first waiter becomes runnable and the mutex is handed to it. *)
Lemma wake_waiter_ok s Q m x r tx :
  rq_rep s Q -> mutex_rep s m (Some (x :: r)) -> aget (sched_threads s) x = Some tx ->
  0 <= priority tx < SCHED_PRIO_LEVELS ->
  exists s', wake_waiter (NMutex m) s = Ret x s' /\
    rq_rep s' (set_queue Q (priority tx) (Q (priority tx) ++ [x])) /\ mutex_rep s' m (Some r) /\
    sched_threads s' = threads_after s x (set_status STATUS_PENDING tx) /\
    sched_active_thread s' = sched_active_thread s /\
    sched_context_switch_request s' = sched_context_switch_request s /\
    sched_active_pid s' = sched_active_pid s.
Proof.
  intros Hr (Hc & Hw & Hs) Hx Hp.
  assert (on_runqueue (status tx) = false) as Hoff.
  { apply Forall_inv in Hw as (u & Hu & ?). congruence. }
  destruct (list_remove_head_spec _ _ _ Hc) as (h & E & Hc1 & Hf).
  unfold wake_waiter. rewrite (bind_ret _ _ _ _ _ (on_rq_ok _ _ _ _ E)). cbn [fmap list_fmap head tail] in *.
  unfold unwrap. rewrite (bind_ret (ret (NThread x)) _ _ _ _ eq_refl), (bind_ret (thread_of (NThread x)) _ _ _ _ eq_refl).
  set (s1 := with_rq h s).
  assert (rq_rep s1 Q) as Hr1 by (eapply rq_rep_frame; [done|exact Hf|by repeat constructor]).
  destruct (set_status_rep s1 Q x tx STATUS_PENDING Hr1 Hx Hp) as (s2 & E2 & Hr2 & Es2); [done|].
  pose proof (set_status_frame s1 Q x tx STATUS_PENDING s2 Hr1 Hx Hp E2) as Hf2.
  unfold queues_after in Hr2. rewrite Hoff in Hr2. change (on_runqueue STATUS_PENDING) with true in Hr2. cbn iota in Hr2.
  assert (wait_list s1 (NMutex m) r) as Hw1.
  { split; [exact Hc1|]. split; [by apply Forall_inv_tail in Hw|]. by apply Sorted_inv in Hs as [Hs _]. }
  assert (x ∉ r) as Hxr.
  { destruct Hc as [Hd _]. apply NoDup_cons in Hd as [_ Hd]. apply (NoDup_cons (NThread x)) in Hd as [Hd _].
    intros Hin. by apply Hd, thread_fmap_elem. }
  assert (wait_list s2 (NMutex m) r) as Hw2.
  { eapply (wait_list_status s1 Q); [done|done|done|done|exact Hxr|exact Hx|exact Hp|exact Hf2|by rewrite Es2]. }
  assert (rq s2 !! NMutex m = Some (NThread <$> head r)) as Hm2.
  { rewrite <- head_fmap_thread, <- (app_nil_r (NThread <$> r)). exact (seg_head _ _ _ _ (proj2 (proj1 Hw2))). }
  rewrite (bind_ret _ _ _ _ _ E2), (bind_ret _ _ _ _ _ (load_rq_ok _ _ _ Hm2)).
  assert (sched_threads s2 = threads_after s x (set_status STATUS_PENDING tx)) as Eth by by rewrite Es2.
  destruct r as [|y r]; cbn [head fmap option_fmap option_map] in *.
  - rewrite bool_decide_true by done. cbn [when].
    rewrite (bind_ret _ _ _ _ _ (on_rq_ok _ s2 _ _ (store_ok _ _ _ _ Hm2))).
    eexists. split; [done|]. split; [|split; [cbn; by simplify_map_eq|split; [exact Eth|]]].
    + eapply (rq_rep_frame s2 _ _ [NMutex m]); [done|apply frame_insert; [set_solver|apply frame_refl]|by repeat constructor].
    + cbn. by rewrite Es2.
  - rewrite bool_decide_false by done. exists s2. do 3 (split; [done|]). split; [done|]. by rewrite Es2.
Qed.

(** Unlocking only asks for a switch. *)
Lemma allow_no_yield k a t other fuel :
  sched_active_thread (sch k) = Some a -> aget (sched_threads (sch k)) a = Some t ->
  on_runqueue (status t) = true ->
  sched_switch_internal_allow_yield fuel other false k
  = Ret None (if other <? priority t then with_sch (with_request 1 (sch k)) k else k).
Proof.
  intros Ha Ht Hon. unfold sched_switch_internal_allow_yield.
  rewrite (bind_ret _ _ _ _ _ (on_sched_gets _ _)), Ha. unfold unwrap.
  rewrite (bind_ret (ret a) _ _ _ _ eq_refl), (bind_ret _ _ _ _ _ (on_thread _ _ _ Ht)), Hon.
  cbn [negb orb]. destruct (other <? priority t); [|done].
  rewrite (bind_ret _ _ _ _ _ (on_sched_ok _ _ _ _ (modify_ok _ _))).
  unfold sm_irq_is_in. rewrite (bind_ret _ _ _ _ _ (on_hw_gets _ _)). by destruct (c_true _).
Qed.

Lemma store_mutex_ok s Q m v w :
  rq_rep s Q -> rq s !! NMutex m = Some v ->
  exists s', on_rq (store (NMutex m) w) s = Ret tt s' /\ rq_rep s' Q /\ rq s' !! NMutex m = Some w /\
    s' = with_rq (<[NMutex m := w]> (rq s)) s.
Proof.
  intros Hr Hv. eexists. split; [exact (on_rq_ok _ _ _ _ (store_ok _ _ _ _ Hv))|]. split; [|split; [|done]].
  - eapply (rq_rep_frame s _ _ [NMutex m]); [done|apply frame_insert; [set_solver|apply frame_refl]|by repeat constructor].
  - cbn. by simplify_map_eq.
Qed.

(** ** Blocking *)

(** The active thread joins the waiters. *)
Lemma join_waiters s Q m xs i t fuel :
  rq_rep s Q -> mutex_rep s m (Some xs) -> aget (sched_threads s) i = Some t ->
  on_runqueue (status t) = false -> i ∉ xs -> (length xs < fuel)%nat ->
  exists h,
    (if decide (lock_word (Some xs) = Some mutex_LOCKED) then
       do! on_rq (store (NMutex m) (Some (NThread i))); on_rq (store (NThread i) None)
     else thread_add_to_list fuel (NMutex m) i) s = Ret tt (with_rq h s) /\
    mutex_rep (with_rq h s) m (Some (queue_up s i xs)) /\ rq_rep (with_rq h s) Q.
Proof.
  intros Hr Hm Ht Hoff Hi Hf. destruct xs as [|x r].
  - rewrite decide_True by done. pose proof (mutex_word _ _ _ Hm) as Hv.
    assert (is_Some (rq s !! NThread i)) as [v Hn].
    { destruct Hr as ([Hl Ha] & _). apply Ha. pose proof (aget_range _ _ _ Ht).
      unfold KERNEL_PID_LAST, KERNEL_PID_FIRST, KERNEL_PID_UNDEF, MAXTHREADS. lia. }
    exists (<[NThread i := None]> (<[NMutex m := Some (NThread i)]> (rq s))).
    rewrite (bind_ret _ _ _ _ _ (on_rq_ok _ _ _ _ (store_ok _ _ _ _ Hv))).
    set (s1 := with_rq _ s).
    assert (rq s1 !! NThread i = Some v) as Hn1 by (cbn; by rewrite lookup_insert_ne).
    split; [by rewrite (on_rq_ok _ s1 _ _ (store_ok _ _ _ _ Hn1))|]. split.
    + split; [|split; [constructor; [by exists t|constructor]|repeat constructor]]. split.
      * constructor; [set_solver|]. repeat constructor. set_solver.
      * cbn. by simplify_map_eq.
    + eapply (rq_rep_frame s Q _ [NThread i; NMutex m]); [done| |].
      * apply frame_insert; [set_solver|]. apply frame_insert; [set_solver|apply frame_refl].
      * constructor; [by eapply idle_off|by constructor].
  - rewrite decide_False by done.
    destruct (add_to_list_ok s Q (NMutex m) i t (x :: r) fuel Hr Hm ltac:(discriminate) Hi Ht Hoff Hf) as (h & E & Hw & Hfr).
    exists h. split; [done|]. split.
    + unfold mutex_rep. destruct (queue_up s i (x :: r)) as [|y ys] eqn:Eq; [|exact Hw].
      unfold queue_up in Eq. pose proof (insert_perm (fun y => bool_decide (by_prio s y i)) i (x :: r)) as Hp.
      rewrite Eq in Hp. by apply Permutation_nil_cons in Hp.
    + eapply rq_rep_frame; [done|exact Hfr|]. eapply wait_off_queues; [done|apply Hm|done..].
Qed.


(** A change of status of a thread that does not wait for the mutex. *)
Lemma mutex_rep_status s Q m v i t st s' :
  rq_rep s Q -> mutex_rep s m v -> (forall xs, v = Some xs -> i ∉ xs) ->
  aget (sched_threads s) i = Some t -> 0 <= priority t < SCHED_PRIO_LEVELS ->
  sched_set_status i st s = Ret tt s' -> sched_threads s' = threads_after s i (set_status st t) ->
  mutex_rep s' m v.
Proof.
  intros Hr Hm Hi Ht Hp E Hth. pose proof (set_status_frame s Q i t st s' Hr Ht Hp E) as Hf.
  assert (rq s' !! NMutex m = Some (lock_word v)) as Hv.
  { rewrite (proj1 Hf); [by apply mutex_word|]. intros [?|[?|H]%elem_of_cons]%elem_of_cons; [done..|].
    apply list_elem_of_fmap in H as (? & ? & _). done. }
  destruct v as [[|x r]|]; [done| |done].
  eapply (wait_list_status s Q); [done|exact Hm|done|done|by apply Hi|done..].
Qed.

Lemma prio_of_status s i t st s' x :
  aget (sched_threads s) i = Some t -> sched_threads s' = threads_after s i (set_status st t) ->
  prio_of s' x = prio_of s x.
Proof.
  intros Ht Hth. unfold prio_of. rewrite Hth. destruct (decide (x = i)) as [->|Hne].
  - by rewrite (threads_after_eq _ _ _ _ Ht), Ht.
  - by rewrite (threads_after_ne _ _ _ _ _ Ht Hne).
Qed.

(** The state in which a blocked caller switches. *)
Lemma lock_blocks k Q m xs i t fuel :
  rq_rep (sch k) Q -> mutex_rep (sch k) m (Some xs) ->
  sched_active_thread (sch k) = Some i -> aget (sched_threads (sch k)) i = Some t ->
  on_runqueue (status t) = true -> 0 <= priority t < SCHED_PRIO_LEVELS -> head (Q (priority t)) = Some i ->
  (length xs < fuel)%nat ->
  exists s1, (forall c, _mutex_lock fuel c (NMutex m) 1 k
      = bind (thread_yield_higher fuel c) (fun r => ret (1, Some r)) (with_sch s1 k)) /\
    mutex_rep s1 m (Some (queue_up (sch k) i xs)) /\
    rq_rep s1 (set_queue Q (priority t) (tail (Q (priority t)))) /\
    sched_active_thread s1 = Some i /\ aget (sched_threads s1) i = Some (set_status STATUS_MUTEX_BLOCKED t) /\
    scheduler_entry s1 = scheduler_entry (sch k) /\
    sched_threads s1 = threads_after (sch k) i (set_status STATUS_MUTEX_BLOCKED t) /\
    sched_active_pid s1 = sched_active_pid (sch k).
Proof.
  intros Hr Hm Ha Ht Hon Hp Hh Hf.
  assert (i ∉ xs) as Hi.
  { destruct xs as [|x r]; [set_solver|]. destruct Hm as (_ & Hw & _). intros Hin.
    rewrite Forall_forall in Hw. destruct (Hw i Hin) as (u & Hu & Hoff). congruence. }
  destruct (set_status_rep (sch k) Q i t STATUS_MUTEX_BLOCKED Hr Ht Hp) as (s' & E & Hr' & Es'); [done|].
  assert (sched_threads s' = threads_after (sch k) i (set_status STATUS_MUTEX_BLOCKED t)) as Hth by by rewrite Es'.
  unfold queues_after in Hr'. rewrite Hon in Hr'. change (on_runqueue STATUS_MUTEX_BLOCKED) with false in Hr'. cbn iota in Hr'.
  assert (mutex_rep s' m (Some xs)) as Hm' by exact (mutex_rep_status (sch k) Q m (Some xs) i t _ s' Hr Hm ltac:(by intros ? [= <-]) Ht Hp E Hth).
  assert (aget (sched_threads s') i = Some (set_status STATUS_MUTEX_BLOCKED t)) as Ht'.
  { rewrite Hth. by eapply threads_after_eq. }
  destruct (join_waiters s' _ m xs i _ fuel Hr' Hm' Ht' eq_refl Hi Hf) as (h & Ej & Hmj & Hrj).
  exists (with_rq h s'). split; [intros c|split; [|split; [done|split; [|split; [done|split; [by rewrite Es'|split; [exact Hth|by rewrite Es']]]]]]].
  - unfold _mutex_lock. rewrite (bind_ret _ _ _ _ _ (load_word _ _ _ Hm)).
    rewrite decide_False by (by rewrite lock_word_none). cbn [c_true negb Z.eqb].
    change (c_true 1) with true. cbn iota.
    rewrite (bind_ret _ _ _ _ _ (on_sched_gets _ _)), Ha. unfold unwrap.
    rewrite (bind_ret (ret i) _ _ _ _ eq_refl), (bind_ret _ _ _ _ _ (on_sched_ok _ _ _ _ E)).
    rewrite (bind_ret _ _ _ _ _ (load_word (with_sch s' k) _ _ Hm')).
    refine (bind_ret _ (fun _ => let! r := thread_yield_higher fuel c in ret (1, Some r)) _ tt
              (with_sch (with_rq h s') k) _).
    destruct (decide (lock_word (Some xs) = Some mutex_LOCKED)).
    + apply bind_inv in Ej as ([] & s2 & E1 & E2).
      rewrite (bind_ret _ _ _ _ _ (on_sched_ok _ (with_sch s' k) _ _ E1)).
      exact (on_sched_ok _ (with_sch s2 (with_sch s' k)) _ _ E2).
    + exact (on_sched_ok _ (with_sch s' k) _ _ Ej).
  - replace (queue_up (sch k) i xs) with (queue_up s' i xs); [exact Hmj|].
    apply insert_by_ext. intros x _. apply bool_decide_ext. unfold by_prio.
    by rewrite !(prio_of_status _ _ _ _ _ _ Ht Hth).
  - by rewrite Es'.
Qed.

Lemma mutex_unlock_ok k Q m v a ta fuel :
  rq_rep (sch k) Q -> mutex_rep (sch k) m v ->
  sched_active_thread (sch k) = Some a -> aget (sched_threads (sch k)) a = Some ta ->
  on_runqueue (status ta) = true ->
  match v with
  | None => mutex_unlock fuel (NMutex m) k = Ret tt k
  | Some [] => exists s', mutex_unlock fuel (NMutex m) k = Ret tt (with_sch s' k) /\
      mutex_rep s' m None /\ rq_rep s' Q /\ sched_threads s' = sched_threads (sch k) /\
      sched_active_thread s' = Some a /\ sched_active_pid s' = sched_active_pid (sch k)
  | Some (x :: r) => forall tx, aget (sched_threads (sch k)) x = Some tx ->
      0 <= priority tx < SCHED_PRIO_LEVELS ->
      exists s', mutex_unlock fuel (NMutex m) k = Ret tt (with_sch s' k) /\
        mutex_rep s' m (Some r) /\ rq_rep s' (set_queue Q (priority tx) (Q (priority tx) ++ [x])) /\
        sched_threads s' = threads_after (sch k) x (set_status STATUS_PENDING tx) /\
        sched_context_switch_request s' =
          (if priority tx <? priority ta then 1 else sched_context_switch_request (sch k)) /\
        sched_active_thread s' = Some a /\ sched_active_pid s' = sched_active_pid (sch k)
  end.
Proof.
  intros Hr Hm Ha Hta Hon. unfold mutex_unlock.
  rewrite (bind_ret _ _ _ _ _ (load_word _ _ _ Hm)). destruct v as [[|x r]|]; cbn [lock_word].
  - rewrite decide_False, decide_True by done.
    destruct (store_mutex_ok (sch k) Q m _ None Hr Hm) as (s' & E & Hr' & Hv & ->).
    eexists. split; [exact (on_sched_ok _ _ _ _ E)|]. split; [exact Hv|]. split; [exact Hr'|]. split; [done|]. split; [exact Ha|done].
  - intros tx Hx Hp. rewrite !decide_False by done.
    destruct (wake_waiter_ok (sch k) Q m x r tx Hr Hm Hx Hp) as (s' & E & Hr' & Hm' & Eth & Ea & Ereq & Epid).
    rewrite (bind_ret _ _ _ _ _ (on_sched_ok _ _ _ _ E)). set (k1 := with_sch s' k).
    assert (aget (sched_threads (sch k1)) x = Some (set_status STATUS_PENDING tx)) as Hx1.
    { cbn. rewrite Eth. by eapply threads_after_eq. }
    assert (a <> x) as Hax.
    { intros ->. destruct Hm as (_ & Hw & _). apply Forall_inv in Hw as (u & Hu & Hoff). congruence. }
    assert (aget (sched_threads (sch k1)) a = Some ta) as Hta1.
    { cbn. rewrite Eth. exact (eq_trans (threads_after_ne _ _ _ _ _ Hx Hax) Hta). }
    rewrite (bind_ret _ _ _ _ _ (on_thread _ _ _ Hx1)).
    change (priority (set_status STATUS_PENDING tx)) with (priority tx).
    rewrite (bind_ret _ _ _ _ _ (allow_no_yield k1 a ta (priority tx) fuel (eq_trans Ea Ha) Hta1 Hon)).
    destruct (priority tx <? priority ta).
    + exists (with_request 1 s'). split; [done|]. split; [by destruct r as [|y r]|].
      split; [done|]. split; [done|]. split; [done|]. split; [exact (eq_trans Ea Ha)|exact Epid].
    + exists s'. do 5 (split; [done|]). split; [exact (eq_trans Ea Ha)|exact Epid].
  - done.
Qed.

(** ** Properties *)

(** C11 [mutex_unlock] implements the abstract unlock, for a runnable caller.  A
    free mutex stays free; a held one nobody waits for becomes free; otherwise
    the first waiter, the most urgent, becomes runnable, and when the call
    returns the mutex is held and the others still wait for it in their order,
    and a switch has been requested exactly when that thread is more urgent
    than the running one (a request made before stays). *)
Theorem mutex_unlock_hands_over k Q m v a ta fuel :
  rq_rep (sch k) Q -> mutex_rep (sch k) m v ->
  sched_active_thread (sch k) = Some a -> aget (sched_threads (sch k)) a = Some ta ->
  on_runqueue (status ta) = true ->
  match v with
  | None => mutex_unlock fuel (NMutex m) k = Ret tt k
  | Some [] => exists s', mutex_unlock fuel (NMutex m) k = Ret tt (with_sch s' k) /\
      mutex_rep s' m None /\ rq_rep s' Q /\ sched_threads s' = sched_threads (sch k)
  | Some (x :: r) => forall tx, aget (sched_threads (sch k)) x = Some tx ->
      0 <= priority tx < SCHED_PRIO_LEVELS ->
      exists s', mutex_unlock fuel (NMutex m) k = Ret tt (with_sch s' k) /\
        mutex_rep s' m (Some r) /\ rq_rep s' (set_queue Q (priority tx) (Q (priority tx) ++ [x])) /\
        sched_threads s' = threads_after (sch k) x (set_status STATUS_PENDING tx) /\
        sched_context_switch_request s' =
          if priority tx <? priority ta then 1 else sched_context_switch_request (sch k)
  end.
Proof.
  intros Hr Hm Ha Hta Hon. pose proof (mutex_unlock_ok k Q m v a ta fuel Hr Hm Ha Hta Hon) as H.
  destruct v as [[|x r]|]; [|intros tx Hx Hp|done].
  - destruct H as (s' & H). exists s'. naive_solver.
  - destruct (H tx Hx Hp) as (s' & H'). exists s'. naive_solver.
Qed.

(** C12 [mutex_trylock] takes a free mutex and returns 1; a held one it leaves
    alone and returns 0.  [mutex_lock] takes a free mutex without blocking;
    when it is held, the caller leaves its run queue and joins the waiters
    behind those at least as urgent, and the thread then most urgent is
    resumed.  The mutex is never taken twice. *)
Theorem mutex_lock_excludes k Q m v i t p p' j fuel c :
  rq_rep (sch k) Q -> mutex_rep (sch k) m v ->
  match v with
  | None => exists s', mutex_trylock fuel c (NMutex m) k = Ret 1 (with_sch s' k) /\
      mutex_lock fuel c (NMutex m) k = Ret None (with_sch s' k) /\
      mutex_rep s' m (Some []) /\ rq_rep s' Q /\ sched_threads s' = sched_threads (sch k)
  | Some xs => mutex_trylock fuel c (NMutex m) k = Ret 0 k /\
      (sched_active_thread (sch k) = Some i -> aget (sched_threads (sch k)) i = Some t ->
       on_runqueue (status t) = true -> priority t = p -> 0 <= p < SCHED_PRIO_LEVELS ->
       head (Q p) = Some i -> most_urgent (set_queue Q p (tail (Q p))) p' j ->
       p <> SCHED_PERIODIC_PRIO_LEVEL -> p' <> SCHED_PERIODIC_PRIO_LEVEL -> quiet (hw k) ->
       (17 <= fuel)%nat -> (length xs < fuel)%nat ->
       exists k' tj, mutex_lock fuel c (NMutex m) k = Ret (Some (resume_of tj (scheduler_entry (sch k)))) k' /\
         mutex_rep (sch k') m (Some (queue_up (sch k) i xs)) /\
         rq_rep (sch k') (set_queue Q p (tail (Q p))) /\
         sched_active_thread (sch k') = Some j /\ aget (sched_threads (sch k')) j = Some tj)
  end.
Proof.
  intros Hr Hm. destruct v as [xs|].
  - split; [unfold mutex_trylock, _mutex_lock; rewrite bind_assoc, (bind_ret _ _ _ _ _ (load_word _ _ _ Hm));
      by rewrite decide_False by (by rewrite lock_word_none)|].
    intros Ha Ht Hon Hpt Hp Hh Hu Hpe Hpe' Hqu Hf Hlen. subst p.
    destruct (lock_blocks k Q m xs i t fuel Hr Hm Ha Ht Hon Hp Hh Hlen) as (s1 & E & Hm1 & Hr1 & Ha1 & Ht1 & He1 & _).
    destruct (block_switches (with_sch s1 k) _ p' j i _ fuel c Hr1 Hu Hpe' Ha1 Ht1 eq_refl Hpe Hqu Hf)
      as (k' & tj & Ek & H1 & H2 & _ & H4 & _ & Hq & Hi' & Hoth).
    exists k', tj. split; [|split; [|by split]].
    + unfold mutex_lock. rewrite (bind_ret _ _ (k) (1, Some (resume_of tj (scheduler_entry s1))) k').
      * cbn. unfold ret. by rewrite He1.
      * rewrite E. by rewrite (bind_ret _ _ _ _ _ Ek).
    + pose proof Hm1 as Hm2. unfold mutex_rep in Hm1 |- *.
      destruct (queue_up (sch k) i xs) as [|y ys]; [cbn in Hq; by rewrite Hq|].
      apply (wait_list_same s1); [rewrite Hq; apply Hm1| |exact Hm1].
      intros x u Hx Hux. destruct (decide (x = i)) as [->|Hne].
      * exists (saved_by (c_stack c) (c_caller c) (set_status STATUS_MUTEX_BLOCKED t)). split; [exact Hi'|].
        assert (u = set_status STATUS_MUTEX_BLOCKED t) as -> by congruence.
        unfold saved_by. by destruct (_ =? _).
      * exists u. split; [|done]. apply Hoth; [done|done|].
        destruct Hm1 as (_ & Hw & _). rewrite Forall_forall in Hw. destruct (Hw x Hx) as (u' & Hu' & ?). congruence.
  - destruct (store_mutex_ok (sch k) Q m _ (Some mutex_LOCKED) Hr Hm) as (s' & E & Hr' & Hv & Es').
    assert (forall b, _mutex_lock fuel c (NMutex m) b k = Ret (1, None) (with_sch s' k)) as El.
    { intros b. unfold _mutex_lock. rewrite (bind_ret _ _ _ _ _ (load_word _ _ _ Hm)), decide_True by done.
      by rewrite (bind_ret _ _ _ _ _ (on_sched_ok _ _ _ _ E)). }
    exists s'. unfold mutex_trylock, mutex_lock. rewrite !(bind_ret _ _ _ _ _ (El _)).
    do 4 (split; [done|]). by rewrite Es'.
Qed.

(** ** Witnesses *)

(** Thread 2 runs; mutex 0 is held, in the second state with 4 waiting. *)
Definition demo_held : sched_t := with_rq (<[NMutex 0 := Some mutex_LOCKED]> (rq demo_sched)) demo_sched.
Definition demo_contended : sched_t :=
  with_rq (<[NThread 4 := None]> (<[NMutex 0 := Some (NThread 4)]> (rq demo_sched))) demo_sched.

Lemma demo_held_rep : rq_rep demo_held demo_queues.
Proof. apply rq_check_ok. vm_compute. reflexivity. Qed.
Lemma demo_contended_rep : rq_rep demo_contended demo_queues.
Proof. apply rq_check_ok. vm_compute. reflexivity. Qed.
Lemma demo_contended_waiters : mutex_rep demo_contended 0 (Some [4]).
Proof.
  split; [split; [apply (bool_decide_eq_true_1 _); vm_compute; reflexivity|]|split].
  - repeat split; vm_compute; reflexivity.
  - repeat constructor; eexists; split; reflexivity.
  - repeat constructor; discriminate.
Qed.

Lemma mutex_unlock_hands_over_witness :
  exists s', mutex_unlock 5 (NMutex 0) (with_sch demo_contended demo_kst)
      = Ret tt (with_sch s' (with_sch demo_contended demo_kst)) /\
    mutex_rep s' 0 (Some []) /\ sched_context_switch_request s' = 1.
Proof.
  destruct (mutex_unlock_hands_over (with_sch demo_contended demo_kst) demo_queues 0 (Some [4]) 2
              (demo_thread 2 7 STATUS_RUNNING) 5 demo_contended_rep demo_contended_waiters
              eq_refl eq_refl eq_refl (demo_thread 4 5 STATUS_SLEEPING) eq_refl) as (s' & H1 & H2 & _ & _ & H3).
  - split; [discriminate|reflexivity].
  - exists s'. split; [exact H1|]. split; [exact H2|exact H3].
Defined.

Lemma mutex_lock_excludes_witness :
  mutex_trylock 17 demo_call (NMutex 0) (with_sch demo_held demo_kst) = Ret 0 (with_sch demo_held demo_kst) /\
  exists k' tj, mutex_lock 17 demo_call (NMutex 0) (with_sch demo_held demo_kst) = Ret (Some (resume_of tj 0)) k' /\
    mutex_rep (sch k') 0 (Some [2]) /\ sched_active_thread (sch k') = Some 3.
Proof.
  destruct (mutex_lock_excludes (with_sch demo_held demo_kst) demo_queues 0 (Some []) 2
              (demo_thread 2 7 STATUS_RUNNING) 7 7 3 17 demo_call demo_held_rep) as [H1 H2].
  - exact (lookup_insert_eq _ _ _).
  - split; [exact H1|]. destruct H2 as (k' & tj & H3 & H4 & _ & H5 & _).
    + reflexivity.
    + reflexivity.
    + reflexivity.
    + reflexivity.
    + split; [discriminate|reflexivity].
    + reflexivity.
    + exact demo_next_urgent.
    + discriminate.
    + discriminate.
    + exact (demo_quiet 1000).
    + lia.
    + cbn. lia.
    + exists k', tj. split; [exact H3|]. split; [exact H4|exact H5].
Defined.
