(* ===== verification/Boot.v ===== *)
(** * Boot (core/kernel_init.c)

    The kernel makes the idle thread and the main thread and enters the
    scheduler.  The static data of the scheduler module is zero before. *)

From S2P Require Import Prelude Clist ClistSpec ListInsert KState RunQueue TimerHw Mintimer.
From S2P Require Import TimerLists TimerProps Sched SchedProps Cpu Thread ThreadProps.

(** ** thread.h and cpu_conf.h *)

Definition THREAD_CREATE_STACKTEST : Z := 8.
Definition THREAD_PRIORITY_MIN : Z := SCHED_PRIO_LEVELS - 1.
Definition THREAD_PRIORITY_IDLE : Z := THREAD_PRIORITY_MIN.
Definition THREAD_PRIORITY_MAIN : Z := THREAD_PRIORITY_MIN - SCHED_PRIO_LEVELS / 2.
Definition THREAD_EXTRA_STACKSIZE_PRINTF : Z := 256.
Definition THREAD_STACKSIZE_DEFAULT : Z := 256 + THREAD_EXTRA_STACKSIZE_PRINTF.
Definition THREAD_STACKSIZE_IDLE : Z := 96 + THREAD_EXTRA_STACKSIZE_PRINTF.
Definition THREAD_STACKSIZE_MAIN : Z := THREAD_STACKSIZE_DEFAULT + THREAD_EXTRA_STACKSIZE_PRINTF.

(** ** Static data of sched.c: zero *)

(** [ms] are the mutexes of the application, zero as well. *)
Definition sched_zero (ms : list Z) : sched_t :=
  Sched (replicate (Z.to_nat (KERNEL_PID_LAST + 1)) free_thread)
    (list_to_map (((fun m => (NMutex m, None)) <$> ms)
                  ++ ((fun p => (NRunq p, None)) <$> seqZ 0 SCHED_PRIO_LEVELS)
                  ++ ((fun i => (NThread i, None)) <$> seqZ 0 (KERNEL_PID_LAST + 1))))
    0 None KERNEL_PID_UNDEF 0 0 false 0.

(** ** kernel_init.c *)

(** The addresses the linker gives: the two stacks, the two functions, and
    [sched_task_exit]. *)
Record image : Type := Image {
  main_stack : Z; idle_stack : Z; idle_thread : Z; main_trampoline : Z; task_exit : Z
}.

(** The memory with the two first frames. *)
Definition create_threads (fuel : nat) (c : call_site) (im : image) (m : mem) : M kst mem :=
  let! '(_, m, _) := thread_create fuel c (task_exit im) (idle_stack im) THREAD_STACKSIZE_IDLE THREAD_PRIORITY_IDLE
    (Z.lor THREAD_CREATE_WOUT_YIELD THREAD_CREATE_STACKTEST) (idle_thread im) 0 m in
  let! '(_, m, _) := thread_create fuel c (task_exit im) (main_stack im) THREAD_STACKSIZE_MAIN THREAD_PRIORITY_MAIN
    (Z.lor THREAD_CREATE_WOUT_YIELD THREAD_CREATE_STACKTEST) (main_trampoline im) 0 m in
  ret m.

Definition kernel_init (fuel : nat) (c : call_site) (im : image) (m : mem) : M kst (mem * resumed) :=
  let! m := create_threads fuel c im m in
  let! r := scheduler_kernel_init fuel c in
  ret (m, r).

(** ** Frames that do not overlap *)

Lemma push_all_other vs sp m a :
  (forall j, (j < length vs)%nat -> a <> u16 (sp - 2 * (Z.of_nat j + 1))) ->
  (push_all vs (u16 sp, m)).2 !! a = m !! a.
Proof.
  induction vs as [|x vs IH] using rev_ind; intros Ha; [done|]. rewrite length_app in Ha. cbn in Ha.
  rewrite push_all_app. cbn [push_all foldl]. fold (push_all vs (u16 sp, m)).
  change ((push x (push_all vs (u16 sp, m))).2)
    with (<[u16 ((push_all vs (u16 sp, m)).1 - 2) := u16 x]> (push_all vs (u16 sp, m)).2).
  rewrite push_all_sp, wrapu_sub_l, lookup_insert_ne.
  - apply IH. intros j Hj. apply Ha. lia.
  - specialize (Ha (length vs) ltac:(lia)). intros E. apply Ha. rewrite <- E. f_equal. lia.
Qed.

(** The fifteen words below [top]. *)
Definition in_frame (top a : Z) : Prop := exists j, 1 <= j <= 15 /\ a = top - 2 * j.

Lemma stack_init_frame exit task arg start size m a :
  32 <= stack_top start size < 65536 -> ~ in_frame (stack_top start size) a ->
  (thread_stack_init exit task arg start size m).2 !! a = m !! a.
Proof.
  intros Htop Ha. unfold thread_stack_init. rewrite push_registers_all.
  set (s0 := stack_top start size) in *. set (vs := [exit; task; GIE; arg] ++ seqZ 4 11).
  change (push_all (seqZ 4 (Z.of_nat 11)) (push arg (push GIE (push task (push exit (s0, m))))))
    with (push_all vs (s0, m)).
  rewrite <- (wrapu_id 16 s0) by (unfold in_u; lia). apply push_all_other. intros j Hj.
  change (length vs) with 15%nat in Hj. rewrite wrapu_id by (unfold in_u; lia).
  intros ->. apply Ha. exists (Z.of_nat j + 1). lia.
Qed.

Lemma pop_words_same n : forall sp m m',
  (forall i, (i < n)%nat -> m' !! u16 (sp + 2 * Z.of_nat i) = m !! u16 (sp + 2 * Z.of_nat i)) ->
  pop_words n (u16 sp) m' = pop_words n (u16 sp) m.
Proof.
  induction n as [|n IH]; intros sp m m' H; [done|]. cbn [pop_words].
  assert (m' !! u16 sp = m !! u16 sp) as -> by (specialize (H O ltac:(lia)); by rewrite Z.add_0_r in H).
  rewrite wrapu_add_l, (IH (sp + 2) m m'); [done|]. intros i Hi. specialize (H (Datatypes.S i) ltac:(lia)).
  replace (sp + 2 + 2 * Z.of_nat i) with (sp + 2 * Z.of_nat (Datatypes.S i)) by lia. exact H.
Qed.

(** A frame that nothing was written to resumes the same. *)
Lemma resume_words_same top m m' :
  30 <= top < 65536 -> (forall a, in_frame top a -> m' !! a = m !! a) ->
  resume_words (u16 (top - 30)) m' = resume_words (u16 (top - 30)) m.
Proof.
  intros Htop H. unfold resume_words. rewrite (pop_words_same 15 (top - 30) m m'); [done|].
  intros i Hi. rewrite wrapu_id by (unfold in_u; lia). apply H. exists (15 - Z.of_nat i). lia.
Qed.

(** The top of an aligned stack. *)
Lemma align_top stack stacksize :
  0 <= stack -> 64 <= stacksize < 30000 -> stack + stacksize < 65536 ->
  let '(stk, size) := align_stack stack stacksize in
  stack + stacksize - 4 <= stack_top stk size <= stack + stacksize - 2.
Proof.
  intros Hs Hz Hlt. unfold align_stack, ALIGN_OF_PTR, ALIGN_OF_THREAD.
  pose proof (Z.mod_pos_bound stack 2 ltac:(lia)) as Hm. pose proof (Z.div_mod stack 2 ltac:(lia)) as Hd.
  assert (forall stk size, 0 <= stk -> stk mod 2 = 0 -> 32 <= size < 32768 -> stk + size < 65536 ->
    stk + size - 3 <= stack_top stk (s16 (u16 size - u16 size mod 2)) <= stk + size - 2) as H.
  { intros stk size H0 He H1 H2. pose proof (Z.mod_pos_bound size 2 ltac:(lia)) as Hr.
    pose proof (Z.div_mod size 2 ltac:(lia)) as Hq. rewrite (wrapu_id 16 size) by (unfold in_u; lia).
    rewrite wraps_id by (unfold in_s; lia). unfold stack_top. rewrite (wrapu_id 16 (stk + _)) by (unfold in_u; lia).
    assert (Z.land (stk + (size - size mod 2)) 0xfffe = stk + (size - size mod 2)) as ->.
    { set (x := stk + (size - size mod 2)). assert (x mod 2 = 0) as Hx.
      { subst x. rewrite <- Zplus_mod_idemp_l, He. replace (0 + (size - size mod 2)) with ((size / 2) * 2) by lia.
        apply Z_mod_mult. }
      apply Z.bits_inj'. intros i Hi. rewrite Z.land_spec. change 0xfffe with (Z.shiftl (Z.ones 15) 1).
      rewrite Z.shiftl_spec by lia. destruct (decide (i = 0)) as [->|].
      - rewrite Z.bit0_odd, Zodd_mod, Hx. done.
      - rewrite Z.testbit_ones by lia. destruct (decide (i < 16)) as [Hlti|Hge].
        + rewrite (proj2 (Z.leb_le _ _)), (proj2 (Z.ltb_lt _ _)) by lia. by rewrite andb_true_r.
        + rewrite (Z.bits_above_log2 x i); [done|subst x; lia|].
          apply (Z.le_lt_trans _ 15); [|lia]. apply Z.lt_succ_r, Z.log2_lt_pow2; subst x; lia. }
    rewrite wrapu_id by (unfold in_u; lia). lia. }
  assert (stack mod 2 = 0 \/ stack mod 2 = 1) as [E|E] by lia; rewrite E; cbn [c_true negb Z.eqb].
  - pose proof (H stack stacksize Hs E ltac:(lia) Hlt). lia.
  - change (2 - 1) with 1. rewrite wrapu_id by (unfold in_u; lia). rewrite (wraps_id 16 (stacksize - 1)) by (unfold in_s; lia).
    pose proof (H (stack + 1) (stacksize - 1) ltac:(lia)) as H1. rewrite <- Zplus_mod_idemp_l, E in H1. specialize (H1 eq_refl ltac:(lia) ltac:(lia)).
    lia.
Qed.

(** ** Properties *)

(** The queues once the two threads exist. *)
Definition boot_queues : Z -> list Z := set_queue (set_queue (fun _ => []) THREAD_PRIORITY_IDLE [1]) THREAD_PRIORITY_MAIN [2].

Lemma sched_zero_rep ms : rq_rep (sched_zero ms) (fun _ => []).
Proof.
  induction ms as [|m ms IH]; [apply rq_check_ok; vm_compute; reflexivity|].
  change (sched_zero (m :: ms)) with (with_rq (<[NMutex m := None]> (rq (sched_zero ms))) (sched_zero ms)).
  eapply (rq_rep_frame _ _ _ [NMutex m]); [done|apply frame_insert; [by left|apply frame_refl]|by repeat constructor].
Qed.

Lemma sched_zero_mutex ms m : m ∈ ms -> rq (sched_zero ms) !! NMutex m = Some None.
Proof.
  induction ms as [|x ms IH]; [by intros ?%not_elem_of_nil|]. intros Hin.
  change (rq (sched_zero (x :: ms))) with (<[NMutex x := None]> (rq (sched_zero ms))).
  destruct (decide (x = m)) as [->|Hne]; [by rewrite lookup_insert_eq|]. rewrite lookup_insert_ne by congruence.
  apply IH. set_solver.
Qed.

Lemma sched_zero_free ms : first_free (sched_zero ms) 1.
Proof. split; [lia|]. split; [lia|]. intros _. by exists free_thread. Qed.

Lemma free_after_first ms s t : sched_threads s = threads_after (sched_zero ms) 1 t -> in_use t = true -> first_free s 2.
Proof.
  intros E Hu. split; [lia|]. split.
  - intros i Hi. assert (i = 1) as -> by lia. exists t. by rewrite E.
  - intros _. exists free_thread. by rewrite E.
Qed.

(** Two stacks of the image that lie inside memory, one behind the other. *)
Definition image_ok (im : image) : Prop :=
  0 <= idle_stack im /\ idle_stack im + THREAD_STACKSIZE_IDLE < 65536 /\
  0 <= main_stack im /\ main_stack im + THREAD_STACKSIZE_MAIN < 65536 /\
  (idle_stack im + THREAD_STACKSIZE_IDLE <= main_stack im \/ main_stack im + THREAD_STACKSIZE_MAIN <= idle_stack im).

(** A thread that waits to be started at [task]. *)
Definition ready (s : sched_t) (m : mem) (i prio task exit : Z) : Prop :=
  exists t, aget (sched_threads s) i = Some t /\ status t = STATUS_PENDING /\ priority t = prio /\ pid t = i /\
    in_use t = true /\ is_sm t = false /\
    resume_words (sp t) m = Some ([14; 13; 12; 11; 10; 9; 8; 7; 6; 5; 4; 0], GIE, u16 task, u16 exit).

(** Both frames are in the memory the second creation leaves. *)
Lemma frames_ok im m :
  image_ok im ->
  exists v1 m1 v2 m2,
    (let '(stk, size) := align_stack (idle_stack im) THREAD_STACKSIZE_IDLE in
     thread_stack_init (task_exit im) (idle_thread im) 0 stk size m) = (v1, m1) /\
    (let '(stk, size) := align_stack (main_stack im) THREAD_STACKSIZE_MAIN in
     thread_stack_init (task_exit im) (main_trampoline im) 0 stk size m1) = (v2, m2) /\
    resume_words v1 m2
      = Some ([14; 13; 12; 11; 10; 9; 8; 7; 6; 5; 4; 0], GIE, u16 (idle_thread im), u16 (task_exit im)) /\
    resume_words v2 m2
      = Some ([14; 13; 12; 11; 10; 9; 8; 7; 6; 5; 4; 0], GIE, u16 (main_trampoline im), u16 (task_exit im)).
Proof.
  intros (Hi & Hi' & Hm & Hm' & Hd).
  pose proof (align_top (idle_stack im) THREAD_STACKSIZE_IDLE Hi ltac:(split; [discriminate|reflexivity]) Hi') as H1.
  pose proof (align_top (main_stack im) THREAD_STACKSIZE_MAIN Hm ltac:(split; [discriminate|reflexivity]) Hm') as H2.
  change THREAD_STACKSIZE_IDLE with 352 in *. change THREAD_STACKSIZE_MAIN with 768 in *.
  destruct (align_stack (idle_stack im) 352) as [k1 z1], (align_stack (main_stack im) 768) as [k2 z2].
  pose proof (stack_init_ok (task_exit im) (idle_thread im) 0 k1 z1 m) as F1.
  destruct (thread_stack_init (task_exit im) (idle_thread im) 0 k1 z1 m) as [v1 m1] eqn:E1.
  pose proof (stack_init_ok (task_exit im) (main_trampoline im) 0 k2 z2 m1) as F2.
  pose proof (stack_init_frame (task_exit im) (main_trampoline im) 0 k2 z2 m1) as Fr.
  destruct (thread_stack_init (task_exit im) (main_trampoline im) 0 k2 z2 m1) as [v2 m2] eqn:E2.
  change (u16 0) with 0 in F1, F2. destruct F1 as [F1 ->], F2 as [F2 ->]. exists (u16 (stack_top k1 z1 - 30)), m1, (u16 (stack_top k2 z2 - 30)), m2.
  split; [done|]. split; [exact E2|]. split; [|exact F2]. rewrite <- F1. apply resume_words_same; [lia|].
  intros a (j & Hj & ->). apply Fr; [lia|]. intros (i & Hir & E). lia.
Qed.

Lemma boot_urgent : most_urgent boot_queues THREAD_PRIORITY_MAIN 2.
Proof.
  split; [split; [discriminate|reflexivity]|]. split; [reflexivity|]. intros p Hp. unfold boot_queues.
  change THREAD_PRIORITY_MAIN with 7 in *. change THREAD_PRIORITY_IDLE with 15.
  by rewrite !set_queue_ne by lia.
Qed.

(** Creation touches no mutex. *)
Lemma frame_mutex h h' p q xs m :
  frame h h' (NThread p :: NRunq q :: (NThread <$> xs)) -> h' !! NMutex m = h !! NMutex m.
Proof.
  intros [Hf _]. apply Hf. rewrite !elem_of_cons. by intros [?|[?|(? & ? & _)%list_elem_of_fmap]].
Qed.

(** What the two creations leave, for any memory and any hardware. *)
Lemma create_threads_ok k fuel c im m ms :
  sch k = sched_zero ms -> image_ok im ->
  exists s m', create_threads fuel c im m k = Ret m' (with_sch s k) /\ rq_rep s boot_queues /\
    ready s m' 1 THREAD_PRIORITY_IDLE (idle_thread im) (task_exit im) /\
    ready s m' 2 THREAD_PRIORITY_MAIN (main_trampoline im) (task_exit im) /\
    sched_active_thread s = None /\ initialization_done s = false /\
    (forall i t, i <> 1 -> i <> 2 -> aget (sched_threads s) i = Some t -> t = free_thread) /\
    (forall x, x ∈ ms -> rq s !! NMutex x = Some None).
Proof.
  intros Hz Him. destruct (frames_ok im m Him) as (v1 & m1 & v2 & m2 & S1 & S2 & F1 & F2).
  set (fl := Z.lor THREAD_CREATE_WOUT_YIELD THREAD_CREATE_STACKTEST).
  assert (Z.land fl THREAD_CREATE_WOUT_YIELD <> 0) as Hfl by done.
  destruct (thread_create_ok k (fun _ => []) 1 free_thread fuel c (task_exit im) (idle_stack im) THREAD_STACKSIZE_IDLE
    THREAD_PRIORITY_IDLE fl (idle_thread im) 0 m v1 m1) as (s1 & E1 & Hr1 & T1 & A1 & _ & I1 & G1);
    [rewrite Hz; apply sched_zero_rep|rewrite Hz; apply sched_zero_free|done|by rewrite Hz|done|done|exact Hfl|exact S1|].
  rewrite Hz in T1, A1, I1, G1.
  destruct (thread_create_ok (with_sch s1 k) (set_queue (fun _ => []) THREAD_PRIORITY_IDLE [1]) 2 free_thread fuel c
    (task_exit im) (main_stack im) THREAD_STACKSIZE_MAIN THREAD_PRIORITY_MAIN fl (main_trampoline im) 0 m1 v2 m2)
    as (s2 & E2 & Hr2 & T2 & A2 & _ & I2 & G2);
    [exact Hr1|by eapply free_after_first|done|by cbn; rewrite T1|done|done|exact Hfl|exact S2|].
  cbn [sch with_sch] in T2, A2, I2, G2. unfold threads_after in T2. rewrite T1 in T2.
  exists s2, m2. split; [unfold create_threads; by rewrite (bind_ret _ _ _ _ _ E1), (bind_ret _ _ _ _ _ E2)|].
  split; [exact Hr2|]. split; [unfold ready; rewrite T2; by eexists|]. split; [unfold ready; rewrite T2; by eexists|].
  split; [by rewrite A2, A1|]. split; [by rewrite I2, I1|]. split.
  - intros i t H1 H2 Ht. rewrite T2 in Ht. unfold threads_after in Ht. rewrite !aget_set_ne in Ht by lia.
    unfold aget in Ht. destruct (0 <=? i); [|done]. by apply lookup_replicate_1 in Ht as [-> _].
  - intros x Hx. rewrite (frame_mutex _ _ _ _ _ x G2), (frame_mutex _ _ _ _ _ x G1). by apply sched_zero_mutex.
Qed.

Lemma mintimer_init_ok s t h :
  hw_wf h -> exists h', secure_mintimer_init (K s t h) = Ret tt (K s t h') /\ quiet h' /\ hw_wf h' /\ isr_cb h' = true.
Proof.
  intros Hwf. destruct (timer_driver_ok h 0 1000000 0 0 Hwf) as (_ & (h1 & E1 & W1 & B1 & C1 & T1 & _) & _).
  unfold secure_mintimer_init. rewrite (bind_ret _ _ _ _ _ (on_hw_ok _ (K s t h) _ _ E1)). unfold _lltimer_set.
  rewrite (bind_ret _ _ _ (_in_handler t) (K s t h1)) by done.
  destruct (c_true (_in_handler t)).
  - exists h1. split; [done|]. split; [|done]. split; [by rewrite T1|]. exists 0. by rewrite C1.
  - set (v := _secure_mintimer_lltimer_mask 0xFFFFFFFF). destruct (set_absolute_ok h1 v W1) as [E2 W2].
    exists (armed v h1). split; [exact (on_hw_ok _ (K s t h1) _ _ E2)|]. split; [|by split; [exact W2|]].
    unfold quiet, armed. cbn. rewrite T1, C1. split; [done|]. by eexists.
Qed.

(** The scheduler's own timer is cleared. *)
Definition sched_timer_set (t : timers_t) : timers_t :=
  with_next (<[TSched := None]> (t_next t)) (with_thread (<[TSched := None]> (t_thread t)) t).

(** [scheduler_init] starts the hardware timer and changes nothing else of the
    scheduler. *)
Lemma scheduler_init_ok k entry :
  initialization_done (sch k) = false -> hw_wf (hw k) ->
  is_Some (t_thread (tmr k) !! TSched) -> is_Some (t_next (tmr k) !! TSched) ->
  exists k', scheduler_init entry k = Ret tt k' /\ sch k' = with_init_done entry (sch k) /\ quiet (hw k') /\
    tmr k' = sched_timer_set (tmr k) /\ hw_wf (hw k') /\ isr_cb (hw k') = true.
Proof.
  intros Hd Hwf [v Hv] [n Hn]. unfold scheduler_init. rewrite (bind_ret _ _ _ _ _ (on_sched_gets _ _)), Hd.
  cbn [negb when]. destruct k as [s t h]. cbn [sch tmr hw] in *.
  destruct (mintimer_init_ok s t h Hwf) as (h' & E & Hq & Hwf' & Hcb). rewrite (bind_ret _ _ _ _ _ E).
  unfold set_thread, store, on_timers, nxt, zoom, bind. cbn [tmr]. rewrite Hv. cbn [t_next with_thread with_tmr tmr]. rewrite Hn.
  eexists. split; [reflexivity|]. by split.
Qed.

(** With no active thread the boot call reads the priority through the null
    pointer. *)
Lemma boot_call_null k fuel c :
  sched_active_thread (sch k) = None -> initialization_done (sch k) = false -> hw_wf (hw k) ->
  is_Some (t_thread (tmr k) !! TSched) -> is_Some (t_next (tmr k) !! TSched) ->
  scheduler_kernel_init fuel c k = Err NullDeref.
Proof.
  intros Ha Hd Hwf H1 H2. unfold scheduler_kernel_init, exitless_entry, save_caller. rewrite bind_assoc.
  rewrite (bind_ret _ _ _ _ _ (on_sched_gets _ _)), Ha, (bind_ret (ret tt) _ _ _ _ eq_refl).
  change (EXITLESS_FUNCTION_TYPE_BOOT =? EXITLESS_FUNCTION_TYPE_BOOT) with true. cbn iota.
  destruct (scheduler_init_ok k (c_entry c) Hd Hwf H1 H2) as (k' & E & Es & Hq & _).
  rewrite (bind_ret _ _ _ _ _ E), default_quiet by done. unfold thread_yield_higher_internal. apply bind_err.
  assert (sched_active_thread (sch k') = None) as Ha' by (by rewrite Es).
  cbn [when]. unfold sched_yield. by rewrite (bind_ret _ _ _ _ _ (on_sched_gets _ _)), Ha'.
Qed.

(** The scheduler's first choice is the main thread. *)
Lemma first_switch k s m' fuel entry task exit :
  rq_rep s boot_queues -> ready s m' 2 THREAD_PRIORITY_MAIN task exit -> sched_active_thread s = None ->
  initialization_done s = false -> hw_wf (hw k) ->
  is_Some (t_thread (tmr k) !! TSched) -> is_Some (t_next (tmr k) !! TSched) -> (17 <= fuel)%nat ->
  exists k1 s', scheduler_init entry (with_sch s k) = Ret tt k1 /\ quiet (hw k1) /\
    sched_run_internal fuel k1 = Ret 1 (with_sch s' k1) /\
    switched (with_init_done entry s) s' boot_queues THREAD_PRIORITY_MAIN 2 /\ sched_active_pid s' = 2.
Proof.
  intros Hr R2 Ha Hi Hwf H1 H2 Hf.
  destruct (scheduler_init_ok (with_sch s k) entry Hi Hwf H1 H2) as (k1 & E1 & Es & Hq & _). cbn [sch with_sch] in Es.
  assert (rq_rep (sch k1) boot_queues) as Hr1 by (by rewrite Es).
  assert (sched_active_thread (sch k1) = None) as Ha1 by (by rewrite Es).
  destruct (run_plain k1 boot_queues THREAD_PRIORITY_MAIN 2 fuel Hr1 boot_urgent) as (s' & E' & Hsw); [done| | |done|].
  { unfold active_ok. by rewrite Ha1. }
  { intros (a & ? & Ha' & _). congruence. }
  exists k1, s'. split; [done|]. split; [done|]. split; [by rewrite E', Ha1|]. rewrite <- Es. split; [done|].
  destruct (sw_new _ _ _ _ _ Hsw) as (t & Ht & _ & _ & Hpid & _). destruct R2 as (t2 & Ht2 & _ & _ & Hp2 & _).
  rewrite Es in Ht. change (aget (sched_threads s) 2 = Some t) in Ht. rewrite Hpid by (rewrite Ha1; done). congruence.
Qed.

(** C10 From zeroed static data [kernel_init] makes the idle thread, pid 1, and
    the main thread, pid 2, each with a frame from which the processor starts
    its function and returns into [sched_task_exit]; the frames do not
    overlap, and the scheduler, initialised, then chooses the main thread.
    [kernel_init] itself does not get there by a defined path: the yield of
    the boot call reads the priority of the active thread, and there is none
    yet. *)
Theorem kernel_boot k fuel c im m ms :
  sch k = sched_zero ms -> image_ok im -> hw_wf (hw k) ->
  is_Some (t_thread (tmr k) !! TSched) -> is_Some (t_next (tmr k) !! TSched) -> (17 <= fuel)%nat ->
  exists s m', create_threads fuel c im m k = Ret m' (with_sch s k) /\ rq_rep s boot_queues /\
    ready s m' 1 THREAD_PRIORITY_IDLE (idle_thread im) (task_exit im) /\
    ready s m' 2 THREAD_PRIORITY_MAIN (main_trampoline im) (task_exit im) /\
    (exists k1 s' t, scheduler_init (c_entry c) (with_sch s k) = Ret tt k1 /\
       sched_run_internal fuel k1 = Ret 1 (with_sch s' k1) /\ rq_rep s' boot_queues /\
       sched_active_thread s' = Some 2 /\ sched_active_pid s' = 2 /\
       aget (sched_threads s') 2 = Some t /\ status t = STATUS_RUNNING) /\
    kernel_init fuel c im m k = Err NullDeref.
Proof.
  intros Hz Him Hwf H1 H2 Hf.
  destruct (create_threads_ok k fuel c im m ms Hz Him) as (s & m' & E & Hr & R1 & R2 & Ha & Hi & _).
  exists s, m'. split; [done|]. split; [done|]. split; [done|]. split; [done|]. split.
  - destruct (first_switch k s m' fuel (c_entry c) _ _ Hr R2 Ha Hi Hwf H1 H2 Hf) as (k1 & s' & E1 & _ & E2 & Hsw & Hp).
    destruct (sw_new _ _ _ _ _ Hsw) as (t & _ & _ & Ht' & _). cbn in Ht'. rewrite Ha in Ht'.
    exists k1, s', (set_status STATUS_RUNNING t). split; [done|]. split; [done|]. split; [apply Hsw|]. by split; [apply Hsw|].
  - unfold kernel_init. rewrite (bind_ret _ _ _ _ _ E). apply bind_err. by apply boot_call_null.
Qed.

(** ** Witness *)

Definition demo_boot : kst := K (sched_zero [0]) demo_tmr demo_hw.
Definition demo_image : image := Image 0x2200 0x2000 0x4000 0x4100 0x4200.

Lemma demo_image_ok : image_ok demo_image.
Proof. unfold image_ok. cbn. repeat split; try discriminate. left. discriminate. Qed.

Lemma kernel_boot_witness : exists s m',
  create_threads 17 demo_call demo_image ∅ demo_boot = Ret m' (with_sch s demo_boot) /\ rq_rep s boot_queues /\
  ready s m' 2 7 0x4100 0x4200 /\ kernel_init 17 demo_call demo_image ∅ demo_boot = Err NullDeref.
Proof.
  destruct (kernel_boot demo_boot 17 demo_call demo_image ∅ [0]) as (s & m' & H1 & H2 & _ & H3 & _ & H4).
  - reflexivity.
  - exact demo_image_ok.
  - split; reflexivity.
  - by eexists.
  - by eexists.
  - lia.
  - exists s, m'. split; [exact H1|]. split; [exact H2|]. split; [exact H3|exact H4].
Defined.
