(* ===== verification/Kernel.v ===== *)
(** * The kernel as a state machine

    Threads that call the kernel one after the other: a step is one call of
    the running thread, from its entry to the thread that is resumed.  The
    calls are those of thread.c and mutex.c for one mutex.  With the state
    goes a history, the set of threads that hold the mutex: a call that took
    it adds the caller, unlocking removes the caller and adds the thread
    whose blocked call ends with it.  What the timers do while a call gives
    up the processor is an interface ([timing], [TimingLaws]); here it is
    implemented by a system whose timers are quiet, in Timed by one whose
    timers run. *)

From stdpp Require Import sorting relations.
From S2P Require Import Prelude Safe Clist ClistSpec ListInsert KState RunQueue TimerHw Mintimer.
From S2P Require Import TimerLists TimerProps Sched SchedProps Cpu Thread ThreadProps Mutex MutexProps Boot.

(** ** The timers, as the calls see them *)

(** Whether a call may wait for the timer, what holds of timers and hardware
    between two calls, and which sleeping threads may be woken early. *)
Record timing : Type := Timing {
  may_wait : bool; timer_ok : kst -> Prop; may_wake : kst -> Z -> Prop
}.

(** ** Steps *)

(** A call of [mutex_lock] of this thread ended between the two states. *)
Definition woken (k k' : kst) (x : Z) : Prop :=
  exists u u', aget (sched_threads (sch k)) x = Some u /\ status u = STATUS_MUTEX_BLOCKED /\
    aget (sched_threads (sch k')) x = Some u' /\ on_runqueue (status u') = true.

(** The idle thread (pid 1) neither sleeps nor locks; threads are created
    with a priority the table has. *)
Inductive kstep (T : timing) (m : Z) (fuel : nat) : kst * gset Z -> kst * gset Z -> Prop :=
  | step_yield k H c r k' :
      thread_yield fuel c k = Ret r k' -> kstep T m fuel (k, H) (k', H)
  | step_sleep k H c r k' :
      sched_active_thread (sch k) <> Some 1 ->
      thread_sleep fuel c 0 k = Ret r k' -> kstep T m fuel (k, H) (k', H)
  | step_wakeup k H pid r k' :
      may_wake T k pid ->
      thread_wakeup pid k = Ret r k' -> kstep T m fuel (k, H) (k', H)
  | step_create k H c exit stack stacksize prio flags function arg mm r k' :
      0 <= prio < SCHED_PRIO_LEVELS ->
      thread_create fuel c exit stack stacksize prio flags function arg mm k = Ret r k' ->
      kstep T m fuel (k, H) (k', H)
  | step_switch k H c prio r k' :
      sched_switch fuel c prio k = Ret r k' -> kstep T m fuel (k, H) (k', H)
  | step_trylock k H c i r k' :
      sched_active_thread (sch k) = Some i ->
      mutex_trylock fuel c (NMutex m) k = Ret r k' ->
      kstep T m fuel (k, H) (k', if r =? 1 then {[i]} ∪ H else H)
  | step_lock k H c i r k' :
      sched_active_thread (sch k) = Some i -> i <> 1 ->
      mutex_lock fuel c (NMutex m) k = Ret r k' ->
      kstep T m fuel (k, H) (k', match r with None => {[i]} ∪ H | Some _ => H end)
  | step_unlock k H i k' H' :
      sched_active_thread (sch k) = Some i -> i ∈ H ->
      mutex_unlock fuel (NMutex m) k = Ret tt k' ->
      (forall x, x ∈ H' <-> (x ∈ H /\ x <> i) \/ woken k k' x) ->
      kstep T m fuel (k, H) (k', H').

(** ** The invariant *)

(** A thread whose priority has a queue and is not the periodic one; an entry
    that is not in use is stopped. *)
Definition tame (u : thread_t) : Prop :=
  0 <= priority u < SCHED_PRIO_LEVELS /\ priority u <> SCHED_PERIODIC_PRIO_LEVEL /\
  (in_use u = false -> status u = STATUS_STOPPED).

(** The variable for the active pid agrees with that for the active thread. *)
Definition active_named (s : sched_t) : Prop :=
  forall i, sched_active_thread s = Some i -> sched_active_pid s = i.

(** The scheduler without its active thread: queues, the mutex with its
    waiters, all of them blocked for it, and an idle thread to run. *)
Record core (m : Z) (s : sched_t) (v : lock) (Q : Z -> list Z) : Prop := {
  core_rep : rq_rep s Q;
  core_mutex : mutex_rep s m v;
  core_tame : forall x u, aget (sched_threads s) x = Some u -> tame u;
  core_blocked : forall xs x, v = Some xs -> x ∈ xs ->
    exists u, aget (sched_threads s) x = Some u /\ status u = STATUS_MUTEX_BLOCKED;
  core_idle : exists u, aget (sched_threads s) 1 = Some u /\ on_runqueue (status u) = true /\
    priority u = THREAD_PRIORITY_IDLE;
  core_pid : forall x u, aget (sched_threads s) x = Some u -> in_use u = true -> pid u = x;
  core_active : active_named s
}.

(** The active thread is the first of its queue. *)
Definition active_head (Q : Z -> list Z) (s : sched_t) : Prop :=
  exists i t, sched_active_thread s = Some i /\ aget (sched_threads s) i = Some t /\
    on_runqueue (status t) = true /\ head (Q (priority t)) = Some i.

Definition system_ok (T : timing) (m : Z) (k : kst) (v : lock) : Prop :=
  (exists Q, core m (sch k) v Q /\ active_head Q (sch k)) /\ timer_ok T k.

(** Sleeping threads go on sleeping, but for those that may be woken. *)
Definition sleepers_stay (T : timing) (k : kst) (s' : sched_t) : Prop :=
  forall x u, aget (sched_threads (sch k)) x = Some u -> status u = STATUS_SLEEPING -> ~ may_wake T k x ->
    exists u', aget (sched_threads s') x = Some u' /\ status u' = STATUS_SLEEPING.

(** What timers promise: they do not mind a change of the scheduler that
    leaves sleeping threads alone, and giving up the processor ends in a
    thread that is the first of its queue. *)
Class TimingLaws (m : Z) (fuel : nat) (T : timing) : Prop := {
  timer_frame k s' : timer_ok T k -> sleepers_stay T k s' -> timer_ok T (with_sch s' k);
  timer_yield k v Q i t :
    core m (sch k) v Q -> sched_active_thread (sch k) = Some i -> aget (sched_threads (sch k)) i = Some t ->
    timer_ok T k -> runs (may_wait T) (default_yield fuel) k (fun _ k' => system_ok T m k' v);
  timer_resume k sp : timer_ok T k -> timer_ok T (with_hw (with_unprotected_sp sp (hw k)) k)
}.

(** The holders agree with the mutex: none when it is free, one otherwise. *)
Definition holders_ok (v : lock) (H : gset Z) : Prop :=
  match v with None => H = ∅ | Some _ => exists o, H = {[o]} end.

(** ** Evolving states *)

(** Entries keep priority, use and pid, and change their status only among
    those of runnable threads. *)
Definition evolves (s s' : sched_t) : Prop :=
  forall x u, aget (sched_threads s) x = Some u -> exists u', aget (sched_threads s') x = Some u' /\
    priority u' = priority u /\ in_use u' = in_use u /\ pid u' = pid u /\
    (status u' = status u \/ (on_runqueue (status u) = true /\ on_runqueue (status u') = true)).

Lemma evolves_same s s' : sched_threads s' = sched_threads s -> evolves s s'.
Proof. intros E x u Hu. exists u. rewrite E. naive_solver. Qed.

Lemma evolves_trans s s' s'' : evolves s s' -> evolves s' s'' -> evolves s s''.
Proof.
  intros H1 H2 x u Hu. destruct (H1 x u Hu) as (u' & Hu' & P1 & I1 & D1 & S1).
  destruct (H2 x u' Hu') as (u'' & Hu'' & P2 & I2 & D2 & S2). exists u''. split; [done|]. split; [congruence|].
  split; [congruence|]. split; [congruence|]. destruct S1 as [E1|[]], S2 as [E2|[]]; rewrite ?E1, ?E2 in *; naive_solver.
Qed.

Lemma evolves_back s s' x u' :
  length (sched_threads s') = length (sched_threads s) -> evolves s s' -> aget (sched_threads s') x = Some u' ->
  exists u, aget (sched_threads s) x = Some u /\ priority u' = priority u /\ in_use u' = in_use u /\ pid u' = pid u /\
    (status u' = status u \/ (on_runqueue (status u) = true /\ on_runqueue (status u') = true)).
Proof.
  intros Hl He Hu'. pose proof (aget_range _ _ _ Hu') as Hr. rewrite Hl in Hr.
  destruct (aget_some (sched_threads s) x Hr) as [u Hu]. exists u. split; [done|].
  destruct (He x u Hu) as (w & Hw & ?). naive_solver.
Qed.

Lemma waiters_off m s v Q xs x :
  core m s v Q -> v = Some xs -> x ∈ xs -> exists u, aget (sched_threads s) x = Some u /\ on_runqueue (status u) = false.
Proof. intros Hc E Hx. destruct (core_blocked _ _ _ _ Hc xs x E Hx) as (u & Hu & Hs). exists u. by rewrite Hs. Qed.

(** The mutex through a change of other links. *)
Lemma mutex_rep_frame s s' m v ws :
  mutex_rep s m v -> frame (rq s) (rq s') ws -> NMutex m ∉ ws ->
  (forall xs x, v = Some xs -> x ∈ xs -> NThread x ∉ ws /\
     forall u, aget (sched_threads s) x = Some u -> exists u', aget (sched_threads s') x = Some u' /\
       status u' = status u /\ priority u' = priority u) ->
  mutex_rep s' m v.
Proof.
  intros Hm Hf Hnm Hx. destruct v as [[|x r]|]; cbn [mutex_rep] in *.
  - by rewrite (proj1 Hf).
  - apply (wait_list_same s); [|intros y u Hy Hu; by apply (Hx (x :: r) y)|done].
    eapply chain_frame; [exact Hf| |apply Hm]. intros a Ha Hin.
    apply elem_of_cons in Ha as [->|(y & -> & Hy)%list_elem_of_fmap]; [done|]. by apply (Hx (x :: r) y).
  - by rewrite (proj1 Hf).
Qed.

Lemma core_evolves m s s' v Q Q' ws :
  core m s v Q -> evolves s s' -> rq_rep s' Q' -> frame (rq s) (rq s') ws -> NMutex m ∉ ws ->
  (forall x, NThread x ∉ ws) -> active_named s' -> core m s' v Q'.
Proof.
  intros Hc He Hr Hf Hm Hx Han. assert (length (sched_threads s') = length (sched_threads s)) as Hl.
  { destruct Hr as [[-> _] _]. by destruct (core_rep _ _ _ _ Hc) as [[-> _] _]. }
  split; [done| | | | | |exact Han].
  - eapply mutex_rep_frame; [apply Hc|done|done|]. intros xs x E Hin. split; [by apply Hx|]. intros u Hu.
    destruct (waiters_off _ _ _ _ _ _ Hc E Hin) as (w & Hw & Hoff). destruct (He x u Hu) as (u' & Hu' & ?).
    exists u'. naive_solver congruence.
  - intros x u' Hu'. destruct (evolves_back _ _ _ _ Hl He Hu') as (u & Hu & P & I & _ & St).
    destruct (core_tame _ _ _ _ Hc x u Hu) as (T1 & T2 & T3). split; [by rewrite P|]. split; [by rewrite P|].
    rewrite I. intros Hi. specialize (T3 Hi). destruct St as [->|[Hon _]]; [done|]. by rewrite T3 in Hon.
  - intros xs x E Hin. destruct (core_blocked _ _ _ _ Hc xs x E Hin) as (u & Hu & Hs).
    destruct (He x u Hu) as (u' & Hu' & _ & _ & _ & [St|[Hon _]]); [|by rewrite Hs in Hon]. exists u'. by rewrite St.
  - destruct (core_idle _ _ _ _ Hc) as (u & Hu & Hon & Hp). destruct (He 1 u Hu) as (u' & Hu' & P & _ & _ & St).
    exists u'. split; [done|]. split; [|congruence]. destruct St as [->|[]]; done.
  - intros x u' Hu' Hi. destruct (evolves_back _ _ _ _ Hl He Hu') as (u & Hu & _ & I & D & _).
    rewrite D. apply (core_pid _ _ _ _ Hc x u Hu). congruence.
Qed.

(** ** Switching *)

Lemma runnable_member s Q p j :
  rq_rep s Q -> most_urgent Q p j ->
  exists u, aget (sched_threads s) j = Some u /\ on_runqueue (status u) = true /\ priority u = p.
Proof. intros (_ & _ & Hq & _) (Hp & Hh & _). apply (Hq p j Hp). by apply head_in. Qed.

Lemma switched_evolves s s' Q p j :
  rq_rep s Q -> most_urgent Q p j -> switched s s' Q p j -> evolves s s'.
Proof.
  intros Hr Hu Hsw x u Hx. destruct (decide (x = j)) as [->|Hxj].
  - destruct (runnable_member _ _ _ _ Hr Hu) as (w & Hw & Hon & _). replace w with u in * by congruence.
    destruct (sw_new _ _ _ _ _ Hsw) as (t & Ht & _ & Ht' & _). replace t with u in * by congruence.
    eexists. split; [exact Ht'|]. destruct (decide _); naive_solver.
  - destruct (decide (sched_active_thread s = Some x)) as [Ha|Ha].
    + eexists. split; [exact (sw_old _ _ _ _ _ Hsw x u Ha Hxj Hx)|].
      destruct (decide (status u = STATUS_RUNNING)) as [E|]; [|naive_solver].
      split; [done|]. split; [done|]. split; [done|]. right. by rewrite E.
    + exists u. split; [|naive_solver]. by rewrite (sw_others _ _ _ _ _ Hsw x Hxj Ha).
Qed.

Lemma urgent_below (Q : Z -> list Z) n :
  0 <= n -> (forall p, 0 <= p < n -> Q p = []) \/
  exists p j, 0 <= p < n /\ head (Q p) = Some j /\ forall p', 0 <= p' < p -> Q p' = [].
Proof.
  revert n. apply natlike_ind; [left; lia|]. intros n Hn [IH|(p & j & Hp & IH)]; [|right; exists p, j; split; [lia|done]].
  destruct (Q n) as [|j r] eqn:E.
  - left. intros p Hp. destruct (decide (p = n)) as [->|]; [done|]. apply IH. lia.
  - right. exists n, j. split; [lia|]. rewrite E. split; [done|exact IH].
Qed.

(** There is always a thread to run, and it is not a periodic one. *)
Lemma some_urgent m s v Q :
  core m s v Q -> exists p j, most_urgent Q p j /\ p <> SCHED_PERIODIC_PRIO_LEVEL.
Proof.
  intros Hc. pose proof (core_rep _ _ _ _ Hc) as Hr. destruct (urgent_below Q SCHED_PRIO_LEVELS) as [H|(p & j & Hp & Hh & Hlow)]; [done| |].
  - destruct (core_idle _ _ _ _ Hc) as (u & Hu & Hon & Hpr). destruct Hr as (_ & _ & Hq & _).
    assert (1 ∈ Q THREAD_PRIORITY_IDLE) as Hin by (apply Hq; [by split|]; by exists u).
    rewrite H in Hin by (by split). by apply not_elem_of_nil in Hin.
  - exists p, j. assert (most_urgent Q p j) as Hu by done. split; [done|].
    destruct (runnable_member _ _ _ _ Hr Hu) as (u & Hu' & _ & <-). by apply (core_tame _ _ _ _ Hc j u Hu').
Qed.

(** The state once a thread of the scheduler [s] is resumed. *)
Definition resumed_in (s : sched_t) (sp : Z) (k : kst) : kst := with_hw (with_unprotected_sp sp (hw k)) (with_sch s k).

Lemma active_ok_some s i t : sched_active_thread s = Some i -> aget (sched_threads s) i = Some t -> active_ok s.
Proof. unfold active_ok. intros -> ->. by eexists. Qed.

(** The most urgent thread is resumed. *)
Lemma run_keeps m k v Q fuel :
  core m (sch k) v Q -> active_ok (sch k) -> (17 <= fuel)%nat ->
  exists s x, sched_run_internal fuel k = Ret x (with_sch s k) /\ core m s v Q /\ active_head Q s /\ evolves (sch k) s.
Proof.
  intros Hc Hok Hf. pose proof (core_rep _ _ _ _ Hc) as Hr.
  destruct (some_urgent _ _ _ _ Hc) as (p & j & Hu & Hne).
  destruct (run_plain k Q p j fuel Hr Hu Hne) as (s' & E & Hsw); [done| |done|].
  { intros (a & u & _ & Hu' & _ & Hp & _). by apply (core_tame _ _ _ _ Hc a u Hu'). }
  pose proof (switched_evolves _ _ _ _ _ Hr Hu Hsw) as He.
  destruct (runnable_member _ _ _ _ (sw_rep _ _ _ _ _ Hsw) Hu) as (u & Hu' & Hon & Hp).
  eexists s', _. split; [exact E|]. split; [|split; [|done]].
  - destruct (sw_rest _ _ _ _ _ Hsw) as (Eq & _).
    apply (core_evolves m (sch k) s' v Q Q []); [done|done|apply Hsw|by rewrite Eq|set_solver..|].
    intros y. rewrite (sw_active _ _ _ _ _ Hsw). intros [= <-]. destruct (sw_new _ _ _ _ _ Hsw) as (w & Hw & Hpw & Hw' & Hnew & Hold).
    destruct (decide (sched_active_thread (sch k) = Some j)) as [Ea|Ea]; [rewrite (Hold Ea); by apply (core_active _ _ _ _ Hc)|].
    rewrite (Hnew Ea). destruct (runnable_member _ _ _ _ Hr Hu) as (w2 & Hw2 & Hon2 & _). replace w2 with w in * by congruence.
    apply (core_pid _ _ _ _ Hc j w Hw). destruct (core_tame _ _ _ _ Hc j w Hw) as (_ & _ & H).
    destruct (in_use w); [done|]. specialize (H eq_refl). by rewrite H in Hon2.
  - exists j, u. split; [apply Hsw|]. split; [done|]. split; [done|]. rewrite Hp. apply Hu.
Qed.

Lemma saved_evolves s i t sp caller :
  aget (sched_threads s) i = Some t -> evolves s (with_threads (threads_after s i (saved_by sp caller t)) s).
Proof.
  intros Ht x u Hu. destruct (decide (x = i)) as [->|Hne].
  - replace u with t in * by congruence. eexists. split; [by eapply threads_after_eq|].
    unfold saved_by. destruct (_ =? _); naive_solver.
  - exists u. split; [|naive_solver]. cbn. by rewrite (threads_after_ne _ _ _ _ _ Ht Hne).
Qed.

(** Whoever is active can be resumed. *)
Lemma restore_active k Q : active_head Q (sch k) ->
  exists r sp, restore_context k = Ret r (resumed_in (sch k) sp k).
Proof.
  intros (j & u & Ha & Hu & _). eexists _, _. rewrite (restore_ok k j u Ha Hu). unfold resumed_in.
  by rewrite with_sch_id.
Qed.

(** What the entry code saves of the caller. *)
Lemma saved_core m s v Q i t sp caller :
  core m s v Q -> aget (sched_threads s) i = Some t ->
  core m (with_threads (threads_after s i (saved_by sp caller t)) s) v Q.
Proof.
  intros Hc Ht. apply (core_evolves m s _ v Q Q []);
    [done|by apply saved_evolves|apply saved_rep; [apply Hc|done]|apply frame_refl|set_solver..|exact (core_active _ _ _ _ Hc)].
Qed.

(** Giving up the processor with no timer pending, runnable or not. *)
Lemma internal_keeps m k v Q i t fuel :
  core m (sch k) v Q -> sched_active_thread (sch k) = Some i -> aget (sched_threads (sch k)) i = Some t ->
  (17 <= fuel)%nat ->
  exists s sp r Q', thread_yield_higher_internal fuel true k = Ret r (resumed_in s sp k) /\
    core m s v Q' /\ active_head Q' s /\ evolves (sch k) s.
Proof.
  intros Hc Ha Ht Hf. pose proof (core_tame _ _ _ _ Hc i t Ht) as (Hp & Hne & _).
  assert (exists s2 Q2, sched_yield fuel k = Ret tt (with_sch s2 k) /\ core m s2 v Q2 /\ sched_active_thread s2 = Some i /\
    aget (sched_threads s2) i = Some t /\ evolves (sch k) s2) as (s2 & Q2 & E2 & Hc2 & Ha2 & Ht2 & He2).
  { destruct (on_runqueue (status t)) eqn:Hon.
    - destruct (yield_plain k Q (priority t) i t fuel (core_rep _ _ _ _ Hc) Ha Ht eq_refl Hp Hne Hon) as (h & E & Hr' & Hfr).
      exists (with_rq h (sch k)), (set_queue Q (priority t) (rotate_l (Q (priority t)))).
      split; [done|]. split; [|split; [done|split; [done|by apply evolves_same]]].
      apply (core_evolves m (sch k) _ v Q _ [NRunq (priority t)]); [done|by apply evolves_same|done|done|set_solver..|exact (core_active _ _ _ _ Hc)].
    - exists (sch k), Q. rewrite with_sch_id. split; [|split; [done|split; [done|split; [done|by apply evolves_same]]]].
      by apply (yield_blocked k i t). }
  destruct (run_keeps m (with_sch s2 k) v Q2 fuel Hc2 (active_ok_some _ _ _ Ha2 Ht2) Hf) as (s3 & x & E3 & Hc3 & Hh3 & He3).
  destruct (restore_active (with_sch s3 k) Q2 Hh3) as (r & sp & E4).
  exists s3, sp, r, Q2. split; [|split; [done|split; [done|by eapply evolves_trans]]].
  unfold thread_yield_higher_internal. cbn [when]. rewrite (bind_ret _ _ _ _ _ E2), (bind_ret _ _ _ _ _ E3). exact E4.
Qed.

(** ** Changes of status *)

Lemma active_head_push Q s p i :
  active_head Q s -> active_head (set_queue Q p (Q p ++ [i])) s.
Proof.
  intros (a & t & Ha & Ht & Hon & Hh). exists a, t. do 3 (split; [done|]).
  destruct (decide (priority t = p)) as [<-|Hne]; [|by rewrite set_queue_ne].
  rewrite set_queue_eq. destruct (Q (priority t)); [done|exact Hh].
Qed.

(** The table with one entry changed. *)
Lemma core_entry m s s' v v' Q Q' i t t' :
  core m s v Q -> aget (sched_threads s) i = Some t -> sched_threads s' = threads_after s i t' ->
  tame t' -> (i = 1 -> on_runqueue (status t') = true /\ priority t' = priority t) -> (in_use t' = true -> pid t' = i) ->
  rq_rep s' Q' -> mutex_rep s' m v' ->
  (forall xs x, v' = Some xs -> x ∈ xs -> (x = i /\ status t' = STATUS_MUTEX_BLOCKED) \/
     (x <> i /\ exists ys, v = Some ys /\ x ∈ ys)) ->
  active_named s' -> core m s' v' Q'.
Proof.
  intros Hc Ht Hth Ht' H1 Hpid Hr Hm Hx Han. split; [done|done| | | | |exact Han].
  - intros x u. rewrite Hth. destruct (decide (x = i)) as [->|Hne].
    + rewrite (threads_after_eq _ _ _ _ Ht). by intros [= <-].
    + rewrite (threads_after_ne _ _ _ _ _ Ht Hne). apply (core_tame _ _ _ _ Hc).
  - intros xs x E Hin. rewrite Hth. destruct (Hx xs x E Hin) as [[-> Hs]|(Hne & ys & Ey & Hy)].
    + exists t'. split; [by apply (threads_after_eq _ _ _ _ Ht)|done].
    + rewrite (threads_after_ne _ _ _ _ _ Ht Hne). by apply (core_blocked _ _ _ _ Hc ys).
  - destruct (core_idle _ _ _ _ Hc) as (u & Hu & Hon & Hp). rewrite Hth. destruct (decide (i = 1)) as [->|Hne].
    + exists t'. split; [by apply (threads_after_eq _ _ _ _ Ht)|]. destruct (H1 eq_refl) as [? ->].
      split; [done|]. congruence.
    + exists u. by rewrite (threads_after_ne _ _ _ _ _ Ht) by congruence.
  - intros x u. rewrite Hth. destruct (decide (x = i)) as [->|Hne].
    + rewrite (threads_after_eq _ _ _ _ Ht). intros [= <-]. exact Hpid.
    + rewrite (threads_after_ne _ _ _ _ _ Ht Hne). apply (core_pid _ _ _ _ Hc).
Qed.

Lemma core_status m s v Q i t st :
  core m s v Q -> aget (sched_threads s) i = Some t -> in_use t = true ->
  status t <> STATUS_MUTEX_BLOCKED -> (i = 1 -> on_runqueue st = true) ->
  (on_runqueue (status t) = true -> on_runqueue st = false -> head (Q (priority t)) = Some i) ->
  exists s', sched_set_status i st s = Ret tt s' /\ core m s' v (queues_after Q (priority t) i (status t) st) /\
    sched_threads s' = threads_after s i (set_status st t) /\ sched_active_thread s' = sched_active_thread s.
Proof.
  intros Hc Ht Hu Hnb H1 Hh. destruct (core_tame _ _ _ _ Hc i t Ht) as (Hp & Hne & _).
  assert (forall xs, v = Some xs -> i ∉ xs) as Hi.
  { intros xs E Hin. destruct (core_blocked _ _ _ _ Hc xs i E Hin) as (w & Hw & ?). congruence. }
  destruct (set_status_rep s Q i t st (core_rep _ _ _ _ Hc) Ht Hp Hh) as (s' & E & Hr & Es).
  exists s'. assert (sched_threads s' = threads_after s i (set_status st t)) as Hth by by rewrite Es.
  split; [done|]. split; [|split; [done|by rewrite Es]].
  apply (core_entry m s s' v v Q _ i t (set_status st t)); [done|done|done| | |exact (core_pid _ _ _ _ Hc i t Ht)|done| | |rewrite Es; exact (core_active _ _ _ _ Hc)].
  - split; [done|]. split; [done|]. cbn. congruence.
  - intros Hi1. split; [by apply H1|done].
  - by eapply (mutex_rep_status s Q m v i t st); [apply Hc|apply Hc| | | |exact E|].
  - intros xs x E' Hx. right. split; [|by eauto]. intros ->. by apply (Hi xs).
Qed.

(** Whoever runs is in use and not blocked. *)
Lemma runnable_facts m s v Q i t :
  core m s v Q -> aget (sched_threads s) i = Some t -> on_runqueue (status t) = true ->
  in_use t = true /\ status t <> STATUS_MUTEX_BLOCKED /\ forall xs, v = Some xs -> i ∉ xs.
Proof.
  intros Hc Ht Hon. destruct (core_tame _ _ _ _ Hc i t Ht) as (_ & _ & H). split; [|split].
  - destruct (in_use t); [done|]. specialize (H eq_refl). by rewrite H in Hon.
  - intros E. by rewrite E in Hon.
  - intros xs E Hin. destruct (core_blocked _ _ _ _ Hc xs i E Hin) as (w & Hw & E'). replace w with t in * by congruence.
    by rewrite E' in Hon.
Qed.

(** A thread that ends: no thread is active then. *)
Lemma core_exit m s v Q i t :
  core m s v Q -> sched_active_thread s = Some i -> i <> KERNEL_PID_UNDEF -> i <> 1 ->
  aget (sched_threads s) i = Some t -> on_runqueue (status t) = true -> head (Q (priority t)) = Some i ->
  exists s' Q', sched_task_exit_internal s = Ret tt s' /\ core m s' v Q' /\ sched_active_thread s' = None /\
    sched_threads s' = threads_after s i (set_status STATUS_STOPPED (set_in_use false t)).
Proof.
  intros Hc Ha H0 H1 Ht Hon Hh. destruct (core_tame _ _ _ _ Hc i t Ht) as (Hp & Hne & _).
  destruct (runnable_facts _ _ _ _ _ _ Hc Ht Hon) as (_ & _ & Hnx). pose proof (core_rep _ _ _ _ Hc) as Hr.
  set (t1 := set_in_use false t). set (s1 := with_threads (threads_after s i t1) s).
  set (s2 := with_num_threads (wraps 16 (sched_num_threads s1 - 1)) s1).
  assert (aget (sched_threads s2) i = Some t1) as Ht2 by by eapply threads_after_eq.
  assert (rq_rep s2 Q) as Hr2 by (change (rq_rep s1 Q); by eapply rq_rep_thread).
  assert (mutex_rep s2 m v) as Hm2.
  { eapply mutex_rep_frame; [apply Hc|apply (frame_refl (rq s) [])|set_solver|]. intros xs x E Hx. split; [set_solver|].
    intros u Hu. exists u. split; [|done]. cbn. rewrite (threads_after_ne _ _ _ _ _ Ht); [done|]. intros ->. by apply (Hnx xs). }
  destruct (set_status_rep s2 Q i t1 STATUS_STOPPED Hr2 Ht2 Hp) as (s3 & E3 & Hr3 & Hs3); [auto|].
  assert (sched_threads s3 = threads_after s i (set_status STATUS_STOPPED t1)) as Hth.
  { rewrite Hs3. unfold s2, s1, threads_after. cbn. by rewrite list_insert_insert_eq. }
  assert (mutex_rep s3 m v) as Hm3 by (eapply (mutex_rep_status s2 Q m v i t1); [done|done|done|done|done|exact E3|by rewrite Hs3]).
  exists (with_active None s3), (queues_after Q (priority t1) i (status t1) STATUS_STOPPED). split; [|split; [|by split]].
  - unfold sched_task_exit_internal. rewrite (bind_ret _ _ _ _ _ (gets_ok _ _)), (core_active _ _ _ _ Hc i Ha).
    rewrite (proj2 (Z.eqb_neq _ _) H0). cbn [negb when].
    rewrite (bind_ret _ _ _ _ _ (upd_thread_ok _ _ _ _ Ht)), (bind_ret _ _ _ _ _ (modify_ok _ _)).
    change (with_num_threads _ _) with s2. rewrite (bind_ret _ _ _ _ _ (gets_ok _ s2)).
    change (sched_active_thread s2) with (sched_active_thread s). rewrite Ha. unfold unwrap.
    by rewrite (bind_ret (ret i) _ _ _ _ eq_refl), (bind_ret _ _ _ _ _ E3).
  - eapply (core_entry m s (with_active None s3) v v Q _ i t); [done|done|exact Hth|by split|done|done|exact Hr3|exact Hm3| |done].
    intros xs x E Hx. right. split; [|by eauto]. intros ->. by apply (Hnx xs).
Qed.

(** ** Sleeping threads *)

Lemma evolves_sleep T k s' : evolves (sch k) s' -> sleepers_stay T k s'.
Proof.
  intros He x u Hu Hs _. destruct (He x u Hu) as (u' & Hu' & _ & _ & _ & [E|[Hon _]]); [|by rewrite Hs in Hon].
  exists u'. by rewrite E.
Qed.

(** One entry changes that was not asleep, or may be woken. *)
Lemma entry_sleep T k s' i t t' :
  aget (sched_threads (sch k)) i = Some t -> sched_threads s' = threads_after (sch k) i t' ->
  status t <> STATUS_SLEEPING \/ may_wake T k i -> sleepers_stay T k s'.
Proof.
  intros Ht Hth Hi x u Hu Hs Hno. exists u. split; [|done]. rewrite Hth.
  rewrite (threads_after_ne _ _ _ _ _ Ht); [done|]. intros ->. destruct Hi as [Hi|Hi]; [congruence|done].
Qed.

(** ** The calls *)

Section calls.
Context (T : timing) (m : Z) (fuel : nat) (Hfuel : (34 <= fuel)%nat) (HT : TimingLaws m fuel T).
Implicit Types (k : kst) (v : lock).

(** Giving up the processor. *)
Lemma yield_keeps k v Q i t c :
  core m (sch k) v Q -> sched_active_thread (sch k) = Some i -> aget (sched_threads (sch k)) i = Some t ->
  timer_ok T k -> runs (may_wait T) (thread_yield_higher fuel c) k (fun _ k' => system_ok T m k' v).
Proof.
  intros Hc Ha Ht Htm. unfold thread_yield_higher, exitless_entry.
  assert (EXITLESS_FUNCTION_TYPE_YIELD <> EXITLESS_FUNCTION_TYPE_EXIT) as Hty by done.
  apply (runs_step _ _ _ _ _ _ (save_caller_ok k i t _ (c_stack c) (c_caller c) Ha Ht Hty)).
  apply (timer_yield _ v Q i (saved_by (c_stack c) (c_caller c) t)); [by apply saved_core|done|by eapply threads_after_eq|].
  apply timer_frame; [done|]. by apply evolves_sleep, saved_evolves.
Qed.

Lemma yield_call k v c :
  system_ok T m k v -> runs (may_wait T) (thread_yield fuel c) k (fun _ k' => system_ok T m k' v).
Proof. intros [(Q & Hc & i & t & Ha & Ht & _) Htm]. by eapply yield_keeps. Qed.

Lemma sleep_call k v c :
  system_ok T m k v -> sched_active_thread (sch k) <> Some 1 ->
  runs (may_wait T) (thread_sleep fuel c 0) k (fun _ k' => system_ok T m k' v).
Proof.
  intros [(Q & Hc & i & t & Ha & Ht & Hon & Hh) Htm] H1. destruct (runnable_facts _ _ _ _ _ _ Hc Ht Hon) as (Hu & Hnb & _).
  destruct (core_status m (sch k) v Q i t STATUS_SLEEPING Hc Ht Hu Hnb) as (s' & E & Hc' & Hth & Ha'); [congruence|done|].
  assert (aget (sched_threads s') i = Some (set_status STATUS_SLEEPING t)) as Ht' by (rewrite Hth; by eapply threads_after_eq).
  assert (sched_set_own_status STATUS_SLEEPING (sch k) = Ret tt s') as E'.
  { unfold sched_set_own_status. by rewrite (bind_ret _ _ _ _ _ (gets_ok _ _)), Ha. }
  unfold thread_sleep. change (c_true 0) with false. cbn iota.
  apply (runs_step irq_disable _ _ 0 k _ eq_refl), (runs_step _ _ _ _ _ _ (on_sched_ok _ _ _ _ E')).
  apply (runs_step (irq_restore 0) _ _ tt (with_sch s' k) _ eq_refl).
  eapply (runs_bind _ _ _ (fun _ k' => system_ok T m k' v)); [|by intros r k' H].
  eapply (yield_keeps (with_sch s' k)); [exact Hc'|exact (eq_trans Ha' Ha)|exact Ht'|]. apply timer_frame; [done|].
  eapply entry_sleep; [exact Ht|exact Hth|]. left. intros E2. by rewrite E2 in Hon.
Qed.

(** A new runnable thread leaves the active one where it is. *)
Lemma active_head_after s s' Q i t t' :
  active_head Q s -> sched_active_thread s' = sched_active_thread s -> sched_threads s' = threads_after s i t' ->
  aget (sched_threads s) i = Some t -> on_runqueue (status t) = false ->
  forall p, active_head (set_queue Q p (Q p ++ [i])) s'.
Proof.
  intros (a & u & Ha & Hu & Hon & Hh) Ea Eth Ht Hoff p. apply active_head_push.
  exists a, u. split; [congruence|]. split; [|done]. rewrite Eth, (threads_after_ne _ _ _ _ _ Ht); [done|].
  intros ->. congruence.
Qed.

Lemma wakeup_call k v pid :
  system_ok T m k v -> may_wake T k pid -> exists r k', thread_wakeup pid k = Ret r k' /\ system_ok T m k' v.
Proof.
  intros [(Q & Hc & Hact) Hq] Hwk. destruct (thread_wakeup_only_sleeping k Q pid (core_rep _ _ _ _ Hc)) as [Hno Hyes].
  destruct (decide (1 <= pid <= 32)) as [Hp|Hp].
  2: { exists STATUS_NOT_FOUND, k. split; [by apply Hno|]. split; [by exists Q|done]. }
  destruct (Hyes Hp) as (t & Ht & Hn & Hy). destruct (decide (status t = STATUS_SLEEPING)) as [Es|Hns].
  2: { exists STATUS_NOT_FOUND, k. split; [by apply Hn|]. split; [by exists Q|done]. }
  destruct (core_tame _ _ _ _ Hc pid t Ht) as (Hpr & _ & Hu).
  assert (in_use t = true) as Hin by (destruct (in_use t); [done|]; specialize (Hu eq_refl); congruence).
  destruct (core_status m (sch k) v Q pid t STATUS_RUNNING Hc Ht Hin) as (s2 & E2 & Hc2 & Hth & Ha); [congruence|done|by rewrite Es|].
  assert (on_runqueue (status t) = false) as Hoff by by rewrite Es.
  exists 1, (with_sch s2 k). split; [|split; [|by apply timer_frame; [|eapply entry_sleep; [exact Ht|exact Hth|by right]]]].
  - unfold thread_wakeup, thread_get, pid_is_valid. change KERNEL_PID_FIRST with 1. change KERNEL_PID_LAST with 32.
    replace ((1 <=? pid) && (pid <=? 32)) with true by lia.
    rewrite (bind_ret (on_hw sm_irq_disable) _ k 0 k ltac:(by destruct k)), (bind_ret _ _ _ _ _ (on_thread _ _ _ Ht)).
    rewrite bool_decide_true by done. rewrite (bind_ret _ _ _ _ _ (on_sched_ok _ _ _ _ E2)). by destruct k.
  - exists (set_queue Q (priority t) (Q (priority t) ++ [pid])). split; [|by eapply active_head_after].
    unfold queues_after in Hc2. by rewrite Hoff in Hc2.
Qed.

Lemma some_free s : length (sched_threads s) = 33%nat -> exists p, first_free s p.
Proof.
  intros Hl. assert (forall n, 0 <= n <= 32 -> (forall i, 1 <= i < n + 1 -> used s i) \/
    exists p, 1 <= p < n + 1 /\ first_free s p) as H.
  { intros n [Hn Hle]. revert n Hn Hle. refine (natlike_ind _ _ _); [left; lia|]. intros n Hn IH Hle.
    destruct (IH ltac:(lia)) as [Hu|(p & Hp & Hf)]; [|right; exists p; split; [lia|done]].
    destruct (aget_some (sched_threads s) (n + 1)) as [t Ht]; [lia|]. destruct (in_use t) eqn:E.
    - left. intros i Hi. destruct (decide (i = n + 1)) as [->|]; [by exists t|]. apply Hu. lia.
    - right. exists (n + 1). split; [lia|]. split; [lia|]. split; [done|]. intros _. by exists t. }
  destruct (H 32 ltac:(lia)) as [Hu|(p & _ & Hf)]; [|by exists p].
  exists 33. split; [lia|]. split; [intros i Hi; apply Hu; lia|]. intros Hle. exfalso. by apply Hle.
Qed.

Lemma create_plain k v c exit stack stacksize prio flags function arg mm :
  system_ok T m k v -> 0 <= prio < SCHED_PRIO_LEVELS -> Z.land flags THREAD_CREATE_WOUT_YIELD <> 0 ->
  exists r k', thread_create fuel c exit stack stacksize prio flags function arg mm k = Ret r k' /\ system_ok T m k' v.
Proof.
  intros [(Q & Hc & Hact) Hq] Hprio Hfl. pose proof (core_rep _ _ _ _ Hc) as Hr.
  destruct (some_free (sch k)) as [p Hfree]; [by destruct Hr as [[? _] _]|].
  destruct (decide (SCHED_MAX_PRIO_LEVEL_UNPROTECTED <= prio)) as [Hlo|Hlo].
  2: { exists (- EINVAL, mm, None), k. split; [|split; [by exists Q|done]]. unfold thread_create.
       by rewrite (proj2 (Z.ltb_lt _ _)) by lia. }
  destruct (let '(stk, size) := align_stack stack stacksize in thread_stack_init exit function arg stk size mm)
    as [w m'] eqn:Est.
  destruct (decide (p <= KERNEL_PID_LAST)) as [Hp|Hp].
  2: { exists (- EOVERFLOW, m', None), k. split; [|split; [by exists Q|done]].
       unfold thread_create. rewrite (proj2 (Z.ltb_ge _ _)) by lia.
       destruct (align_stack stack stacksize) as [stk size]. rewrite Est.
       assert (thread_create_unprotected_in_scheduler prio w (sch k) = Ret (- EOVERFLOW) (sch k)) as E.
       { unfold thread_create_unprotected_in_scheduler. rewrite (proj2 (Z.ltb_ge _ _)) by lia.
         unfold _thread_create_scheduler_internal. rewrite (bind_ret _ _ _ _ _ (free_pid_ok _ _ Hfree)).
         by rewrite (proj2 (Z.leb_gt _ _)) by lia. }
       rewrite (bind_ret _ _ _ _ _ (on_sched_ok _ _ _ _ E)), (proj2 (Z.eqb_neq _ _) Hfl). by destruct k. }
  destruct (proj2 (proj2 Hfree) Hp) as (t & Ht & Hu).
  pose proof (proj2 (proj2 (core_tame _ _ _ _ Hc p t Ht)) Hu) as Hst.
  assert (on_runqueue (status t) = false) as Hoff by by rewrite Hst.
  destruct (thread_create_ok k Q p t fuel c exit stack stacksize prio flags function arg mm w m' Hr Hfree Hp Ht Hoff
    ltac:(lia) Hfl Est) as (s' & E & Hr' & Hth & Ha & Epid & _ & Hfr).
  exists (p, m', None), (with_sch s' k). split; [done|].
  split; [|apply timer_frame; [done|]; eapply entry_sleep; [exact Ht|exact Hth|left; congruence]].
  exists (set_queue Q prio (Q prio ++ [p])). split; [|by eapply active_head_after].
  assert (forall xs, v = Some xs -> p ∉ xs) as Hpx.
  { intros xs Ev Hin. destruct (core_blocked _ _ _ _ Hc xs p Ev Hin) as (u & Hu' & ?). congruence. }
  eapply (core_entry m (sch k) s' v v Q); [done|done|exact Hth| | |done|exact Hr'| | |intros y; rewrite Ha, Epid; apply Hc].
  - split; [done|]. split; [|done]. change SCHED_MAX_PRIO_LEVEL_UNPROTECTED with 3 in Hlo. cbn.
    change SCHED_PERIODIC_PRIO_LEVEL with 1. lia.
  - intros ->. destruct (core_idle _ _ _ _ Hc) as (u & Hu' & Hon & _). congruence.
  - eapply mutex_rep_frame; [apply Hc|exact Hfr|by rewrite !elem_of_cons; intros [?|[?|(? & ? & _)%list_elem_of_fmap]]|].
    intros xs x Ev Hin. destruct (waiters_off _ _ _ _ _ _ Hc Ev Hin) as (u & Hu' & Hoffx).
    assert (x <> p) as Hne by (intros ->; by apply (Hpx xs)). split.
    + rewrite !elem_of_cons. intros [[= ->]|[?|Hx%thread_fmap_elem]]; [done|done|].
      destruct Hr as (_ & _ & Hqq & _). destruct (proj1 (Hqq prio x Hprio) Hx) as (w' & ? & ? & _). congruence.
    + intros u' Hu''. exists u'. rewrite Hth. by rewrite (threads_after_ne _ _ _ _ _ Ht Hne).
  - intros xs x Ev Hx. right. split; [|by eauto]. intros ->. by apply (Hpx xs).
Qed.

(** A switch to a priority: the caller yields if it may, or goes on. *)
Lemma switch_call k v c prio :
  system_ok T m k v -> exists r k', sched_switch fuel c prio k = Ret r k' /\ system_ok T m k' v.
Proof.
  intros [(Q & Hc & i & t & Ha & Ht & Hon & Hh) Htm]. unfold sched_switch, exitless_entry.
  assert (EXITLESS_FUNCTION_TYPE_SCHED_SWITCH <> EXITLESS_FUNCTION_TYPE_EXIT) as Hty by done.
  rewrite (bind_ret _ _ _ _ _ (save_caller_ok k i t _ (c_stack c) (c_caller c) Ha Ht Hty)).
  change (EXITLESS_FUNCTION_TYPE_SCHED_SWITCH =? EXITLESS_FUNCTION_TYPE_BOOT) with false.
  change (EXITLESS_FUNCTION_TYPE_SCHED_SWITCH =? EXITLESS_FUNCTION_TYPE_EXIT) with false.
  change (EXITLESS_FUNCTION_TYPE_SCHED_SWITCH =? EXITLESS_FUNCTION_TYPE_SCHED_SWITCH) with true. cbn iota.
  set (t1 := saved_by (c_stack c) (c_caller c) t). set (k1 := with_sch _ k).
  assert (aget (sched_threads (sch k1)) i = Some t1) as Ht1 by by eapply threads_after_eq.
  assert (core m (sch k1) v Q) as Hc1 by by apply saved_core.
  assert (timer_ok T k1) as Htm1 by (apply timer_frame; [done|by apply evolves_sleep, saved_evolves]).
  assert (active_head Q (sch k1)) as Hh1.
  { exists i, t1. unfold t1, saved_by in *. split; [done|]. split; [done|]. by destruct (_ =? _). }
  unfold sched_switch_internal, sched_switch_internal_allow_yield.
  rewrite bind_assoc, (bind_ret _ _ _ _ _ (on_sched_gets _ _)). change (sched_active_thread (sch k1)) with (sched_active_thread (sch k)).
  rewrite Ha. unfold unwrap. rewrite bind_assoc, (bind_ret (ret i) _ _ _ _ eq_refl), bind_assoc, (bind_ret _ _ _ _ _ (on_thread _ _ _ Ht1)).
  assert (forall k2, sch k2 = sch k1 \/ sch k2 = with_request 1 (sch k1) -> timer_ok T k2 ->
    exists r k', restore_context k2 = Ret r k' /\ system_ok T m k' v) as Hrest.
  { intros k2 Hs Htm2. assert (active_head Q (sch k2)) as Hh2 by (by destruct Hs as [->| ->]).
    destruct (restore_active k2 Q Hh2) as (r & sp & E). exists r, (resumed_in (sch k2) sp k2). split; [exact E|].
    assert (core m (sch k2) v Q) as Hc2.
    { destruct Hs as [->| ->]; [done|]. apply (core_evolves m (sch k1) _ v Q Q []);
        [done|by apply evolves_same|apply Hc1|apply frame_refl|set_solver..|exact (core_active _ _ _ _ Hc1)]. }
    split; [by exists Q|]. unfold resumed_in. rewrite with_sch_id. by apply timer_resume. }
  destruct (_ || _).
  2: { rewrite (bind_ret (ret None) _ _ _ _ eq_refl). apply Hrest; [by left|done]. }
  set (k2 := with_sch (with_request 1 (sch k1)) k1).
  rewrite bind_assoc, (bind_ret _ _ k1 tt k2) by done.
  assert (timer_ok T k2) as Htm2 by (apply timer_frame; [done|by apply evolves_sleep, evolves_same]).
  rewrite bind_assoc. unfold sm_irq_is_in. rewrite (bind_ret _ _ _ _ _ (on_hw_gets k2 _)).
  destruct (c_true _).
  { rewrite (bind_ret (ret None) _ _ _ _ eq_refl). apply Hrest; [by right|done]. }
  assert (core m (sch k2) v Q) as Hc2.
  { apply (core_evolves m (sch k1) _ v Q Q []);
      [done|by apply evolves_same|apply Hc1|apply frame_refl|set_solver..|exact (core_active _ _ _ _ Hc1)]. }
  destruct (internal_keeps m k2 v Q i t1 fuel Hc2 Ha Ht1 ltac:(lia)) as (s & sp & r & Q' & E & Hc' & Hh' & He).
  rewrite bind_assoc, (bind_ret _ _ _ _ _ E), (bind_ret (ret (Some r)) _ _ _ _ eq_refl).
  exists r, (resumed_in s sp k2). split; [done|]. split; [by exists Q'|].
  apply (timer_resume (with_sch s k2)), timer_frame; [done|by apply evolves_sleep].
Qed.

(** Creation with a switch is creation without one, and then a switch. *)
Lemma create_switches c exit stack stacksize prio flags function arg mm k :
  SCHED_MAX_PRIO_LEVEL_UNPROTECTED <= prio -> Z.land flags THREAD_CREATE_WOUT_YIELD = 0 ->
  thread_create fuel c exit stack stacksize prio flags function arg mm k =
  (let! '(p, m', _) := thread_create fuel c exit stack stacksize prio THREAD_CREATE_WOUT_YIELD function arg mm in
   let! r := sched_switch fuel c prio in ret (p, m', Some r)) k.
Proof.
  intros Hp Hf. unfold thread_create at 1 2. rewrite (proj2 (Z.ltb_ge _ _)) by lia.
  destruct (align_stack stack stacksize) as [stk size]. destruct (thread_stack_init _ _ _ _ _ _) as [w m'].
  rewrite Hf. change (Z.land THREAD_CREATE_WOUT_YIELD THREAD_CREATE_WOUT_YIELD =? 0) with false. cbn iota.
  rewrite bind_assoc. unfold bind at 1 3. by destruct (on_sched _ k).
Qed.

Lemma create_call k v c exit stack stacksize prio flags function arg mm :
  system_ok T m k v -> 0 <= prio < SCHED_PRIO_LEVELS ->
  exists r k', thread_create fuel c exit stack stacksize prio flags function arg mm k = Ret r k' /\ system_ok T m k' v.
Proof.
  intros Hk Hp. destruct (decide (Z.land flags THREAD_CREATE_WOUT_YIELD = 0)) as [Hf|Hf]; [|by apply create_plain].
  destruct (Z.ltb_spec prio SCHED_MAX_PRIO_LEVEL_UNPROTECTED) as [Hlo|Hlo].
  { exists (- EINVAL, mm, None), k. split; [|done]. unfold thread_create. by rewrite (proj2 (Z.ltb_lt _ _)) by lia. }
  destruct (create_plain k v c exit stack stacksize prio THREAD_CREATE_WOUT_YIELD function arg mm Hk Hp) as ([[p m'] o] & k1 & E & Hk1); [done|].
  destruct (switch_call k1 v c prio Hk1) as (r & k2 & E2 & Hk2).
  exists (p, m', Some r), k2. split; [|done]. by rewrite (create_switches _ _ _ _ _ _ _ _ _ _ Hlo Hf), (bind_ret _ _ _ _ _ E), (bind_ret _ _ _ _ _ E2).
Qed.

(** Waiters are different threads of the table. *)
Lemma waiters_few s v Q xs : core m s v Q -> v = Some xs -> (length xs <= 33)%nat.
Proof.
  intros Hc ->. destruct xs as [|x r]; [cbn; lia|]. pose proof (core_mutex _ _ _ _ Hc) as ([Hd _] & _).
  apply NoDup_cons in Hd as [_ Hd]. rewrite <- (length_fmap NThread).
  assert ((NThread <$> x :: r) ⊆ (NThread <$> seqZ 0 33)) as Hsub.
  { intros a (y & -> & Hy)%list_elem_of_fmap. apply list_elem_of_fmap. exists y. split; [done|].
    destruct (core_blocked _ _ _ _ Hc (x :: r) y eq_refl Hy) as (u & Hu & _). apply aget_range in Hu.
    destruct (core_rep _ _ _ _ Hc) as [[Hl _] _]. rewrite Hl in Hu. apply elem_of_seqZ. lia. }
  change 33%nat with (length (NThread <$> seqZ 0 33)). apply submseteq_length. by apply NoDup_submseteq.
Qed.

(** The mutex word changes, but neither its waiters nor the threads. *)
Lemma core_word s s' v Q :
  core m s v Q -> sched_threads s' = sched_threads s -> active_named s' -> rq_rep s' Q -> forall v', mutex_rep s' m v' ->
  (v' = None \/ v' = Some []) -> core m s' v' Q.
Proof.
  intros Hc Eth Han Hr v' Hm Hv. split; [done|done| | | | |exact Han]; rewrite ?Eth;
    [exact (core_tame _ _ _ _ Hc)| |exact (core_idle _ _ _ _ Hc)|exact (core_pid _ _ _ _ Hc)].
  intros ys x E Hx. destruct Hv as [->| ->]; [done|]. injection E as <-. by apply not_elem_of_nil in Hx.
Qed.

Lemma same_threads k s' : sched_threads s' = sched_threads (sch k) -> timer_ok T k -> timer_ok T (with_sch s' k).
Proof. intros E H. apply timer_frame; [done|]. by apply evolves_sleep, evolves_same. Qed.

(** A free mutex is taken. *)
Lemma lock_free k Q :
  core m (sch k) None Q -> active_head Q (sch k) -> timer_ok T k ->
  exists s', on_sched (on_rq (store (NMutex m) (Some mutex_LOCKED))) k = Ret tt (with_sch s' k) /\
    system_ok T m (with_sch s' k) (Some []) /\ sched_threads s' = sched_threads (sch k).
Proof.
  intros Hc (i & t & Ha) Htm. pose proof (core_rep _ _ _ _ Hc) as Hr. pose proof (core_mutex _ _ _ _ Hc) as Hm.
  destruct (store_mutex_ok (sch k) Q m _ (Some mutex_LOCKED) Hr Hm) as (s' & E & Hr' & Hv & Es').
  assert (sched_threads s' = sched_threads (sch k)) as Eth by by rewrite Es'.
  exists s'. split; [by apply on_sched_ok|]. split; [|done]. split; [|by apply same_threads].
  exists Q. split; [|exists i, t; by rewrite Es'].
  apply (core_word (sch k) s' None); [done|done|rewrite Es'; exact (core_active _ _ _ _ Hc)|done|done|by right].
Qed.

Lemma lock_call k v c i :
  system_ok T m k v -> sched_active_thread (sch k) = Some i -> i <> 1 ->
  runs (may_wait T) (mutex_lock fuel c (NMutex m)) k (fun r k' => exists v', system_ok T m k' v' /\
    match v with
    | None => r = None /\ v' = Some []
    | Some xs => r <> None /\ v' = Some (queue_up (sch k) i xs)
    end).
Proof.
  intros [(Q & Hc & a & t & Ha & Ht & Hon & Hh) Hq] Hi H1. replace a with i in * by congruence.
  pose proof (core_rep _ _ _ _ Hc) as Hr. pose proof (core_mutex _ _ _ _ Hc) as Hm. unfold mutex_lock. destruct v as [xs|].
  - destruct (core_tame _ _ _ _ Hc i t Ht) as (Hp & Hne & _).
    pose proof (waiters_few _ _ _ xs Hc eq_refl) as Hlen.
    destruct (lock_blocks k Q m xs i t fuel Hr Hm Ha Ht Hon Hp Hh ltac:(lia)) as (s1 & E & Hm1 & Hr1 & Ha1 & Ht1 & _ & Hth & Epid).
    assert (core m s1 (Some (queue_up (sch k) i xs)) (set_queue Q (priority t) (tail (Q (priority t))))) as Hc1.
    { destruct (runnable_facts _ _ _ _ _ _ Hc Ht Hon) as (Hu & _ & Hnx).
      eapply (core_entry m (sch k) s1 (Some xs)); [exact Hc|exact Ht|exact Hth| |done|exact (core_pid _ _ _ _ Hc i t Ht)|done|done| |intros y; rewrite Epid, Ha1; intros [= <-]; by apply Hc].
      - split; [done|]. split; [done|]. cbn. congruence.
      - intros ys x [= <-] Hx. unfold queue_up in Hx. rewrite insert_perm in Hx.
        apply elem_of_cons in Hx as [->|Hx]; [by left|]. right. split; [|by eauto]. intros ->. by apply (Hnx xs). }
    assert (timer_ok T (with_sch s1 k)) as Htm1.
    { apply timer_frame; [done|]. eapply entry_sleep; [exact Ht|exact Hth|]. left. intros E2. by rewrite E2 in Hon. }
    pose proof (yield_keeps (with_sch s1 k) _ _ i _ c Hc1 Ha1 Ht1 Htm1) as Hy. unfold runs, bind in *. rewrite E.
    unfold bind. destruct (thread_yield_higher fuel c (with_sch s1 k)) as [r k'|f]; [|done]. cbn. by eexists.
  - destruct (lock_free k Q Hc ltac:(by exists i, t) Hq) as (s' & E & Hk' & _).
    apply (runs_step _ _ _ (1, None) (with_sch s' k)); [|by exists (Some [])].
    unfold _mutex_lock. rewrite (bind_ret _ _ _ _ _ (load_word _ _ _ Hm)), decide_True by done.
    by rewrite (bind_ret _ _ _ _ _ E).
Qed.

Lemma trylock_call k v c :
  system_ok T m k v ->
  exists r k' v', mutex_trylock fuel c (NMutex m) k = Ret r k' /\ system_ok T m k' v' /\
    match v with
    | None => r = 1 /\ v' = Some []
    | Some xs => r = 0 /\ v' = v
    end.
Proof.
  intros [(Q & Hc & Hact) Hq]. pose proof (core_mutex _ _ _ _ Hc) as Hm.
  unfold mutex_trylock, _mutex_lock. destruct v as [xs|].
  - exists 0, k, (Some xs). split; [|split; [split; [by exists Q|done]|done]].
    rewrite bind_assoc, (bind_ret _ _ _ _ _ (load_word _ _ _ Hm)).
    by rewrite decide_False by (by rewrite lock_word_none).
  - destruct (lock_free k Q Hc Hact Hq) as (s' & E & Hk' & _).
    exists 1, (with_sch s' k), (Some []). split; [|by split].
    rewrite bind_assoc, (bind_ret _ _ _ _ _ (load_word _ _ _ Hm)), decide_True by done.
    by rewrite bind_assoc, (bind_ret _ _ _ _ _ E).
Qed.

(** After unlocking exactly the first waiter is woken. *)
Lemma unlock_call k v :
  system_ok T m k v ->
  exists k' v', mutex_unlock fuel (NMutex m) k = Ret tt k' /\ system_ok T m k' v' /\
    match v with
    | Some (x :: r) => v' = Some r /\ forall y, woken k k' y <-> y = x
    | _ => v' = None /\ forall y, ~ woken k k' y
    end.
Proof.
  intros [(Q & Hc & Hact) Hq]. pose proof (core_rep _ _ _ _ Hc) as Hr. pose proof (core_mutex _ _ _ _ Hc) as Hm.
  destruct Hact as (a & ta & Ha & Hta & Hon & Hh).
  assert (forall k', sched_threads (sch k') = sched_threads (sch k) -> forall y, ~ woken k k' y) as Hnone.
  { intros k' E y (u & u' & Hu & Hs & Hu' & Hon'). rewrite E in Hu'. replace u' with u in * by congruence. by rewrite Hs in Hon'. }
  pose proof (mutex_unlock_ok k Q m v a ta fuel Hr Hm Ha Hta Hon) as H. destruct v as [[|x r]|].
  - destruct H as (s' & E & Hm' & Hr' & Hth & Ha' & Epid). exists (with_sch s' k), None. split; [done|].
    split; [split; [|by apply same_threads]|by split; [|apply Hnone]]. exists Q. cbn [sch with_sch].
    split; [|exists a, ta; by rewrite Hth].
    apply (core_word (sch k) s' (Some [])); [done|done|intros y; rewrite Epid, Ha', <- Ha; apply Hc|done|done|by left].
  - destruct (core_blocked _ _ _ _ Hc (x :: r) x eq_refl ltac:(by left)) as (tx & Hx & Hsx).
    destruct (core_tame _ _ _ _ Hc x tx Hx) as (Hp & Hne & Hu).
    destruct (H tx Hx Hp) as (s' & E & Hm' & Hr' & Hth & _ & Ha' & Epid).
    assert (on_runqueue (status tx) = false) as Hoff by by rewrite Hsx.
    assert (x ∉ r) as Hxr.
    { destruct Hm as ([Hd _] & _). apply NoDup_cons in Hd as [_ Hd]. apply NoDup_cons in Hd as [Hd _].
      intros Hin. by apply Hd, thread_fmap_elem. }
    exists (with_sch s' k), (Some r). split; [done|].
    assert (timer_ok T (with_sch s' k)) as Htm.
    { apply timer_frame; [done|]. eapply entry_sleep; [exact Hx|exact Hth|left; congruence]. }
    split; [split; [|done]|split; [done|]].
    + exists (set_queue Q (priority tx) (Q (priority tx) ++ [x])). split.
      * eapply (core_entry m (sch k) s' (Some (x :: r))); [exact Hc|exact Hx|exact Hth| | |exact (core_pid _ _ _ _ Hc x tx Hx)|done|done| |intros y; rewrite Epid, Ha', <- Ha; apply Hc].
        -- split; [done|]. split; [done|]. cbn. intros Hi. specialize (Hu Hi). congruence.
        -- intros ->. destruct (core_idle _ _ _ _ Hc) as (u & Hu' & Hon' & _). congruence.
        -- intros ys y [= <-] Hy. right. split; [by intros ->|]. exists (x :: r). split; [done|by right].
      * apply (active_head_after (sch k) s' Q x tx (set_status STATUS_PENDING tx)); [by exists a, ta|exact (eq_trans Ha' (eq_sym Ha))|exact Hth|exact Hx|exact Hoff].
    + intros y. split.
      * intros (u & u' & Hu1 & Hs & Hu2 & Hon'). cbn in Hu2. rewrite Hth in Hu2. destruct (decide (y = x)) as [|Hyx]; [done|].
        rewrite (threads_after_ne _ _ _ _ _ Hx Hyx) in Hu2. replace u' with u in * by congruence. by rewrite Hs in Hon'.
      * intros ->. eexists tx, _. split; [done|]. split; [done|]. cbn. rewrite Hth.
        split; [by apply (threads_after_eq _ _ _ _ Hx)|done].
  - exists k, None. split; [done|]. split; [split; [|done]|by split; [|apply Hnone]].
    exists Q. split; [done|by exists a, ta].
Qed.

(** ** Every step keeps the invariant *)

Definition sys_ok (c : kst * gset Z) : Prop := exists v, system_ok T m c.1 v /\ holders_ok v c.2.

Lemma holders_lock v v' H i (b : bool) :
  holders_ok v H -> v = None \/ b = false -> (b = true -> v' = Some []) -> (b = false -> is_Some v' <-> is_Some v) ->
  holders_ok v' (if b then {[i]} ∪ H else H).
Proof.
  intros Hh Hv Ht Hf. destruct b.
  - rewrite (Ht eq_refl). destruct Hv as [->|]; [|done]. cbn in Hh. subst H. exists i. set_solver.
  - specialize (Hf eq_refl). destruct v as [xs|], v' as [ys|]; cbn in *; try done.
    + destruct Hf as [_ H1]. destruct (H1 ltac:(eauto)) as [? [=]].
    + destruct Hf as [H1 _]. destruct (H1 ltac:(eauto)) as [? [=]].
Qed.

Lemma step_ok c c' : sys_ok c -> kstep T m fuel c c' -> sys_ok c'.
Proof.
  intros (v & Hk & Hh) Hs. destruct Hs as [k H c r k' E|k H c r k' H1 E|k H pid r k' Hw E
    |k H c exit stack size prio flags fn arg mm r k' Hp E|k H c prio r k' E|k H c i r k' Ha E|k H c i r k' Ha H1 E|k H i k' H' Ha Hin E HH]; cbn [fst snd] in *.
  - exists v. split; [exact (runs_inv _ _ _ _ _ (yield_call k v c Hk) E)|done].
  - exists v. split; [exact (runs_inv _ _ _ _ _ (sleep_call k v c Hk H1) E)|done].
  - destruct (wakeup_call k v pid Hk Hw) as (r' & k2 & E' & Hk'). rewrite E' in E. injection E as _ <-. by exists v.
  - destruct (create_call k v c exit stack size prio flags fn arg mm Hk Hp) as (r' & k2 & E' & Hk').
    rewrite E' in E. injection E as _ <-. by exists v.
  - destruct (switch_call k v c prio Hk) as (r' & k2 & E' & Hk'). rewrite E' in E. injection E as _ <-. by exists v.
  - destruct (trylock_call k v c Hk) as (r' & k2 & v' & E' & Hk' & Hv). rewrite E' in E. injection E as -> <-.
    exists v'. split; [done|]. destruct v as [xs|]; destruct Hv as [-> ->]; [done|].
    exact (holders_lock None _ H i true Hh (or_introl eq_refl) (fun _ => eq_refl) ltac:(done)).
  - destruct (runs_inv _ _ _ _ _ (lock_call k v c i Hk Ha H1) E) as (v' & Hk' & Hv).
    exists v'. split; [done|]. destruct v as [xs|].
    + destruct Hv as [Hr ->]. destruct r; [|done]. destruct Hh as [o ->]. by exists o.
    + destruct Hv as (-> & ->).
      exact (holders_lock None _ H i true Hh (or_introl eq_refl) (fun _ => eq_refl) ltac:(done)).
  - destruct (unlock_call k v Hk) as (k2 & v' & E' & Hk' & Hv). rewrite E' in E. injection E as <-.
    exists v'. split; [done|]. destruct v as [xs|]; [|cbn in Hh; subst H; by apply not_elem_of_empty in Hin].
    destruct Hh as [o ->]. apply elem_of_singleton in Hin as ->. destruct xs as [|x r]; destruct Hv as [-> Hw]; cbn.
    + apply set_eq. intros y. rewrite HH, elem_of_singleton. set_solver.
    + exists x. apply set_eq. intros y. rewrite HH, Hw, !elem_of_singleton. naive_solver.
Qed.

(** What the invariant says of the holders. *)
Lemma sys_exclusive k H : sys_ok (k, H) ->
  (forall i j, i ∈ H -> j ∈ H -> i = j) /\ (H = ∅ <-> rq (sch k) !! NMutex m = Some None).
Proof.
  intros (v & [(Q & Hc & _) _] & Hh). cbn [fst snd] in *.
  pose proof (mutex_word _ _ _ (core_mutex _ _ _ _ Hc)) as Hw. rewrite Hw. destruct v as [xs|].
  - destruct Hh as [o ->]. split; [set_solver|]. split; [intros E; set_solver|]. intros [= E]. by destruct xs.
  - cbn in Hh. subst H. split; [set_solver|done].
Qed.
End calls.

(** ** A system whose timers are quiet *)

Definition quiet_timing : timing := Timing false (fun k => quiet (hw k)) (fun _ _ => True).
Abbreviation kernel_ok := (system_ok quiet_timing).

#[export] Instance quiet_laws m fuel : (34 <= fuel)%nat -> TimingLaws m fuel quiet_timing.
Proof.
  intros Hf. split; [done| |done]. intros k v Q i t Hc Ha Ht Hq.
  destruct (internal_keeps m k v Q i t fuel Hc Ha Ht ltac:(lia)) as (s & sp & r & Q' & E & Hc' & Hh & _).
  eapply runs_exact; [by rewrite default_quiet|]. split; [by exists Q'|done].
Qed.

Section quiet.
Context (m : Z) (fuel : nat) (Hfuel : (34 <= fuel)%nat).

Lemma reachable_ok c c' : sys_ok quiet_timing m c -> rtc (kstep quiet_timing m fuel) c c' -> sys_ok quiet_timing m c'.
Proof.
  intros Hc Hs. induction Hs as [|c1 c2 c3 H12 _ IH]; [done|]. apply IH.
  eapply step_ok; [exact Hfuel|by apply quiet_laws|exact Hc|exact H12].
Qed.

(** ** Properties *)

(** Mutual exclusion: however threads yield, sleep, wake each other, create
    others, lock and unlock, there is never more than one holder of the
    mutex, and none exactly when its word is null. *)
Theorem mutual_exclusion k H k' H' :
  kernel_ok m k None -> H = ∅ -> rtc (kstep quiet_timing m fuel) (k, H) (k', H') ->
  (forall i j, i ∈ H' -> j ∈ H' -> i = j) /\
  (H' = ∅ <-> rq (sch k') !! NMutex m = Some None).
Proof.
  intros Hk -> Hs. assert (sys_ok quiet_timing m (k', H')) as Hok.
  { apply (reachable_ok (k, ∅)); [by exists None|exact Hs]. }
  exact (sys_exclusive quiet_timing m fuel Hfuel (quiet_laws m fuel Hfuel) _ _ Hok).
Qed.

(** C4 A system in which no timer is pending does not fault: take threads that
    yield, switch, sleep without a timer, wake each other, create threads of
    the table's priorities, and lock and unlock one mutex, the idle thread
    neither sleeping nor locking.  In every state such calls lead to, the
    active thread is the first of its run queue, and each of them returns.  A
    thread's exit is not one of these calls: with no timer pending it always
    reads through a null pointer. *)
Theorem kernel_never_faults k H k' H' c :
  kernel_ok m k None -> H = ∅ -> rtc (kstep quiet_timing m fuel) (k, H) (k', H') ->
  (exists Q, rq_rep (sch k') Q /\ active_head Q (sch k')) /\
  (exists r k2, thread_yield fuel c k' = Ret r k2) /\
  (sched_active_thread (sch k') <> Some 1 -> exists r k2, thread_sleep fuel c 0 k' = Ret r k2) /\
  (forall pid, exists r k2, thread_wakeup pid k' = Ret r k2) /\
  (forall exit stack size prio flags fn arg mm, 0 <= prio < SCHED_PRIO_LEVELS ->
     exists r k2, thread_create fuel c exit stack size prio flags fn arg mm k' = Ret r k2) /\
  (forall prio, exists r k2, sched_switch fuel c prio k' = Ret r k2) /\
  (exists r k2, mutex_trylock fuel c (NMutex m) k' = Ret r k2) /\
  (sched_active_thread (sch k') <> Some 1 -> exists r k2, mutex_lock fuel c (NMutex m) k' = Ret r k2) /\
  (exists k2, mutex_unlock fuel (NMutex m) k' = Ret tt k2) /\
  (forall i, sched_active_thread (sch k') = Some i -> i <> KERNEL_PID_UNDEF -> cpu_switch_context_exit fuel c k' = Err NullDeref).
Proof.
  intros Hk -> Hs. destruct (reachable_ok (k, ∅) (k', H')) as (v & Hk' & _); [by exists None|done|]. cbn [fst snd] in *.
  pose proof (quiet_laws m fuel Hfuel) as HT.
  split; [destruct Hk' as [(Q & Hc & Ha) _]; exists Q; split; [apply Hc|done]|].
  split; [destruct (runs_returns _ _ _ (yield_call _ m fuel HT k' v c Hk')) as (r & k2 & E & _); eauto|].
  split; [intros H1; destruct (runs_returns _ _ _ (sleep_call _ m fuel HT k' v c Hk' H1)) as (r & k2 & E & _); eauto|].
  split; [intros pid; destruct (wakeup_call _ m fuel Hfuel HT k' v pid Hk' I) as (r & k2 & E & _); eauto|].
  split.
  { intros exit stack size prio flags fn arg mm Hp.
    destruct (create_call _ m fuel Hfuel HT k' v c exit stack size prio flags fn arg mm Hk' Hp) as (r & k2 & E & _); eauto. }
  split; [intros prio; destruct (switch_call _ m fuel Hfuel HT k' v c prio Hk') as (r & k2 & E & _); eauto|].
  split; [destruct (trylock_call _ m fuel HT k' v c Hk') as (r & k2 & v' & E & _); eauto|].
  assert (forall i, sched_active_thread (sch k') = Some i -> i <> KERNEL_PID_UNDEF -> cpu_switch_context_exit fuel c k' = Err NullDeref) as Hexit.
  { intros i Hi Hi0. destruct Hk' as [(Q & Hc & j & t & Ha & Ht & Hon & Hh) Hq]. replace j with i in * by congruence.
    apply (proj2 (boot_and_exit_read_null k' Q i t fuel (c_entry c) (c_stack c) (c_r13 c) (c_r12 c) (c_caller c) (core_rep _ _ _ _ Hc) Hq)); try done; [by apply Hc|].
    apply (core_tame _ _ _ _ Hc i t Ht). }
  split; [|split; [destruct (unlock_call _ m fuel HT k' v Hk') as (k2 & v' & E & _); eauto|exact Hexit]].
  intros H1. pose proof Hk' as [(Q & _ & i & t & Ha & _) _].
  destruct (runs_returns _ _ _ (lock_call _ m fuel Hfuel HT k' v c i Hk' Ha ltac:(congruence))) as (r & k2 & E & _); eauto.
Qed.
End quiet.

(** ** From boot *)

Lemma boot_core s m' task task' exit (ms : list Z) m :
  rq_rep s boot_queues -> ready s m' 1 THREAD_PRIORITY_IDLE task exit ->
  ready s m' 2 THREAD_PRIORITY_MAIN task' exit ->
  (forall i t, i <> 1 -> i <> 2 -> aget (sched_threads s) i = Some t -> t = free_thread) ->
  (forall x, x ∈ ms -> rq s !! NMutex x = Some None) -> m ∈ ms ->
  sched_active_thread s = None -> core m s None boot_queues.
Proof.
  intros Hr (t1 & H1 & S1 & P1 & D1 & I1 & _) (t2 & H2 & S2 & P2 & D2 & I2 & _) Hfree Hm Hin Ha.
  split; [done|by apply Hm| |done| | |by intros i; rewrite Ha].
  - intros x u Hu. destruct (decide (x = 1)) as [->|N1]; [|destruct (decide (x = 2)) as [->|N2]].
    + replace u with t1 by congruence. unfold tame. rewrite P1, I1. done.
    + replace u with t2 by congruence. unfold tame. rewrite P2, I2. done.
    + rewrite (Hfree x u N1 N2 Hu). done.
  - exists t1. by rewrite S1.
  - intros x u Hu Hi. destruct (decide (x = 1)) as [->|N1]; [|destruct (decide (x = 2)) as [->|N2]]; [congruence..|].
    by rewrite (Hfree x u N1 N2 Hu) in Hi.
Qed.

(** ** Witnesses *)

(** Two threads of priority 7 and the idle thread; mutex 0 is free. *)
Definition demo_sys : kst :=
  K (Sched ([free_thread; demo_thread 1 15 STATUS_PENDING; demo_thread 2 7 STATUS_RUNNING; demo_thread 3 7 STATUS_PENDING]
            ++ replicate 29 free_thread) (demo_links false) 0x8080 (Some 2) 2 3 0 true 0) demo_tmr (step_hw 1000).

Lemma demo_entries (P : Z -> thread_t -> Prop) x u :
  Forall id (imap (fun i => P (Z.of_nat i)) (sched_threads (sch demo_sys))) ->
  aget (sched_threads (sch demo_sys)) x = Some u -> P x u.
Proof.
  intros HF Hu. unfold aget in Hu. destruct (Z.leb_spec 0 x); [|done]. rewrite <- (Z2Nat.id x) by done.
  refine (proj1 (Forall_lookup id _) HF (Z.to_nat x) _ _). by rewrite list_lookup_imap, Hu.
Qed.

Lemma demo_sys_ok : kernel_ok 0 demo_sys None.
Proof.
  split; [|exact (demo_quiet 1000)]. exists demo_queues. split.
  - split; [apply rq_check_ok; vm_compute; reflexivity|vm_compute; reflexivity| |done|by eexists| |by intros i [= <-]].
    + intros x u. apply (demo_entries (fun _ => tame)). repeat (constructor; [by repeat split|]). constructor.
    + intros x u. apply (demo_entries (fun x u => in_use u = true -> pid u = x)). repeat (constructor; [done|]). constructor.
  - exists 2, (demo_thread 2 7 STATUS_RUNNING). by repeat split.
Qed.

(** The state behind a call. *)
Definition after {A} (f : M kst A) (k : kst) : kst := match f k with Ret _ k' => k' | Err _ => k end.

Lemma after_ok {A} (f : M kst A) k (P : A -> bool) :
  match f k with Ret a _ => P a | Err _ => false end = true -> exists a, f k = Ret a (after f k) /\ P a = true.
Proof. unfold after. destruct (f k) as [a k'|]; [|done]. by exists a. Qed.

(** Thread 2 locks and yields to thread 3, which blocks. *)
Definition demo1 : kst := after (mutex_lock 34 demo_call (NMutex 0)) demo_sys.
Definition demo2 : kst := after (thread_yield 34 demo_call) demo1.
Definition demo3 : kst := after (mutex_lock 34 demo_call (NMutex 0)) demo2.

Lemma demo_trace : rtc (kstep quiet_timing 0 34) (demo_sys, ∅) (demo3, {[2]} ∪ ∅).
Proof.
  destruct (after_ok (mutex_lock 34 demo_call (NMutex 0)) demo_sys (fun r => bool_decide (r = None))) as (r1 & E1 & R1);
    [vm_compute; reflexivity|].
  destruct (after_ok (thread_yield 34 demo_call) demo1 (fun _ => true)) as (r2 & E2 & _); [vm_compute; reflexivity|].
  destruct (after_ok (mutex_lock 34 demo_call (NMutex 0)) demo2 (fun r => bool_decide (r <> None))) as (r3 & E3 & R3);
    [vm_compute; reflexivity|].
  apply bool_decide_eq_true in R1, R3. subst r1. destruct r3 as [r3|]; [|destruct (R3 eq_refl)].
  eapply rtc_l; [exact (step_lock quiet_timing 0 34 demo_sys ∅ demo_call 2 None demo1 eq_refl ltac:(discriminate) E1)|].
  eapply rtc_l; [exact (step_yield quiet_timing 0 34 demo1 _ demo_call r2 demo2 E2)|].
  eapply rtc_l; [|apply rtc_refl].
  refine (step_lock quiet_timing 0 34 demo2 ({[2]} ∪ ∅) demo_call 3 (Some r3) demo3 _ ltac:(discriminate) E3). vm_compute. reflexivity.
Qed.

Lemma mutual_exclusion_witness :
  (forall i j : Z, i ∈ ({[2]} ∪ ∅ : gset Z) -> j ∈ ({[2]} ∪ ∅ : gset Z) -> i = j) /\
  (({[2]} ∪ ∅ : gset Z) = ∅ <-> rq (sch demo3) !! NMutex 0 = Some None).
Proof. exact (mutual_exclusion 0 34 ltac:(lia) demo_sys ∅ demo3 _ demo_sys_ok eq_refl demo_trace). Defined.

Lemma kernel_never_faults_witness :
  (exists Q, rq_rep (sch demo3) Q /\ active_head Q (sch demo3)) /\
  (exists r k2, thread_yield 34 demo_call demo3 = Ret r k2) /\
  (exists k2, mutex_unlock 34 (NMutex 0) demo3 = Ret tt k2).
Proof.
  destruct (kernel_never_faults 0 34 ltac:(lia) demo_sys ∅ demo3 _ demo_call demo_sys_ok eq_refl demo_trace)
    as (H1 & H2 & _ & _ & _ & _ & _ & _ & H3 & _).
  split; [exact H1|]. split; [exact H2|exact H3].
Defined.
