(* ===== verification/Handler.v ===== *)
(** * The timer interrupt between the calls of threads

    The handler of the software timers on the states that calls lead to: it
    performs no operation without meaning, whatever the counter reads, and
    keeps the scheduler, the mutex and the timer lists in order.  The timers
    in the lists are those of sleeping threads; their order is not part of
    the invariant, since [_next_period] may lose it. *)

From S2P Require Import Prelude Safe Clist ClistSpec KState RunQueue TimerHw Mintimer TimerLists TimerPeriod TimerProps.
From S2P Require Import Sched SchedProps Cpu Thread ThreadProps Mutex MutexProps Kernel.

(** ** The invariant of the timers *)

(** A timer in a list belongs to a thread that sleeps, and is its slot. *)
Definition waits (s : sched_t) (t : timers_t) (n : tnode) : Prop :=
  exists i u, n = TSlot i /\ t_thread t !! n = Some (Some i) /\ aget (sched_threads s) i = Some u /\
    status u = STATUS_SLEEPING /\ i <> 1.

Definition all_wait (s : sched_t) (t : timers_t) (ls : tnode -> list tnode) : Prop :=
  forall hd n, hd ∈ heads -> n ∈ ls hd -> waits s t n.

(** Every pid below 15 has its timer, and no other. *)
Definition slots_ok (t : timers_t) : Prop :=
  (forall i, 0 <= i < 15 -> is_timer t (TSlot i)) /\ forall i, ~ 0 <= i < 15 -> t_target t !! TSlot i = None.

Lemma slots_keep t t' : keeps_timers t t' -> slots_ok t -> slots_ok t'.
Proof. intros [H1 H2] [H3 H4]. split; auto. Qed.

(** Linked lists of the timers of sleeping threads, and the handler
    registered with the hardware timer. *)
Record timers_ok (k : kst) : Prop := {
  tk_lists : exists ls, timers_repb false (tmr k) ls /\ all_wait (sch k) (tmr k) ls;
  tk_slots : slots_ok (tmr k);
  tk_hw : hw_wf (hw k) /\ isr_cb (hw k) = true
}.

Lemma lists_few s t ls hd :
  length (sched_threads s) = 33%nat -> timers_repb false t ls -> all_wait s t ls -> hd ∈ heads -> (length (ls hd) <= 33)%nat.
Proof.
  intros Hl Hr Hw Hh. destruct (rep_list _ _ _ Hr Hh) as ([Hd _] & _). apply NoDup_cons in Hd as [_ Hd].
  change 33%nat with (length (TSlot <$> seqZ 0 33)). apply submseteq_length, NoDup_submseteq; [done|].
  intros n Hn. destruct (Hw hd n Hh Hn) as (i & u & -> & _ & Hu & _). apply aget_range in Hu.
  apply list_elem_of_fmap. exists i. split; [done|]. apply elem_of_seqZ. rewrite Hl in Hu. lia.
Qed.

Section handler.
(** [a] is the active thread; [B]: it is the first of its queue. *)
Context (m : Z) (fuel : nat) (Hfuel : (34 <= fuel)%nat) (v : lock) (a : option Z) (B : Prop).
Implicit Types (k : kst).

Definition inv k : Prop :=
  (exists Q, core m (sch k) v Q /\ (B -> active_head Q (sch k))) /\ sched_active_thread (sch k) = a /\ timers_ok k.

Lemma inv_few k ls hd :
  inv k -> timers_repb false (tmr k) ls -> all_wait (sch k) (tmr k) ls -> hd ∈ heads -> (length (ls hd) < fuel)%nat.
Proof.
  intros ((Q & Hc & _) & _ & _) Hr Hw Hh. eapply Nat.le_lt_trans; [|exact Hfuel].
  eapply lists_few; [|exact Hr|exact Hw|exact Hh]. destruct (core_rep _ _ _ _ Hc) as [[Hl _] _]. exact Hl.
Qed.

(** Changes of the timers that keep the lists. *)
Lemma inv_timers k t' : inv k ->
  (exists ls, timers_repb false t' ls /\ all_wait (sch k) t' ls) -> slots_ok t' -> inv (with_tmr t' k).
Proof. intros (Hs & Ha & [_ _ Hh]) Hl Hsl. split; [exact Hs|]. split; [exact Ha|]. by split. Qed.

(** Changes of the hardware that keep its registers. *)
Lemma inv_hw k h' : inv k -> hw_wf h' -> isr_cb h' = true -> inv (with_hw h' k).
Proof. intros (Hs & Ha & [Hl Hsl _]) Hw Hcb. split; [exact Hs|]. split; [exact Ha|]. by split. Qed.

Lemma inv_later k k' : inv k -> later k k' -> inv k'.
Proof. intros Hi (w & _ & ->). pose proof Hi as (_ & _ & [_ _ [Hw Hcb]]). by apply inv_hw. Qed.
Lemma inv_tick k : inv k -> inv (tick k).
Proof. intros Hi. by apply (inv_later k), later_tick. Qed.

Lemma now_safe {A} k (f : Z -> M kst A) (P : A -> kst -> Prop) :
  inv k -> (forall n k', inv k' -> safe (f n) k' P) -> safe (let! n := _secure_mintimer_lltimer_now in f n) k P.
Proof. intros Hi Hf. eapply runs_step; [apply lltimer_now_ok|]. by apply Hf, inv_tick. Qed.

(** A loop that waits for the counter. *)
Lemma wait_safe (g : Z -> unit + unit) k :
  inv k -> safe (loop fuel (fun _ : unit => let! n := _secure_mintimer_lltimer_now in ret (g n)) tt) k (fun _ => inv).
Proof.
  intros Hi. apply (safe_loop (fun _ => inv)); [|done]. intros _ k1 H1. apply now_safe; [done|].
  intros n k2 H2. unfold runs, ret. by destruct (g n).
Qed.

(** The first timer. *)
Lemma head_ok k : inv k ->
  exists hd, on_timers (nxt (load HTimer)) k = Ret hd k /\ forall q, hd = Some q -> is_timer (tmr k) q.
Proof.
  intros (_ & _ & [(ls & Hr & _) _ _]). destruct head_in_heads as (Hh & _).
  destruct (rep_list _ _ _ Hr Hh) as ([_ Hs] & Ht & _). pose proof (seg_head _ _ _ _ Hs) as E. rewrite app_nil_r in E.
  exists (head (ls HTimer)). split; [by rewrite (on_timers_ok _ _ _ _ (nxt_load_ok _ _ _ E)), with_tmr_id|].
  intros q Hq. apply (proj1 (Forall_forall _ _) Ht). by apply head_in.
Qed.

(** ** A new period *)

Lemma next_period_inv k : inv k -> exists k', on_timers (_next_period fuel) k = Ret tt k' /\ inv k'.
Proof.
  intros Hi. pose proof Hi as (_ & _ & [(ls & Hr & Hw) Hsl _]).
  destruct (next_period_ok (tmr k) ls fuel Hr) as (h & E & H1 & H2 & H3 & Hf).
  { intros hd Hh. by eapply inv_few. }
  exists (with_tmr (with_next h (advanced (tmr k))) k). split; [by apply on_timers_ok|].
  pose proof (advanced_fields (tmr k)) as (En & _ & _ & Hk).
  apply inv_timers; [done| |].
  - exists (lists_after (tmr k) ls). split; [by apply next_period_rep|]. intros hd n Hh Hn.
    assert (exists hd', hd' ∈ heads /\ n ∈ ls hd') as (hd' & Hh' & Hn').
    { destruct head_in_heads as (_ & HO & HL). pose proof (selected_app (due_now (advanced (tmr k))) (ls HLong)) as EL.
      unfold lists_after in Hn. destruct hd; try (by apply elem_of_nil in Hn).
      - apply merge_rest_elem in Hn as [Hn|Hn]; [by exists HOverflow|]. exists HLong. split; [done|].
        rewrite EL. apply elem_of_app. by left.
      - exists HLong. split; [done|]. rewrite EL. apply elem_of_app. by right.
      - unfold heads in Hh. rewrite !elem_of_cons, elem_of_nil in Hh. by destruct Hh as [|[|[|]]].
      - unfold heads in Hh. rewrite !elem_of_cons, elem_of_nil in Hh. by destruct Hh as [|[|[|]]]. }
    destruct (Hw hd' n Hh' Hn') as (i & u & E1 & E2 & E3). exists i, u. split; [done|]. split; [|done].
    cbn. unfold advanced. by destruct (_ =? 0).
  - eapply slots_keep; [|exact Hsl]. apply (keeps_trans _ (advanced (tmr k))).
    + split; [exact Hk|]. unfold advanced. by destruct (_ =? 0).
    + eapply keeps_next. rewrite En. exact Hf.
Qed.

(** ** Firing *)

(** A timer that was taken out wakes its thread. *)
Lemma shoot_inv k ls i :
  inv k -> timers_repb false (tmr k) ls -> all_wait (sch k) (tmr k) ls -> is_timer (tmr k) (TSlot i) ->
  waits (sch k) (tmr k) (TSlot i) -> unlinked ls (TSlot i) ->
  exists s', _shoot_timer (TSlot i) k = Ret tt (with_sch s' k) /\ inv (with_sch s' k) /\ all_wait s' (tmr k) ls /\
    forall u, aget (sched_threads (sch k)) i = Some u ->
      sched_threads s' = threads_after (sch k) i (set_status STATUS_PENDING u).
Proof.
  intros Hi Hr Hw Hn (j & u & [= <-] & Eth & Hu & Hs & H1) Hun.
  pose proof Hi as ((Q & Hc & Hact) & Ha & [_ Hsl Hh]).
  destruct (core_tame _ _ _ _ Hc i u Hu) as (_ & _ & Hin).
  assert (in_use u = true) as Hiu by (destruct (in_use u); [done|]; specialize (Hin eq_refl); congruence).
  destruct (core_status m (sch k) v Q i u STATUS_PENDING Hc Hu Hiu) as (s' & E & Hc' & Hth & Ha'); [congruence|done..|].
  assert (_shoot_timer (TSlot i) k = Ret tt (with_sch (with_request 1 s') k)) as Es.
  { unfold _shoot_timer. assert (get_thread (TSlot i) (tmr k) = Ret (Some i) (tmr k)) as Eg by (unfold get_thread; by rewrite Eth).
    rewrite (bind_ret _ _ _ _ _ (on_timers_ok _ _ _ _ Eg)), with_tmr_id.
    by rewrite (bind_ret _ _ _ _ _ (on_sched_ok _ _ _ _ E)). }
  assert (all_wait (with_request 1 s') (tmr k) ls) as Hw'.
  { intros hd n Hhd Hin'. destruct (Hw hd n Hhd Hin') as (j & w & -> & E1 & E2 & E3 & E4).
    exists j, w. split; [done|]. split; [done|]. split; [|done]. cbn [with_request sched_threads]. rewrite Hth.
    rewrite (threads_after_ne _ _ _ _ _ Hu); [done|]. intros ->. by apply (Hun hd). }
  exists (with_request 1 s'). split; [exact Es|].
  split; [|split; [exact Hw'|intros u' Hu'; replace u' with u by congruence; exact Hth]].
  assert (on_runqueue (status u) = false) as Hoff by by rewrite Hs.
  split; [|split; [exact (eq_trans Ha' Ha)|split; [|done|done]]].
  - exists (set_queue Q (priority u) (Q (priority u) ++ [i])). split.
    + unfold queues_after in Hc'. rewrite Hoff in Hc'.
      apply (core_evolves m s' (with_request 1 s') v (set_queue Q (priority u) (Q (priority u) ++ [i])) _ []); [exact Hc'|by apply evolves_same|apply Hc'|apply frame_refl|set_solver..|exact (core_active _ _ _ _ Hc')].
    + intros HB. by apply (active_head_after (sch k) (with_request 1 s') Q i u (set_status STATUS_PENDING u)); [apply Hact|..].
  - by exists ls.
Qed.

(** The first timer is in no list once it was taken out. *)
Lemma head_unlinked t ls x r : timers_repb false t ls -> ls HTimer = x :: r -> unlinked (set_list ls HTimer r) x.
Proof.
  intros Hr El hd Hhd Hin. destruct head_in_heads as (Hh & _). unfold set_list in Hin.
  destruct (decide (hd = HTimer)) as [->|Hne].
  - destruct (rep_list _ _ _ Hr Hh) as ([Hd _] & _). rewrite El in Hd. apply NoDup_cons in Hd as [_ Hd].
    by apply NoDup_cons in Hd as [? _].
  - apply Hne. symmetry. apply (rep_disjoint _ _ HTimer hd x Hr); [done|done|rewrite El; by left|done].
Qed.

Lemma fire_safe reference k : inv k -> safe (fire_due fuel reference) k (fun _ => inv).
Proof.
  intros Hi. apply (safe_loop (fun _ => inv)); [|done]. clear k Hi. intros [] k Hi.
  change (safe (fire_step fuel reference tt) k (fun r k' => match r with inl _ => inv k' | inr _ => inv k' end)).
  pose proof Hi as (_ & _ & [(ls & Hr & Hw) Hsl Hh]). destruct (ls HTimer) as [|x r] eqn:El.
  - destruct (head_ok k Hi) as (hd & E & _). destruct head_in_heads as (Hhh & _).
    destruct (rep_list _ _ _ Hr Hhh) as ([_ Hs] & _). rewrite El in Hs. cbn in Hs.
    eapply runs_step; [rewrite (on_timers_ok _ _ _ _ (nxt_load_ok _ _ _ Hs)), with_tmr_id; reflexivity|]. exact Hi.
  - unfold runs. rewrite (fire_look fuel reference k ls x r Hr El).
    destruct (_ <? SECURE_MINTIMER_ISR_BACKOFF); [|by apply inv_tick].
    set (tg := target_of (tmr k) x). fold tg.
    change (runs true (do! wait_due fuel reference tg; let! n := on_timers (nxt (load x)) in
       do! on_timers (nxt (store HTimer n)); do! on_timers (set_target x 0); do! on_timers (set_long_target x 0);
       do! _shoot_timer x; ret (inl tt)) (tick k) (fun (r : unit + unit) k' => match r with inl _ => inv k' | inr _ => inv k' end)).
    apply (runs_bind _ _ _ (fun _ k1 => later k k1)).
    { apply (safe_loop (fun _ k1 => later k k1)); [|apply later_tick]. intros _ k1 Hk1.
      eapply runs_step; [apply time_left_ok, mask_range|]. unfold runs, ret.
      destruct (c_true _); (eapply later_trans; [exact Hk1|apply later_tick]). }
    intros _ k1 Hk1.
    destruct (fire_take k ls x r k1 (do! _shoot_timer x; ret (inl tt)) Hr El Hk1) as (h & w & E & _ & _ & Hx & Hr').
    unfold runs. rewrite E. set (k3 := K _ _ _).
    assert (all_wait (sch k3) (tmr k3) (set_list ls HTimer r)) as Hw3.
    { intros hd n Hhd Hn. unfold set_list in Hn. destruct (decide (hd = HTimer)) as [->|]; [|by apply (Hw hd)].
      apply (Hw HTimer); [done|]. rewrite El. by right. }
    assert (inv k3) as Hi3.
    { apply (inv_hw (with_tmr (tmr k3) k)); [|apply Hh..]. apply inv_timers; [done|by eexists|].
      by eapply slots_keep. }
    assert (waits (sch k3) (tmr k3) x) as Hwx by (apply (Hw HTimer); [apply head_in_heads|rewrite El; by left]).
    pose proof Hwx as (i & _ & -> & _).
    destruct (shoot_inv k3 _ i Hi3 Hr' Hw3) as (s4 & E4 & Hi4 & _); [|done| |].
    { apply Hx. apply (in_list_timer _ _ Hr HTimer); [apply head_in_heads|rewrite El; in_list]. }
    { by eapply head_unlinked. }
    by rewrite (bind_ret _ _ _ _ _ E4).
Qed.

(** ** The handler *)

Lemma next_period_then {A} k (f : M kst A) (P : A -> kst -> Prop) :
  inv k -> (forall k', inv k' -> safe f k' P) -> safe (do! on_timers (_next_period fuel); f) k P.
Proof. intros Hi Hf. destruct (next_period_inv k Hi) as (k' & E & Hi'). eapply runs_step; [exact E|by apply Hf]. Qed.

Lemma wait_then {A} k (g : Z -> unit + unit) (f : M kst A) (P : A -> kst -> Prop) :
  inv k -> (forall k', inv k' -> safe f k' P) ->
  safe (do! loop fuel (fun _ : unit => let! n := _secure_mintimer_lltimer_now in ret (g n)) tt; f) k P.
Proof. intros Hi Hf. eapply runs_bind; [by apply wait_safe|]. intros [] k'. apply Hf. Qed.

Lemma pass_safe reference k : inv k -> safe (overflow_pass fuel reference) k (fun _ => inv).
Proof.
  intros Hi. unfold overflow_pass. eapply runs_bind; [by apply fire_safe|]. intros [] k1 H1.
  apply now_safe; [done|]. intros n k2 H2. destruct (_ <? reference).
  { apply next_period_then; [done|]. intros k3 H3. by apply (wait_then k3 (fun n => if reference <? n then inl tt else inr tt)). }
  destruct (head_ok k2 H2) as (hd & E & Hq). apply (runs_step _ _ _ _ _ _ E). destruct hd as [q|].
  - apply (runs_step _ _ _ (target_of (tmr k2) q) k2).
    { by rewrite (on_timers_ok _ _ _ _ (get_target_ok _ _ (Hq q eq_refl))), with_tmr_id. }
    assert (exists f, fuel = Datatypes.S f) as [f Ef] by (exists (Nat.pred fuel); lia).
    eapply runs_step; [rewrite Ef; apply now_ok|]. pose proof (inv_tick k2 H2). unfold runs. by destruct (_ <? _).
  - apply now_safe; [done|]. intros n' k3 H3. destruct (_ <? reference).
    { by apply next_period_then. }
    destruct (_ <? n'); [|done].
    apply (wait_then k3 (fun n => if n' <=? n then inl tt else inr tt)); [done|]. intros k4 H4. by apply next_period_then.
Qed.

Lemma in_handler_inv x k : inv k -> exists k', on_timers (modify (with_in_handler x)) k = Ret tt k' /\ inv k'.
Proof.
  intros Hi. exists (with_tmr (with_in_handler x (tmr k)) k). split; [done|].
  pose proof Hi as (_ & _ & [(ls & Hr & Hw) Hsl _]). apply inv_timers; [done| |exact Hsl].
  exists ls. split; [|exact Hw]. by apply (rep_fields (tmr k)).
Qed.

Lemma rearm_inv x k : inv k -> exists k', _lltimer_set x k = Ret tt k' /\ inv k'.
Proof.
  intros Hi. pose proof Hi as (_ & _ & [_ _ [Hw Hcb]]). destruct (lltimer_set_ok x k Hw) as [E Hw'].
  exists (with_hw (rearm x k) k). split; [exact E|]. apply inv_hw; [done|done|]. unfold rearm. by destruct (c_true _).
Qed.

Lemma callback_safe k : inv k -> safe (_timer_callback fuel) k (fun _ => inv).
Proof.
  intros Hi. unfold _timer_callback. destruct (in_handler_inv 1 k Hi) as (k1 & E1 & H1).
  apply (runs_step _ _ _ _ _ _ E1). destruct (head_ok k1 H1) as (hd & E2 & _). apply (runs_step _ _ _ _ _ _ E2).
  apply (runs_bind _ _ _ (fun _ => inv)).
  { destruct hd; [eapply runs_exact; [apply lltimer_now_ok|by apply inv_tick]|]. apply next_period_then; [done|].
    intros k2 H2. by apply (wait_then k2 (fun n => if n =? _secure_mintimer_lltimer_mask 0xFFFFFFFF then inl tt else inr tt)). }
  intros reference k2 H2. eapply runs_bind.
  { apply (safe_loop (fun _ => inv) (fun _ => inv)); [|exact H2]. intros r k3 H3.
    eapply runs_mono; [by apply pass_safe|]. by intros [] ?. }
  intros next k3 H3. destruct (in_handler_inv 0 k3 H3) as (k4 & E4 & H4). apply (runs_step _ _ _ _ _ _ E4).
  destruct (rearm_inv next k4 H4) as (k5 & E5 & H5). apply (runs_step _ _ _ _ _ _ E5).
  pose proof H5 as (_ & _ & [_ _ [Hw Hcb]]). by apply (inv_hw k5).
Qed.
End handler.
