(* ===== verification/Timed.v ===== *)
(** * The kernel with its timers running

    The calls of Kernel while timers are set, the counter moves and the
    timer interrupt comes.  A sleep of an application arms the timer of its
    thread; the hardware sets its flags at any time; an interrupt runs the
    handler between two calls, and a call that gives up the processor with
    an interrupt pending runs the handler itself.  A step is a call that
    comes to its end.  One that faults has no step, as the sleep of pid 15,
    and the end of a thread unless a timer is pending at that moment. *)

From stdpp Require Import sorting relations.
From S2P Require Import Prelude Safe Clist ClistSpec ListInsert KState RunQueue TimerHw Mintimer TimerLists TimerPeriod TimerProps.
From S2P Require Import Div Sched SchedProps Cpu TimerApi Thread ThreadProps Mutex MutexProps Kernel Handler.

(** A sleeping thread may be woken early if its timer is not queued. *)
Definition timed : timing :=
  Timing true timers_ok (fun k x => forall ls, timers_repb false (tmr k) ls -> unlinked ls (TSlot x)).

(** A sleep in microseconds. *)
Definition usleep (fuel : nat) (c : call_site) (us : Z) : M kst resumed :=
  secure_mintimer_usleep fuel (c_entry c) (c_stack c) (c_caller c) us.

(** One call, a sleep, the end of a thread, a change of the hardware's flags,
    or an interrupt, which may be that of an access violation and then ends
    the thread.  The idle thread (pid 1) does not sleep and does not end.  Of
    the calls of [kstep] only waking is restricted: the thread may sleep, but
    not with its timer in a list. *)
Inductive tstep (m : Z) (fuel : nat) : kst * gset Z -> kst * gset Z -> Prop :=
  | t_call c c' : kstep timed m fuel c c' -> tstep m fuel c c'
  | t_usleep k H c i us r k' :
      sched_active_thread (sch k) = Some i -> i <> 1 -> in_u 32 us ->
      usleep fuel c us k = Ret r k' -> tstep m fuel (k, H) (k', H)
  | t_exit k H c r k' :
      sched_active_thread (sch k) <> Some 1 ->
      sched_task_exit fuel c k = Ret r k' -> tstep m fuel (k, H) (k', H)
  | t_flags k H ctl cctl :
      length cctl = 3%nat -> tstep m fuel (k, H) (with_hw (with_CTL ctl (with_CCTL cctl (hw k))) k, H)
  | t_interrupt k H caller top r1 sr ssa r k' :
      (caller = CALLER_VIOLATION -> sched_active_thread (sch k) <> Some 1) ->
      __sm_sancus_sm_timer_isr_func fuel caller top r1 sr ssa k = Ret r k' -> tstep m fuel (k, H) (k', H).

(** ** The timers keep their promise *)

Lemma timed_frame k s' : timers_ok k -> sleepers_stay timed k s' -> timers_ok (with_sch s' k).
Proof.
  intros [(ls & Hr & Hw) Hsl Hh] Hs. split; [|done|done]. exists ls. split; [exact Hr|]. intros hd n Hhd Hn.
  destruct (Hw hd n Hhd Hn) as (i & u & -> & E1 & E2 & E3 & E4).
  destruct (Hs i u E2 E3) as (u' & E5 & E6); [|by exists i, u'].
  intros Hno. by apply (Hno ls Hr hd).
Qed.

Lemma timers_hw k h' : timers_ok k -> hw_wf h' -> isr_cb h' = true -> timers_ok (with_hw h' k).
Proof. intros [Hl Hsl _] Hw Hcb. by split. Qed.

Lemma resumed_timers k s sp : timers_ok (with_sch s k) -> timers_ok (resumed_in s sp k).
Proof. intros H. pose proof H as [_ _ [Hw Hcb]]. by apply (timers_hw (with_sch s k)). Qed.

Section timed.
Context (m : Z) (fuel : nat) (Hfuel : (34 <= fuel)%nat).
Implicit Types (k : kst) (v : lock).

(** The end of an interrupt: without a request the active thread goes on. *)
Lemma exit_safe k v Q :
  core m (sch k) v Q -> active_ok (sch k) -> timers_ok k ->
  (sched_context_switch_request (sch k) = 0 -> active_head Q (sch k)) ->
  exists r k', exit_isr fuel k = Ret r k' /\ system_ok timed m k' v /\ tmr k' = tmr k /\ evolves (sch k) (sch k').
Proof.
  intros Hc Hok Htm Hreq. unfold exit_isr. rewrite (bind_ret _ _ _ _ _ (on_sched_gets _ _)).
  assert (exists s, (do! when (c_true (sched_context_switch_request (sch k))) (let! _ := sched_run_internal fuel in ret tt);
      do! on_hw (modify (with_irq_is_in 0)); restore_context) k
      = (do! on_hw (modify (with_irq_is_in 0)); restore_context) (with_sch s k) /\
    core m s v Q /\ active_head Q s /\ evolves (sch k) s) as (s & -> & Hc' & Hh & He).
  { destruct (Z.eqb_spec (sched_context_switch_request (sch k)) 0) as [E|E]; unfold c_true.
    - rewrite (proj2 (Z.eqb_eq _ _) E). exists (sch k). rewrite with_sch_id. cbn [negb when].
      rewrite (bind_ret (ret tt) _ _ _ _ eq_refl). split; [done|]. split; [done|]. split; [by apply Hreq|by apply evolves_same].
    - rewrite (proj2 (Z.eqb_neq _ _) E). cbn [negb when].
      destruct (run_keeps m k v Q fuel Hc Hok ltac:(lia)) as (s & x & E1 & Hc' & Hh & He).
      exists s. split; [|done]. by rewrite bind_assoc, (bind_ret _ _ _ _ _ E1). }
  set (k1 := with_hw (with_irq_is_in 0 (hw k)) (with_sch s k)).
  rewrite (bind_ret _ _ (with_sch s k) tt k1) by done. destruct (restore_active k1 Q Hh) as (r & sp & E).
  exists r, (resumed_in s sp k1). split; [exact E|]. split; [|split; [done|exact He]].
  split; [by exists Q|]. apply (resumed_timers k1). pose proof (timed_frame k s Htm (evolves_sleep _ _ _ He)) as Hts. pose proof Hts as [_ _ [Hw Hcb]].
  by apply (timers_hw (with_sch s k)).
Qed.

(** A thread of the table, or none. *)
Lemma active_in s s' : active_ok s -> length (sched_threads s') = length (sched_threads s) ->
  sched_active_thread s' = sched_active_thread s -> active_ok s'.
Proof.
  unfold active_ok. intros H Hl ->. destruct (sched_active_thread s) as [i|]; [|done].
  destruct H as [t Ht]. apply aget_range in Ht. rewrite <- Hl in Ht. by apply aget_some.
Qed.

Lemma core_length s v Q : core m s v Q -> length (sched_threads s) = 33%nat.
Proof. intros Hc. by destruct (core_rep _ _ _ _ Hc) as [[? _] _]. Qed.

(** [quiet], decided by the code's tests. *)
Definition pending (h : hw_t) : bool :=
  negb (Z.land (CTL h) TIMER_CTL_IFG =? 0)
  || match aget (CCTL h) 0 with Some v => negb (Z.land v TIMER_CCTL_CCIFG =? 0) | None => false end.

Lemma pending_quiet h : hw_wf h -> pending h = false <-> quiet h.
Proof.
  intros [Hw _]. unfold pending, quiet. destruct (aget_some (CCTL h) 0) as [v Hv]; [by rewrite Hw|]. rewrite Hv.
  rewrite orb_false_iff, !negb_false_iff, !Z.eqb_eq. naive_solver.
Qed.

(** Giving up the processor with an interrupt pending, by a thread or none. *)
Lemma pending_yield k v Q :
  core m (sch k) v Q -> active_ok (sch k) -> timers_ok k -> pending (hw k) = true ->
  safe (default_yield fuel) k (fun _ k' => system_ok timed m k' v).
Proof.
  intros Hc Hok Htm Hp. unfold default_yield. pose proof Htm as [_ _ [Hw Hcb]]. pose proof Hw as [Hw1 _].
  apply (runs_step _ _ _ _ _ _ (on_hw_gets _ _)), (runs_step _ _ _ _ _ _ (on_hw_gets _ _)).
  unfold pending in Hp. destruct (aget_some (CCTL (hw k)) 0) as [cc Ecc]; [by rewrite Hw1|]. rewrite Ecc in Hp |- *.
  apply (runs_step _ _ _ cc k); [done|]. rewrite Hp.
  set (k1 := with_hw (with_irq_is_in 1 (hw k)) k). apply (runs_step _ _ _ tt k1); [done|].
  set (a := sched_active_thread (sch k)).
  assert (inv m v a False k1) as Hi1.
  { split; [by exists Q|]. split; [done|]. by apply timers_hw. }
  eapply runs_bind; [apply (callback_safe m fuel Hfuel v a False k1 Hi1)|].
  intros [] k2 ((Q2 & Hc2 & _) & Ha2 & Htm2).
  set (k3 := with_sch (with_request 1 (sch k2)) k2). apply (runs_step _ _ _ tt k3); [done|].
  assert (core m (sch k3) v Q2) as Hc3.
  { apply (core_evolves m (sch k2) _ v Q2 Q2 []);
      [done|by apply evolves_same|apply Hc2|apply frame_refl|set_solver..|exact (core_active _ _ _ _ Hc2)]. }
  destruct (exit_safe k3 v Q2 Hc3) as (r & k4 & E & Hk4 & _); [| |done|].
  { apply (active_in (sch k)); [done|by rewrite (core_length _ _ _ Hc), (core_length _ _ _ Hc3)|exact Ha2]. }
  { apply timed_frame; [done|]. by apply evolves_sleep, evolves_same. }
  by eapply runs_exact.
Qed.

(** Giving up the processor, with an interrupt pending or not. *)
Lemma timed_yield k v Q i t :
  core m (sch k) v Q -> sched_active_thread (sch k) = Some i -> aget (sched_threads (sch k)) i = Some t -> timers_ok k ->
  safe (default_yield fuel) k (fun _ k' => system_ok timed m k' v).
Proof.
  intros Hc Ha Ht Htm. destruct (pending (hw k)) eqn:Hp.
  - by apply (pending_yield k v Q); [|eapply active_ok_some| |].
  - apply pending_quiet in Hp; [|apply Htm]. unfold runs. rewrite default_quiet by done.
    change (safe (thread_yield_higher_internal fuel true) k (fun _ k' => system_ok timed m k' v)).
    destruct (internal_keeps m k v Q i t fuel Hc Ha Ht ltac:(lia)) as (s & sp & r & Q' & E & Hc' & Hh & He).
    eapply runs_exact; [exact E|]. split; [by exists Q'|]. apply (resumed_timers k).
    apply timed_frame; [done|by apply evolves_sleep].
Qed.

#[local] Instance timed_laws : TimingLaws m fuel timed.
Proof. split; [exact timed_frame|exact timed_yield|]. intros k sp H. pose proof H as [_ _ [Hw Hcb]]. by apply timers_hw. Qed.

(** ** Interrupts *)

(** Changes of an entry that the scheduler does not look at. *)
Definition benign (f : thread_t -> thread_t) : Prop :=
  forall t, status (f t) = status t /\ priority (f t) = priority t /\ in_use (f t) = in_use t /\ pid (f t) = pid t.

(** The state with one entry of the table replaced. *)
Definition with_entry (i : Z) (t : thread_t) (k : kst) : kst :=
  with_sch (with_threads (threads_after (sch k) i t) (sch k)) k.

Lemma with_entry_same k i t : aget (sched_threads (sch k)) i = Some t -> with_entry i t k = k.
Proof.
  intros Ht. unfold with_entry, threads_after. assert (sched_threads (sch k) !! Z.to_nat i = Some t) as Hl.
  { unfold aget in Ht. by destruct (0 <=? i). }
  rewrite list_insert_id by done. by destruct k as [[] ? ?].
Qed.

Lemma untrusted_ok k i t t' r1 :
  sched_active_thread (sch k) = Some i -> aget (sched_threads (sch k)) i = Some t ->
  save_untrusted_context r1 (with_entry i t' k)
    = Ret tt (with_hw (with_unprotected_sp (u16 (r1 - 24)) (hw k)) (with_entry i (set_sp (u16 (r1 - 24)) t') k)).
Proof.
  intros Ha Ht. unfold save_untrusted_context, active_index. rewrite bind_assoc.
  rewrite (bind_ret _ _ _ _ _ (on_sched_gets _ _)). cbn [sch with_entry with_sch with_threads sched_active_thread].
  rewrite Ha. rewrite (bind_ret _ _ (with_entry i t' k) i (with_entry i t' k)) by done.
  by rewrite (bind_ret _ _ _ _ _ (upd_on_sched_twice k i t t' _ Ht)).
Qed.

(** What an interrupt saves of the thread that runs. *)
Lemma save_ok top r1 sr ssa k i t :
  sched_active_thread (sch k) = Some i -> aget (sched_threads (sch k)) i = Some t ->
  exists f h, save_context top r1 sr ssa k = Ret tt (with_hw h (with_entry i (f t) k)) /\
    benign f /\ (h = hw k \/ exists sp, h = with_unprotected_sp sp (hw k)).
Proof.
  intros Ha Ht. unfold save_context.
  assert (active_index k = Ret i k) as Hai.
  { unfold active_index. by rewrite (bind_ret _ _ _ _ _ (on_sched_gets _ _)), Ha. }
  destruct (Z.testbit ssa 0); [|destruct (negb (Z.testbit sr 15))];
    rewrite (bind_ret _ _ _ _ _ Hai).
  - rewrite (bind_ret _ _ _ _ _ (on_thread _ _ _ Ht)). destruct (is_sm t).
    + exists id, (hw k). cbn [id]. rewrite (with_entry_same k i t Ht), with_hw_id. split; [done|]. split; [done|by left].
    + eexists (set_sp _), _. rewrite <- (with_entry_same k i t Ht) at 1. rewrite (untrusted_ok k i t t _ Ha Ht).
      split; [done|]. split; [done|right; by eexists].
  - eexists (fun t => set_sp _ (set_is_sm false t)), _. rewrite (bind_ret _ _ _ _ _ (upd_on_sched _ _ _ _ Ht)).
    rewrite (untrusted_ok k i t (set_is_sm false t) _ Ha Ht). split; [done|]. split; [done|right; by eexists].
  - exists (fun t => set_sp (__unprotected_sp (hw k)) (set_is_sm true t)), (hw k).
    rewrite (bind_ret _ _ _ _ _ (upd_on_sched _ _ _ _ Ht)).
    rewrite (bind_ret _ _ _ _ _ (on_hw_gets _ _)), (upd_on_sched_twice k i t _ _ Ht).
    split; [done|]. split; [done|by left].
Qed.

(** Saving keeps everything that matters. *)
Lemma entry_ok k v Q i t f :
  system_ok timed m k v -> core m (sch k) v Q -> active_head Q (sch k) ->
  sched_active_thread (sch k) = Some i -> aget (sched_threads (sch k)) i = Some t -> benign f ->
  core m (sch (with_entry i (f t) k)) v Q /\ active_head Q (sch (with_entry i (f t) k)) /\ timers_ok (with_entry i (f t) k).
Proof.
  intros [_ Htm] Hc Hh Ha Ht Hf. destruct (Hf t) as (F1 & F2 & F3 & F4).
  assert (evolves (sch k) (sch (with_entry i (f t) k))) as He.
  { intros x u Hu. cbn [sch with_entry with_sch with_threads sched_threads]. destruct (decide (x = i)) as [->|Hne].
    - replace u with t in * by congruence. exists (f t). split; [by eapply threads_after_eq|]. naive_solver.
    - exists u. split; [by rewrite (threads_after_ne _ _ _ _ _ Ht Hne)|naive_solver]. }
  split; [|split].
  - apply (core_evolves m (sch k) _ v Q Q []); [done|done| |apply frame_refl|set_solver..|exact (core_active _ _ _ _ Hc)].
    eapply rq_rep_thread; [apply Hc|exact Ht|by rewrite F1, F2].
  - destruct Hh as (j & u & Ea & Eu & Hon & Hq). replace j with i in * by congruence. replace u with t in * by congruence.
    exists i, (f t). split; [done|]. split; [by eapply threads_after_eq|]. by rewrite F1, F2.
  - apply timed_frame; [done|by apply evolves_sleep].
Qed.

(** The handler is called with the compare interrupt off. *)
Lemma isr_body_enters k v a B :
  inv m v a B k -> exists k1, isr_body fuel k = (do! _timer_callback fuel; exit_isr fuel) k1 /\
    inv m v a B k1 /\ tmr k1 = tmr k /\ clock (hw k1) = clock (hw k) /\ reads (hw k1) = reads (hw k).
Proof.
  intros Hi. pose proof Hi as (_ & _ & [_ _ [[H3 H4] Hcb]]). unfold isr_body.
  destruct (aget_some (CCTL (hw k)) 0) as [cc Ecc]; [by rewrite H3|].
  set (h3 := with_CCTL (<[0%nat := Z.land cc (u16 (Z.lnot TIMER_CCTL_CCIE))]> (CCTL (hw k))) (hw k)).
  rewrite (bind_ret _ _ _ tt (with_hw h3 k)).
  2: { apply (on_hw_ok _ k). unfold upd_CCTL. by rewrite Ecc. }
  rewrite (bind_ret _ _ _ true (with_hw h3 k)).
  2: { rewrite on_hw_gets. change (isr_cb (hw (with_hw h3 k))) with (isr_cb (hw k)). by rewrite Hcb. }
  exists (with_hw h3 k). split; [done|]. split; [|done]. apply inv_hw; [done| |exact Hcb]. split; [|done].
  cbn. by rewrite length_insert.
Qed.

(** An interrupt saves the context and calls the handler. *)
Lemma isr_enters k v caller top r1 sr ssa :
  system_ok timed m k v -> caller <> CALLER_VIOLATION ->
  exists k1, __sm_sancus_sm_timer_isr_func fuel caller top r1 sr ssa k = (do! _timer_callback fuel; exit_isr fuel) k1 /\
    inv m v (sched_active_thread (sch k)) True k1 /\ tmr k1 = tmr k /\ clock (hw k1) = clock (hw k) /\ reads (hw k1) = reads (hw k).
Proof.
  intros Hk Hcl. pose proof Hk as [(Q & Hc & Hh) _]. pose proof Hh as (i & t & Ha & Ht & _).
  unfold __sm_sancus_sm_timer_isr_func. rewrite (proj2 (Z.eqb_neq _ _) Hcl).
  destruct (save_ok top r1 sr ssa k i t Ha Ht) as (f & h & E & Hf & Heq). rewrite (bind_ret _ _ _ _ _ E).
  destruct (entry_ok k v Q i t f Hk Hc Hh Ha Ht Hf) as (Hc1 & Hh1 & Htm1). set (k1 := with_entry i (f t) k) in *.
  pose proof Htm1 as [_ _ [[Hw1 Hw2] Hcb]].
  assert (hw_wf h /\ isr_cb h = true /\ clock h = clock (hw k) /\ reads h = reads (hw k)) as ([Hh3 Hh4] & Hhcb & Hcl' & Hrd)
    by (by destruct Heq as [->|[sp ->]]).
  set (h2 := with_irq_is_in 1 h). rewrite (bind_ret _ _ _ tt (with_hw h2 k1)) by done.
  destruct (isr_body_enters (with_hw h2 k1) v (sched_active_thread (sch k)) True) as (k2 & E2 & Hi & Et & Ec & Er).
  { split; [by exists Q|]. split; [done|]. by apply timers_hw. }
  exists k2. split; [exact E2|]. split; [exact Hi|]. split; [exact Et|]. by rewrite Ec, Er.
Qed.

(** It ends with the thread that is active, or the one chosen instead. *)
Lemma isr_leaves k v a :
  inv m v a True k -> exists r k', exit_isr fuel k = Ret r k' /\ system_ok timed m k' v /\ tmr k' = tmr k /\ evolves (sch k) (sch k').
Proof. intros ((Q & Hc & Hh) & _ & Htm). specialize (Hh I). pose proof Hh as (j & t & Ha & Ht & _). by apply (exit_safe k v Q Hc (active_ok_some _ _ _ Ha Ht) Htm). Qed.

(** An interrupt runs the handler and resumes a thread. *)
Lemma interrupt_safe k v caller top r1 sr ssa :
  system_ok timed m k v -> caller <> CALLER_VIOLATION ->
  safe (__sm_sancus_sm_timer_isr_func fuel caller top r1 sr ssa) k (fun _ k' => system_ok timed m k' v).
Proof.
  intros Hk Hcl. destruct (isr_enters k v caller top r1 sr ssa Hk Hcl) as (k1 & E & Hi & _). unfold runs. rewrite E.
  apply (runs_bind _ _ _ _ _ (callback_safe m fuel Hfuel v _ True k1 Hi)).
  intros [] k2 H2. destruct (isr_leaves k2 v _ H2) as (r & k3 & E3 & Hk3 & _). by eapply runs_exact.
Qed.

(** ** Sleeping *)

(** Waiting changes the number of readings only. *)
Lemma wait_later (g : Z -> unit + unit) k k1 :
  later k k1 ->
  safe (loop fuel (fun _ : unit => let! n := _secure_mintimer_lltimer_now in ret (g n)) tt) k1 (fun _ => later k).
Proof.
  intros Hl. apply (safe_loop (fun _ => later k)); [|done]. intros _ k2 H2. eapply runs_step; [apply lltimer_now_ok|].
  assert (later k (tick k2)) by (eapply later_trans; [exact H2|apply later_tick]). unfold runs, ret. by destruct (g _).
Qed.

Lemma spin_later target k : safe (secure_mintimer_spin_until fuel target) k (fun _ => later k).
Proof.
  unfold secure_mintimer_spin_until. set (tg := _secure_mintimer_lltimer_mask target).
  eapply runs_bind; [apply (wait_later (fun n => if tg <? n then inl tt else inr tt) k k), later_refl|].
  intros [] k1 H1. by apply (wait_later (fun n => if n <? tg then inl tt else inr tt)).
Qed.

(** Setting the timer of a thread that was just put to sleep. *)
Lemma set_safe k v i us ls :
  inv m v (Some i) False k -> timers_repb false (tmr k) ls -> all_wait (sch k) (tmr k) ls ->
  is_timer (tmr k) (TSlot i) -> waits (sch k) (tmr k) (TSlot i) -> unlinked ls (TSlot i) -> is_setb (tmr k) (TSlot i) = false ->
  safe (_secure_mintimer_set fuel (TSlot i) us) k (fun _ => inv m v (Some i) False).
Proof.
  intros Hi Hr Hw Hn Hwn Hu Hidle. pose proof Hi as (_ & _ & [_ Hsl [Hwf Hcb]]).
  assert (forall hd, hd ∈ heads -> (length (ls hd) < fuel)%nat) as Hf by (intros hd Hh; by eapply inv_few).
  assert (exists f, fuel = Datatypes.S f) as [f Ef] by (exists (Nat.pred fuel); lia). pose proof (spin_later) as Hspin.
  rewrite Ef in *.
  destruct (decide (SECURE_MINTIMER_BACKOFF <
    u32 (u32 (time32 (tmr k) (tar (hw k)) + us) - time32 (tmr k) (tar (hw (tick k)))))) as [Hfar|Hnear].
  - destruct (mintimer_set_far k ls (TSlot i) us f Hr Hwf Hf Hn Hu Hidle Hfar)
      as (k' & hd & xs & E & _ & Hx & Hr' & Es & Hwf' & _ & _ & Eth & Ecb & Hk).
    eapply runs_exact; [exact E|].
    assert (k' = with_hw (hw k') (with_tmr (tmr k') k)) as -> by (destruct k'; cbn in *; by rewrite Es).
    apply inv_hw; [|done|congruence]. apply inv_timers; [done| |by eapply slots_keep].
    exists (set_list ls hd xs). split; [exact Hr'|]. intros hd' n Hh' Hin.
    assert (waits (sch k) (tmr k) n) as (j & u & E1 & E2 & E3).
    { unfold set_list in Hin. destruct (decide (hd' = hd)) as [->|]; [|by apply (Hw hd')].
      rewrite Hx in Hin. apply elem_of_cons in Hin as [->|Hin]; [done|by apply (Hw hd)]. }
    exists j, u. split; [done|]. split; [by rewrite Eth|done].
  - rewrite <- Ef in *. unfold runs. rewrite Ef, (mintimer_set_near k (TSlot i) us f Hn Hidle Hnear), <- Ef.
    set (k3 := with_tmr _ _).
    assert (timers_repb false (tmr k3) ls) as Hr3 by by apply rep_store_next.
    assert (keeps_timers (tmr k) (tmr k3)) as Hk3.
    { eapply (keeps_next _ _ [TSlot i]), frame_insert; [in_list|apply frame_refl]. }
    assert (inv m v (Some i) False k3) as Hi3.
    { apply (inv_hw m v (Some i) False (with_tmr (tmr k3) k)); [|done..].
      apply inv_timers; [done|by exists ls|by eapply slots_keep]. }
    change (safe (do! secure_mintimer_spin_until fuel (u32 (time32 (tmr k) (tar (hw k)) + us)); do! _shoot_timer (TSlot i); ret tt) k3
      (fun _ => inv m v (Some i) False)).
    eapply runs_bind; [apply Hspin|]. intros [] k4 Hl. pose proof Hl as (w & _ & E4).
    assert (inv m v (Some i) False k4) as Hi4 by by eapply inv_later.
    destruct (shoot_inv m fuel Hfuel v (Some i) False k4 ls i Hi4) as (s5 & E5 & Hi5 & _); [by rewrite E4|by rewrite E4|rewrite E4; by apply (proj1 Hk3)|by rewrite E4|done|].
    by apply (runs_step _ _ _ _ _ _ E5).
Qed.

Lemma tsleep_safe k v Q i t us :
  core m (sch k) v Q -> active_head Q (sch k) -> sched_active_thread (sch k) = Some i ->
  aget (sched_threads (sch k)) i = Some t -> timers_ok k -> i <> 1 -> i <> 15 ->
  safe (_secure_mintimer_tsleep_specific_pid fuel us i) k (fun _ => inv m v (Some i) False).
Proof.
  intros Hc Hh Ha Ht Htm H1 H15. pose proof (aget_range _ _ _ Ht) as Hrg.
  assert (inv m v (Some i) False k) as Hi by (split; [by exists Q|done]).
  destruct (decide (15 < i)) as [Hbig|Hsm].
  { eapply (runs_step _ _ _ None k); [|done]. unfold get_available_timer. change SECURE_MINTIMER_TIMER_LIST_LENGTH with 15.
    by rewrite (proj2 (Z.leb_gt _ _)) by lia. }
  destruct Hh as (j & u & Ej & Eu & Hon & Hhd). replace j with i in * by congruence. replace u with t in * by congruence.
  destruct (runnable_facts _ _ _ _ _ _ Hc Ht Hon) as (Hu & Hnb & _).
  pose proof Htm as [(ls & Hr & Hw) Hsl [Hwf Hcb]].
  assert (unlinked ls (TSlot i)) as Hun.
  { intros hd Hhd' Hin. destruct (Hw hd _ Hhd' Hin) as (x & w & [= <-] & _ & Ew & Es & _).
    replace w with t in * by congruence. by rewrite Es in Hon. }
  destruct (core_status m (sch k) v Q i t STATUS_SLEEPING Hc Ht Hu Hnb) as (s' & Es & Hc' & Hth & Ha'); [congruence|done|].
  destruct (tsleep_prepared k ls i s' us fuel Hr Hwf ltac:(intros hd Hh; by eapply inv_few) ltac:(lia) (proj1 Hsl i ltac:(lia)) (fun _ => Hun) Es)
    as (k2 & E & Esch & Hr2 & Hn2 & Hidle & Eth & _ & _ & Hk & Hwf2 & _ & _ & Ecb).
  assert (all_wait (sch k2) (tmr k2) (drop_timer (TSlot i) ls)) as Hw2.
  { intros hd n Hhd' [Hne Hin]%list_elem_of_filter. destruct (Hw hd n Hhd' Hin) as (x & w & -> & E1 & E2 & E3 & E4).
    exists x, w. split; [done|]. split; [by rewrite Eth, lookup_insert_ne by congruence|].
    split; [|done]. rewrite Esch, Hth. by rewrite (threads_after_ne _ _ _ _ _ Ht) by congruence. }
  unfold runs. rewrite E. apply (set_safe k2 v i us (drop_timer (TSlot i) ls)); [|done|done|done| |apply drop_unlinked|done].
  - split; [rewrite Esch; by eexists|]. split; [rewrite Esch; congruence|].
    split; [by eexists|by eapply slots_keep|]. split; [done|congruence].
  - exists i, (set_status STATUS_SLEEPING t). split; [done|]. split; [by rewrite Eth, lookup_insert_eq|].
    split; [|done]. rewrite Esch, Hth. by eapply threads_after_eq.
Qed.

(** Pid 15 passes the bounds check, but has no timer. *)
Lemma tsleep_15 k us : timers_ok k -> _secure_mintimer_tsleep_specific_pid fuel us 15 k = Err BadAddr.
Proof.
  intros [_ Hsl _]. unfold _secure_mintimer_tsleep_specific_pid. apply bind_err. unfold get_available_timer.
  change (15 <=? SECURE_MINTIMER_TIMER_LIST_LENGTH) with true. cbn iota. apply bind_err.
  unfold secure_mintimer_remove. apply bind_err. unfold on_timers, zoom, _is_set, bind, get_target.
  by rewrite (proj2 Hsl 15) by lia.
Qed.

(** The sleep of an application up to the search for a timer. *)
Lemma usleep_enters k v c i us :
  system_ok timed m k v -> sched_active_thread (sch k) = Some i -> in_u 32 us ->
  exists k1 Q t, usleep fuel c us k = (do! _secure_mintimer_tsleep_specific_pid fuel us i; default_yield fuel) k1 /\
    core m (sch k1) v Q /\ active_head Q (sch k1) /\ sched_active_thread (sch k1) = Some i /\
    aget (sched_threads (sch k1)) i = Some t /\ timers_ok k1.
Proof.
  intros Hk Hi Hus. pose proof Hk as [(Q & Hc & Hh) _]. pose proof Hh as (j & t & Ha & Ht & Hon & _).
  replace j with i in * by congruence. destruct (runnable_facts _ _ _ _ _ _ Hc Ht Hon) as (Hu & _ & _).
  pose proof (core_pid _ _ _ _ Hc i t Ht Hu) as Hpid.
  destruct (entry_ok k v Q i t (saved_by (c_stack c) (c_caller c)) Hk Hc Hh Ha Ht) as (Hc1 & Hh1 & Htm1).
  { intros u. unfold saved_by. by destruct (_ =? _). }
  eexists _, Q, _. unfold usleep, secure_mintimer_usleep, _secure_mintimer_tsleep32, ticks_from_usec, HZ.
  rewrite (tsleep_enters fuel (c_entry c) (c_stack c) (c_caller c) us 0 k i t Hus Ha Ht), Hpid.
  split; [reflexivity|]. split; [exact Hc1|]. split; [exact Hh1|]. split; [exact Ha|]. split; [by eapply threads_after_eq|exact Htm1].
Qed.

Lemma usleep_15 k v c us :
  system_ok timed m k v -> sched_active_thread (sch k) = Some 15 -> in_u 32 us -> usleep fuel c us k = Err BadAddr.
Proof.
  intros Hk Hi Hus. destruct (usleep_enters k v c 15 us Hk Hi Hus) as (k1 & Q & t & E & _ & _ & _ & _ & Htm).
  rewrite E. by apply bind_err, tsleep_15.
Qed.

(** A sleep of an application. *)
Lemma usleep_safe k v c i us :
  system_ok timed m k v -> sched_active_thread (sch k) = Some i -> i <> 1 -> i <> 15 -> in_u 32 us ->
  safe (usleep fuel c us) k (fun _ k' => system_ok timed m k' v).
Proof.
  intros Hk Hi H1 H15 Hus. destruct (usleep_enters k v c i us Hk Hi Hus) as (k1 & Q & t & E & Hc1 & Hh1 & Ha & Ht & Htm1).
  unfold runs. rewrite E.
  apply (runs_bind _ _ _ _ _ (tsleep_safe k1 v Q i t us Hc1 Hh1 Ha Ht Htm1 H1 H15)).
  intros [] k2 ((Q2 & Hc2 & _) & Ha2 & Htm2).
  destruct (aget_some (sched_threads (sch k2)) i) as [t2 Ht2].
  { rewrite (core_length _ _ _ Hc2), <- (core_length _ _ _ Hc1). by eapply aget_range. }
  by eapply timed_yield.
Qed.

(** ** The end of a thread *)

(** What holds if the computation ends. *)
Definition ends {A} (f : M kst A) k (P : A -> kst -> Prop) : Prop := match f k with Ret a k' => P a k' | Err _ => True end.

Lemma ends_safe {A} (f : M kst A) k P : safe f k P -> ends f k P.
Proof. unfold runs, ends. by destruct (f k). Qed.

(** The thread leaves its queue and the table; pid 0, which is no thread,
    stays. *)
Lemma exit_state k v :
  system_ok timed m k v -> sched_active_thread (sch k) <> Some 1 ->
  exists s' Q', sched_task_exit_internal (sch k) = Ret tt s' /\ core m s' v Q' /\ timers_ok (with_sch s' k) /\
    (sched_active_thread s' = None \/
     (s' = sch k /\ sched_active_thread (sch k) = Some KERNEL_PID_UNDEF /\ active_head Q' (sch k))).
Proof.
  intros [(Q & Hc & i & t & Ha & Ht & Hon & Hh) Htm] H1. destruct (decide (i = KERNEL_PID_UNDEF)) as [->|H0].
  - exists (sch k), Q. rewrite with_sch_id. split; [|split; [done|split; [done|right; split; [done|split; [done|by exists KERNEL_PID_UNDEF, t]]]]].
    unfold sched_task_exit_internal. by rewrite (bind_ret _ _ _ _ _ (gets_ok _ _)), (core_active _ _ _ _ Hc _ Ha).
  - destruct (core_exit m (sch k) v Q i t Hc Ha H0 ltac:(congruence) Ht Hon Hh) as (s' & Q' & E & Hc' & Ha' & Hth).
    exists s', Q'. split; [done|]. split; [done|]. split; [|by left]. apply timed_frame; [done|].
    eapply entry_sleep; [exact Ht|exact Hth|]. left. intros E2. by rewrite E2 in Hon.
Qed.

(** With no active thread the yield reads through a null pointer. *)
Lemma yield_none k f : sched_active_thread (sch k) = None -> thread_yield_higher_internal f true k = Err NullDeref.
Proof.
  intros Ha. unfold thread_yield_higher_internal. apply bind_err. cbn [when]. unfold sched_yield.
  by rewrite (bind_ret _ _ _ _ _ (on_sched_gets _ _)), Ha.
Qed.

Lemma task_exit_enters k c s' :
  sched_task_exit_internal (sch k) = Ret tt s' -> sched_task_exit fuel c k = default_yield fuel (with_sch s' k).
Proof.
  intros E. unfold sched_task_exit, cpu_switch_context_exit, exitless_entry, save_caller. rewrite bind_assoc.
  rewrite (bind_ret _ _ _ _ _ (on_sched_gets _ _)). change (EXITLESS_FUNCTION_TYPE_EXIT =? EXITLESS_FUNCTION_TYPE_EXIT) with true.
  change (EXITLESS_FUNCTION_TYPE_EXIT =? EXITLESS_FUNCTION_TYPE_BOOT) with false. cbn iota.
  assert (forall g : M kst resumed, (let! _ := match sched_active_thread (sch k) with Some _ => ret tt | None => ret tt end in g) k = g k) as -> by by destruct (sched_active_thread (sch k)).
  by rewrite (bind_ret _ _ _ _ _ (on_sched_ok _ _ _ _ E)).
Qed.

Lemma exit_ends k v c :
  system_ok timed m k v -> sched_active_thread (sch k) <> Some 1 ->
  ends (sched_task_exit fuel c) k (fun _ k' => system_ok timed m k' v) /\
  (pending (hw k) = true -> safe (sched_task_exit fuel c) k (fun _ k' => system_ok timed m k' v)) /\
  (pending (hw k) = false -> sched_active_thread (sch k) <> Some KERNEL_PID_UNDEF -> sched_task_exit fuel c k = Err NullDeref).
Proof.
  intros Hk H1. destruct (exit_state k v Hk H1) as (s' & Q' & E & Hc' & Htm & Hs).
  assert (pending (hw k) = true -> safe (sched_task_exit fuel c) k (fun _ k' => system_ok timed m k' v)) as Hpend.
  { intros Hp. unfold runs. rewrite (task_exit_enters k c s' E). apply (pending_yield (with_sch s' k) v Q' Hc'); [|done|exact Hp].
    destruct Hs as [Hn|(-> & Ha & j & t & Ha' & Ht & _)]; [unfold active_ok; cbn; by rewrite Hn|by eapply active_ok_some]. }
  destruct (pending (hw k)) eqn:Hp; [split; [by apply ends_safe, Hpend|by split]|].
  pose proof (proj1 (pending_quiet (hw k) (proj1 (tk_hw _ (proj2 Hk)))) Hp) as Hq.
  assert (sched_active_thread s' = None -> sched_task_exit fuel c k = Err NullDeref) as Hnull.
  { intros Hn. rewrite (task_exit_enters k c s' E), default_quiet by done. by apply yield_none. }
  split; [|split; [done|]].
  - destruct Hs as [Hn|(-> & Ha & j & t & Ha' & Ht & _)]; unfold ends; [by rewrite Hnull|].
    rewrite (task_exit_enters k c _ E), with_sch_id.
    exact (ends_safe _ _ _ (timed_yield k v Q' j t Hc' Ha' Ht (proj2 Hk))).
  - intros _ H0. apply Hnull. by destruct Hs as [Hn|(_ & Ha & _)].
Qed.

(** An access violation ends the thread, too. *)
Lemma violation_ends k v top r1 sr ssa :
  system_ok timed m k v -> sched_active_thread (sch k) <> Some 1 ->
  ends (__sm_sancus_sm_timer_isr_func fuel CALLER_VIOLATION top r1 sr ssa) k (fun _ k' => system_ok timed m k' v) /\
  (Z.land (CTL (hw k)) TIMER_CTL_IFG = 0 -> sched_active_thread (sch k) <> Some KERNEL_PID_UNDEF ->
   __sm_sancus_sm_timer_isr_func fuel CALLER_VIOLATION top r1 sr ssa k = Err NullDeref).
Proof.
  intros Hk H1. destruct (exit_state k v Hk H1) as (s' & Q' & E & Hc' & Htm & Hs). unfold ends.
  unfold __sm_sancus_sm_timer_isr_func. change (CALLER_VIOLATION =? CALLER_VIOLATION) with true. cbn iota.
  rewrite (bind_ret _ _ _ _ _ (on_sched_ok _ _ _ _ E)), (bind_ret _ _ _ _ _ (on_hw_gets _ _)).
  change (CTL (hw (with_sch s' k))) with (CTL (hw k)).
  assert (sched_active_thread s' = None -> thread_yield_higher_internal fuel true (with_sch s' k) = Err NullDeref) as Hnull
    by (intros Hn; by apply yield_none).
  split.
  2: { intros -> H0. apply Hnull. by destruct Hs as [Hn|(_ & Ha & _)]. }
  destruct (Z.eqb_spec (Z.land (CTL (hw k)) TIMER_CTL_IFG) 0) as [_|_].
  { destruct Hs as [Hn|(-> & _ & j & t & Ha & Ht & _)]; [by rewrite Hnull|].
    destruct (internal_keeps m (with_sch (sch k) k) v Q' j t fuel Hc' Ha Ht ltac:(lia)) as (s & sp & r & Q2 & E2 & Hc2 & Hh2 & He).
    rewrite E2. split; [by exists Q2|]. apply (resumed_timers (with_sch (sch k) k)).
    apply timed_frame; [done|by apply evolves_sleep]. }
  set (k1 := with_hw (with_irq_is_in 1 (hw k)) (with_sch s' k)). rewrite (bind_ret _ _ _ tt k1) by done.
  set (B := sched_active_thread s' <> None).
  destruct (isr_body_enters k1 v (sched_active_thread s') B) as (k2 & E2 & Hi & _).
  { split; [|split; [done|by apply (timers_hw (with_sch s' k)); [|apply Htm..]]]. exists Q'. split; [exact Hc'|].
    intros HB. by destruct Hs as [Hn|(-> & _ & Hh)]. }
  rewrite E2. pose proof (callback_safe m fuel Hfuel v _ B k2 Hi) as Hcb. unfold runs in Hcb. unfold bind.
  destruct (_timer_callback fuel k2) as [[] k3|]; [|done]. destruct Hcb as ((Q3 & Hc3 & Hh3) & Ha3 & Htm3).
  destruct (decide (sched_context_switch_request (sch k3) = 0 /\ sched_active_thread s' = None)) as [[Hr Hn]|Hno].
  - unfold exit_isr. rewrite (bind_ret _ _ _ _ _ (on_sched_gets _ _)), Hr. change (c_true 0) with false. cbn [when].
    rewrite (bind_ret (ret tt) _ _ _ _ eq_refl), (bind_ret _ _ k3 tt (with_hw (with_irq_is_in 0 (hw k3)) k3)) by done.
    unfold restore_context. rewrite (bind_ret _ _ _ _ _ (on_sched_gets _ _)).
    change (sched_active_thread (sch (with_hw _ k3))) with (sched_active_thread (sch k3)). by rewrite Ha3, Hn.
  - destruct (exit_safe k3 v Q3 Hc3) as (r & k4 & E4 & Hk4 & _); [|done| |by rewrite E4].
    + apply (active_in s'); [|by rewrite (core_length _ _ _ Hc'), (core_length _ _ _ Hc3)|exact Ha3].
      destruct Hs as [Hn|(-> & _ & j & t & Ha & Ht & _)]; [unfold active_ok; by rewrite Hn|by eapply active_ok_some].
    + intros Hr. apply Hh3. intros Hn. by apply Hno.
Qed.

(** ** Every step keeps the invariant *)

Lemma tstep_ok c c' : sys_ok timed m c -> tstep m fuel c c' -> sys_ok timed m c'.
Proof.
  intros Hc Hs. destruct Hs as [c c' Hs|k H c i us r k' Ha H1 Hus E|k H c r k' H1 E|k H ctl cctl Hl|k H caller top r1 sr ssa r k' Hcl E].
  - eapply step_ok; [exact Hfuel|exact timed_laws|exact Hc|exact Hs].
  - destruct Hc as (v & Hk & Hh). exists v. split; [|done]. destruct (decide (i = 15)) as [->|H15].
    { by rewrite (usleep_15 k v c us Hk Ha Hus) in E. }
    exact (runs_inv _ _ _ _ _ (usleep_safe k v c i us Hk Ha H1 H15 Hus) E).
  - destruct Hc as (v & Hk & Hh). exists v. split; [|done]. pose proof (proj1 (exit_ends k v c Hk H1)) as He. unfold ends in He. by rewrite E in He.
  - destruct Hc as (v & [Hs Htm] & Hh). exists v. split; [|done]. split; [done|]. pose proof Htm as [_ _ [[_ Hw] Hcb]].
    by apply timers_hw.
  - destruct Hc as (v & Hk & Hh). exists v. split; [|done]. destruct (decide (caller = CALLER_VIOLATION)) as [->|Hne].
    { pose proof (proj1 (violation_ends k v top r1 sr ssa Hk (Hcl eq_refl))) as He. unfold ends in He. by rewrite E in He. }
    exact (runs_inv _ _ _ _ _ (interrupt_safe k v caller top r1 sr ssa Hk Hne) E).
Qed.

Lemma timed_reachable c c' : sys_ok timed m c -> rtc (tstep m fuel) c c' -> sys_ok timed m c'.
Proof. intros Hc Hs. induction Hs as [|c1 c2 c3 H12 _ IH]; [done|]. by apply IH, (tstep_ok c1). Qed.
End timed.
