(* ===== verification/Wakeup.v ===== *)
(** * The timer interrupt ends, and wakes

    Timed shows that the handler may at most wait.  Here it ends: if for a
    while the counter does not run over, the handler fires every timer that
    is due within 500 ticks of its first reading and returns, provided that
    no other timer of the period comes close meanwhile.  The bound on the
    work is counted in readings: two for each timer fired, two for the last
    look, and those that pass until the counter reaches the last of the
    timers.  The whole interrupt then leaves the threads of these timers in
    the run queues. *)

From stdpp Require Import sorting relations.
From S2P Require Import Prelude Safe Clist ClistSpec KState RunQueue TimerHw Mintimer TimerLists TimerPeriod TimerProps.
From S2P Require Import Sched SchedProps Cpu Thread ThreadProps Mutex MutexProps Kernel Handler Timed.

(** The links from a list's variable determine the list. *)
Lemma chain_unique (h : gmap tnode (option tnode)) l xs ys : chain h l xs -> chain h l ys -> xs = ys.
Proof.
  intros [_ Hx] [_ Hy]. revert l ys Hx Hy. induction xs as [|x xs IH]; intros l [|y ys]; cbn; intros Hx Hy; [done| | |].
  - destruct Hy as [Hy _]. congruence.
  - destruct Hx as [Hx _]. congruence.
  - destruct Hx as [Hx Sx], Hy as [Hy Sy]. rewrite Hx in Hy. injection Hy as ->. f_equal. by apply (IH y).
Qed.

Section wakeup.
Context (m : Z) (fuel : nat) (Hfuel : (34 <= fuel)%nat) (v : lock) (a : option Z).

(** From reading [r0] to reading [r1] the counter [c] does not run over; at
    [rl] it has passed the timers that are due. *)
Context (c : nat -> Z) (r0 rl r1 : nat).
Definition low (i : nat) : Z := u16 (c i).
Definition in_period : Prop :=
  (forall i j, (r0 <= i <= j)%nat -> (j <= r1)%nat -> low i <= low j) /\ low r1 + SECURE_MINTIMER_ISR_BACKOFF < 2 ^ 16.
Context (Hper : in_period) (Hrl : (r0 <= rl <= r1)%nat) (Hmany : (r1 - r0 < fuel)%nat).

(** The timers of the current list: [due] fire, [far] do not.  Those of the
    other lists are [ovf] and [lng], the targets of all timers [tg] and [lg]. *)
Context (high : Z) (tg lg : tnode -> Z) (due0 far ovf lng : list tnode).
Definition due_soon (x : tnode) : Prop :=
  exists lo, tg x = high + lo /\ 0 <= lo <= low rl /\
    lo < low r0 + SECURE_MINTIMER_OVERHEAD + SECURE_MINTIMER_ISR_BACKOFF /\ SECURE_MINTIMER_OVERHEAD <= tg x.
Definition far_off (x : tnode) : Prop :=
  exists lo, tg x = high + lo /\ low r1 + SECURE_MINTIMER_OVERHEAD + SECURE_MINTIMER_ISR_BACKOFF <= lo < 2 ^ 16.
Context (Hhigh : in_u 32 high /\ high mod 2 ^ 16 = 0).
Context (Hdue : forall x, x ∈ due0 -> due_soon x) (Hfar : forall x, x ∈ far -> far_off x).

(** [n] readings are left to spend; those before [rl] are free. *)
Definition left_over (j n : nat) : Prop := (r0 <= j)%nat /\ ((if j <? rl then rl + 2 else j) + n <= r1)%nat.

Lemma left_paid j n : left_over j (S n) -> left_over (S j) n.
Proof. unfold left_over. intros [? H]. split; [lia|]. destruct (Nat.ltb_spec j rl), (Nat.ltb_spec (S j) rl); lia. Qed.
Lemma left_free j n : left_over j n -> low j < low rl -> left_over (S j) n.
Proof.
  unfold left_over. intros [? H] Hlt. split; [lia|]. destruct Hper as [Hmono _].
  destruct (Nat.ltb_spec j rl) as [|Hge]; [destruct (Nat.ltb_spec (S j) rl); lia|].
  pose proof (Hmono rl j ltac:(lia) ltac:(lia)). lia.
Qed.
Lemma left_three j n : left_over j n -> low j < low rl -> left_over (S (S (S j))) n.
Proof.
  unfold left_over. intros [? H] Hlt. split; [lia|]. destruct Hper as [Hmono _].
  destruct (Nat.ltb_spec j rl) as [|Hge]; [destruct (Nat.ltb_spec (S (S (S j))) rl); lia|].
  pose proof (Hmono rl j ltac:(lia) ltac:(lia)). lia.
Qed.
Lemma left_bound j n : left_over j n -> (r0 <= j /\ j + n <= r1)%nat.
Proof. unfold left_over. intros [? H]. destruct (Nat.ltb_spec j rl); lia. Qed.
Lemma left_less j n n' : left_over j n -> (n' <= n)%nat -> left_over j n'.
Proof. unfold left_over. intros [? H] Hn. split; [done|]. destruct (Nat.ltb_spec j rl); lia. Qed.

(** The thread of a timer was woken. *)
Definition woken_by (x : tnode) (k : kst) : Prop :=
  exists i u, x = TSlot i /\ aget (sched_threads (sch k)) i = Some u /\ status u = STATUS_PENDING /\
    is_setb (tmr k) x = false.

(** The handler while [due] is left to fire. *)
Record firing (due : list tnode) (n : nat) (k : kst) : Prop := {
  f_inv : inv m v a True k;
  f_clock : clock (hw k) = c;
  f_left : left_over (reads (hw k)) n;
  f_high : _secure_mintimer_high_cnt (tmr k) = high;
  f_lists : exists ls, timers_repb false (tmr k) ls /\ all_wait (sch k) (tmr k) ls /\ ls HTimer = due ++ far /\
    ls HOverflow = ovf /\ ls HLong = lng;
  f_tg : forall x, x ∈ due ++ far -> target_of (tmr k) x = tg x;
  f_keep : forall x, x ∉ due0 -> target_of (tmr k) x = tg x /\ long_of (tmr k) x = lg x;
  f_sub : forall x, x ∈ due -> x ∈ due0;
  f_woken : forall x, x ∈ due0 -> x ∈ due \/ woken_by x k
}.

Lemma firing_later due n n' k k' :
  firing due n k -> later k k' -> left_over (reads (hw k')) n' -> firing due n' k'.
Proof. intros [Hi Hc Hl Hh Hls Ht Hkp Hs Hw] Hk Hl'. pose proof (inv_later _ _ _ _ _ _ Hi Hk) as Hi'. destruct Hk as (w & _ & ->). by split. Qed.

Lemma firing_tick due n k : firing due (S n) k -> firing due n (tick k).
Proof. intros H. eapply firing_later; [exact H|apply later_tick|]. apply left_paid, H. Qed.

Lemma firing_low due n k : firing due n k -> tar (hw k) = low (reads (hw k)).
Proof. intros H. unfold tar. by rewrite (f_clock _ _ _ H). Qed.

(** What a reading shows. *)
Lemma firing_range due n k : firing due n k -> low r0 <= low (reads (hw k)) <= low r1.
Proof.
  intros H. destruct (left_bound _ _ (f_left _ _ _ H)) as [H1 H2]. destruct Hper as [Hmono _].
  split; apply Hmono; lia.
Qed.

Lemma low_range i : 0 <= low i < 2 ^ 16.
Proof. apply (wrapu_range 16). lia. Qed.

(** The part of a target below the period. *)
Lemma tg_low x lo : tg x = high + lo -> 0 <= lo < 2 ^ 16 -> _secure_mintimer_lltimer_mask (tg x) = lo.
Proof. intros -> Hlo. rewrite mask_mod, <- Zplus_mod_idemp_l, (proj2 Hhigh). by apply Z.mod_small. Qed.

(** ** Firing *)

Lemma wait_ends due n x lo k :
  firing due (S n) k -> tg x = high + lo -> 0 <= lo <= low rl ->
  runs false (wait_due fuel (low r0) (tg x)) k (fun _ k' => firing due n k' /\ later k k').
Proof.
  intros Hk Ht Hlo. unfold wait_due. assert (lo < 2 ^ 16) as Hlt by (pose proof (low_range rl); lia).
  rewrite (tg_low x lo Ht) by lia.
  apply (runs_loop (fun _ k' => firing due (S n) k' /\ later k k') (fun _ k' => (r1 - reads (hw k'))%nat)).
  - intros [] k1 [H1 Hl]. eapply runs_step; [apply time_left_ok; lia|].
    pose proof (firing_range _ _ _ H1) as Hr. rewrite (firing_low _ _ _ H1).
    destruct (left_bound _ _ (f_left _ _ _ H1)) as [_ Hb].
    assert (later k (tick k1)) as Hl1 by (eapply later_trans; [exact Hl|apply later_tick]).
    unfold left_at. rewrite (proj2 (Z.ltb_ge _ _)) by lia. destruct (Z.ltb_spec (low (reads (hw k1))) lo) as [Hw|Hw].
    + assert (c_true (lo - low (reads (hw k1))) = true) as -> by (unfold c_true; apply negb_true_iff, Z.eqb_neq; lia).
      split; [|cbn; lia]. split; [|done]. eapply firing_later; [exact H1|apply later_tick|].
      apply left_free; [apply H1|lia].
    + split; [by apply firing_tick|done].
  - split; [done|apply later_refl].
  - destruct (left_bound _ _ (f_left _ _ _ Hk)) as [_ Hb]. destruct (f_left _ _ _ Hk) as [Hge _]. lia.
Qed.

(** The first timer fires, or there is time left. *)
Lemma fire_due_one x due n k :
  firing (x :: due) (S (S n)) k ->
  runs false (fire_step fuel (low r0) tt) k (fun r k' =>
    match r with
    | inl _ => firing due n k' /\ (reads (hw k) < reads (hw k'))%nat
    | inr _ => k' = tick k /\ low (reads (hw k)) < low rl
    end).
Proof.
  intros Hk. destruct (f_lists _ _ _ Hk) as (ls & Hr & Hw & El & Eo). cbn [app] in El.
  destruct (Hdue x (f_sub _ _ _ Hk x ltac:(by left))) as (lo & Et & Hlo & Hnear & _).
  pose proof (f_tg _ _ _ Hk x ltac:(by left)) as Etg. pose proof (low_range rl) as Hrl'.
  unfold runs. rewrite (fire_look fuel (low r0) k ls x (due ++ far) Hr El), Etg, (tg_low x lo Et) by lia.
  pose proof (firing_range _ _ _ Hk) as Hrg. rewrite (firing_low _ _ _ Hk).
  unfold left_at. rewrite (proj2 (Z.ltb_ge (low (reads (hw k))) (low r0))) by lia.
  destruct (Z.ltb_spec (if low (reads (hw k)) <? lo then lo - low (reads (hw k)) else 0) SECURE_MINTIMER_ISR_BACKOFF) as [Hn|Hn].
  2: { split; [done|]. destruct (Z.ltb_spec (low (reads (hw k))) lo); [lia|]. unfold SECURE_MINTIMER_ISR_BACKOFF in Hn. lia. }
  change (runs false (do! wait_due fuel (low r0) (tg x); let! n := on_timers (nxt (load x)) in
    do! on_timers (nxt (store HTimer n)); do! on_timers (set_target x 0); do! on_timers (set_long_target x 0);
    do! _shoot_timer x; ret (inl tt)) (tick k) (fun (r : unit + unit) k' => match r with
    | inl _ => firing due n k' /\ (reads (hw k) < reads (hw k'))%nat
    | inr _ => k' = tick k /\ low (reads (hw k)) < low rl end)).
  eapply runs_bind; [exact (wait_ends _ n x lo _ (firing_tick _ _ _ Hk) Et Hlo)|].
  intros [] k1 [H1 Hl1]. assert (later k k1) as Hl by (eapply later_trans; [apply later_tick|done]).
  destruct (fire_take k ls x (due ++ far) k1 (do! _shoot_timer x; ret (inl tt)) Hr El Hl) as (h & w & E & _ & -> & Hx & Hr').
  unfold runs. rewrite E. set (k3 := K _ _ _).
  assert (all_wait (sch k3) (tmr k3) (set_list ls HTimer (due ++ far))) as Hw3.
  { intros hd q Hhd Hq. unfold set_list in Hq. destruct (decide (hd = HTimer)) as [->|]; [|by apply (Hw hd)].
    apply (Hw HTimer); [done|]. rewrite El. by right. }
  assert (inv m v a True k3) as Hi3.
  { pose proof (f_inv _ _ _ Hk) as Hi. pose proof Hi as (_ & _ & [_ Hsl [Hwf Hcb]]).
    apply (inv_hw _ _ _ _ (with_tmr (tmr k3) k)); [|done|done]. apply inv_timers; [done|by eexists|].
    by eapply slots_keep. }
  assert (waits (sch k3) (tmr k3) x) as Hwx by (apply (Hw HTimer); [apply head_in_heads|rewrite El; by left]).
  pose proof Hwx as (i & u & -> & _ & Hu & _).
  destruct (shoot_inv m fuel Hfuel v a True k3 _ i Hi3 Hr' Hw3) as (s4 & E4 & Hi4 & Hw4 & Hth); [|done| |].
  { apply Hx. apply (in_list_timer _ _ Hr HTimer); [apply head_in_heads|rewrite El; in_list]. }
  { by eapply head_unlinked. }
  rewrite (bind_ret _ _ _ _ _ E4). specialize (Hth u Hu). cbn [ret].
  assert (reads (hw k) < reads (hw k1))%nat as Hmore.
  { destruct Hl1 as (w & Hw1 & ->). cbn in *. lia. }
  split; [|exact Hmore]. pose proof Hl as (w & _ & Ek1).
  assert (forall q, q <> TSlot i -> target_of (tmr k3) q = target_of (tmr k) q /\ long_of (tmr k3) q = long_of (tmr k) q) as Hother.
  { intros q Hq. unfold target_of, long_of. cbn. by rewrite !lookup_insert_ne by congruence. }
  assert (is_setb (tmr k3) (TSlot i) = false) as Hcleared.
  { unfold is_setb, target_of, long_of. cbn. by rewrite !lookup_insert_eq. }
  pose proof (f_lists _ _ _ H1) as (ls1 & Hr1 & _ & El1 & _).
  assert (TSlot i ∉ due ++ far) as Hnx.
  { destruct head_in_heads as (Hh & _). destruct (rep_list _ _ _ Hr Hh) as ([Hd _] & _). rewrite El in Hd.
    apply NoDup_cons in Hd as [_ Hd]. by apply NoDup_cons in Hd as [? _]. }
  split.
  - exact Hi4.
  - cbn. apply Hk.
  - cbn. apply H1.
  - cbn. apply Hk.
  - exists (set_list ls HTimer (due ++ far)). split; [exact Hr'|]. split; [exact Hw4|]. unfold set_list.
    by rewrite decide_True, !decide_False.
  - intros q Hq. destruct (Hother q ltac:(congruence)) as [Eq _]. cbn [tmr with_sch]. rewrite Eq.
    apply (f_tg _ _ _ Hk). by right.
  - intros q Hq. destruct (Hother q) as [Eq1 Eq2]; [intros ->; apply Hq, (f_sub _ _ _ Hk); by left|].
    cbn [tmr with_sch]. rewrite Eq1, Eq2. by apply (f_keep _ _ _ Hk).
  - intros q Hq. apply (f_sub _ _ _ Hk). by right.
  - intros q Hq. destruct (decide (q = TSlot i)) as [->|Hne].
    + right. eexists i, _. split; [done|]. cbn [sch with_sch]. rewrite Hth. split; [by eapply threads_after_eq|].
      split; [done|exact Hcleared].
    + destruct (f_woken _ _ _ Hk q Hq) as [[?|Hin]%elem_of_cons|(j & w' & -> & Hj & Hs & Hset)]; [done|by left|].
      right. exists j, w'. split; [done|]. cbn [sch with_sch]. rewrite Hth.
      split; [by rewrite (threads_after_ne _ _ _ _ _ Hu) by congruence|]. split; [done|].
      destruct (Hother (TSlot j) Hne) as [E1 E2]. unfold is_setb in *. cbn [tmr with_sch]. by rewrite E1, E2.
Qed.

(** The loop that fires: all timers that are due, or up to one that is not
    close yet. *)
Definition cost (due : list tnode) : nat := (2 * length due + 2)%nat.

Definition not_yet (due : list tnode) (k : kst) : Prop :=
  exists k0, k = tick k0 /\ due <> [] /\ low (reads (hw k0)) < low rl /\ firing due (Datatypes.S (cost due)) k0.

Lemma firing_less due n n' k : firing due n k -> (n' <= n)%nat -> firing due n' k.
Proof. intros H Hn. eapply firing_later; [exact H|apply later_refl|]. eapply left_less; [apply H|done]. Qed.

(** With all timers fired, the first one left is far off. *)
Lemma fire_none n k :
  firing [] (Datatypes.S n) k -> runs false (fire_step fuel (low r0) tt) k (fun r k' =>
    match r with inl _ => False | inr _ => (reads (hw k) <= reads (hw k'))%nat /\ firing [] n k' end).
Proof.
  intros Hk. destruct (f_lists _ _ _ Hk) as (ls & Hr & _ & El & Eo). cbn [app] in El. remember far as fs eqn:Ef in El. destruct fs as [|y rest].
  - destruct head_in_heads as (Hhh & _). destruct (rep_list _ _ _ Hr Hhh) as ([_ Hs] & _). rewrite El in Hs. cbn in Hs.
    eapply runs_step; [rewrite (on_timers_ok _ _ _ _ (nxt_load_ok _ _ _ Hs)), with_tmr_id; reflexivity|].
    split; [lia|]. eapply firing_less; [exact Hk|lia].
  - destruct (Hfar y) as (lo & Et & Hlo & Hlt); [rewrite <- Ef; by left|].
    pose proof (f_tg _ _ _ Hk y) as Etg. cbn [app] in Etg. specialize (Etg ltac:(rewrite <- Ef; by left)).
    unfold runs. rewrite (fire_look fuel (low r0) k ls y rest Hr El), Etg, (tg_low y lo Et).
    2: { pose proof (low_range r1). unfold SECURE_MINTIMER_OVERHEAD, SECURE_MINTIMER_ISR_BACKOFF in Hlo. lia. }
    pose proof (firing_range _ _ _ Hk) as Hrg. rewrite (firing_low _ _ _ Hk). unfold SECURE_MINTIMER_OVERHEAD, SECURE_MINTIMER_ISR_BACKOFF in Hlo.
    unfold left_at, SECURE_MINTIMER_ISR_BACKOFF. rewrite (proj2 (Z.ltb_ge (low (reads (hw k))) (low r0))) by lia.
    rewrite (proj2 (Z.ltb_lt (low (reads (hw k))) lo)) by lia. rewrite (proj2 (Z.ltb_ge (lo - _) 200)) by lia.
    split; [cbn; lia|]. by apply firing_tick.
Qed.

Lemma fire_all due k :
  firing due (Datatypes.S (cost due)) k ->
  runs false (fire_due fuel (low r0)) k (fun _ k' =>
    (reads (hw k) <= reads (hw k'))%nat /\ (firing [] 2 k' \/ exists due', not_yet due' k')).
Proof.
  intros Hk. remember (reads (hw k)) as rk eqn:Erk.
  apply (runs_loop (fun _ k1 => (rk <= reads (hw k1))%nat /\ exists due', firing due' (Datatypes.S (cost due')) k1)
    (fun _ k1 => (r1 - reads (hw k1))%nat)).
  - clear due k Hk Erk. intros [] k [Hge [due Hk]]. destruct (left_bound _ _ (f_left _ _ _ Hk)) as [_ Hb].
    destruct due as [|x due].
    + eapply runs_mono; [exact (fire_none 2 k Hk)|]. intros [[]|[]] k' H; [done|]. destruct H as [? H]. split; [lia|by left].
    + eapply runs_mono.
      { apply (fire_due_one x due (Datatypes.S (cost due))). eapply firing_less; [exact Hk|]. unfold cost. cbn. lia. }
      intros [[]|[]] k' H.
      * destruct H as [H Hlt]. split; [|lia]. split; [lia|]. by exists due.
      * destruct H as [-> Hlow]. split; [cbn; lia|]. right. exists (x :: due), k. split; [done|]. split; [done|].
        done.
  - split; [lia|by exists due].
  - destruct (left_bound _ _ (f_left _ _ _ Hk)) as [_ Hb]. destruct (f_left _ _ _ Hk) as [Hge _]. lia.
Qed.

(** ** A pass of the handler *)

Lemma firing_head due n k : firing due n k -> on_timers (nxt (load HTimer)) k = Ret (head (due ++ far)) k.
Proof.
  intros Hk. destruct (f_lists _ _ _ Hk) as (ls & Hr & _ & El & Eo). destruct head_in_heads as (Hh & _).
  destruct (rep_list _ _ _ Hr Hh) as ([_ Hs] & _). pose proof (seg_head _ _ _ _ Hs) as E. rewrite app_nil_r, El in E.
  by rewrite (on_timers_ok _ _ _ _ (nxt_load_ok _ _ _ E)), with_tmr_id.
Qed.

Lemma firing_target due n k x : firing due n k -> x ∈ due ++ far -> on_timers (get_target x) k = Ret (tg x) k.
Proof.
  intros Hk Hx. destruct (f_lists _ _ _ Hk) as (ls & Hr & _ & El & Eo).
  assert (is_timer (tmr k) x) as Ht by (apply (in_list_timer _ _ Hr HTimer); [apply head_in_heads|by rewrite El]).
  by rewrite (on_timers_ok _ _ _ _ (get_target_ok _ _ Ht)), with_tmr_id, (f_tg _ _ _ Hk x Hx).
Qed.

(** The 32-bit time. *)
Lemma firing_now due n k : firing due n k -> _secure_mintimer_now fuel k = Ret (high + low (reads (hw k))) (tick k).
Proof.
  intros Hk. assert (exists f, fuel = Datatypes.S f) as [f Ef] by (exists (Nat.pred fuel); lia).
  rewrite Ef, now_ok. unfold time32. rewrite (f_high _ _ _ Hk), (firing_low _ _ _ Hk), lor_high; [done|apply Hhigh|apply low_range].
Qed.

(** The time with the backoff does not run over. *)
Lemma firing_soon due n k : firing due n k ->
  u16 (low (reads (hw k)) + SECURE_MINTIMER_ISR_BACKOFF) = low (reads (hw k)) + SECURE_MINTIMER_ISR_BACKOFF /\
  low r0 <= low (reads (hw k)) <= low r1 /\
  u32 (high + low (reads (hw k)) + SECURE_MINTIMER_ISR_BACKOFF) = high + low (reads (hw k)) + SECURE_MINTIMER_ISR_BACKOFF.
Proof.
  intros Hk. pose proof (firing_range _ _ _ Hk) as Hr. destruct Hper as [_ He]. pose proof (low_range (reads (hw k))) as Hlo.
  unfold SECURE_MINTIMER_ISR_BACKOFF in *. destruct Hhigh as [Hh Hm]. split; [apply wrapu_id; unfold in_u; lia|]. split; [done|].
  apply wrapu_id. unfold in_u in *. pose proof (Z.div_mod high (2 ^ 16) ltac:(lia)) as Hd. rewrite Hm in Hd. nia.
Qed.

Lemma pass_ends due k :
  firing due (Datatypes.S (cost due)) k ->
  runs false (overflow_pass fuel (low r0)) k (fun r k' =>
    match r with
    | inl reference => reference = low r0 /\ (exists due', firing due' (Datatypes.S (cost due')) k') /\ (reads (hw k) < reads (hw k'))%nat
    | inr _ => firing [] 0 k'
    end).
Proof.
  intros Hk. unfold overflow_pass. eapply runs_bind; [exact (fire_all due k Hk)|]. intros [] k1 [Hge [H1|[due' H1]]].
  - eapply runs_step; [apply lltimer_now_ok|]. rewrite (firing_low _ _ _ H1). destruct (firing_soon _ _ _ H1) as (-> & Hr & _).
    unfold SECURE_MINTIMER_ISR_BACKOFF at 1. rewrite (proj2 (Z.ltb_ge _ _)) by lia.
    pose proof (firing_tick _ _ _ H1) as H2. eapply runs_step; [exact (firing_head _ _ _ H2)|]. cbn [app].
    remember far as fs eqn:Ef. destruct fs as [|y rest]; cbn [head].
    + eapply runs_step; [apply lltimer_now_ok|]. rewrite (firing_low _ _ _ H2). destruct (firing_soon _ _ _ H2) as (_ & Hr2 & _).
      pose proof (firing_tick _ _ _ H2) as H3. destruct Hper as [_ He]. unfold SECURE_MINTIMER_ISR_BACKOFF in *.
      pose proof (low_range (reads (hw (tick k1)))) as Hlo.
      rewrite (proj2 (Z.ltb_ge _ _)) by lia. rewrite mask_mod. rewrite (wrapu_id 32) by (unfold in_u; lia).
      rewrite Z.mod_small by lia. rewrite (proj2 (Z.ltb_ge _ _)) by lia. exact H3.
    + assert (y ∈ far) as Hy by (rewrite <- Ef; by left). destruct (Hfar y) as (lo & Et & Hlo & Hlt); [rewrite <- Ef in Hy; exact Hy|].
      eapply runs_step; [exact (firing_target [] _ _ y H2 Hy)|]. eapply runs_step; [exact (firing_now _ _ _ H2)|].
      destruct (firing_soon _ _ _ H2) as (_ & Hr2 & ->). pose proof (firing_tick _ _ _ H2) as H3.
      assert (u32 (tg y - SECURE_MINTIMER_OVERHEAD) = tg y - SECURE_MINTIMER_OVERHEAD) as ->.
      { unfold SECURE_MINTIMER_OVERHEAD, SECURE_MINTIMER_ISR_BACKOFF in *. apply wrapu_id. unfold in_u. destruct Hhigh as [Hh Hm].
        unfold in_u in Hh. pose proof (Z.div_mod high (2 ^ 16) ltac:(lia)) as Hd. rewrite Hm in Hd. pose proof (low_range r1). nia. }
      unfold SECURE_MINTIMER_OVERHEAD, SECURE_MINTIMER_ISR_BACKOFF in *.
      rewrite (proj2 (Z.ltb_ge _ _)) by lia. exact H3.
  - destruct H1 as (k0 & -> & Hne & Hlow & H0). 
    pose proof (firing_tick _ _ _ H0) as H1. unfold cost in H1. rewrite Nat.add_comm in H1. cbn [Nat.add] in H1.
    eapply runs_step; [apply lltimer_now_ok|]. rewrite (firing_low _ _ _ H1). destruct (firing_soon _ _ _ H1) as (-> & Hr & _).
    unfold SECURE_MINTIMER_ISR_BACKOFF at 1. rewrite (proj2 (Z.ltb_ge _ _)) by lia.
    pose proof (firing_tick _ _ _ H1) as H2. eapply runs_step; [exact (firing_head _ _ _ H2)|].
    destruct due' as [|x due']; [done|]. cbn [app head].
    eapply runs_step; [exact (firing_target _ _ _ x H2 ltac:(by left))|]. eapply runs_step; [exact (firing_now _ _ _ H2)|].
    destruct (firing_soon _ _ _ H2) as (_ & Hr2 & ->).
    destruct (Hdue x (f_sub _ _ _ H0 x ltac:(by left))) as (lo & Et & Hlo & Hnear & Hov).
    assert (u32 (tg x - SECURE_MINTIMER_OVERHEAD) = tg x - SECURE_MINTIMER_OVERHEAD) as ->.
    { unfold SECURE_MINTIMER_OVERHEAD, SECURE_MINTIMER_ISR_BACKOFF in *. apply wrapu_id. unfold in_u. destruct Hhigh as [Hh Hm].
      unfold in_u in Hh. pose proof (Z.div_mod high (2 ^ 16) ltac:(lia)) as Hd. rewrite Hm in Hd. pose proof (low_range rl). nia. }
    unfold SECURE_MINTIMER_OVERHEAD, SECURE_MINTIMER_ISR_BACKOFF in *.
    rewrite (proj2 (Z.ltb_lt _ _)) by lia. split; [done|]. split; [|cbn in *; lia]. exists (x :: due').
    eapply firing_later; [exact H0|eapply later_trans; [apply later_tick|eapply later_trans; apply later_tick]|].
    apply left_three; [apply H0|exact Hlow].
Qed.

(** ** The handler *)

Lemma callback_ends k :
  firing due0 (Datatypes.S (Datatypes.S (cost due0))) k -> reads (hw k) = r0 -> due0 ++ far <> [] ->
  runs false (_timer_callback fuel) k (fun _ k' => inv m v a True k' /\
    (forall x, x ∈ due0 -> woken_by x k') /\ chain (t_next (tmr k')) HTimer far /\
    chain (t_next (tmr k')) HOverflow ovf /\ chain (t_next (tmr k')) HLong lng /\
    (forall x, x ∉ due0 -> target_of (tmr k') x = tg x /\ long_of (tmr k') x = lg x)).
Proof.
  intros Hk Hr0 Hne. unfold _timer_callback.
  set (k1 := with_tmr (with_in_handler 1 (tmr k)) k). apply (runs_step _ _ _ tt k1); [done|].
  assert (firing due0 (Datatypes.S (Datatypes.S (cost due0))) k1) as H1.
  { destruct (in_handler_inv m v a True 1 k (f_inv _ _ _ Hk)) as (k1' & [= <-] & Hi1). destruct Hk as [Hi Hc Hl Hh (ls & Hr & Hw & El & Eo) Ht Hkp Hs Hwk].
    split; [exact Hi1|done|done|done| |done|done|done|done]. exists ls. split; [|done]. by apply (rep_fields (tmr k)). }
  eapply runs_step; [exact (firing_head _ _ _ H1)|]. destruct (head (due0 ++ far)) as [q|] eqn:Eq; [|by destruct (due0 ++ far)].
  eapply runs_step; [apply lltimer_now_ok|]. rewrite (firing_low _ _ _ H1). change (reads (hw k1)) with (reads (hw k)). rewrite Hr0.
  apply (runs_bind _ _ _ (fun _ k' => firing [] 0 k')).
  { apply (runs_loop (fun reference k' => reference = low r0 /\ exists due', firing due' (Datatypes.S (cost due')) k')
      (fun _ k' => (r1 - reads (hw k'))%nat)).
    - intros reference k2 [-> [due H2]]. destruct (left_bound _ _ (f_left _ _ _ H2)) as [_ Hb].
      eapply runs_mono; [exact (pass_ends due k2 H2)|]. intros [reference|next] k3 H3; [|exact H3].
      destruct H3 as (-> & Hd & Hlt). split; [by split|lia].
    - split; [done|]. exists due0. by apply firing_tick.
    - cbn. lia. }
  intros next k2 H2. set (k3 := with_tmr (with_in_handler 0 (tmr k2)) k2). apply (runs_step _ _ _ tt k3); [done|].
  destruct (in_handler_inv m v a True 0 k2 (f_inv _ _ _ H2)) as (k3' & [= <-] & Hi3). fold k3 in Hi3.
  pose proof Hi3 as (_ & _ & [_ _ [Hwf3 _]]). destruct (lltimer_set_ok next k3 Hwf3) as [E4 _].
  destruct (rearm_inv m v a True next k3 Hi3) as (k4 & E4' & Hi4). replace k4 with (with_hw (rearm next k3) k3) in * by congruence.
  eapply runs_step; [exact E4|]. pose proof Hi4 as (_ & _ & [_ _ [Hw Hcb]]).
  split; [by apply (inv_hw _ _ _ _ (with_hw (rearm next k3) k3))|]. split.
  - intros x Hx. destruct (f_woken _ _ _ H2 x Hx) as [Hin|Hwk]; [by apply not_elem_of_nil in Hin|exact Hwk].
  - destruct (f_lists _ _ _ H2) as (ls & Hr & _ & El & Eo). destruct head_in_heads as (Hh & _).
    destruct (rep_list _ _ _ Hr Hh) as (Hch & _). rewrite El in Hch. destruct Eo as [Eo1 Eo2].
    destruct head_in_heads as (_ & HhO & HhL). destruct (rep_list _ _ _ Hr HhO) as (HcO & _). destruct (rep_list _ _ _ Hr HhL) as (HcL & _).
    rewrite Eo1 in HcO. rewrite Eo2 in HcL. split; [exact Hch|]. split; [exact HcO|]. split; [exact HcL|]. exact (f_keep _ _ _ H2).
Qed.
End wakeup.
