(* ===== verification/System.v ===== *)
(** * The running system

    The system from boot on: the state in which the main thread starts
    satisfies the invariants of Kernel and Timed; in every state that calls,
    sleeps and timer interrupts lead to, the mutex has one holder, and the
    operations fault only where [timed_kernel_safe] says so.  Waking a
    sleeping thread while its timer is set is outside these theorems, and an
    example ([early_wake_breaks_mutex]) shows why.  A last one shows a sleep
    that never ends ([sleep_lost_at_wrap]). *)

From stdpp Require Import sorting relations.
From S2P Require Import Prelude Safe Clist ClistSpec ListInsert KState RunQueue TimerHw Mintimer TimerLists TimerPeriod TimerProps.
From S2P Require Import Div Sched SchedProps Cpu TimerApi Thread ThreadProps Mutex MutexProps Boot Kernel Handler Timed Wakeup.

(** ** From boot *)

(** The timers before the first one is set: every list is empty, and every
    slot is there. *)
Definition timers_empty (t : timers_t) : Prop :=
  (forall hd, hd ∈ heads -> t_next t !! hd = Some None) /\ slots_ok t.

Lemma empty_rep b t : (forall hd, hd ∈ heads -> t_next t !! hd = Some None) -> timers_repb b t (fun _ => []).
Proof.
  intros Hn. split; apply Forall_forall; intros hd Hh.
  - split; [|split; [by constructor|by constructor]]. split; [apply NoDup_singleton|]. by apply Hn.
  - apply Forall_forall. intros hd' _. constructor.
Qed.

(** Starting the timers leaves them empty. *)
Lemma init_timers k k' s :
  timers_empty (tmr k) -> tmr k' = sched_timer_set (tmr k) -> hw_wf (hw k') -> isr_cb (hw k') = true ->
  timers_ok (with_sch s k').
Proof.
  intros [Hn Hsl] Et Hw Hcb. split; [|split; intros i Hi|by split]; change (tmr (with_sch s k')) with (tmr k'); rewrite Et.
  - exists (fun _ => []). split; [|intros hd n _ Hin; by apply not_elem_of_nil in Hin]. apply empty_rep.
    intros hd Hh. cbn. rewrite lookup_insert_ne; [by apply Hn|]. intros <-.
    unfold heads in Hh. rewrite !elem_of_cons, elem_of_nil in Hh. by destruct Hh as [|[|[|]]].
  - destruct (proj1 Hsl i Hi) as (H1 & H2 & H3 & H4 & H5). split; [done|]. cbn. by rewrite !lookup_insert_ne by done.
  - by apply (proj2 Hsl).
Qed.

(** C9 [kernel_init] makes the idle and the main thread, starts the scheduler
    and lets it yield and switch, but that yield reads the priority of the
    active thread through a null pointer, and so has no defined result.  With
    this yield left out (it does nothing else while no thread is active,
    unless the value it reads happens to be the priority of periodic threads)
    the main thread is resumed, and the state then satisfies the invariants
    on which the properties of the running system rest; every mutex of the
    application is free. *)
Theorem boot_starts_system k fuel c im mm ms m :
  sch k = sched_zero ms -> image_ok im -> hw_wf (hw k) -> m ∈ ms -> timers_empty (tmr k) ->
  is_Some (t_thread (tmr k) !! TSched) -> is_Some (t_next (tmr k) !! TSched) -> (17 <= fuel)%nat ->
  kernel_init fuel c im mm k = Err NullDeref /\
  exists v k2, (do! create_threads fuel c im mm; do! scheduler_init (c_entry c); thread_yield_higher_internal fuel false) k
      = Ret (ResumeThread v) k2 /\
    sched_active_thread (sch k2) = Some 2 /\ kernel_ok m k2 None /\ system_ok timed m k2 None.
Proof.
  intros Hz Him Hwf Hin Hemp H1 H2 Hf.
  destruct (create_threads_ok k fuel c im mm ms Hz Him) as (s & m' & E & Hr & R1 & R2 & Ha & Hi & Hfree & Hm).
  destruct (first_switch k s m' fuel (c_entry c) _ _ Hr R2 Ha Hi Hwf H1 H2 Hf) as (k1 & s' & E1 & Hq & E2 & Hsw & Hpid).
  destruct (scheduler_init_ok (with_sch s k) (c_entry c) Hi Hwf H1 H2) as (k1' & E1' & _ & _ & Et & Hwf1 & Hcb).
  replace k1' with k1 in * by congruence.
  split; [unfold kernel_init; rewrite (bind_ret _ _ _ _ _ E); by apply bind_err, boot_call_null|].
  pose proof (boot_core s m' _ _ _ ms m Hr R1 R2 Hfree Hm Hin Ha) as Hc.
  assert (core m (with_init_done (c_entry c) s) None boot_queues) as Hc1.
  { apply (core_evolves m s _ None boot_queues boot_queues []);
      [done|by apply evolves_same|done|apply frame_refl|set_solver..|exact (core_active _ _ _ _ Hc)]. }
  assert (exists t, aget (sched_threads s') 2 = Some t /\ is_sm t = false) as (t & Ht & Hsm).
  { destruct (sw_new _ _ _ _ _ Hsw) as (w & Hw' & _ & Hw & _). destruct R2 as (t2 & Ht2 & _ & _ & _ & _ & Hsm & _).
    change (aget (sched_threads s) 2 = Some w) in Hw'. replace w with t2 in * by congruence.
    eexists. split; [exact Hw|]. by destruct (decide _). }
  pose proof (restore_ok (with_sch s' k1) 2 t (sw_active _ _ _ _ _ Hsw) Ht) as Erest. unfold resume_of in Erest. rewrite Hsm in Erest.
  eexists _, _. split.
  { rewrite (bind_ret _ _ _ _ _ E), (bind_ret _ _ _ _ _ E1). unfold thread_yield_higher_internal. cbn [when].
    rewrite (bind_ret (ret tt) _ _ _ _ eq_refl), (bind_ret _ _ _ _ _ E2). exact Erest. }
  split; [apply Hsw|].
  assert (exists Q, core m s' None Q /\ active_head Q s') as Hs.
  { exists boot_queues. split.
    - destruct (sw_rest _ _ _ _ _ Hsw) as (Eq & _).
      eapply (core_evolves m _ s' None boot_queues boot_queues []); [exact Hc1| |apply Hsw|by rewrite Eq|set_solver..|].
      { eapply switched_evolves; [apply Hc1|exact boot_urgent|exact Hsw]. }
      intros y. rewrite (sw_active _ _ _ _ _ Hsw). intros [= <-]. done.
    - destruct (runnable_member _ _ _ _ (sw_rep _ _ _ _ _ Hsw) boot_urgent) as (u & Hu & Hon & Hp).
      exists 2, u. split; [apply Hsw|]. split; [done|]. split; [done|]. by rewrite Hp. }
  split; [by split|]. split; [exact Hs|]. apply (resumed_timers k1). by apply (init_timers k).
Qed.

(** ** Calls, sleeps and interrupts *)

Section system.
Context (m : Z) (fuel : nat) (Hfuel : (34 <= fuel)%nat).

(** C1 Mutual exclusion under timer interrupts, for any sequence of these calls:
    yields and switches, sleeps with and without a timer, waking, creation
    with a priority of the table, locking, trying to lock and unlocking one
    mutex by its holder, the end of a thread, and timer interrupts at any time
    between calls.  At most one thread holds the mutex, and none does exactly
    when its word is null.  The idle thread (pid 1) is taken neither to sleep,
    to call [mutex_lock] nor to end, and a thread is woken only when its
    timer is not queued.  Without the last condition the property is false:
    [thread_wakeup] leaves the timer of the woken thread set, and when it
    fires the thread goes on behind a [mutex_lock] that it waits in
    ([early_wake_breaks_mutex]). *)
Theorem timed_mutual_exclusion k H k' H' :
  system_ok timed m k None -> H = ∅ -> rtc (tstep m fuel) (k, H) (k', H') ->
  (forall i j, i ∈ H' -> j ∈ H' -> i = j) /\
  (H' = ∅ <-> rq (sch k') !! NMutex m = Some None).
Proof.
  intros Hk -> Hs. assert (sys_ok timed m (k', H')) as Hok.
  { apply (timed_reachable m fuel Hfuel (k, ∅)); [by exists None|exact Hs]. }
  exact (sys_exclusive timed m fuel Hfuel (timed_laws m fuel Hfuel) _ _ Hok).
Qed.

(** Waking any thread returns, whatever its timer. *)
Lemma wakeup_returns k v Q pid : core m (sch k) v Q -> exists r k', thread_wakeup pid k = Ret r k'.
Proof.
  intros Hc. destruct (thread_wakeup_only_sleeping k Q pid (core_rep _ _ _ _ Hc)) as [Hno Hyes].
  destruct (decide (1 <= pid <= 32)) as [Hp|Hp]; [|by rewrite Hno; eauto].
  destruct (Hyes Hp) as (t & Ht & Hn & Hy). destruct (decide (status t = STATUS_SLEEPING)) as [Hs|Hs]; [|by rewrite Hn; eauto].
  destruct (Hy Hs) as (s' & E & _); [by apply (core_tame _ _ _ _ Hc pid t Ht)|eauto].
Qed.

(** C2 What may fault in the running system, and what may not.  In every state
    that the calls of the previous property lead to, the active thread is the
    first of its run queue and the timer lists are intact, with each queued
    timer that of a thread asleep.  From there, waking any thread, creating
    one, switching, trying to lock and unlocking return.  Yielding, and unless
    the idle thread does it sleeping and locking, do not fault, nor does a
    timer interrupt: they return or wait in a loop for the counter (that the
    interrupt ends is another property).  Three operations do fault, when a
    thread other than the idle one runs: the timed sleep of pid 15, which has
    no timer; the end of a thread with no timer interrupt pending (with one
    pending it does not); and an access violation with the timer's overflow
    flag clear.  The latter two read through the null pointer to the active
    thread. *)
Theorem timed_kernel_safe k H k' H' c :
  system_ok timed m k None -> H = ∅ -> rtc (tstep m fuel) (k, H) (k', H') ->
  (exists Q ls, rq_rep (sch k') Q /\ active_head Q (sch k') /\
     timers_repb false (tmr k') ls /\ all_wait (sch k') (tmr k') ls) /\
  safe (thread_yield fuel c) k' (fun _ _ => True) /\
  (forall caller top r1 sr ssa, caller <> CALLER_VIOLATION ->
     safe (__sm_sancus_sm_timer_isr_func fuel caller top r1 sr ssa) k' (fun _ _ => True)) /\
  (exists r k2, mutex_trylock fuel c (NMutex m) k' = Ret r k2) /\
  (exists k2, mutex_unlock fuel (NMutex m) k' = Ret tt k2) /\
  (forall exit stack size prio flags fn arg mm, 0 <= prio < SCHED_PRIO_LEVELS ->
     exists r k2, thread_create fuel c exit stack size prio flags fn arg mm k' = Ret r k2) /\
  (forall prio, exists r k2, sched_switch fuel c prio k' = Ret r k2) /\
  (forall pid, exists r k2, thread_wakeup pid k' = Ret r k2) /\
  (sched_active_thread (sch k') <> Some 1 ->
     safe (thread_sleep fuel c 0) k' (fun _ _ => True) /\
     safe (mutex_lock fuel c (NMutex m)) k' (fun _ _ => True) /\
     (forall us, in_u 32 us ->
        if decide (sched_active_thread (sch k') = Some 15) then usleep fuel c us k' = Err BadAddr
        else safe (usleep fuel c us) k' (fun _ _ => True)) /\
     (~ quiet (hw k') -> safe (sched_task_exit fuel c) k' (fun _ _ => True)) /\
     (sched_active_thread (sch k') <> Some KERNEL_PID_UNDEF ->
        (quiet (hw k') -> sched_task_exit fuel c k' = Err NullDeref) /\
        (Z.land (CTL (hw k')) TIMER_CTL_IFG = 0 -> forall top r1 sr ssa,
           __sm_sancus_sm_timer_isr_func fuel CALLER_VIOLATION top r1 sr ssa k' = Err NullDeref))).
Proof.
  intros Hk -> Hs. pose proof (timed_laws m fuel Hfuel) as HT.
  destruct (timed_reachable m fuel Hfuel (k, ∅) (k', H')) as (v & Hk' & _); [by exists None|done|]. cbn [fst snd] in *.
  pose proof Hk' as [(Q & Hc & Ha) [(ls & Hr & Hw) _ _]]. pose proof Ha as (i & t & Hi & _).
  split; [exists Q, ls; by split; [apply Hc|]|].
  split; [by eapply runs_mono; [apply (yield_call timed m fuel HT k' v c Hk')|]|].
  split; [intros; by eapply runs_mono; [apply (interrupt_safe m fuel Hfuel k' v)|]|].
  split; [destruct (trylock_call timed m fuel HT k' v c Hk') as (r & k2 & v' & E & _); eauto|].
  split; [destruct (unlock_call timed m fuel HT k' v Hk') as (k2 & v' & E & _); eauto|].
  split.
  { intros exit stack size prio flags fn arg mm Hp.
    destruct (create_call timed m fuel Hfuel HT k' v c exit stack size prio flags fn arg mm Hk' Hp) as (r & k2 & E & _); eauto. }
  split; [intros prio; destruct (switch_call timed m fuel Hfuel HT k' v c prio Hk') as (r & k2 & E & _); eauto|].
  split; [intros pid; by apply (wakeup_returns k' v Q)|].
  intros H1. split; [by eapply runs_mono; [apply (sleep_call timed m fuel HT k' v c Hk' H1)|]|].
  split; [by eapply runs_mono; [apply (lock_call timed m fuel Hfuel HT k' v c i Hk' Hi ltac:(congruence))|]|].
  destruct (exit_ends m fuel Hfuel k' v c Hk' H1) as (_ & Hpend & Hnull).
  pose proof (pending_quiet (hw k') (proj1 (tk_hw _ (proj2 Hk')))) as Hpq. split; [|split; [|split]].
  - intros us Hus. destruct (decide _) as [H15|H15]; [by apply (usleep_15 m fuel Hfuel k' v)|].
    by eapply runs_mono; [apply (usleep_safe m fuel Hfuel k' v c i us Hk' Hi); congruence|].
  - intros Hnq. destruct (pending (hw k')) eqn:Hp; [by eapply runs_mono; [apply Hpend|]|]. by destruct Hnq; apply Hpq.
  - intros Hq. apply Hnull; [by apply Hpq|done].
  - intros Hifg top r1 sr ssa. by apply (violation_ends m fuel Hfuel k' v top r1 sr ssa Hk' H1).
Qed.
End system.

(** ** The interrupt *)


(** ** A run

    Threads 2 and 3 of priority 7 with all timers clear.  The counter moves
    by 700 from one reading to the next. *)

Definition empty_tmr : timers_t :=
  Timers (list_to_map ((fun n => (n, None)) <$> heads ++ demo_slots))
    (list_to_map ((fun n => (n, 0)) <$> demo_slots)) (list_to_map ((fun n => (n, 0)) <$> demo_slots))
    (list_to_map ((fun n => (n, None)) <$> demo_slots)) 0 0 0.

Definition demo_timed : kst :=
  K (sch demo_sys) empty_tmr (Hw (fun n => 1000 + 700 * Z.of_nat n) 0 0x02A0 [0; 0; 0] [0xFFFF; 0; 0] true 0 0).

Lemma empty_slots i : ~ 0 <= i < 15 -> t_target empty_tmr !! TSlot i = None.
Proof.
  intros Hi. unfold empty_tmr. cbn [t_target]. apply not_elem_of_list_to_map_1. rewrite <- list_fmap_compose.
  intros (n & E & Hn)%list_elem_of_fmap. cbn in E. subst n. unfold demo_slots in Hn.
  apply elem_of_cons in Hn as [?|(j & [= ->] & Hj)%list_elem_of_fmap]; [done|]. apply elem_of_seqZ in Hj. lia.
Qed.

Lemma empty_tmr_ok : timers_empty empty_tmr.
Proof.
  split; [|split].
  - apply Forall_forall. apply (bool_decide_eq_true_1 _). vm_compute. reflexivity.
  - intros i Hi. assert (Forall (fun i => is_timer empty_tmr (TSlot i)) (seqZ 0 15)) as HF by concrete.
    rewrite Forall_forall in HF. apply HF, elem_of_seqZ. lia.
  - intros i Hi. by apply empty_slots.
Qed.

Lemma demo_timed_ok : system_ok timed 0 demo_timed None.
Proof.
  split; [exact (proj1 demo_sys_ok)|]. destruct empty_tmr_ok as [Hn Hsl]. split; [|exact Hsl|by repeat split].
  exists (fun _ => []). split; [exact (empty_rep false empty_tmr Hn)|]. intros hd n _ Hin. by apply not_elem_of_nil in Hin.
Qed.

(** Thread 2 sleeps, 3 locks, the timer interrupt wakes 2, 3 yields and 2
    blocks. *)
Definition demo_isr : M kst resumed := __sm_sancus_sm_timer_isr_func 34 1 0x8000 0x8100 8 0.
Definition timed1 : kst := after (usleep 34 demo_call 2000) demo_timed.
Definition timed2 : kst := after (mutex_lock 34 demo_call (NMutex 0)) timed1.
Definition timed3 : kst := after demo_isr timed2.
Definition timed4 : kst := after (thread_yield 34 demo_call) timed3.
Definition timed5 : kst := after (mutex_lock 34 demo_call (NMutex 0)) timed4.

Lemma timed_trace : rtc (tstep 0 34) (demo_timed, ∅) (timed5, {[3]} ∪ ∅).
Proof.
  destruct (after_ok (usleep 34 demo_call 2000) demo_timed (fun _ => true)) as (r1 & E1 & _); [vm_compute; reflexivity|].
  destruct (after_ok (mutex_lock 34 demo_call (NMutex 0)) timed1 (fun r => bool_decide (r = None))) as (r2 & E2 & R2);
    [vm_compute; reflexivity|].
  destruct (after_ok demo_isr timed2 (fun _ => true)) as (r3 & E3 & _); [vm_compute; reflexivity|].
  destruct (after_ok (thread_yield 34 demo_call) timed3 (fun _ => true)) as (r4 & E4 & _); [vm_compute; reflexivity|].
  destruct (after_ok (mutex_lock 34 demo_call (NMutex 0)) timed4 (fun r => bool_decide (r <> None))) as (r5 & E5 & R5);
    [vm_compute; reflexivity|].
  apply bool_decide_eq_true in R2, R5. subst r2. destruct r5 as [r5|]; [|destruct (R5 eq_refl)].
  eapply rtc_l; [exact (t_usleep 0 34 demo_timed ∅ demo_call 2 2000 r1 timed1 eq_refl ltac:(done) ltac:(unfold in_u; lia) E1)|].
  eapply rtc_l; [refine (t_call 0 34 _ _ (step_lock timed 0 34 timed1 ∅ demo_call 3 None timed2 _ ltac:(done) E2)); vm_compute; reflexivity|].
  eapply rtc_l; [exact (t_interrupt 0 34 timed2 _ 1 0x8000 0x8100 8 0 r3 timed3 ltac:(intros E; exfalso; discriminate E) E3)|].
  eapply rtc_l; [exact (t_call 0 34 _ _ (step_yield timed 0 34 timed3 _ demo_call r4 timed4 E4))|].
  eapply rtc_l; [|apply rtc_refl].
  refine (t_call 0 34 _ _ (step_lock timed 0 34 timed4 ({[3]} ∪ ∅) demo_call 2 (Some r5) timed5 _ ltac:(done) E5)).
  vm_compute. reflexivity.
Qed.

Definition early1 : kst := after (do! usleep 34 demo_call 2000; thread_wakeup 2) demo_timed.
Definition early2 : kst := after (mutex_lock 34 demo_call (NMutex 0)) early1.
Definition early3 : kst := after (do! thread_yield 34 demo_call; mutex_lock 34 demo_call (NMutex 0)) early2.

(** [thread_wakeup] leaves the timer of the woken thread set.  Thread 2
    sleeps, 3 wakes it and takes the mutex, and 2 blocks for the mutex: then
    its old timer fires and 2 goes on behind [mutex_lock], although 3 never
    unlocked and 2 still is in the mutex's queue. *)
Theorem early_wake_breaks_mutex : exists k1 k2 r2 k3 k' r4,
  (do! usleep 34 demo_call 2000; thread_wakeup 2) demo_timed = Ret 1 k1 /\
  mutex_lock 34 demo_call (NMutex 0) k1 = Ret None k2 /\ sched_active_thread (sch k2) = Some 3 /\
  (do! thread_yield 34 demo_call; mutex_lock 34 demo_call (NMutex 0)) k2 = Ret (Some r2) k3 /\
  (do! demo_isr; thread_yield 34 demo_call) k3 = Ret r4 k' /\
  sched_active_thread (sch k') = Some 2 /\ rq (sch k') !! NMutex 0 = Some (Some (NThread 2)).
Proof.
  destruct (after_ok (do! usleep 34 demo_call 2000; thread_wakeup 2) demo_timed (Z.eqb 1)) as (r1 & E1 & <-%Z.eqb_eq);
    [vm_compute; reflexivity|].
  destruct (after_ok (mutex_lock 34 demo_call (NMutex 0)) early1 (fun r => bool_decide (r = None))) as (r2 & E2 & ->%bool_decide_eq_true);
    [vm_compute; reflexivity|].
  destruct (after_ok (do! thread_yield 34 demo_call; mutex_lock 34 demo_call (NMutex 0)) early2 (fun r => bool_decide (r <> None)))
    as (r3 & E3 & R3%bool_decide_eq_true); [vm_compute; reflexivity|]. destruct r3 as [r3|]; [|destruct (R3 eq_refl)].
  destruct (after_ok (do! demo_isr; thread_yield 34 demo_call) early3 (fun _ => true)) as (r4 & E4 & _); [vm_compute; reflexivity|].
  exists early1, early2, r3, early3, (after (do! demo_isr; thread_yield 34 demo_call) early3), r4.
  split; [exact E1|]. split; [exact E2|]. split; [vm_compute; reflexivity|]. split; [exact E3|]. split; [exact E4|].
  split; vm_compute; reflexivity.
Qed.

(** A counter that reads 65200 when the interrupt of a timer for 65500 comes,
    and moves by some ninety ticks from one reading to the next. *)
Definition late_clock (n : nat) : Z :=
  match n with
  | 0%nat => 1000 | 1%nat => 1010 | 2%nat => 65200 | 3%nat => 65290 | 4%nat => 65400
  | _ => 65536 + 90 * (Z.of_nat n - 4)
  end.
Definition late_timed : kst := with_hw (Hw late_clock 0 0x02A0 [0; 0; 0] [0xFFFF; 0; 0] true 0 0) demo_timed.
Definition lost1 : kst := after (usleep 34 demo_call 64500) late_timed.
Definition lost2 : kst := after demo_isr lost1.

(** A sleep that never ends.  Thread 2 sleeps until 65500 and its timer is the
    only one of the current list; the interrupt comes at 65200, when its start
    is reached.  The handler finds 210 ticks left, which is too early to fire,
    sees the end of the period near, and begins the next one with
    [_next_period], which overwrites the current list: the timer is in no list
    any more, although its target is still set, and the thread stays asleep. *)
Theorem sleep_lost_at_wrap : exists r1 k1 r2 k2 u,
  usleep 34 demo_call 64500 late_timed = Ret r1 k1 /\ chain (t_next (tmr k1)) HTimer [TSlot 2] /\
  demo_isr k1 = Ret r2 k2 /\ Forall (fun hd => t_next (tmr k2) !! hd = Some None) heads /\
  target_of (tmr k2) (TSlot 2) = 65500 /\
  aget (sched_threads (sch k2)) 2 = Some u /\ status u = STATUS_SLEEPING.
Proof.
  destruct (after_ok (usleep 34 demo_call 64500) late_timed (fun _ => true)) as (r1 & E1 & _); [vm_compute; reflexivity|].
  destruct (after_ok demo_isr lost1 (fun _ => true)) as (r2 & E2 & _); [vm_compute; reflexivity|].
  destruct (aget_some (sched_threads (sch lost2)) 2) as [u Hu]; [split; [discriminate|vm_compute; reflexivity]|].
  exists r1, lost1, r2, lost2, u. split; [exact E1|]. split; [concrete|]. split; [exact E2|]. split; [concrete|].
  split; [vm_compute; reflexivity|]. split; [exact Hu|]. assert (status <$> aget (sched_threads (sch lost2)) 2 = Some STATUS_SLEEPING) as H
    by (vm_compute; reflexivity). rewrite Hu in H. by injection H.
Qed.

(** ** Witnesses *)

Lemma timed_mutual_exclusion_witness :
  (forall i j : Z, i ∈ ({[3]} ∪ ∅ : gset Z) -> j ∈ ({[3]} ∪ ∅ : gset Z) -> i = j) /\
  (({[3]} ∪ ∅ : gset Z) = ∅ <-> rq (sch timed5) !! NMutex 0 = Some None).
Proof. exact (timed_mutual_exclusion 0 34 ltac:(lia) demo_timed ∅ timed5 _ demo_timed_ok eq_refl timed_trace). Defined.

Lemma timed_kernel_safe_witness :
  (exists Q ls, rq_rep (sch timed5) Q /\ active_head Q (sch timed5) /\
     timers_repb false (tmr timed5) ls /\ all_wait (sch timed5) (tmr timed5) ls) /\
  safe (thread_yield 34 demo_call) timed5 (fun _ _ => True) /\
  (exists k2, mutex_unlock 34 (NMutex 0) timed5 = Ret tt k2).
Proof.
  destruct (timed_kernel_safe 0 34 ltac:(lia) demo_timed ∅ timed5 _ demo_call demo_timed_ok eq_refl timed_trace)
    as (H1 & H2 & _ & _ & H3 & _).
  split; [exact H1|]. split; [exact H2|exact H3].
Defined.

Lemma boot_starts_system_witness :
  kernel_init 34 demo_call demo_image ∅ (K (sched_zero [0]) empty_tmr demo_hw) = Err NullDeref /\ exists v k2,
  (do! create_threads 34 demo_call demo_image ∅; do! scheduler_init 0; thread_yield_higher_internal 34 false)
    (K (sched_zero [0]) empty_tmr demo_hw) = Ret (ResumeThread v) k2 /\
  sched_active_thread (sch k2) = Some 2 /\ kernel_ok 0 k2 None /\ system_ok timed 0 k2 None.
Proof.
  apply (boot_starts_system (K (sched_zero [0]) empty_tmr demo_hw) 34 demo_call demo_image ∅ [0] 0);
    [reflexivity|exact demo_image_ok|by split|by left|exact empty_tmr_ok|by eexists|by eexists|lia].
Defined.

(** Thread 2 sleeps 1800 ticks; the interrupt comes at reading 2. *)
Definition asleep : kst := after (usleep 34 demo_call 1800) demo_timed.

Lemma asleep_ok : system_ok timed 0 asleep None.
Proof.
  destruct (after_ok (usleep 34 demo_call 1800) demo_timed (fun _ => true)) as (r & E & _); [vm_compute; reflexivity|].
  exact (runs_inv _ _ _ _ _ (usleep_safe 0 34 ltac:(lia) demo_timed None demo_call 2 1800 demo_timed_ok eq_refl ltac:(done) ltac:(done) ltac:(unfold in_u; lia)) E).
Qed.

Lemma asleep_period : in_period (clock (hw asleep)) 2 11.
Proof.
  assert (forall i, (i <= 11)%nat -> low (clock (hw asleep)) i = 1000 + 700 * Z.of_nat i) as Hl.
  { intros i Hi. unfold low. assert (clock (hw asleep) i = 1000 + 700 * Z.of_nat i) as -> by (vm_compute (hw asleep); reflexivity).
    apply wrapu_id. unfold in_u. lia. }
  split; [intros i j Hi Hj|]; rewrite !Hl by lia; [lia|]. unfold SECURE_MINTIMER_ISR_BACKOFF. lia.
Qed.

